(* ===== verification/_CoqProject ===== *)
-Q . S2P
Prelude.v
Rational.v
Float64.v
Number.v
Grammar.v
Config.v
Assets.v
Geometry.v
State.v
Physics.v
Pipes.v
Render.v
Update.v
Ends.v
Landing.v
Loop.v
Persist.v
Typing.v
Resize.v
Bisim.v
Scenarios.v
Spacing.v
DoubleRuns.v
Button.v
