(* ===== verification/Prelude.v ===== *)
(** * Mouth Trap: a verification development for the canvas game

    The repository holds two scripts.  [src/unnamed/part_000] is the game
    "Mouth Trap": a tongue sprite falls under gravity and is flapped upwards
    through gaps in a stream of "teeth" (pipes) that scroll leftwards.
    [src/show-off-project1/script.js] is the start button of the page that
    links to the game.  Both are event-driven JavaScript: all state lives in
    script-level variables, and handlers (key, pointer, animation frame,
    resize, image load and error, timer) run to completion one after the
    other.

    ** How the code is modelled

    Every script-level variable is a field of a record ([State.Game] for
    the game, [Assets.Assets] for the images), every function a Rocq
    function from state to state under the name it has in the script, and
    the browser is an explicit host value ([State.Host]): the canvas size,
    [localStorage] as a [gmap string string], the number of [Math.random()]
    calls made so far (the draws themselves are a function
    [random : nat -> N], a section variable), the animation-frame
    callbacks and the timers that are pending as counters, the images with
    the state of their requests, [showLanding] and the [display] style of
    the two containers.  A [State.World] is a game and a host.  An event is
    a constructor of [Loop.Event]; the event loop is the relation
    [Loop.step], with [Loop.handle] and [Loop.run] as its executable form.

    Drawing is modelled by what it asks of the 2D context: [Render.draw]
    and [Landing.drawLanding] return the list of context calls they make,
    in order, and whether an exception escaped ([Render.Paint]).  An image
    element is loading, available or broken; [complete] is true of a
    broken image and [drawImage] throws on one, as the HTML standard says.
    [Render.exec] interprets the calls on the context state that the
    theorems speak about: alpha, fill style, whether a transform is in
    force, and the stack of [save].  [gameLoop] calls [draw] between
    [update] and [requestAnimationFrame], so an exception of [draw] keeps
    the next frame from being requested; this is part of [Loop.gameLoop].

    JavaScript numbers are IEEE-754 doubles.  The definitions are written
    once, over an interface [JsNumber N] of the operations the code uses
    ([+ - * / < %], [Math.min], [Math.max], [Math.floor], [Math.PI],
    integer literals), in the scope [js_scope].  Decimal literals of the
    source are written as quotients of integers ([0.45] is
    [ofZ 9 / ofZ 20]): a correctly rounded quotient of two exactly
    representable integers is the literal's double.  The interface has
    two instances.  [Float64.F64Num] is binary64 as the Standard Library
    specifies it ([SpecFloat]: precision 53, round to nearest even, signed
    zeros, infinities, NaN); on it the definitions compute what the script
    computes in a browser.  [Rational.QNum] is the exact rationals, the
    program with rounding idealised away.  Theorems are proved at three
    levels: for every instance, when they depend on the control structure
    only; for every instance that satisfies the order laws
    [Prelude.JsOrdered] ([<] is a strict order, [Math.min] and [Math.max]
    return an argument that no argument is below or above, or NaN), which
    both instances do, when they are about clamps and comparisons; and on
    the rationals, up to [Qeq], when they are about magnitudes (distances,
    envelopes, the length of a game).  A bound is stated with the test of
    the code: [x] is not below [y] when [x <? y] is false, which on
    doubles also covers NaN.  Integers that the code only counts with (the
    score, canvas dimensions in pixels, array indices) are [Z] or [nat]; no
    counter of the program can reach 2^53.

    ** Files, in dependency order

    - [Prelude] (this file): the number interface [JsNumber] and its
      notations, the order laws [JsOrdered] with the lemmas on clamps that
      follow from them, the loop combinator [for_down] for
      [for (i = n - 1; i >= 0; i--)] with its loop rules, the relation
      [visits] (which iteration runs on which state), shared tactics, the
      hint databases, and lemmas on lists used as arrays.
    - [Rational]: the instance of [JsNumber] on [Q], the specification of
      its comparison and of JavaScript's remainder with its bounds, the
      morphisms for [Qeq], and the tactic [lraQ] that normalises a goal
      about the instance and calls [lra]; the order laws on [Q].
    - [Float64]: the instance of [JsNumber] on binary64 values;
      [Math.min], [Math.max], [Math.floor], the remainder and the
      conversion of an integer are defined there, the arithmetic and the
      comparison are the Standard Library's; the order laws, NaN included.
    - [Number]: [Number] applied to a string, the conversion that line
      170 applies to the stored best score: a scanner for the numeric
      literals of ECMAScript (white space, sign, digits, fraction,
      exponent, [Infinity], the prefixes [0x], [0o] and [0b]) and the
      number that a literal denotes, exact on the rationals and rounded to
      the nearest double on binary64.
    - [Grammar]: the productions of StringNumericLiteral as relations, and
      the proof that the scanner accepts exactly the strings that the
      grammar derives, with the value the grammar gives them.
    - [Config]: the nine constants of part_000 lines 148-156 and the canvas
      record.
    - [Assets]: the images of lines 73-141, their [onload] and [onerror]
      listeners with the retry of the texture as a JPEG, and the browser
      ending a request.
    - [Geometry]: [rectsOverlap] (lines 243-247), characterised as strict
      interval intersection on both axes.
    - [State]: the pipe record, the game variables (lines 160-174), the
      value of [best] as a number, an infinity or NaN, the host state,
      field setters, the initial state and [resetGame] (lines 181-190).
    - [Physics]: the gravity step and the ceiling and ground clamps of
      [update] (lines 252-265), with the clamp on every ordered instance.
    - [Pipes]: [spawnPipe] (lines 216-238) and the reverse loop over the
      pipes of [update] (lines 268-315): scrolling, removal by [splice],
      scoring with the best-score write to [localStorage], collision.  The
      loop is modelled index by index, as the code runs it, and proved equal
      to a single pass over the list ([pipes_pass]).
    - [Render]: [draw] (lines 325-428) with its five parts, the context
      calls, painting with exceptions, and the context interpreter.
    - [Update]: [update] (lines 249-323) as the composition of physics,
      background scroll, pipe loop and spawn timer; the invariant [tick_ok]
      of the running game and the weaker [page_ok] that survives resizes.
    - [Ends]: the velocity as a measure that bounds the length of a game
      without presses.
    - [Landing]: [drawLanding] (lines 456-529), [startGame] (lines
      532-538), the listeners of the landing canvas (lines 541-545) and
      [waitForImages] (lines 548-563).
    - [Loop]: [flap] (lines 195-211), [gameLoop] (lines 430-436), the input
      handlers (lines 439-453), [resizeCanvas] and the resize listener
      (lines 32-70), the events and the step relation of the whole page,
      what each handler paints and on which canvas, the world the script
      leaves when it has run ([script]: the call of [resizeCanvas] of line
      58, the initial values, the call of [waitForImages] of line 564),
      the invariants of reachable worlds, and the machine Idle, Running,
      GameOver that the page refines.
    - [Persist]: the read of the best score at line 170 with [Number],
      the page loaded from a storage, the order in which the best score
      changes, and the stored texts that disable it.
    - [Typing]: what the untyped variables hold in every reachable world:
      the shape of the pipes in the array, the score as a natural number,
      and the count of draws that accounts for every pipe and point.
    - [Resize]: what a resize during a game leaves stale, and for how
      long.
    - [Bisim]: an equivalence on numbers that the operations respect
      ([JsSetoid]: [Qeq] on the rationals, equality on doubles), lifted to
      pipes, games, worlds and events; every function of the game is a
      morphism, and equivalent worlds are bisimilar.
    - [Scenarios]: the page run on concrete inputs by evaluation.
    - [Spacing]: the distance between the pipes of the array, as an
      invariant of the page that combines the clamp of the frame delta,
      the spawn timer and the scroll speed.
    - [DoubleRuns]: the game evaluated on doubles and on rationals, side
      by side.
    - [Button]: the start button of script.js as a transition system over
      the video element, the body's style, the timers and the location.

    ** What the theorems show

    - Geometry: overlap is symmetric and is exactly strict intersection;
      touching edges do not collide.
    - Assets: the texture is requested at most twice, as PNG and then as
      JPEG; the variables the drawing code tests agree with the images.
    - Numbers: [<] on doubles is a strict order in which NaN is below and
      above nothing; [Math.min] and [Math.max] return one of their
      arguments or NaN; the literals of the source, written as quotients,
      are the doubles the literals denote.
    - Physics: after every tick the tongue is inside [0, groundY], on the
      rationals as an inequality and on every ordered instance as the
      outcome of the two tests; touching the ground ends the game; the
      ceiling stops the tongue without ending it; on canvases lower than
      112 pixels the bounds fail.
    - Pipes: the in-place reverse loop computes the same pipes, score, best
      score, storage and game-over flag as the functional pass, and never
      indexes outside the array; pipes that left the screen are removed and
      only those; each pipe scores once; the score grows by the number of
      pipes newly passed; the best score is the maximum of its old value and
      the score, and storage is written exactly when it grows, unless the
      stored value was NaN or Infinity; spawned gaps lie in the playfield when
      the canvas is at least 360 pixels high, and may not otherwise.
    - Render and Landing: [draw] throws exactly when the strip of teeth or
      the sprite is broken; it is a function of the variables of
      [Render.snapshot], which do not include [backgroundOffset]; the teeth
      are painted as the rectangles the collision test uses, and the lips
      are painted 4 pixels wider and not tested; the tilt is
      within its clamp; a [draw] that returns leaves the context as it
      found it and paints its texts upright; with the pattern the
      background is translucent and nothing clears the canvas; the start
      screen loses its texts when the strip of teeth is broken.
    - Update, Ends and Loop: [update] preserves [tick_ok]; on every
      ordered instance a tick leaves the tongue between ceiling and ground
      line and the spawn timer at or below the interval, whatever the
      numbers were, NaN included; over any number of ticks the best score
      is the maximum of its first value and the score, and the storage is
      written exactly when the score exceeds it; the frame delta is read by
      the spawn timer only; a finished game is frozen until the restart; a game that gets no press is over after
      at most (groundY - mouthVelY) / 0.45 + 1 ticks; a press overrides the
      velocity, and after the end of a game resets it and keeps the best
      score; the frame delta is clamped to 50 ms from above, not from
      below; at most one animation-frame callback is pending, and exactly
      one once the game has started unless an image is broken, in which
      case the first frame is the last; every frame paints the scores and
      the overlay of the phase it produced; [page_ok] holds in every
      world reached from the script, whatever the window and the canvases
      of the document; the containers follow [showLanding], which is
      cleared once; the timer of [waitForImages] stops when an image is
      ready; every step of the page is a step of the three-phase machine.
    - Number and Grammar: the scanner reads a string as the literal that
      the grammar derives from it, and rejects the strings from which the
      grammar derives nothing; white space around a literal does not
      count; [String] of an integer is read as the integer.
    - Persist: [Number] is NaN, an infinity or the value of the literal as
      the grammar says; [Number] reads back what [String] wrote, and in
      every reachable world the storage holds the best score of the game,
      so the next load of the page starts with it; on every ordered
      instance the best score never drops, whatever events occur; a stored
      text that reads as NaN or Infinity stays the best score for good and
      is never overwritten; a storage that reads as a non-negative number
      keeps doing so over any number of visits of the page, and every
      world of every visit satisfies [page_ok].
    - Typing: in every reachable world each pipe has the width
      [PIPE_WIDTH] and a gap that [spawnPipe] drew, the score is a natural
      number, and the score is at most the number of pipes spawned, half
      the number of calls of [Math.random].
    - Resize: after a resize and any number of ticks the array holds the
      pipes from before with the teeth they had, followed by pipes drawn
      for the new canvas, and [mouthX] is what it was; a pipe whose upper
      tooth reaches below the new ground line cannot be passed; a canvas
      that shrinks under the tongue ends the game in the next tick.
    - Spacing: as long as no resize makes the canvas narrower, two pipes
      are at least 72.8 pixels apart, so their teeth never share a column,
      and the array holds at most (width + 150) / 72.8 + 1 pipes, whatever
      the timestamps of the frames; a resize that narrows the canvas can
      put a new pipe on top of an old one, with an opening smaller than
      the smallest gap.
    - Bisim: worlds that differ in the representation of their numbers
      take the same steps to worlds that differ in the same way, and have
      the same host, score, flags and number of pipes.
    - Scenarios: free fall reaches the ground in the 29th tick; a tooth
      over the mouth ends the game; a tooth at x = 0 leaves the array in
      the 31st tick; a press after the end restores the initial state; a
      sprite that fails to load freezes the game; the space bar plays the
      game to its end behind the landing page.
    - DoubleRuns: on doubles a free fall ends in the tick and at the place
      of the rational run, and a session driven by timestamps gets its
      first pipe with the same frame; with a constant delta of 50/3 the
      two instances part at the first pipe, because the timer is exactly
      1400 on the rationals, where the strict test of line 319 is false,
      and 1400.0000000000007 on doubles.
    - Button: a paused video is at its beginning; the page navigates only
      to the game, only half a second or more after it was loaded, faded
      out.

    ** Bounds and fuel

    The pipe loop recurses on the length of the array read before the
    loop, as the code's index does, and the event loop is a relation whose
    executable form recurses on the list of events.  The one definition
    with fuel is [Render.stripes_from], the loop
    [for (x = 0; x < canvas.width; x += 120)]: its fuel is the width, which
    is enough because every iteration adds 120 to [x], and the list it
    returns is characterised without reference to the fuel.  Scenario
    lemmas evaluate up to 62 events on the rational instance by
    [vm_compute], and one visit of [Persist] 152 frames, in the last
    of which a point is scored; rationals are not normalised by the model, so longer
    runs are left to the general theorems.  The runs of [DoubleRuns] take
    up to 88 events on both instances.  Binary64 is [SpecFloat] at
    precision 53 and maximal exponent 1024.

    ** What is assumed of the browser

    An image request that is started by the script is pending when the
    script has run, and ends once, with a load or an error event; the
    decoding of a loaded image does not fail later.  Timers and animation
    frames fire only when requested.  The landing canvas receives no click
    once its container has [display: none].  The two canvases always have
    the same size, the one [resizeCanvas] gives them, so one
    [Config.Canvas] stands for both.

    ** What is not modelled

    The bitmap that the context calls produce, fonts and text metrics, and
    the documents and style sheets that load the scripts.  The double
    instance computes with IEEE rounding, infinities and NaN, and the
    theorems of the first two levels hold of it; no bound on the rounding
    error of a run is proved, so the theorems about magnitudes are
    theorems about the rational instance, and [DoubleRuns] shows by
    example where the two agree and where a tie separates them.  On the
    rationals NaN and the infinities are modelled where the code can
    produce them from storage ([State.Best]), and the remainder by zero, NaN in JavaScript, is
    excluded by the side condition of a positive canvas width.  The score
    is an integer of the model; on doubles it would stop growing at 2^53.
    Strings are strings of code units below 256: of the white space that
    [Number] skips, the characters beyond Latin-1 do not occur.  The
    double that [Number] makes of a literal is computed as the Standard
    Library's division computes a quotient, with one rounding, and
    checked on literals whose doubles are known (0.1, 1e23, 2^53 + 1, the
    smallest subnormal, the overflow threshold); that it is the nearest
    double of every literal is not proved.  Engines may round a literal of
    more than 20 significant digits in either direction; the model rounds
    to nearest.  The files other than [Persist] take the best score the
    page starts with as a parameter of [Loop.initial_world]. *)

From Stdlib Require Export ZArith Lia Bool.
From stdpp Require Export base tactics option list.

(** ** The numbers of the program *)

(** The operations on numbers that the two scripts use.  [ofZ] injects an
    integer literal or an integer-valued host attribute; [ltb x y] is
    [x < y]; [rem] is the remainder operator; [nmin], [nmax] and [floor] are
    [Math.min], [Math.max] and [Math.floor]; [mathPI] is [Math.PI]. *)
Class JsNumber (N : Type) : Type := {
  ofZ : Z -> N;
  add : N -> N -> N;
  sub : N -> N -> N;
  mul : N -> N -> N;
  div : N -> N -> N;
  opp : N -> N;
  rem : N -> N -> N;
  ltb : N -> N -> bool;
  nmin : N -> N -> N;
  nmax : N -> N -> N;
  floor : N -> N;
  mathPI : N;
}.

Arguments ofZ {N _} z%_Z.

Declare Scope js_scope.
Delimit Scope js_scope with js.

Notation "x + y" := (add x y) : js_scope.
Notation "x - y" := (sub x y) : js_scope.
Notation "x * y" := (mul x y) : js_scope.
Notation "x / y" := (div x y) : js_scope.
Notation "- x" := (opp x) : js_scope.
Notation "x 'mod' y" := (rem x y) : js_scope.
Notation "x <? y" := (ltb x y) : js_scope.
(** [x > y] is evaluated as [y < x]. *)
Notation "x >? y" := (ltb y x) : js_scope.

(** ** The order of the numbers *)

(** A comparison of the code is a test [x < y] that is true or false.  The
    statements about bounds are written with the test itself: [x] is not
    below [y] when [x <? y] is false.  On the rationals this is [y <= x];
    on doubles it also holds when one of the two is NaN, as it does for the
    code. *)
Definition unordered {N : Type} `{JsNumber N} (x : N) : Prop :=
  forall y, ltb x y = false /\ ltb y x = false.

(** What the bounds of the program need of the numbers: [<] is a strict
    order, and [Math.min] and [Math.max] return one of their arguments, not
    above, respectively not below, the two, or a number that compares false
    with everything. *)
Class JsOrdered (N : Type) `{JsNumber N} : Prop := {
  ltb_irrefl (x : N) : ltb x x = false;
  ltb_trans (x y z : N) : ltb x y = true -> ltb y z = true -> ltb x z = true;
  nmin_cases (x y : N) : nmin x y = x \/ nmin x y = y \/ unordered (nmin x y);
  nmin_le_l (x y : N) : ltb x (nmin x y) = false;
  nmin_le_r (x y : N) : ltb y (nmin x y) = false;
  nmax_cases (x y : N) : nmax x y = x \/ nmax x y = y \/ unordered (nmax x y);
  nmax_ge_l (x y : N) : ltb (nmax x y) x = false;
  nmax_ge_r (x y : N) : ltb (nmax x y) y = false;
}.

Section Ordered.
Context {N : Type} `{JsOrdered N}.
Implicit Types (x y z lo hi : N).

#[export] Instance ltb_strict : StrictOrder (fun x y => ltb x y = true).
Proof.
  split.
  - intros x Hx. by rewrite ltb_irrefl in Hx.
  - intros x y z. apply ltb_trans.
Qed.

Lemma ltb_asym x y : ltb x y = true -> ltb y x = false.
Proof.
  intros Hxy. apply not_true_iff_false. intros Hyx.
  pose proof (ltb_trans x y x Hxy Hyx) as Hxx. by rewrite ltb_irrefl in Hxx.
Qed.

(** [Math.max(lo, Math.min(hi, x))] is not below [lo] and, when [lo] is
    not above [hi], not above [hi]. *)
Lemma clamp_bounds lo hi x :
  ltb hi lo = false ->
  ltb (nmax lo (nmin hi x)) lo = false /\
  ltb hi (nmax lo (nmin hi x)) = false.
Proof.
  intros Hlohi. split; [apply nmax_ge_l|].
  destruct (nmax_cases lo (nmin hi x)) as [-> | [-> | Hnan]];
    [done|apply nmin_le_l|apply Hnan].
Qed.

(** The value of a clamp is one of its three arguments, or NaN. *)
Lemma clamp_cases lo hi x :
  let c := nmax lo (nmin hi x) in
  c = lo \/ c = hi \/ c = x \/ unordered c.
Proof.
  cbv zeta. destruct (nmax_cases lo (nmin hi x)) as [-> | [-> | Hnan]];
    [by left| |by right; right; right].
  destruct (nmin_cases hi x) as [-> | [-> | Hnan]]; auto.
Qed.

End Ordered.

(** ** Loops *)

(** [for (let i = n - 1; i >= 0; i--) body(i)]: the index runs from [n - 1]
    down to [0]; [n] is read once, before the first iteration. *)
Fixpoint for_down {St : Type} (n : nat) (body : nat -> St -> St) (s : St) : St :=
  match n with
  | O => s
  | S i => for_down i body (body i s)
  end.

(** [visits body n s i t]: the loop [for_down n body] started in state [s]
    runs its iteration of index [i] on state [t]. *)
Inductive visits {St : Type} (body : nat -> St -> St) :
  nat -> St -> nat -> St -> Prop :=
| visits_now n s : visits body (S n) s n s
| visits_later n s i t :
    visits body n (body n s) i t -> visits body (S n) s i t.

(** ** Hint databases and tactics *)

(** [js]: facts about the program's definitions; [js_consts]: the numeric
    constants, unfolded before arithmetic; [js_unfold]: the operations,
    unfolded on request. *)
Create HintDb js discriminated.
Create Rewrite HintDb js.
Create HintDb js_consts discriminated.
Create HintDb js_unfold discriminated.

(** Case analysis on the scrutinee of an [if] of the goal, innermost tests
    first, keeping the equation. *)
Ltac case_if :=
  match goal with
  | |- context [if ?b then _ else _] =>
      lazymatch b with
      | context [if _ then _ else _] => fail
      | _ => destruct b eqn:?
      end
  end.

(** Split a boolean conjunction or disjunction among the hypotheses. *)
Ltac bool_hyps :=
  repeat match goal with
  | H : _ && _ = true |- _ => apply andb_true_iff in H; destruct H
  | H : _ || _ = false |- _ => apply orb_false_iff in H; destruct H
  | H : negb _ = true |- _ => apply negb_true_iff in H
  | H : negb _ = false |- _ => apply negb_false_iff in H
  end.

Section Loops.
Context {St : Type}.
Implicit Types (body : nat -> St -> St) (s : St).

(** The loop rule: an invariant indexed by the number of iterations still to
    run. *)
Lemma for_down_ind (Inv : nat -> St -> Prop) body n s :
  Inv n s ->
  (forall i t, i < n -> Inv (S i) t -> Inv i (body i t)) ->
  Inv 0 (for_down n body s).
Proof.
  revert s. induction n as [|n IH]; intros s H0 Hstep; simpl; [done|].
  apply IH; [apply Hstep; [lia|done]|].
  intros i t Hi. apply Hstep. lia.
Qed.

(** A state property that every iteration preserves holds after the loop. *)
Lemma for_down_preserves (P : St -> Prop) body n s :
  P s -> (forall i t, i < n -> P t -> P (body i t)) -> P (for_down n body s).
Proof.
  intros H0 Hstep. apply (for_down_ind (fun _ => P)); auto.
Qed.

(** The loop only depends on the body at the indices it visits. *)
Lemma for_down_ext body1 body2 n s :
  (forall i t, i < n -> body1 i t = body2 i t) ->
  for_down n body1 s = for_down n body2 s.
Proof.
  revert s. induction n as [|n IH]; intros s H; simpl; [done|].
  rewrite H by lia. apply IH. intros i t Hi. apply H. lia.
Qed.

(** Unrolling at the low end: the last iteration is the one of index 0. *)
Lemma for_down_S_last body n s :
  for_down (S n) body s = body 0 (for_down n (fun i => body (S i)) s).
Proof.
  revert s. induction n as [|n IH]; intros s; [done|].
  change (for_down (S (S n)) body s)
    with (for_down (S n) body (body (S n) s)).
  rewrite IH. reflexivity.
Qed.

(** The loop rule for the states the iterations run on: an invariant of
    the count holds whenever an iteration starts. *)
Lemma visits_inv (Inv : nat -> St -> Prop) body n s i t :
  Inv n s ->
  (forall j u, j < n -> Inv (S j) u -> Inv j (body j u)) ->
  visits body n s i t -> Inv (S i) t /\ i < n.
Proof.
  intros H0 Hstep Hv. induction Hv as [n s|n s i t Hv IH].
  - split; [done|lia].
  - destruct IH as [? ?]; [apply Hstep; [lia|done]| |split; [done|lia]].
    intros j u Hj. apply Hstep. lia.
Qed.

End Loops.

(** ** Lists as arrays *)

Section Arrays.
Context {A : Type}.
Implicit Types (l : list A) (x : A) (i : nat).

(** Overwriting the last element of a prefix-plus-one. *)
Lemma insert_snoc_last l x y : <[length l := y]> (l ++ [x]) = l ++ [y].
Proof.
  rewrite insert_app_r_alt by lia. by rewrite Nat.sub_diag.
Qed.

(** [splice(i, 1)] at the boundary between a prefix and the rest. *)
Lemma delete_app_at_length l x l' : delete (length l) (l ++ x :: l') = l ++ l'.
Proof. induction l; simpl; [done|by f_equal]. Qed.

Lemma insert_app_at_length l x y l' :
  <[length l := y]> (l ++ x :: l') = l ++ y :: l'.
Proof. induction l; simpl; [done|by f_equal]. Qed.

Lemma lookup_app_at_length l x l' : (l ++ x :: l') !! length l = Some x.
Proof. induction l; simpl; [done|done]. Qed.

End Arrays.

#[export] Hint Rewrite @delete_app_at_length @insert_app_at_length
  @lookup_app_at_length : js.
