(* ===== verification/Rational.v ===== *)
(** * Rational: the exact-arithmetic instance of the number interface

    [QNum] interprets the operations of [Prelude.JsNumber] on [Q].  The file
    gives the boolean comparison and the remainder their specifications,
    declares the morphisms that let [==] be rewritten under them, and
    provides [lraQ], the tactic that closes linear goals about the instance:
    it unfolds the interface, turns the integer literals and the divisions
    by literals into rational constants (which [lra] does not do by itself),
    moves integer hypotheses into [Q] and calls [lra]. *)

From Stdlib Require Export QArith Qround Qminmax Lqa.
From S2P Require Import Prelude.

#[local] Open Scope Q_scope.

(** ** Operations *)

(** [x < y] as a boolean. *)
Definition Qltb (x y : Q) : bool := negb (Qle_bool y x).

(** Rounding towards zero. *)
Definition Qtrunc (q : Q) : Z := Z.quot (Qnum q) (Zpos (Qden q)).

(** The remainder [x % y]: [x - y * trunc (x / y)], with the sign of [x].
    In JavaScript [x % 0] is NaN; here it is [x], and every theorem that
    uses the remainder assumes a non-zero divisor. *)
Definition Qrem (x y : Q) : Q := x - y * inject_Z (Qtrunc (x / y)).

(** [Math.PI] is the double nearest to the number pi, a dyadic rational:
    884279719003555 / 2^48. *)
Definition Qpi : Q := 884279719003555 # 281474976710656.

#[export] Instance QNum : JsNumber Q := {|
  ofZ := inject_Z;
  add := Qplus;
  sub := Qminus;
  mul := Qmult;
  div := Qdiv;
  opp := Qopp;
  rem := Qrem;
  ltb := Qltb;
  nmin := Qmin;
  nmax := Qmax;
  floor := fun q => inject_Z (Qfloor q);
  mathPI := Qpi;
|}.

(** ** Tactics *)

(** Unfold the interface at the instance. *)
Ltac qnum_unfold :=
  cbn [ofZ add sub mul div opp rem ltb nmin nmax floor mathPI QNum] in *.

(** Replace [inject_Z] of a literal and the inverse of a constant by
    constants [a # b]. *)
Ltac qnum_consts :=
  unfold Qdiv in *;
  repeat match goal with
  | |- context [inject_Z ?z] =>
      lazymatch z with Z0 => idtac | Zpos _ => idtac | Zneg _ => idtac end;
      change (inject_Z z) with (z # 1)
  | H : context [inject_Z ?z] |- _ =>
      lazymatch z with Z0 => idtac | Zpos _ => idtac | Zneg _ => idtac end;
      change (inject_Z z) with (z # 1) in H
  | |- context [Qinv (?a # ?b)] =>
      let v := eval cbv in (Qinv (a # b)) in change (Qinv (a # b)) with v
  | H : context [Qinv (?a # ?b)] |- _ =>
      let v := eval cbv in (Qinv (a # b)) in change (Qinv (a # b)) with v in H
  end.

(** Move integer comparisons among the hypotheses into [Q]. *)
Ltac qnum_of_Z :=
  repeat match goal with
  | H : (_ <= _)%Z |- _ => rewrite Zle_Qle in H
  | H : (_ < _)%Z |- _ => rewrite Zlt_Qlt in H
  | H : (_ <= _ < _)%Z |- _ => destruct H
  | H : (_ <= _ <= _)%Z |- _ => destruct H
  | H : (_ < _ < _)%Z |- _ => destruct H
  | H : (_ < _ <= _)%Z |- _ => destruct H
  end.

Ltac lraQ := qnum_unfold; qnum_of_Z; qnum_consts; lra.

(** ** Comparison *)

Lemma Qltb_lt x y : Qltb x y = true <-> x < y.
Proof.
  unfold Qltb. rewrite negb_true_iff, <- not_true_iff_false, Qle_bool_iff.
  split; [apply Qnot_le_lt|apply Qlt_not_le].
Qed.

Lemma Qltb_ge x y : Qltb x y = false <-> y <= x.
Proof.
  unfold Qltb. rewrite negb_false_iff. apply Qle_bool_iff.
Qed.

Lemma Qltb_spec x y : BoolSpec (x < y) (y <= x) (Qltb x y).
Proof.
  destruct (Qltb x y) eqn:E; constructor;
    [by apply Qltb_lt|by apply Qltb_ge].
Qed.

#[export] Instance Qltb_proper : Proper (Qeq ==> Qeq ==> eq) Qltb.
Proof.
  intros x x' Hx y y' Hy.
  destruct (Qltb_spec x y), (Qltb_spec x' y'); [done| | |done]; lra.
Qed.

(** Turn every comparison of the context and the goal into a proposition,
    splitting on those that are still undetermined. *)
Ltac destruct_ltb :=
  qnum_unfold;
  repeat match goal with
  | H : Qltb _ _ = true |- _ => apply Qltb_lt in H
  | H : Qltb _ _ = false |- _ => apply Qltb_ge in H
  | |- context [Qltb ?x ?y] => destruct (Qltb_spec x y)
  | H : context [Qltb ?x ?y] |- _ => destruct (Qltb_spec x y)
  end.

(** ** Truncation and remainder *)

Lemma Qtrunc_small q : 0 <= q -> q < 1 -> Qtrunc q = 0%Z.
Proof.
  destruct q as [n d]. unfold Qtrunc, Qle, Qlt. simpl. intros H0 H1.
  apply Z.quot_small. lia.
Qed.

Lemma Qtrunc_one q : 1 <= q -> q < 2 -> Qtrunc q = 1%Z.
Proof.
  destruct q as [n d]. unfold Qtrunc, Qle, Qlt. simpl. intros H0 H1.
  symmetry. apply (Z.quot_unique n (Zpos d) 1 (n - Zpos d)); lia.
Qed.

#[export] Instance Qtrunc_proper : Proper (Qeq ==> eq) Qtrunc.
Proof.
  intros [n d] [n' d']. unfold Qeq, Qtrunc. simpl. intros H.
  rewrite <- (Z.quot_mul_cancel_r n (Zpos d) (Zpos d')) by lia.
  rewrite H, (Z.mul_comm (Zpos d)).
  apply Z.quot_mul_cancel_r; lia.
Qed.

#[export] Instance Qrem_proper : Proper (Qeq ==> Qeq ==> Qeq) Qrem.
Proof.
  intros x x' Hx y y' Hy. unfold Qrem.
  assert (E : Qtrunc (x / y) = Qtrunc (x' / y')) by (by rewrite Hx, Hy).
  by rewrite E, Hx, Hy.
Qed.

(** On non-negative rationals truncation is the floor. *)
Lemma Qtrunc_floor q : 0 <= q -> Qtrunc q = Qfloor q.
Proof.
  destruct q as [n d]. unfold Qtrunc, Qfloor, Qle. simpl. intros Hn.
  apply Z.quot_div_nonneg; lia.
Qed.

(** A quotient by a positive number lies where the dividend lies. *)
Lemma Qdiv_bounds x y (a b : Q) :
  0 < y -> a * y <= x -> x < b * y -> a <= x / y /\ x / y < b.
Proof.
  intros Hy Ha Hb. split.
  - apply Qle_shift_div_l; [done|lra].
  - apply Qlt_shift_div_r; [done|lra].
Qed.

(** Inside [0, y) the remainder is the identity. *)
Lemma Qrem_small x y : 0 <= x -> x < y -> Qrem x y == x.
Proof.
  intros H0 H1. unfold Qrem.
  destruct (Qdiv_bounds x y 0 1) as [Ha Hb]; [lra..|].
  rewrite Qtrunc_small by done. lraQ.
Qed.

(** Inside [y, 2y) the remainder subtracts [y] once. *)
Lemma Qrem_wrap x y : 0 < y -> y <= x -> x < 2 * y -> Qrem x y == x - y.
Proof.
  intros Hy H0 H1. unfold Qrem.
  destruct (Qdiv_bounds x y 1 2) as [Ha Hb]; [lra..|].
  rewrite Qtrunc_one by done. lraQ.
Qed.

(** The wrap-around of a scroll offset: from [0, y), a step of at most [y]
    lands in [0, y) again. *)
Lemma Qrem_step_bounds x d y :
  0 <= x -> x < y -> 0 <= d -> d <= y ->
  0 <= Qrem (x + d) y /\ Qrem (x + d) y < y.
Proof.
  intros Hx Hxy Hd Hdy.
  destruct (Qlt_le_dec (x + d) y).
  - rewrite Qrem_small by lra. lra.
  - rewrite Qrem_wrap by lra. lra.
Qed.

(** The remainder of a non-negative number by a positive one lies in
    [0, y). *)
Lemma Qrem_bounds x y : 0 <= x -> 0 < y -> 0 <= Qrem x y /\ Qrem x y < y.
Proof.
  intros Hx Hy. unfold Qrem.
  assert (Hq : 0 <= x / y) by (apply Qle_shift_div_l; [done|lra]).
  rewrite (Qtrunc_floor _ Hq).
  pose proof (Qfloor_le (x / y)) as Hlo. pose proof (Qlt_floor (x / y)) as Hhi.
  rewrite inject_Z_plus in Hhi.
  assert (Hxy : y * (x / y) == x) by (apply Qmult_div_r; lra).
  set (k := inject_Z (Qfloor (x / y))) in *. set (q := x / y) in *.
  assert (y * k <= y * q) by (apply Qmult_le_l; done).
  assert (y * q < y * (k + inject_Z 1)) by (apply Qmult_lt_l; done).
  qnum_consts. lra.
Qed.

(** ** Minimum and maximum *)

Lemma Qmin_le_l x y : Qmin x y <= x.
Proof. apply Q.le_min_l. Qed.

Lemma Qmin_le_r x y : Qmin x y <= y.
Proof. apply Q.le_min_r. Qed.

Lemma Qmin_cases x y : (x <= y /\ Qmin x y == x) \/ (y <= x /\ Qmin x y == y).
Proof.
  destruct (Q.min_spec x y) as [[H E]|[H E]]; [left|right]; split;
    try done; lra.
Qed.

Lemma Qmax_cases x y : (y <= x /\ Qmax x y == x) \/ (x <= y /\ Qmax x y == y).
Proof.
  destruct (Q.max_spec x y) as [[H E]|[H E]]; [right|left]; split;
    try done; lra.
Qed.

(** ** The order laws *)

#[export] Instance QOrdered : JsOrdered Q.
Proof.
  split; qnum_unfold.
  - intros x. apply Qltb_ge, Qle_refl.
  - intros x y z. rewrite !Qltb_lt. apply Qlt_trans.
  - intros x y. unfold Qmin, GenericMinMax.gmin. destruct (x ?= y); auto.
  - intros x y. apply Qltb_ge, Q.le_min_l.
  - intros x y. apply Qltb_ge, Q.le_min_r.
  - intros x y. unfold Qmax, GenericMinMax.gmax. destruct (x ?= y); auto.
  - intros x y. apply Qltb_ge, Q.le_max_l.
  - intros x y. apply Qltb_ge, Q.le_max_r.
Qed.

(** No rational is unordered. *)
Lemma Q_ordered (x : Q) : ~ unordered x.
Proof.
  intros Hx. destruct (Hx (x + 1)) as [Hlt _].
  apply Qltb_ge in Hlt. lra.
Qed.
