(* ===== verification/Float64.v ===== *)
(** * Float64: the numbers of JavaScript

    A JavaScript number is an IEEE-754 binary64 value.  This file
    interprets the operations of [Prelude.JsNumber] on the Standard
    Library's specification of floating-point arithmetic ([SpecFloat], a
    mantissa and an exponent, or a zero, an infinity or NaN) at precision 53
    and maximal exponent 1024, with rounding to nearest, ties to even.  The
    four arithmetic operations, the negation and the comparison are the
    library's; [Math.min], [Math.max], [Math.floor], the remainder and the
    conversion of an integer are defined here from the ECMAScript
    specification.

    Every definition of the development that is written over the interface
    runs on this instance as it runs in a browser, and every theorem that
    is proved for all instances holds of it.  The file proves the order
    laws [Prelude.JsOrdered], NaN included, so that the theorems about
    bounds that are proved against the laws hold of doubles too. *)

From Stdlib Require Import SpecFloat.
From S2P Require Import Prelude.

#[local] Open Scope Z_scope.

(** ** binary64 *)

Definition prec : Z := 53.
Definition emax : Z := 1024.

Definition is_nan (x : spec_float) : bool :=
  match x with
  | S754_nan => true
  | _ => false
  end.

(** The double nearest to an integer: integer literals, and the
    conversion of an integer-valued host attribute. *)
Definition f64_ofZ (z : Z) : spec_float := binary_normalize prec emax z 0 false.

(** [Math.min(x, y)]: NaN when one argument is NaN; -0 is below +0. *)
Definition f64_min (x y : spec_float) : spec_float :=
  if is_nan x || is_nan y then S754_nan
  else if SFltb y x then y
  else if SFltb x y then x
  else match y with
       | S754_zero true => y
       | _ => x
       end.

(** [Math.max(x, y)]: NaN when one argument is NaN; +0 is above -0. *)
Definition f64_max (x y : spec_float) : spec_float :=
  if is_nan x || is_nan y then S754_nan
  else if SFltb x y then y
  else if SFltb y x then x
  else match y with
       | S754_zero false => y
       | _ => x
       end.

(** [Math.floor(x)]: the largest integer that is not above [x].  A double
    with a non-negative exponent is an integer; otherwise the mantissa is
    shifted right, which rounds down, and the integer is exact. *)
Definition f64_floor (x : spec_float) : spec_float :=
  match x with
  | S754_finite s m e =>
      if 0 <=? e then x
      else binary_normalize prec emax
             (Z.shiftr (cond_Zopp s (Zpos m)) (- e)) 0 s
  | _ => x
  end.

(** [x % y]: NaN when [x] is infinite or [y] is zero; [x] when [x] is zero
    or [y] is infinite; otherwise [x - y * trunc(x / y)], which is exact
    and has the sign of [x].  The two mantissas are aligned on the smaller
    exponent and the remainder is taken on integers. *)
Definition f64_rem (x y : spec_float) : spec_float :=
  match x, y with
  | S754_nan, _ | _, S754_nan => S754_nan
  | S754_infinity _, _ => S754_nan
  | _, S754_zero _ => S754_nan
  | S754_zero _, _ => x
  | _, S754_infinity _ => x
  | S754_finite sx mx ex, S754_finite sy my ey =>
      let e := Z.min ex ey in
      let X := Z.shiftl (Zpos mx) (ex - e) in
      let Y := Z.shiftl (Zpos my) (ey - e) in
      binary_normalize prec emax (cond_Zopp sx (X mod Y)) e sx
  end.

(** [Math.PI], 0x400921FB54442D18. *)
Definition f64_PI : spec_float := S754_finite false 7074237752028440 (-51).

#[export] Instance F64Num : JsNumber spec_float := {|
  ofZ := f64_ofZ;
  add := SFadd prec emax;
  sub := SFsub prec emax;
  mul := SFmul prec emax;
  div := SFdiv prec emax;
  opp := SFopp;
  rem := f64_rem;
  ltb := SFltb;
  nmin := f64_min;
  nmax := f64_max;
  floor := f64_floor;
  mathPI := f64_PI;
|}.

(** ** The order of the doubles *)

(** The place of a double that is not NaN in the order: the kind (negative
    infinity, negative, zero, positive, positive infinity), then the
    exponent, then the mantissa, the last two negated for a negative
    number.  The two zeros have the same place. *)
Definition key (x : spec_float) : Z * Z * Z :=
  match x with
  | S754_nan | S754_zero _ => (0, 0, 0)
  | S754_infinity s => (if s then -2 else 2, 0, 0)
  | S754_finite s m e => if s then (-1, - e, Zneg m) else (1, e, Zpos m)
  end.

Definition lex_lt (a b : Z * Z * Z) : Prop :=
  a.1.1 < b.1.1 \/
  (a.1.1 = b.1.1 /\ (a.1.2 < b.1.2 \/ (a.1.2 = b.1.2 /\ a.2 < b.2))).

(** [<] on doubles is the order of the places, and nothing is below or
    above NaN. *)
Lemma SFltb_key x y :
  SFltb x y = true <->
  is_nan x = false /\ is_nan y = false /\ lex_lt (key x) (key y).
Proof.
  unfold SFltb, lex_lt.
  destruct x as [[]|[]| |[] mx ex], y as [[]|[]| |[] my ey]; simpl;
    try (split; [done|intros (? & ? & ?); lia]);
    try (split; [intros _; split_and!; (done || lia)|done]);
    change (Pos.compare_cont Eq mx my) with (mx ?= my)%positive;
    destruct (Z.compare_spec ex ey), (Pos.compare_spec mx my); simpl;
    (split; [intros ?; split_and!; (done || lia)|intros (? & ? & ?); (done || lia)]).
Qed.

Lemma SFltb_irrefl x : SFltb x x = false.
Proof.
  apply not_true_iff_false. rewrite SFltb_key. unfold lex_lt. lia.
Qed.

Lemma SFltb_trans x y z :
  SFltb x y = true -> SFltb y z = true -> SFltb x z = true.
Proof.
  rewrite !SFltb_key. unfold lex_lt.
  intros (? & ? & ?) (? & ? & ?). split_and!; [done..|lia].
Qed.

Lemma SFltb_asym x y : SFltb x y = true -> SFltb y x = false.
Proof.
  intros Hxy. apply not_true_iff_false. intros Hyx.
  pose proof (SFltb_trans x y x Hxy Hyx) as Hxx.
  by rewrite SFltb_irrefl in Hxx.
Qed.

Lemma nan_unordered : unordered S754_nan.
Proof. intros y. split; [done|by destruct y]. Qed.

(** [Math.min] and [Math.max] return one of their arguments or NaN. *)
Lemma f64_min_cases x y :
  f64_min x y = x \/ f64_min x y = y \/ f64_min x y = S754_nan.
Proof.
  unfold f64_min. destruct (_ || _); [auto|].
  destruct (SFltb y x); [auto|]. destruct (SFltb x y); [auto|].
  destruct y as [[]| | |]; auto.
Qed.

Lemma f64_max_cases x y :
  f64_max x y = x \/ f64_max x y = y \/ f64_max x y = S754_nan.
Proof.
  unfold f64_max. destruct (_ || _); [auto|].
  destruct (SFltb x y); [auto|]. destruct (SFltb y x); [auto|].
  destruct y as [[]| | |]; auto.
Qed.

Lemma f64_min_le x y :
  SFltb x (f64_min x y) = false /\ SFltb y (f64_min x y) = false.
Proof.
  unfold f64_min. destruct (_ || _); [by destruct x, y|].
  destruct (SFltb y x) eqn:Hyx; [by rewrite SFltb_irrefl, (SFltb_asym y x)|].
  destruct (SFltb x y) eqn:Hxy; [by rewrite SFltb_irrefl|].
  destruct y as [[]| | |]; by rewrite ?SFltb_irrefl, ?Hxy, ?Hyx.
Qed.

Lemma f64_max_ge x y :
  SFltb (f64_max x y) x = false /\ SFltb (f64_max x y) y = false.
Proof.
  unfold f64_max. destruct (_ || _); [done|].
  destruct (SFltb x y) eqn:Hxy; [by rewrite SFltb_irrefl, (SFltb_asym x y)|].
  destruct (SFltb y x) eqn:Hyx; [by rewrite SFltb_irrefl|].
  destruct y as [[]| | |]; by rewrite ?SFltb_irrefl, ?Hxy, ?Hyx.
Qed.

#[export] Instance F64Ordered : JsOrdered spec_float.
Proof.
  split; cbn [ltb nmin nmax F64Num].
  - apply SFltb_irrefl.
  - apply SFltb_trans.
  - intros x y. destruct (f64_min_cases x y) as [?|[?| ->]];
      auto using nan_unordered.
  - apply f64_min_le.
  - apply f64_min_le.
  - intros x y. destruct (f64_max_cases x y) as [?|[?| ->]];
      auto using nan_unordered.
  - apply f64_max_ge.
  - apply f64_max_ge.
Qed.

(** On doubles the unordered number is NaN. *)
Lemma unordered_nan (x : spec_float) : unordered x <-> x = S754_nan.
Proof.
  split; [|intros ->; apply nan_unordered].
  intros Hx. destruct x as [s|s| |s m e]; [| |done|].
  - by destruct (Hx (S754_infinity false)) as [? _].
  - destruct s; [by destruct (Hx (S754_zero false))|].
    by destruct (Hx (S754_zero false)) as [_ ?].
  - destruct s; [by destruct (Hx (S754_zero false))|].
    by destruct (Hx (S754_zero false)) as [_ ?].
Qed.
