(* ===== verification/Number.v ===== *)
(** * Number: the conversion of a string to a number

    [Number(s)] for a string [s], as ECMAScript defines it (StringToNumber).
    The string is parsed as a StringNumericLiteral: white space, then a
    decimal literal with an optional sign, fraction and exponent, or
    [Infinity] with an optional sign, or an unsigned binary, octal or
    hexadecimal integer, then white space.  A string that is not derived
    by the grammar is NaN; a string of white space is 0.

    The parser returns the mathematical value of the literal, a sign, a
    mantissa and a power of ten; [decimal] makes a number of it, exactly on
    the rationals and correctly rounded on doubles.  Strings are strings of
    code units below 256, so of the white space of the standard the
    characters TAB, LF, VT, FF, CR, SP and NBSP occur. *)

From Stdlib Require Import Ascii QArith SpecFloat.
From stdpp Require Import strings pretty.
From S2P Require Import Prelude Rational Float64.

#[local] Open Scope Z_scope.

(** ** Characters *)

Definition code_unit (c : ascii) : Z := Z.of_N (N_of_ascii c).

(** StrWhiteSpaceChar. *)
Definition is_space (c : ascii) : bool :=
  bool_decide (code_unit c ∈ [9; 10; 11; 12; 13; 32; 160]).

(** The value of a digit in a radix up to 16: [0-9], [a-f], [A-F]. *)
Definition digit_in (radix : Z) (c : ascii) : option Z :=
  let n := code_unit c in
  let d := if decide (48 <= n <= 57) then n - 48
           else if decide (97 <= n <= 102) then n - 87
           else if decide (65 <= n <= 70) then n - 55
           else radix in
  if decide (d < radix) then Some d else None.

(** ** Literals *)

(** The mathematical value of a literal: [mantissa * 10 ^ exponent] with a
    sign, or an infinity. *)
Inductive Literal : Type :=
| FiniteLit (negative : bool) (mantissa exponent : Z)
| InfiniteLit (negative : bool).

#[export] Instance Literal_eq_dec : EqDecision Literal.
Proof. solve_decision. Defined.

(** The digits at the start of [s]: their value on top of [acc], their
    number on top of [n], and what follows them. *)
Fixpoint scan_digits (radix acc : Z) (n : nat) (s : string) : Z * nat * string :=
  match s with
  | String c s' =>
      match digit_in radix c with
      | Some d => scan_digits radix (radix * acc + d) (S n) s'
      | None => (acc, n, s)
      end
  | EmptyString => (acc, n, s)
  end.

(** An optional sign. *)
Definition scan_sign (s : string) : bool * string :=
  match s with
  | String c s' =>
      if decide (c = "+")%char then (false, s')
      else if decide (c = "-")%char then (true, s')
      else (false, s)
  | EmptyString => (false, s)
  end.

(** One digit at least, and nothing after the digits. *)
Definition all_digits (radix : Z) (s : string) : option Z :=
  let '(v, n, rest) := scan_digits radix 0 0 s in
  if decide (n <> 0%nat /\ rest = "") then Some v else None.

(** SignedInteger. *)
Definition SignedInteger (s : string) : option Z :=
  let '(negative, s) := scan_sign s in
  v ← all_digits 10 s; Some (if negative : bool then - v else v).

(** ExponentPart, or nothing. *)
Definition ExponentPart (s : string) : option Z :=
  match s with
  | EmptyString => Some 0
  | String c s' =>
      if bool_decide (c = "e" \/ c = "E")%char then SignedInteger s' else None
  end.

(** A point and the digits after it, on top of the digits [m] before the
    point; or nothing. *)
Definition scan_fraction (m : Z) (s : string) : Z * nat * string :=
  match s with
  | String c s' =>
      if decide (c = ".")%char then scan_digits 10 m 0 s' else (m, 0%nat, s)
  | EmptyString => (m, 0%nat, s)
  end.

(** Digits, a point and digits, an exponent, with a digit before or after
    the point.  The mantissa is the number that the digits write without
    the point. *)
Definition scan_decimal (s : string) : option (Z * Z) :=
  let '(m1, n1, rest) := scan_digits 10 0 0 s in
  let '(m, n2, rest) := scan_fraction m1 rest in
  if decide (n1 + n2 = 0)%nat then None
  else e ← ExponentPart rest; Some (m, e - Z.of_nat n2).

(** StrUnsignedDecimalLiteral, with the sign that was in front of it. *)
Definition StrUnsignedDecimalLiteral (negative : bool) (s : string) :
    option Literal :=
  if decide (s = "Infinity") then Some (InfiniteLit negative)
  else '(m, e) ← scan_decimal s; Some (FiniteLit negative m e).

(** StrDecimalLiteral. *)
Definition StrDecimalLiteral (s : string) : option Literal :=
  let '(negative, s) := scan_sign s in StrUnsignedDecimalLiteral negative s.

(** NonDecimalIntegerLiteral: [0b], [0o] or [0x], in either case, and
    digits of the radix. *)
Definition radix_of (c : ascii) : option Z :=
  if bool_decide (c = "x" \/ c = "X")%char then Some 16
  else if bool_decide (c = "o" \/ c = "O")%char then Some 8
  else if bool_decide (c = "b" \/ c = "B")%char then Some 2
  else None.

Definition NonDecimalIntegerLiteral (s : string) : option Z :=
  match s with
  | String c0 (String c s') =>
      if decide (c0 = "0")%char then radix ← radix_of c; all_digits radix s'
      else None
  | _ => None
  end.

(** StrNumericLiteral. *)
Definition StrNumericLiteral (s : string) : option Literal :=
  match NonDecimalIntegerLiteral s with
  | Some v => Some (FiniteLit false v 0)
  | None => StrDecimalLiteral s
  end.

Fixpoint trim_start (s : string) : string :=
  match s with
  | String c s' => if is_space c then trim_start s' else s
  | EmptyString => s
  end.

Fixpoint trim_end (s : string) : string :=
  match s with
  | String c s' =>
      match trim_end s' with
      | EmptyString => if is_space c then EmptyString else String c EmptyString
      | t => String c t
      end
  | EmptyString => s
  end.

Definition trim (s : string) : string := trim_end (trim_start s).

(** StringNumericLiteral: [None] when the string is not one. *)
Definition StringNumericLiteral (s : string) : option Literal :=
  let t := trim s in
  if decide (t = "") then Some (FiniteLit false 0 0) else StrNumericLiteral t.

(** ** Number values *)

(** The number that is, or is nearest to, [mantissa * 10 ^ exponent] with
    its sign. *)
Class JsDecimal (N : Type) `{JsNumber N} : Type := {
  decimal : bool -> Z -> Z -> N;
  decimal_natural m : 0 <= m -> decimal false m 0 = ofZ m;
  decimal_negative m : 0 < m -> decimal true m 0 = ofZ (- m)
}.

Definition Q_decimal (negative : bool) (m e : Z) : Q :=
  let v := if negative then - m else m in
  if decide (0 <= e) then inject_Z (v * 10 ^ e)
  else Qmake v (Z.to_pos (10 ^ (- e))).

#[export] Instance QDecimal : JsDecimal Q.
Proof.
  refine {| decimal := Q_decimal |};
    intros m _; unfold Q_decimal; simpl; by rewrite Z.mul_1_r.
Defined.

(** On doubles: an integer is rounded by [binary_normalize]; a quotient by
    a power of ten is divided with the bits that the rounding needs and
    rounded once. *)
Definition f64_decimal (negative : bool) (m e : Z) : spec_float :=
  if decide (m <= 0) then S754_zero negative
  else if decide (0 <= e)
  then binary_normalize prec emax ((if negative then - m else m) * 10 ^ e) 0 negative
  else
    let '(q, e', l) := SFdiv_core_binary prec emax m 0 (10 ^ (- e)) 0 in
    binary_round_aux prec emax negative q e' l.

#[export] Instance F64Decimal : JsDecimal spec_float.
Proof.
  refine {| decimal := f64_decimal |}; intros m Hm; unfold f64_decimal.
  - case_decide; [by replace m with 0 by lia|]. simpl. by rewrite Z.mul_1_r.
  - rewrite decide_False by lia. simpl. rewrite Z.mul_1_r. by destruct m.
Defined.

(** ** White space *)

(** A string of white space. *)
Definition blank (s : string) : Prop := trim_start s = "".

Lemma trim_end_cons c s :
  is_space c = false -> trim_end s = s -> trim_end (String c s) = String c s.
Proof. simpl. intros -> ->. by destruct s. Qed.

Lemma trim_start_app ws s : blank ws -> trim_start (ws +:+ s) = trim_start s.
Proof.
  unfold blank. induction ws as [|c ws IH]; simpl; [done|].
  by destruct (is_space c).
Qed.

Lemma trim_end_blank ws : blank ws -> trim_end ws = "".
Proof.
  unfold blank. induction ws as [|c ws IH]; simpl; [done|].
  destruct (is_space c); [|done]. by intros ->%IH.
Qed.

Lemma trim_end_app s ws : blank ws -> trim_end (s +:+ ws) = trim_end s.
Proof.
  intros Hws. induction s as [|c s IH]; simpl; [by apply trim_end_blank|].
  by rewrite IH.
Qed.

Lemma trim_app_blank s ws : blank ws -> trim (s +:+ ws) = trim s.
Proof.
  intros Hws. unfold trim. induction s as [|c s IH]; simpl.
  - unfold blank in Hws. change ("" +:+ ws) with ws. by rewrite Hws.
  - destruct (is_space c); [done|]. by apply (trim_end_app (String c s)).
Qed.

(** White space around a literal does not count. *)
Lemma StringNumericLiteral_padded ws s ws' :
  blank ws -> blank ws' ->
  StringNumericLiteral (ws +:+ s +:+ ws') = StringNumericLiteral s.
Proof.
  intros Hws Hws'. unfold StringNumericLiteral.
  assert (trim (ws +:+ s +:+ ws') = trim s) as ->; [|done].
  unfold trim at 1. rewrite trim_start_app by done.
  by apply trim_app_blank.
Qed.

(** ** The digits that String writes *)

Lemma digit_in_space radix c d : digit_in radix c = Some d -> is_space c = false.
Proof.
  unfold digit_in, is_space. intros Hd. apply bool_decide_eq_false.
  rewrite !elem_of_cons, elem_of_nil.
  repeat case_decide; try done; lia.
Qed.

Lemma digit_in_pretty (d : N) :
  (d < 10)%N -> digit_in 10 (pretty_N_char d) = Some (Z.of_N d).
Proof.
  intros Hd.
  assert (d = 0 \/ d = 1 \/ d = 2 \/ d = 3 \/ d = 4 \/ d = 5 \/ d = 6 \/
          d = 7 \/ d = 8 \/ d = 9)%N as Hc by lia.
  by repeat (destruct Hc as [->|Hc]; [done|]); subst.
Qed.

(** Digits up to the end of the string have no white space. *)
Lemma scan_digits_trim radix acc n s v n' :
  scan_digits radix acc n s = (v, n', "") -> trim s = s.
Proof.
  unfold trim. revert acc n. induction s as [|c s IH]; simpl; [done|].
  intros acc n. destruct (digit_in radix c) as [d|] eqn:Hd; [|done].
  intros Hs. rewrite (digit_in_space _ _ _ Hd).
  apply trim_end_cons; [by eapply digit_in_space|].
  specialize (IH _ _ Hs). destruct s as [|c' s]; [done|].
  simpl in Hs, IH. destruct (digit_in radix c') eqn:Hd'; [|done].
  by rewrite (digit_in_space _ _ _ Hd') in IH.
Qed.

(** The digits that [pretty_N_go] puts in front of [s] are scanned as the
    number they were made from. *)
Lemma scan_digits_pretty (x : N) (s : string) :
  exists k : nat, (x <> 0%N -> k <> 0%nat) /\ forall acc n,
    scan_digits 10 acc n (pretty_N_go x s)
    = scan_digits 10 (acc * 10 ^ Z.of_nat k + Z.of_N x) (n + k) s.
Proof.
  revert s. induction (N.lt_wf_0 x) as [x _ IH]. intros s.
  destruct (decide (x = 0%N)) as [->|Hx].
  { exists 0%nat. split; [done|]. intros acc n. rewrite pretty_N_go_0.
    f_equal; simpl; lia. }
  destruct (IH (x `div` 10)%N (N.div_lt x 10 ltac:(lia) eq_refl)
              (String (pretty_N_char (x `mod` 10)) s)) as (k & _ & Hk).
  exists (S k). split; [done|]. intros acc n.
  rewrite pretty_N_go_step, Hk by lia. simpl.
  rewrite digit_in_pretty by (apply N.mod_lt; lia).
  f_equal; [|lia].
  rewrite Nat2Z.inj_succ, Z.pow_succ_r, N2Z.inj_div, N2Z.inj_mod by lia.
  pose proof (Z.div_mod (Z.of_N x) 10 ltac:(lia)). change (Z.of_N 10) with 10.
  lia.
Qed.

Lemma all_digits_pretty (p : positive) :
  all_digits 10 (pretty (N.pos p)) = Some (Z.pos p).
Proof.
  assert (pretty (N.pos p) = pretty_N_go (N.pos p) "") as -> by done.
  unfold all_digits.
  destruct (scan_digits_pretty (N.pos p) "") as (k & Hk & ->). simpl.
  by rewrite decide_True by (split; [lia|done]).
Qed.

(** What [all_digits] accepts. *)
Lemma all_digits_scan radix s v :
  all_digits radix s = Some v ->
  exists c s' d n, s = String c s' /\ digit_in radix c = Some d /\
    n <> 0%nat /\ scan_digits radix 0 0 s = (v, n, "") /\ trim s = s.
Proof.
  unfold all_digits.
  destruct (scan_digits radix 0 0 s) as [[v' n] rest] eqn:Es.
  case_decide as Hn; [|done]. destruct Hn as [Hn ->]. intros [= ->].
  pose proof (scan_digits_trim _ _ _ _ _ _ Es) as Ht.
  destruct s as [|c s']; [by simplify_eq/=|]. pose proof Es as Es'.
  simpl in Es'. destruct (digit_in radix c) as [d|] eqn:Hd; [|by simplify_eq].
  by exists c, s', d, n.
Qed.

(** A string of decimal digits is a decimal literal. *)
Lemma NonDecimalIntegerLiteral_decimal s v n :
  scan_digits 10 0 0 s = (v, n, "") -> NonDecimalIntegerLiteral s = None.
Proof.
  destruct s as [|c0 [|c s']]; [done..|]. intros Es. simpl.
  case_decide as H0; [subst c0|done]. simpl in Es.
  change (digit_in 10 "0") with (Some 0) in Es.
  destruct (digit_in 10 c) as [d|] eqn:Hd; [|done]. unfold radix_of.
  repeat case_bool_decide; try done; destruct_or!; subst c; by vm_compute in Hd.
Qed.

Lemma scan_sign_digit c s d :
  digit_in 10 c = Some d -> scan_sign (String c s) = (false, String c s).
Proof.
  intros Hd. simpl. repeat case_decide; try done; subst c; by vm_compute in Hd.
Qed.

Lemma StrUnsignedDecimalLiteral_digits negative s v :
  all_digits 10 s = Some v ->
  StrUnsignedDecimalLiteral negative s = Some (FiniteLit negative v 0).
Proof.
  intros (c & s' & d & n & -> & Hd & Hn & Es & _)%all_digits_scan.
  unfold StrUnsignedDecimalLiteral. rewrite decide_False.
  - unfold scan_decimal. rewrite Es. simpl scan_fraction. cbv beta iota.
    by rewrite decide_False by lia.
  - intros [= -> _]. by vm_compute in Hd.
Qed.

Lemma StrNumericLiteral_digits s v :
  all_digits 10 s = Some v -> StrNumericLiteral s = Some (FiniteLit false v 0).
Proof.
  intros Hs. pose proof (StrUnsignedDecimalLiteral_digits false s v Hs) as Hm.
  destruct (all_digits_scan _ _ _ Hs) as (c & s' & d & n & -> & Hd & _ & Es & _).
  unfold StrNumericLiteral, StrDecimalLiteral.
  by rewrite (NonDecimalIntegerLiteral_decimal _ _ _ Es), (scan_sign_digit _ _ _ Hd).
Qed.

Lemma StrNumericLiteral_minus s v :
  all_digits 10 s = Some v ->
  StrNumericLiteral (String "-" s) = Some (FiniteLit true v 0).
Proof.
  intros Hs. pose proof (StrUnsignedDecimalLiteral_digits true s v Hs) as Hm.
  destruct (all_digits_scan _ _ _ Hs) as (c & s' & d & n & -> & Hd & _).
  unfold StrNumericLiteral, StrDecimalLiteral. by simpl NonDecimalIntegerLiteral.
Qed.

(** [String] of an integer is read as the integer. *)
Lemma StringNumericLiteral_pretty (z : Z) :
  StringNumericLiteral (pretty z)
  = Some (FiniteLit (bool_decide (z < 0)) (Z.abs z) 0).
Proof.
  destruct z as [|p|p]; [done| |].
  - change (pretty (Z.pos p)) with (pretty (N.pos p)).
    pose proof (all_digits_pretty p) as Hp.
    destruct (all_digits_scan _ _ _ Hp) as (c & s' & d & n & Es & _ & _ & _ & Ht).
    unfold StringNumericLiteral. rewrite Ht, Es, decide_False by done.
    rewrite <- Es. by apply StrNumericLiteral_digits.
  - change (pretty (Z.neg p)) with (String "-" (pretty (N.pos p))).
    pose proof (all_digits_pretty p) as Hp.
    destruct (all_digits_scan _ _ _ Hp) as (c & s' & d & n & Es & Hd & _ & _ & Ht).
    unfold StringNumericLiteral, trim. simpl trim_start.
    rewrite trim_end_cons; [|done|].
    + rewrite decide_False by done. by apply StrNumericLiteral_minus.
    + unfold trim in Ht. rewrite Es in Ht |- *. simpl in Ht.
      by rewrite (digit_in_space _ _ _ Hd) in Ht.
Qed.
