(* ===== verification/Grammar.v ===== *)
(** * Grammar: the numeric literals of a string, as the standard derives them

    The productions of StringNumericLiteral as relations between a string
    and the value it denotes, and the theorem that the scanner of [Number]
    accepts exactly the strings that the grammar derives, with the value
    the grammar gives them. *)

From Stdlib Require Import Ascii.
From stdpp Require Import strings.
From S2P Require Import Prelude Number.

#[local] Open Scope Z_scope.

(** ** Digits *)

(** DecimalDigits, BinaryDigits, OctalDigits, HexDigits: one digit of the
    radix at least.  [Digits radix s v n]: the [n] digits of [s] write the
    number [v]. *)
Inductive Digits (radix : Z) : string -> Z -> nat -> Prop :=
| Digits_one c d :
    digit_in radix c = Some d -> Digits radix (String c "") d 1
| Digits_more c d s v n :
    digit_in radix c = Some d -> Digits radix s v n ->
    Digits radix (String c s) (d * radix ^ Z.of_nat n + v) (S n).

(** Digits, or nothing. *)
Definition Digits_opt (radix : Z) (s : string) (v : Z) (n : nat) : Prop :=
  (s = "" /\ v = 0 /\ n = 0%nat) \/ Digits radix s v n.

(** The string does not go on with a digit. *)
Definition stops (radix : Z) (s : string) : Prop :=
  match s with
  | String c _ => digit_in radix c = None
  | EmptyString => True
  end.

Section Scan.
Variable radix : Z.

Lemma scanned_eq (v v' : Z) (n n' : nat) (s : string) :
  v = v' -> n = n' -> (v, n, s) = (v', n', s).
Proof. by intros -> ->. Qed.

Lemma scan_digits_stops acc k s : stops radix s -> scan_digits radix acc k s = (acc, k, s).
Proof. destruct s as [|c s]; simpl; [done|]. by intros ->. Qed.

(** [scan_digits] reads the digits that the string starts with. *)
Lemma scan_digits_Digits ds v n rest :
  Digits radix ds v n -> stops radix rest -> forall acc k,
  scan_digits radix acc k (ds +:+ rest)
  = (acc * radix ^ Z.of_nat n + v, (k + n)%nat, rest).
Proof.
  intros Hd Hrest. induction Hd as [c d Hc|c d s v n Hc _ IH]; intros acc k; simpl;
    rewrite Hc.
  - rewrite scan_digits_stops by done. apply scanned_eq; lia.
  - rewrite IH, Nat2Z.inj_succ, Z.pow_succ_r by lia. apply scanned_eq; lia.
Qed.

Lemma scan_digits_opt ds v n rest :
  Digits_opt radix ds v n -> stops radix rest -> forall acc k,
  scan_digits radix acc k (ds +:+ rest)
  = (acc * radix ^ Z.of_nat n + v, (k + n)%nat, rest).
Proof.
  intros [(-> & -> & ->)|Hd] Hrest acc k; [|by apply scan_digits_Digits].
  rewrite scan_digits_stops by done. apply scanned_eq; simpl; lia.
Qed.

(** What [scan_digits] returns: the digits it read, and where it
    stopped. *)
Lemma scan_digits_inv acc k s v' k' rest :
  scan_digits radix acc k s = (v', k', rest) ->
  exists ds v n, Digits_opt radix ds v n /\ s = ds +:+ rest /\ stops radix rest /\
    v' = acc * radix ^ Z.of_nat n + v /\ k' = (k + n)%nat.
Proof.
  revert acc k. induction s as [|c s IH]; intros acc k; simpl.
  { intros [= <- <- <-]. exists "", 0, 0%nat.
    split_and!; [by left|done..|simpl; lia|lia]. }
  destruct (digit_in radix c) as [d|] eqn:Hc.
  - intros (ds & v & n & Hds & -> & Hrest & -> & ->)%IH.
    exists (String c ds), (d * radix ^ Z.of_nat n + v), (S n).
    split_and!; [right|done|done| |lia].
    + destruct Hds as [(-> & -> & ->)|Hds]; [|by constructor].
      replace (d * radix ^ Z.of_nat 0 + 0) with d by (simpl; lia). by constructor.
    + rewrite Nat2Z.inj_succ, Z.pow_succ_r by lia. lia.
  - intros [= <- <- <-]. exists "", 0, 0%nat.
    split_and!; [by left|done|done|simpl; lia|lia].
Qed.

End Scan.

Lemma app_empty_r (s : string) : s +:+ "" = s.
Proof.
  induction s as [|c s IH]; [done|].
  change (String c (s +:+ "") = String c s). by rewrite IH.
Qed.

Lemma Digits_count radix s v n : Digits radix s v n -> n <> 0%nat /\ s <> "".
Proof. destruct 1; by split. Qed.

(** A string that is digits to its end. *)
Lemma all_digits_Digits radix s v :
  all_digits radix s = Some v <-> exists n, Digits radix s v n.
Proof.
  unfold all_digits. split.
  - destruct (scan_digits radix 0 0 s) as [[v' k'] rest] eqn:Es.
    case_decide as Hk; [|done]. destruct Hk as [Hk ->]. intros [= ->].
    apply scan_digits_inv in Es as (ds & u & n & Hds & -> & _ & -> & ->).
    rewrite app_empty_r. destruct Hds as [(_ & _ & ->)|Hds]; [done|].
    exists n. by replace (0 * radix ^ Z.of_nat n + u) with u by lia.
  - intros [n Hd]. rewrite <- (app_empty_r s).
    rewrite (scan_digits_Digits radix s v n "" Hd I).
    destruct (Digits_count _ _ _ _ Hd) as [Hn _].
    rewrite decide_True by (split; [lia|done]). f_equal; lia.
Qed.

(** ** The productions *)

(** An optional sign in front of [t]. *)
Inductive Signed : string -> bool -> string -> Prop :=
| Signed_none t : Signed t false t
| Signed_plus t : Signed (String "+" t) false t
| Signed_minus t : Signed (String "-" t) true t.

(** SignedInteger. *)
Definition derives_SignedInteger (s : string) (v : Z) : Prop :=
  exists negative t u n, Signed s negative t /\ Digits 10 t u n /\
    v = if negative : bool then - u else u.

(** ExponentPart, or nothing. *)
Definition derives_ExponentPart (s : string) (v : Z) : Prop :=
  (s = "" /\ v = 0) \/
  exists c t, s = String c t /\ (c = "e" \/ c = "E")%char /\
    derives_SignedInteger t v.

(** The point and the digits after it, or nothing. *)
Definition derives_Fraction (s : string) (v : Z) (n : nat) : Prop :=
  (s = "" /\ v = 0 /\ n = 0%nat) \/
  exists t, s = String "." t /\ Digits_opt 10 t v n.

(** StrUnsignedDecimalLiteral: [Infinity], or digits, a fraction and an
    exponent with a digit before or after the point.  Its value is the
    number that the digits write without the point, times the power of ten
    of the exponent less the number of digits after the point. *)
Inductive derives_Unsigned (negative : bool) : string -> Literal -> Prop :=
| Unsigned_Infinity :
    derives_Unsigned negative "Infinity" (InfiniteLit negative)
| Unsigned_decimal i vi ni f vf nf e ve :
    Digits_opt 10 i vi ni -> derives_Fraction f vf nf -> (ni + nf <> 0)%nat ->
    derives_ExponentPart e ve ->
    derives_Unsigned negative (i +:+ f +:+ e)
      (FiniteLit negative (vi * 10 ^ Z.of_nat nf + vf) (ve - Z.of_nat nf)).

(** StrNumericLiteral: an integer in a radix, or a decimal literal with an
    optional sign. *)
Inductive derives_Numeric : string -> Literal -> Prop :=
| Numeric_radix c radix ds v n :
    radix_of c = Some radix -> Digits radix ds v n ->
    derives_Numeric (String "0" (String c ds)) (FiniteLit false v 0)
| Numeric_decimal s negative t l :
    Signed s negative t -> derives_Unsigned negative t l ->
    derives_Numeric s l.

(** StringNumericLiteral: white space, and a literal or nothing between
    it. *)
Inductive derives : string -> Literal -> Prop :=
| derives_blank ws : blank ws -> derives ws (FiniteLit false 0 0)
| derives_literal ws s ws' l :
    blank ws -> blank ws' -> derives_Numeric s l ->
    derives (ws +:+ s +:+ ws') l.

(** ** The scanner derives what it accepts, and accepts what is derived *)

(** The string does not start with a sign. *)
Definition unsigned (s : string) : Prop :=
  match s with
  | String c _ => (c <> "+" /\ c <> "-")%char
  | EmptyString => True
  end.

(** What can follow the digits of a decimal literal. *)
Definition after_digits (s : string) : Prop :=
  match s with
  | String c _ => (c = "." \/ c = "e" \/ c = "E")%char
  | EmptyString => True
  end.

Lemma scan_sign_Signed s negative t :
  scan_sign s = (negative, t) -> Signed s negative t.
Proof.
  destruct s as [|c s]; simpl; [intros [= <- <-]; constructor|].
  repeat case_decide; intros [= <- <-]; subst; constructor.
Qed.

Lemma Signed_scan_sign s negative t :
  Signed s negative t -> unsigned t -> scan_sign s = (negative, t).
Proof.
  destruct 1; [|done..]. destruct t as [|c t]; simpl; [done|].
  intros [? ?]. by rewrite !decide_False.
Qed.

Lemma Digits_head radix s v n :
  Digits radix s v n ->
  exists c s' d, s = String c s' /\ digit_in radix c = Some d.
Proof. destruct 1; eauto. Qed.

Lemma Digits_unsigned s v n : Digits 10 s v n -> unsigned s.
Proof.
  intros (c & s' & d & -> & Hd)%Digits_head.
  split; intros ->; by vm_compute in Hd.
Qed.

Lemma SignedInteger_derives s v :
  SignedInteger s = Some v <-> derives_SignedInteger s v.
Proof.
  unfold SignedInteger, derives_SignedInteger. split.
  - destruct (scan_sign s) as [negative t] eqn:Es.
    destruct (all_digits 10 t) as [u|] eqn:Ht; [|done]. intros [= <-].
    apply all_digits_Digits in Ht as [n Hn].
    exists negative, t, u, n. by split_and!; [apply scan_sign_Signed|..].
  - intros (negative & t & u & n & Hs & Ht & ->).
    rewrite (Signed_scan_sign _ _ _ Hs) by by eapply Digits_unsigned.
    by rewrite (proj2 (all_digits_Digits 10 t u) (ex_intro _ n Ht)).
Qed.

Lemma ExponentPart_derives s v :
  ExponentPart s = Some v <-> derives_ExponentPart s v.
Proof.
  unfold ExponentPart, derives_ExponentPart. destruct s as [|c t].
  - split; [intros [= <-]; by left|]. by intros [[_ ->]|(? & ? & ? & _)].
  - case_bool_decide as Hc; rewrite ?SignedInteger_derives.
    + split; [right; by exists c, t|]. by intros [[? _]|(? & ? & [= <- <-] & _ & ?)].
    + split; [done|]. by intros [[? _]|(? & ? & [= <- <-] & ? & _)].
Qed.

Lemma after_digits_stops s : after_digits s -> stops 10 s.
Proof. destruct s as [|c s]; [done|]. by intros [->|[->| ->]]. Qed.

Lemma ExponentPart_after e ve : derives_ExponentPart e ve -> after_digits e.
Proof. intros [[-> _]|(c & t & -> & [->| ->] & _)]; simpl; auto. Qed.

Lemma Fraction_after f vf nf e ve :
  derives_Fraction f vf nf -> derives_ExponentPart e ve ->
  after_digits (f +:+ e).
Proof.
  intros [(-> & _)|(t & -> & _)] He; [by eapply ExponentPart_after|].
  by left.
Qed.

Lemma scan_fraction_sound m rest m' n ex :
  scan_fraction m rest = (m', n, ex) ->
  exists f vf, rest = f +:+ ex /\ derives_Fraction f vf n /\
    m' = m * 10 ^ Z.of_nat n + vf.
Proof.
  unfold scan_fraction. destruct rest as [|c s'].
  { intros [= <- <- <-]. exists "", 0. split_and!; [done|by left|simpl; lia]. }
  case_decide as Hc; [subst c|].
  - intros (fd & vf & nf & Hfd & -> & _ & -> & ->)%scan_digits_inv.
    exists (String "." fd), vf. split_and!; [done|right; by exists fd|done].
  - intros [= <- <- <-]. exists "", 0. split_and!; [done|by left|simpl; lia].
Qed.

Lemma scan_fraction_complete m f vf nf ex ve :
  derives_Fraction f vf nf -> derives_ExponentPart ex ve ->
  scan_fraction m (f +:+ ex) = (m * 10 ^ Z.of_nat nf + vf, nf, ex).
Proof.
  intros [(-> & -> & ->)|(fd & -> & Hfd)] He; unfold scan_fraction.
  - change ("" +:+ ex) with ex.
    destruct He as [[-> _]|(c & t & -> & Hc & _)]; [apply scanned_eq; lia|].
    rewrite decide_False by (by destruct Hc as [->| ->]).
    apply scanned_eq; simpl; lia.
  - change (String "." fd +:+ ex) with (String "." (fd +:+ ex)).
    cbv beta iota. rewrite decide_True by done.
    by apply scan_digits_opt, after_digits_stops, (ExponentPart_after _ ve).
Qed.

(** The digits, the fraction and the exponent that [scan_decimal] read. *)
Lemma scan_decimal_sound t m e :
  scan_decimal t = Some (m, e) ->
  exists i vi ni f vf nf ex ve,
    t = i +:+ f +:+ ex /\ Digits_opt 10 i vi ni /\ derives_Fraction f vf nf /\
    (ni + nf <> 0)%nat /\ derives_ExponentPart ex ve /\
    m = vi * 10 ^ Z.of_nat nf + vf /\ e = ve - Z.of_nat nf.
Proof.
  unfold scan_decimal.
  destruct (scan_digits 10 0 0 t) as [[m1 n1] rest] eqn:E1.
  apply scan_digits_inv in E1 as (i & vi & ni & Hi & -> & _ & -> & ->).
  destruct (scan_fraction _ rest) as [[m2 nf] ex] eqn:E2.
  apply scan_fraction_sound in E2 as (f & vf & -> & Hf & ->).
  case_decide as Hn; [done|].
  destruct (ExponentPart ex) as [ve|] eqn:He; [|done]. intros [= <- <-].
  apply ExponentPart_derives in He.
  exists i, vi, ni, f, vf, nf, ex, ve. split_and!; [done..|lia].
Qed.

Lemma scan_decimal_complete i vi ni f vf nf ex ve :
  Digits_opt 10 i vi ni -> derives_Fraction f vf nf -> (ni + nf <> 0)%nat ->
  derives_ExponentPart ex ve ->
  scan_decimal (i +:+ f +:+ ex)
  = Some (vi * 10 ^ Z.of_nat nf + vf, ve - Z.of_nat nf).
Proof.
  intros Hi Hf Hn He. unfold scan_decimal.
  rewrite (scan_digits_opt 10 i vi ni (f +:+ ex) Hi)
    by by eapply after_digits_stops, Fraction_after.
  rewrite (scan_fraction_complete _ f vf nf ex ve Hf He).
  rewrite decide_False by lia. rewrite (proj2 (ExponentPart_derives _ _) He).
  simpl. do 2 f_equal; lia.
Qed.

Lemma Unsigned_head negative t l :
  derives_Unsigned negative t l ->
  exists c t', t = String c t' /\
    (c = "I" \/ c = "." \/ exists d, digit_in 10 c = Some d)%char.
Proof.
  destruct 1 as [|i vi ni f vf nf e ve Hi Hf Hn He]; [by eexists _, _; eauto|].
  destruct Hi as [(-> & _ & ->)|(c & s' & d & -> & Hd)%Digits_head].
  - destruct Hf as [(_ & _ & ->)|(t & -> & _)]; [done|].
    by eexists _, _; eauto.
  - by eexists _, _; eauto.
Qed.

Lemma StrUnsignedDecimalLiteral_derives negative t l :
  StrUnsignedDecimalLiteral negative t = Some l <-> derives_Unsigned negative t l.
Proof.
  unfold StrUnsignedDecimalLiteral. split.
  - case_decide as Ht; [intros [= <-]; subst t; constructor|].
    destruct (scan_decimal t) as [[m e]|] eqn:Es; [|done]. intros [= <-].
    apply scan_decimal_sound in Es
      as (i & vi & ni & f & vf & nf & ex & ve & -> & ? & ? & ? & ? & -> & ->).
    by econstructor.
  - destruct 1 as [|i vi ni f vf nf e ve Hi Hf Hn He]; [done|].
    rewrite (scan_decimal_complete i vi ni f vf nf e ve) by done.
    rewrite decide_False; [done|]. intros Ht.
    assert (scan_decimal "Infinity" = None) as Hnone by done.
    rewrite <- Ht in Hnone.
    by rewrite (scan_decimal_complete i vi ni f vf nf e ve) in Hnone.
Qed.

Lemma Unsigned_unsigned negative t l : derives_Unsigned negative t l -> unsigned t.
Proof.
  intros (c & t' & -> & [->|[->|[d Hd]]])%Unsigned_head; [done..|].
  split; intros ->; by vm_compute in Hd.
Qed.

Lemma NonDecimalIntegerLiteral_derives s v :
  NonDecimalIntegerLiteral s = Some v <->
  exists c radix ds n,
    s = String "0" (String c ds) /\ radix_of c = Some radix /\ Digits radix ds v n.
Proof.
  unfold NonDecimalIntegerLiteral. split.
  - destruct s as [|c0 [|c ds]]; [done..|]. case_decide; [subst c0|done].
    destruct (radix_of c) as [radix|] eqn:Hr; [simpl|done].
    intros [n Hn]%all_digits_Digits. by exists c, radix, ds, n.
  - intros (c & radix & ds & n & -> & -> & Hd). rewrite decide_True by done.
    simpl. apply all_digits_Digits. by exists n.
Qed.

(** A decimal literal is not an integer with a radix prefix. *)
Lemma decimal_not_radix s negative t l :
  Signed s negative t -> derives_Unsigned negative t l ->
  NonDecimalIntegerLiteral s = None.
Proof.
  intros Hs Ht. destruct (NonDecimalIntegerLiteral s) as [v|] eqn:E; [|done].
  apply NonDecimalIntegerLiteral_derives in E as (c & r & ds & n & -> & Hr & _).
  inversion Hs; subst. apply StrUnsignedDecimalLiteral_derives in Ht.
  unfold radix_of in Hr.
  repeat case_bool_decide; try done; destruct_or!; subst c; by vm_compute in Ht.
Qed.

(** The scanner of StrNumericLiteral accepts the strings that the grammar
    derives, with the value it gives them. *)
Lemma StrNumericLiteral_derives s l :
  StrNumericLiteral s = Some l <-> derives_Numeric s l.
Proof.
  unfold StrNumericLiteral, StrDecimalLiteral. split.
  - destruct (NonDecimalIntegerLiteral s) as [v|] eqn:E.
    + apply NonDecimalIntegerLiteral_derives in E as (c & r & ds & n & -> & ? & ?).
      intros [= <-]. by econstructor.
    + destruct (scan_sign s) as [negative t] eqn:Es.
      intros Ht%StrUnsignedDecimalLiteral_derives.
      eapply Numeric_decimal; [by apply scan_sign_Signed|done].
  - destruct 1 as [c r ds v n Hr Hd|s negative t l Hs Ht].
    + by rewrite (proj2 (NonDecimalIntegerLiteral_derives _ v))
        by by exists c, r, ds, n.
    + rewrite (decimal_not_radix _ _ _ _ Hs Ht).
      rewrite (Signed_scan_sign _ _ _ Hs) by by eapply Unsigned_unsigned.
      by apply StrUnsignedDecimalLiteral_derives.
Qed.

(** ** White space *)

(** The string has no white space. *)
Fixpoint spaceless (s : string) : Prop :=
  match s with
  | String c s' => is_space c = false /\ spaceless s'
  | EmptyString => True
  end.

Lemma spaceless_app s t : spaceless s -> spaceless t -> spaceless (s +:+ t).
Proof.
  intros Hs Ht. induction s as [|c s IH]; [done|].
  destruct Hs as [Hc Hs]. split; [done|by apply IH].
Qed.

Lemma spaceless_trim s : spaceless s -> trim s = s.
Proof.
  unfold trim. destruct s as [|c s]; [done|]. intros [Hc Hs]. simpl trim_start.
  rewrite Hc. revert c Hc. induction s as [|c' s IH]; intros c Hc.
  - simpl. by rewrite Hc.
  - destruct Hs as [Hc' Hs]. by apply trim_end_cons, IH.
Qed.

Lemma Digits_spaceless radix s v n : Digits radix s v n -> spaceless s.
Proof. induction 1; (split; [by eapply digit_in_space|done]). Qed.

Lemma Digits_opt_spaceless radix s v n : Digits_opt radix s v n -> spaceless s.
Proof. intros [(-> & _)|Hd]; [done|by eapply Digits_spaceless]. Qed.

Lemma Signed_spaceless s negative t : Signed s negative t -> spaceless t -> spaceless s.
Proof. by destruct 1. Qed.

Lemma ExponentPart_spaceless e ve : derives_ExponentPart e ve -> spaceless e.
Proof.
  intros [[-> _]|(c & t & -> & Hc & neg & u & w & n & Hs & Hd & _)]; [done|].
  split; [by destruct Hc as [->| ->]|].
  eapply Signed_spaceless; [done|by eapply Digits_spaceless].
Qed.

Lemma Numeric_spaceless s l : derives_Numeric s l -> spaceless s.
Proof.
  destruct 1 as [c r ds v n Hr Hd|s negative t l Hs Ht].
  - split; [done|]. split; [|by eapply Digits_spaceless].
    unfold radix_of in Hr.
    by repeat case_bool_decide; try done; destruct_or!; subst c.
  - eapply Signed_spaceless; [done|].
    destruct Ht as [|i vi ni f vf nf e ve Hi Hf Hn He]; [by repeat split|].
    repeat apply spaceless_app;
      [by eapply Digits_opt_spaceless| |by eapply ExponentPart_spaceless].
    destruct Hf as [(-> & _)|(fd & -> & Hfd)]; [done|].
    split; [done|by eapply Digits_opt_spaceless].
Qed.

Lemma trim_start_split s : exists ws, blank ws /\ s = ws +:+ trim_start s.
Proof.
  induction s as [|c s (ws & Hws & Es)]; [by exists ""|]. simpl.
  destruct (is_space c) eqn:Hc; [|by exists ""].
  exists (String c ws). split; [unfold blank; simpl; by rewrite Hc|].
  change (String c s = String c (ws +:+ trim_start s)). by rewrite <- Es.
Qed.

Lemma trim_end_split s : exists ws, blank ws /\ s = trim_end s +:+ ws.
Proof.
  induction s as [|c s (ws & Hws & Es)]; [by exists ""|]. simpl.
  destruct (trim_end s) as [|c' t] eqn:Et.
  - change ("" +:+ ws) with ws in Es. subst ws.
    destruct (is_space c) eqn:Hc; [|by exists s].
    exists (String c s). split; [unfold blank; simpl; by rewrite Hc|done].
  - exists ws. split; [done|].
    change (String c s = String c (String c' t +:+ ws)). by rewrite <- Es.
Qed.

Lemma trim_split s :
  exists ws ws', blank ws /\ blank ws' /\ s = ws +:+ trim s +:+ ws'.
Proof.
  destruct (trim_start_split s) as (ws & Hws & Es).
  destruct (trim_end_split (trim_start s)) as (ws' & Hws' & Et).
  exists ws, ws'. split_and!; [done..|]. unfold trim. by rewrite <- Et.
Qed.

(** ** The theorem *)

Theorem StringNumericLiteral_derives s l :
  StringNumericLiteral s = Some l <-> derives s l.
Proof.
  split.
  - unfold StringNumericLiteral.
    destruct (trim_split s) as (ws & ws' & Hws & Hws' & Es).
    case_decide as Ht.
    + intros [= <-]. apply derives_blank. unfold blank.
      rewrite Es, Ht, trim_start_app by done. exact Hws'.
    + intros Hl%StrNumericLiteral_derives. rewrite Es. by constructor.
  - destruct 1 as [ws Hws|ws s ws' l Hws Hws' Hl].
    + unfold StringNumericLiteral, trim. unfold blank in Hws. by rewrite Hws.
    + rewrite StringNumericLiteral_padded by done. unfold StringNumericLiteral.
      rewrite spaceless_trim by by eapply Numeric_spaceless.
      apply StrNumericLiteral_derives in Hl.
      rewrite decide_False; [done|]. by intros ->.
Qed.
