(* ===== verification/Config.v ===== *)
(** * Config: the constants of the game and the canvas

    The nine constants of part_000 (lines 148-156), over any number
    instance, and the size of a canvas element.  A canvas's [width] and
    [height] attributes are integers (unsigned long in the DOM), so they are
    kept in [Z] and enter arithmetic through [ofZ]. *)

From S2P Require Import Prelude Rational.

#[local] Open Scope js_scope.

(** [canvas.width] and [canvas.height]. *)
Record Canvas : Type := mkCanvas {
  canvas_width : Z;
  canvas_height : Z;
}.

#[export] Instance Canvas_eq_dec : EqDecision Canvas.
Proof. solve_decision. Defined.

Section Constants.
Context {N : Type} `{JsNumber N}.

(** [const GRAVITY = 0.45]: how fast the mouth falls, per frame. *)
Definition GRAVITY : N := ofZ 9 / ofZ 20.

(** [const FLAP_STRENGTH = -7.5]: the velocity a flap sets. *)
Definition FLAP_STRENGTH : N := - (ofZ 15 / ofZ 2).

(** [const PIPE_GAP_MIN = 140]. *)
Definition PIPE_GAP_MIN : N := ofZ 140.

(** [const PIPE_GAP_MAX = 200]. *)
Definition PIPE_GAP_MAX : N := ofZ 200.

(** [const PIPE_WIDTH = 70]. *)
Definition PIPE_WIDTH : N := ofZ 70.

(** [const PIPE_INTERVAL_MS = 1400]. *)
Definition PIPE_INTERVAL_MS : N := ofZ 1400.

(** [const SCROLL_SPEED = 2.6]: pixels per frame. *)
Definition SCROLL_SPEED : N := ofZ 13 / ofZ 5.

(** [const MOUTH_SIZE = 32]. *)
Definition MOUTH_SIZE : N := ofZ 32.

(** [const GROUND_HEIGHT = 80]. *)
Definition GROUND_HEIGHT : N := ofZ 80.

End Constants.

#[export] Hint Unfold GRAVITY FLAP_STRENGTH PIPE_GAP_MIN PIPE_GAP_MAX
  PIPE_WIDTH PIPE_INTERVAL_MS SCROLL_SPEED MOUTH_SIZE GROUND_HEIGHT
  : js_consts.

(** [lraQ] after unfolding the constants. *)
Ltac lraQ_js := autounfold with js_consts in *; lraQ.

#[local] Open Scope Q_scope.

(** The constants at the rational instance are the decimal literals of the
    source. *)
Lemma GRAVITY_Q : @GRAVITY Q _ == 0.45.
Proof. lraQ_js. Qed.

Lemma FLAP_STRENGTH_Q : @FLAP_STRENGTH Q _ == -7.5.
Proof. lraQ_js. Qed.

Lemma SCROLL_SPEED_Q : @SCROLL_SPEED Q _ == 2.6.
Proof. lraQ_js. Qed.
