(* ===== verification/Assets.v ===== *)
(** * Assets: the images of the game and their loading

    part_000 lines 73-141 create four images: the background texture, which
    becomes a canvas pattern when it has loaded and is requested a second
    time as a JPEG when the PNG fails; the strip of teeth; the tongue
    sprite; and an optional image element of the document.  The script
    reads them through [complete] and passes them to [drawImage].

    An image element is loading, available or broken.  [complete] is true
    of an image that is not loading, broken ones included, and [drawImage]
    throws on a broken image: this is the behaviour of the HTML standard
    ("check the usability of the image argument"), and the reason for the
    try block around the one call at line 395.

    The theorems: the retry flag works (the texture is requested at most
    twice, first as PNG, then as JPEG); the variables that the drawing code
    reads agree with the states of the images. *)

From stdpp Require Import strings.
From S2P Require Import Prelude.

(** ** Images *)

(** The state of an image element's current request. *)
Inductive ImageState : Type := Loading | Available | Broken.

#[export] Instance ImageState_eq_dec : EqDecision ImageState.
Proof. solve_decision. Defined.

(** [img.complete]: the request has ended, one way or the other. *)
Definition complete (s : ImageState) : bool :=
  match s with
  | Loading => false
  | Available | Broken => true
  end.

(** Whether [drawImage(img, ...)] returns; it throws on a broken image. *)
Definition usable (s : ImageState) : bool :=
  match s with
  | Broken => false
  | Loading | Available => true
  end.

(** The four images. *)
Inductive Image : Type := BgImage | GroundImage | MouthImage | TongueImage.

#[export] Instance Image_eq_dec : EqDecision Image.
Proof. solve_decision. Defined.

(** ** The variables of lines 77-141 *)

(** [bgPattern] and [bgImg] are kept as "is not null"; [bgRequest] is the
    state of the image [img] of [loadBackgroundTexture] and [bgSrc] its
    [src]; [tongueImg] is [None] when the document has no image element
    with the id [tongue-img]. *)
Record Assets : Type := mkAssets {
  bgPattern : bool;
  bgImg : bool;
  triedJpg : bool;
  bgSrc : string;
  bgRequest : ImageState;
  groundImg : ImageState;
  groundLoaded : bool;
  mouthImg : ImageState;
  tongueImg : option ImageState;
}.

Definition BG_PNG : string := "backgroundtexture.png".
Definition BG_JPG : string := "backgroundtexture.jpg".

(** The assets when the script has run: every request has just started. *)
Definition initial_assets (tongue : option ImageState) : Assets :=
  mkAssets false false false BG_PNG Loading Loading false Loading tongue.

(** ** Handlers *)

(** [img.onload], lines 87-100.  [patternOk] says whether
    [ctx.createPattern(img, 'repeat')] returned a pattern; when it throws
    or returns null, [bgPattern] is null. *)
Definition bg_onload (patternOk : bool) (a : Assets) : Assets :=
  let a := mkAssets (bgPattern a) true (triedJpg a) (bgSrc a) (bgRequest a)
             (groundImg a) (groundLoaded a) (mouthImg a) (tongueImg a) in
  mkAssets patternOk (bgImg a) (triedJpg a) (bgSrc a) (bgRequest a)
    (groundImg a) (groundLoaded a) (mouthImg a) (tongueImg a).

(** [img.onerror], lines 103-108: the first failure requests the JPEG, and
    assigning [src] starts a new request. *)
Definition bg_onerror (a : Assets) : Assets :=
  if negb (triedJpg a) then
    let a := mkAssets (bgPattern a) (bgImg a) true (bgSrc a) (bgRequest a)
               (groundImg a) (groundLoaded a) (mouthImg a) (tongueImg a) in
    mkAssets (bgPattern a) (bgImg a) (triedJpg a) BG_JPG Loading
      (groundImg a) (groundLoaded a) (mouthImg a) (tongueImg a)
  else a.

(** [groundImg.onload], lines 119-125. *)
Definition ground_onload (a : Assets) : Assets :=
  mkAssets (bgPattern a) (bgImg a) (triedJpg a) (bgSrc a) (bgRequest a)
    (groundImg a) true (mouthImg a) (tongueImg a).

(** ** The browser's side *)

(** The state of an image's request. *)
Definition request (i : Image) (a : Assets) : option ImageState :=
  match i with
  | BgImage => Some (bgRequest a)
  | GroundImage => Some (groundImg a)
  | MouthImage => Some (mouthImg a)
  | TongueImage => tongueImg a
  end.

(** The browser ends a request. *)
Definition settle (i : Image) (s : ImageState) (a : Assets) : Assets :=
  match i with
  | BgImage =>
      mkAssets (bgPattern a) (bgImg a) (triedJpg a) (bgSrc a) s
        (groundImg a) (groundLoaded a) (mouthImg a) (tongueImg a)
  | GroundImage =>
      mkAssets (bgPattern a) (bgImg a) (triedJpg a) (bgSrc a) (bgRequest a)
        s (groundLoaded a) (mouthImg a) (tongueImg a)
  | MouthImage =>
      mkAssets (bgPattern a) (bgImg a) (triedJpg a) (bgSrc a) (bgRequest a)
        (groundImg a) (groundLoaded a) s (tongueImg a)
  | TongueImage =>
      mkAssets (bgPattern a) (bgImg a) (triedJpg a) (bgSrc a) (bgRequest a)
        (groundImg a) (groundLoaded a) (mouthImg a) (Some s)
  end.

(** A request ends with a load or with an error. *)
Inductive AssetEvent : Type :=
| Loaded (i : Image) (patternOk : bool)
| Failed (i : Image).

#[export] Instance AssetEvent_eq_dec : EqDecision AssetEvent.
Proof. solve_decision. Defined.

(** The handler the script has registered for the event, if any. *)
Definition asset_listener (e : AssetEvent) (a : Assets) : Assets :=
  match e with
  | Loaded BgImage patternOk => bg_onload patternOk a
  | Loaded GroundImage _ => ground_onload a
  | Failed BgImage => bg_onerror a
  | _ => a
  end.

(** The event ends the request of a loading image and runs the listener. *)
Definition asset_handle (e : AssetEvent) (a : Assets) : option Assets :=
  let '(i, s) := match e with
                 | Loaded i _ => (i, Available)
                 | Failed i => (i, Broken)
                 end in
  if decide (request i a = Some Loading)
  then Some (asset_listener e (settle i s a))
  else None.

Fixpoint asset_run (es : list AssetEvent) (a : Assets) : option Assets :=
  match es with
  | [] => Some a
  | e :: es => a' ← asset_handle e a; asset_run es a'
  end.

(** ** The invariant *)

(** What the variables say about the images. *)
Record assets_ok (a : Assets) : Prop := mkAssetsOk {
  ok_pattern : bgPattern a = true -> bgImg a = true;
  ok_bgImg : bgImg a = true <-> bgRequest a = Available;
  ok_src : bgSrc a = if triedJpg a then BG_JPG else BG_PNG;
  ok_broken : bgRequest a = Broken -> triedJpg a = true;
  ok_ground : groundLoaded a = true <-> groundImg a = Available;
}.

(** The number of failures the texture can still have. *)
Definition bg_budget (a : Assets) : nat :=
  if triedJpg a then (if decide (bgRequest a = Loading) then 1 else 0) else 2.

(** The failures of the texture among the events. *)
Definition bg_failures (es : list AssetEvent) : nat :=
  length (filter (fun e => e = Failed BgImage) es).

Lemma initial_assets_ok tongue : assets_ok (initial_assets tongue).
Proof. split; simpl; try done. all: split; done. Qed.

(** Case analysis on an event that is handled: the request was loading,
    and the fields are laid open. *)
Ltac asset_cases e a He :=
  unfold asset_handle in He;
  destruct a as [pat img tj src rq gi gl mi ti];
  destruct e as [[] ok|[]]; simpl in He;
  (destruct (decide _) as [Hl|]; [|discriminate]);
  apply (inj Some) in He; simpl in Hl; try apply (inj Some) in Hl; subst;
  unfold bg_onerror; simpl.

Lemma asset_handle_ok e a a' :
  assets_ok a -> asset_handle e a = Some a' -> assets_ok a'.
Proof.
  intros [Hp Hi Hs Hb Hg] He. asset_cases e a He; simpl in *;
    try (destruct tj; simpl);
    split; simpl; try done; intuition congruence.
Qed.

Lemma asset_run_ok es a a' :
  assets_ok a -> asset_run es a = Some a' -> assets_ok a'.
Proof.
  revert a. induction es as [|e es IH]; intros a Hok Hrun; simpl in Hrun.
  - by simplify_eq.
  - destruct (asset_handle e a) as [a1|] eqn:He; [|done].
    eauto using asset_handle_ok.
Qed.

(** Every failure of the texture uses up one request. *)
Lemma asset_handle_budget e a a' :
  assets_ok a -> asset_handle e a = Some a' ->
  bg_budget a' + bg_failures [e] <= bg_budget a.
Proof.
  intros [_ _ _ Hb _] He. unfold bg_budget, bg_failures.
  asset_cases e a He; simpl in *; try (destruct tj; simpl);
    repeat case_decide; simpl; try done; lia.
Qed.

Lemma asset_run_budget es a a' :
  assets_ok a -> asset_run es a = Some a' ->
  bg_budget a' + bg_failures es <= bg_budget a.
Proof.
  revert a. induction es as [|e es IH]; intros a Hok Hrun; simpl in Hrun.
  - simplify_eq. unfold bg_failures. simpl. lia.
  - destruct (asset_handle e a) as [a1|] eqn:He; [|done]. simpl in Hrun.
    pose proof (asset_handle_budget e a a1 Hok He) as H1.
    pose proof (IH a1 (asset_handle_ok e a a1 Hok He) Hrun) as H2.
    unfold bg_failures in *. rewrite filter_cons in *.
    simpl in *. case_decide; simpl in *; lia.
Qed.

(** C23. The retry flag prevents an endless loop of requests: whatever the
    network does, the background texture fails at most twice, so it is
    requested at most twice, and the second request is for the JPEG. *)
Theorem bg_requested_twice es a tongue :
  asset_run es (initial_assets tongue) = Some a ->
  bg_failures es <= 2 /\
  (bgSrc a = BG_PNG \/ bgSrc a = BG_JPG) /\
  (1 <= bg_failures es -> bgSrc a = BG_JPG).
Proof.
  intros Hrun.
  pose proof (asset_run_budget es _ a (initial_assets_ok tongue) Hrun) as Hb.
  pose proof (asset_run_ok es _ a (initial_assets_ok tongue) Hrun) as [_ _ Hs _ _].
  change (bg_budget (initial_assets tongue)) with 2 in Hb.
  unfold bg_budget in Hb. rewrite Hs.
  destruct (triedJpg a); (split; [lia|split; [auto|]]); [done|lia].
Qed.

(** What the drawing code reads agrees with the images: a pattern exists
    only for a texture that has loaded, and [groundLoaded] is true exactly
    when the strip of teeth is available. *)
Theorem assets_consistent es a tongue :
  asset_run es (initial_assets tongue) = Some a ->
  (bgPattern a = true -> bgRequest a = Available) /\
  (groundLoaded a = true <-> groundImg a = Available).
Proof.
  intros Hrun.
  destruct (asset_run_ok es _ a (initial_assets_ok tongue) Hrun)
    as [Hp Hi _ _ Hg].
  split; [|done]. intros Hpat. by apply Hi, Hp.
Qed.

(** ** Concrete instances *)

(** The PNG fails, the JPEG loads and gives a pattern; the teeth load; the
    sprite fails. *)
Definition slow_network : list AssetEvent :=
  [Failed BgImage; Loaded GroundImage false; Loaded BgImage true;
   Failed MouthImage].

Definition assets_after_slow_network : Assets :=
  mkAssets true true true BG_JPG Available Available true Broken None.

Lemma slow_network_run :
  asset_run slow_network (initial_assets None) = Some assets_after_slow_network.
Proof. reflexivity. Qed.

Lemma bg_requested_twice_witness :
  bg_failures slow_network <= 2 /\
  (bgSrc assets_after_slow_network = BG_PNG \/
   bgSrc assets_after_slow_network = BG_JPG) /\
  (1 <= bg_failures slow_network -> bgSrc assets_after_slow_network = BG_JPG).
Proof. apply (bg_requested_twice _ _ None), slow_network_run. Defined.

Lemma assets_consistent_witness :
  (bgPattern assets_after_slow_network = true ->
   bgRequest assets_after_slow_network = Available) /\
  (groundLoaded assets_after_slow_network = true <->
   groundImg assets_after_slow_network = Available).
Proof. apply (assets_consistent slow_network _ None), slow_network_run. Defined.
