(* ===== verification/Geometry.v ===== *)
(** * Geometry: the rectangle overlap test

    [rectsOverlap] (part_000 lines 243-247) is the collision predicate of
    the game.  It is symmetric for every number instance; at the rational
    instance it is exactly strict intersection of the two rectangles on both
    axes, so rectangles that only touch do not collide, and for rectangles
    of positive extent it holds exactly when the interiors share a point. *)

From S2P Require Import Prelude Rational.

#[local] Open Scope js_scope.

Section Overlap.
Context {N : Type} `{JsNumber N}.

(** [return ax < bx + bw && ax + aw > bx && ay < by + bh && ay + ah > by;] *)
Definition rectsOverlap (ax ay aw ah bx by_ bw bh : N) : bool :=
  (ax <? bx + bw) && (ax + aw >? bx) && (ay <? by_ + bh) && (ay + ah >? by_).

(** The test on one axis: the intervals [a, a + la] and [b, b + lb] meet
    strictly. *)
Definition spansOverlap (a la b lb : N) : bool :=
  (a <? b + lb) && (a + la >? b).

Lemma rectsOverlap_spans ax ay aw ah bx by_ bw bh :
  rectsOverlap ax ay aw ah bx by_ bw bh
  = spansOverlap ax aw bx bw && spansOverlap ay ah by_ bh.
Proof. unfold rectsOverlap, spansOverlap. by rewrite !andb_assoc. Qed.

Lemma spansOverlap_sym a la b lb :
  spansOverlap a la b lb = spansOverlap b lb a la.
Proof. unfold spansOverlap. apply andb_comm. Qed.

(** The collision predicate is symmetric: exchanging the two rectangles
    does not change the answer.  This holds for every number instance, NaN
    included, because [x > y] is evaluated as [y < x]. *)
Theorem rectsOverlap_sym ax ay aw ah bx by_ bw bh :
  rectsOverlap ax ay aw ah bx by_ bw bh = rectsOverlap bx by_ bw bh ax ay aw ah.
Proof.
  rewrite !rectsOverlap_spans.
  by rewrite (spansOverlap_sym ax), (spansOverlap_sym ay).
Qed.

End Overlap.

#[local] Open Scope Q_scope.

Section OverlapQ.
Lemma spansOverlap_iff (a la b lb : Q) :
  spansOverlap a la b lb = true <-> a < b + lb /\ b < a + la.
Proof.
  unfold spansOverlap. rewrite andb_true_iff. qnum_unfold.
  by rewrite !Qltb_lt.
Qed.

(** Two spans of positive length meet strictly exactly when some point lies
    strictly inside both. *)
Lemma spansOverlap_point (a la b lb : Q) :
  0 < la -> 0 < lb ->
  spansOverlap a la b lb = true <->
  exists p, (a < p /\ p < a + la) /\ (b < p /\ p < b + lb).
Proof.
  intros Ha Hb. rewrite spansOverlap_iff. split.
  - intros [H1 H2].
    exists ((Qmax a b + Qmin (a + la) (b + lb)) * (1 # 2)).
    destruct (Qmax_cases a b) as [[? ->]|[? ->]],
      (Qmin_cases (a + la) (b + lb)) as [[? ->]|[? ->]]; lra.
  - intros (p & [? ?] & [? ?]). lra.
Qed.


(** Rectangles that touch along an edge do not overlap: the comparisons are
    strict. *)
Theorem rectsOverlap_touching (ax ay aw ah bx by_ bw bh : Q) :
  ax + aw == bx \/ bx + bw == ax \/ ay + ah == by_ \/ by_ + bh == ay ->
  rectsOverlap ax ay aw ah bx by_ bw bh = false.
Proof.
  intros Htouch. apply not_true_iff_false.
  rewrite rectsOverlap_spans, andb_true_iff, !spansOverlap_iff. lra.
Qed.

(** For rectangles of positive width and height, the predicate holds exactly
    when the two interiors have a common point. *)
Theorem rectsOverlap_common_point (ax ay aw ah bx by_ bw bh : Q) :
  0 < aw -> 0 < ah -> 0 < bw -> 0 < bh ->
  rectsOverlap ax ay aw ah bx by_ bw bh = true <->
  exists px py,
    (ax < px /\ px < ax + aw) /\ (ay < py /\ py < ay + ah) /\
    (bx < px /\ px < bx + bw) /\ (by_ < py /\ py < by_ + bh).
Proof.
  intros. rewrite rectsOverlap_spans, andb_true_iff.
  rewrite !spansOverlap_point by done. split.
  - intros [(px & ? & ?) (py & ? & ?)]. by exists px, py.
  - intros (px & py & ? & ? & ? & ?). split; [by exists px|by exists py].
Qed.

#[export] Instance rectsOverlap_proper :
  Proper (Qeq ==> Qeq ==> Qeq ==> Qeq ==> Qeq ==> Qeq ==> Qeq ==> Qeq ==> eq)
    (@rectsOverlap Q _).
Proof.
  intros ax ax' Eax ay ay' Eay aw aw' Eaw ah ah' Eah
    bx bx' Ebx by_ by_' Eby bw bw' Ebw bh bh' Ebh.
  unfold rectsOverlap. qnum_unfold.
  by rewrite Eax, Eay, Eaw, Eah, Ebx, Eby, Ebw, Ebh.
Qed.

End OverlapQ.

(** ** Concrete instances *)

(** The mouth at (112, 50) against a top tooth at x = 100 of height 100. *)
Lemma rectsOverlap_common_point_witness :
  rectsOverlap 112 50 32 32 100 0 70 100 = true <->
  exists px py,
    (112 < px /\ px < 112 + 32) /\ (50 < py /\ py < 50 + 32) /\
    (100 < px /\ px < 100 + 70) /\ (0 < py /\ py < 0 + 100).
Proof. apply rectsOverlap_common_point; reflexivity. Defined.

(** The mouth just left of a tooth: its right edge is the tooth's left
    edge. *)
Lemma rectsOverlap_touching_witness :
  rectsOverlap 68 50 32 32 100 0 70 100 = false.
Proof. apply rectsOverlap_touching. left. reflexivity. Defined.
