(* ===== verification/State.v ===== *)
(** * State: the variables of the game and of its host

    [Pipe] is the object literal that [spawnPipe] pushes (part_000 lines
    231-237); [Game] holds the script-level variables of lines 160-174;
    [Host] holds the page around the game: the canvas size,
    [localStorage], how many times [Math.random()] was called, how many
    [requestAnimationFrame] callbacks and how many timers of [setTimeout]
    are pending, the images, and the landing page ([showLanding], line 26,
    and the [display] styles of the two containers).  [World] is the pair.
    Assignments to one variable are the setters [set_*]; [resetGame] is the
    function of lines 181-190. *)

From stdpp Require Export gmap strings.
From S2P Require Import Prelude Rational Config Assets.

#[local] Open Scope js_scope.

(** ** Data *)

(** One pair of teeth: [{ x, width, topHeight, gap, passed }]. *)
Record Pipe (N : Type) : Type := mkPipe {
  pipe_x : N;
  pipe_width : N;
  topHeight : N;
  gap : N;
  passed : bool;
}.
Arguments mkPipe {N}.
Arguments pipe_x {N}.
Arguments pipe_width {N}.
Arguments topHeight {N}.
Arguments gap {N}.
Arguments passed {N}.

(** The value of [best].  It is read from [localStorage] through [Number],
    which yields NaN for a string that is not a numeric literal and an
    infinity for the literal [Infinity]; every other number of the game is
    computed from finite values. *)
Inductive Best (N : Type) : Type :=
| BestNum (b : N)
| BestInf (negative : bool)
| BestNaN.
Arguments BestNum {N}.
Arguments BestInf {N}.
Arguments BestNaN {N}.

(** The script-level variables of the game, lines 160-174. *)
Record Game (N : Type) : Type := mkGame {
  mouthY : N;
  mouthX : N;
  mouthVelY : N;
  pipes : list (Pipe N);
  lastPipeAt : N;
  score : Z;
  best : Best N;
  isRunning : bool;
  isGameOver : bool;
  lastTimestamp : N;
  backgroundOffset : N;
}.
Arguments mkGame {N}.
Arguments mouthY {N}.
Arguments mouthX {N}.
Arguments mouthVelY {N}.
Arguments pipes {N}.
Arguments lastPipeAt {N}.
Arguments score {N}.
Arguments best {N}.
Arguments isRunning {N}.
Arguments isGameOver {N}.
Arguments lastTimestamp {N}.
Arguments backgroundOffset {N}.

(** The page around the game variables.  [landingDisplay] and
    [gameDisplay] are the inline [style.display] of the elements
    [landing-page] and [game-container]. *)
Record Host : Type := mkHost {
  canvas : Canvas;
  localStorage : gmap string string;
  randomCalls : nat;
  animationFrames : nat;
  timeouts : nat;
  assets : Assets;
  showLanding : bool;
  landingDisplay : string;
  gameDisplay : string;
}.

(** The browser when the script reaches its last statement: no draw, no
    callback, no timer, the images loading, the landing page shown, no
    inline style. *)
Definition initial_host (cv : Canvas) (storage : gmap string string)
    (tongue : option ImageState) : Host :=
  mkHost cv storage 0 0 0 (initial_assets tongue) true "" "".

Record World (N : Type) : Type := mkWorld {
  game : Game N;
  host : Host;
}.
Arguments mkWorld {N}.
Arguments game {N}.
Arguments host {N}.

(** The key of the best score in [localStorage]. *)
Definition BEST_KEY : string := "mouth_trap_best".

Section Setters.
Context {N : Type}.
Implicit Types (g : Game N) (p : Pipe N) (h : Host) (w : World N) (v : N).

(** ** Assignments *)

Definition set_pipe_x v p : Pipe N :=
  mkPipe v (pipe_width p) (topHeight p) (gap p) (passed p).
Definition set_passed (b : bool) p : Pipe N :=
  mkPipe (pipe_x p) (pipe_width p) (topHeight p) (gap p) b.

Definition set_mouthY v g : Game N :=
  mkGame v (mouthX g) (mouthVelY g) (pipes g) (lastPipeAt g) (score g)
    (best g) (isRunning g) (isGameOver g) (lastTimestamp g) (backgroundOffset g).
Definition set_mouthX v g : Game N :=
  mkGame (mouthY g) v (mouthVelY g) (pipes g) (lastPipeAt g) (score g)
    (best g) (isRunning g) (isGameOver g) (lastTimestamp g) (backgroundOffset g).
Definition set_mouthVelY v g : Game N :=
  mkGame (mouthY g) (mouthX g) v (pipes g) (lastPipeAt g) (score g)
    (best g) (isRunning g) (isGameOver g) (lastTimestamp g) (backgroundOffset g).
Definition set_pipes (ps : list (Pipe N)) g : Game N :=
  mkGame (mouthY g) (mouthX g) (mouthVelY g) ps (lastPipeAt g) (score g)
    (best g) (isRunning g) (isGameOver g) (lastTimestamp g) (backgroundOffset g).
Definition set_lastPipeAt v g : Game N :=
  mkGame (mouthY g) (mouthX g) (mouthVelY g) (pipes g) v (score g)
    (best g) (isRunning g) (isGameOver g) (lastTimestamp g) (backgroundOffset g).
Definition set_score (s : Z) g : Game N :=
  mkGame (mouthY g) (mouthX g) (mouthVelY g) (pipes g) (lastPipeAt g) s
    (best g) (isRunning g) (isGameOver g) (lastTimestamp g) (backgroundOffset g).
Definition set_best (b : Best N) g : Game N :=
  mkGame (mouthY g) (mouthX g) (mouthVelY g) (pipes g) (lastPipeAt g) (score g)
    b (isRunning g) (isGameOver g) (lastTimestamp g) (backgroundOffset g).
Definition set_isRunning (b : bool) g : Game N :=
  mkGame (mouthY g) (mouthX g) (mouthVelY g) (pipes g) (lastPipeAt g) (score g)
    (best g) b (isGameOver g) (lastTimestamp g) (backgroundOffset g).
Definition set_isGameOver (b : bool) g : Game N :=
  mkGame (mouthY g) (mouthX g) (mouthVelY g) (pipes g) (lastPipeAt g) (score g)
    (best g) (isRunning g) b (lastTimestamp g) (backgroundOffset g).
Definition set_lastTimestamp v g : Game N :=
  mkGame (mouthY g) (mouthX g) (mouthVelY g) (pipes g) (lastPipeAt g) (score g)
    (best g) (isRunning g) (isGameOver g) v (backgroundOffset g).
Definition set_backgroundOffset v g : Game N :=
  mkGame (mouthY g) (mouthX g) (mouthVelY g) (pipes g) (lastPipeAt g) (score g)
    (best g) (isRunning g) (isGameOver g) (lastTimestamp g) v.

Definition set_canvas (c : Canvas) h : Host :=
  mkHost c (localStorage h) (randomCalls h) (animationFrames h) (timeouts h)
    (assets h) (showLanding h) (landingDisplay h) (gameDisplay h).
Definition set_localStorage (m : gmap string string) h : Host :=
  mkHost (canvas h) m (randomCalls h) (animationFrames h) (timeouts h)
    (assets h) (showLanding h) (landingDisplay h) (gameDisplay h).
Definition set_randomCalls (n : nat) h : Host :=
  mkHost (canvas h) (localStorage h) n (animationFrames h) (timeouts h)
    (assets h) (showLanding h) (landingDisplay h) (gameDisplay h).
Definition set_animationFrames (n : nat) h : Host :=
  mkHost (canvas h) (localStorage h) (randomCalls h) n (timeouts h)
    (assets h) (showLanding h) (landingDisplay h) (gameDisplay h).
Definition set_timeouts (n : nat) h : Host :=
  mkHost (canvas h) (localStorage h) (randomCalls h) (animationFrames h) n
    (assets h) (showLanding h) (landingDisplay h) (gameDisplay h).
Definition set_assets (a : Assets) h : Host :=
  mkHost (canvas h) (localStorage h) (randomCalls h) (animationFrames h)
    (timeouts h) a (showLanding h) (landingDisplay h) (gameDisplay h).
Definition set_showLanding (b : bool) h : Host :=
  mkHost (canvas h) (localStorage h) (randomCalls h) (animationFrames h)
    (timeouts h) (assets h) b (landingDisplay h) (gameDisplay h).
Definition set_landingDisplay (d : string) h : Host :=
  mkHost (canvas h) (localStorage h) (randomCalls h) (animationFrames h)
    (timeouts h) (assets h) (showLanding h) d (gameDisplay h).
Definition set_gameDisplay (d : string) h : Host :=
  mkHost (canvas h) (localStorage h) (randomCalls h) (animationFrames h)
    (timeouts h) (assets h) (showLanding h) (landingDisplay h) d.

(** The part of the host that the simulation never touches. *)
Definition page_of h : nat * Assets * bool * string * string :=
  (timeouts h, assets h, showLanding h, landingDisplay h, gameDisplay h).

Lemma page_of_assets h h' : page_of h' = page_of h -> assets h' = assets h.
Proof. unfold page_of. congruence. Qed.

(** A change of the game variables, or of the host, inside a world. *)
Definition on_game (f : Game N -> Game N) w : World N :=
  mkWorld (f (game w)) (host w).
Definition on_host (f : Host -> Host) w : World N :=
  mkWorld (game w) (f (host w)).

End Setters.

(** Evaluate setters and projections, and nothing else.  Whole records that
    stack several setters are normalised lazily: [cbn] and [simpl] take
    time exponential in the depth of the stack. *)
Ltac state_simpl :=
  lazy beta iota zeta delta
    [set_pipe_x set_passed set_mouthY set_mouthX set_mouthVelY set_pipes
     set_lastPipeAt set_score set_best set_isRunning set_isGameOver
     set_lastTimestamp set_backgroundOffset set_canvas set_localStorage
     set_randomCalls set_animationFrames set_timeouts set_assets
     set_showLanding set_landingDisplay set_gameDisplay on_game on_host
     pipe_x pipe_width topHeight gap passed
     mouthY mouthX mouthVelY pipes lastPipeAt score best isRunning
     isGameOver lastTimestamp backgroundOffset
     canvas localStorage randomCalls animationFrames timeouts assets
     showLanding landingDisplay gameDisplay page_of game host
     canvas_width canvas_height] in *.

(** The same on projections of records that are not in constructor form:
    a projection of a variable is left alone. *)
Ltac proj_simpl :=
  cbn [set_pipe_x set_passed set_mouthY set_mouthX set_mouthVelY set_pipes
     set_lastPipeAt set_score set_best set_isRunning set_isGameOver
     set_lastTimestamp set_backgroundOffset set_canvas set_localStorage
     set_randomCalls set_animationFrames set_timeouts set_assets
     set_showLanding set_landingDisplay set_gameDisplay on_game on_host
     pipe_x pipe_width topHeight gap passed
     mouthY mouthX mouthVelY pipes lastPipeAt score best isRunning
     isGameOver lastTimestamp backgroundOffset
     canvas localStorage randomCalls animationFrames timeouts assets
     showLanding landingDisplay gameDisplay game host
     canvas_width canvas_height negb] in *.

Section SetterLaws.
Context {N : Type}.
Implicit Types (g : Game N) (w : World N) (ps : list (Pipe N)).

Lemma on_game_set_pipes_same w : on_game (set_pipes (pipes (game w))) w = w.
Proof. by destruct w as [[] ?]. Qed.

Lemma on_game_set_pipes_twice ps ps' w :
  on_game (set_pipes ps) (on_game (set_pipes ps') w) = on_game (set_pipes ps) w.
Proof. by destruct w as [[] ?]. Qed.

Lemma pipes_on_game_set_pipes ps w : pipes (game (on_game (set_pipes ps) w)) = ps.
Proof. done. Qed.

Lemma host_on_game (f : Game N -> Game N) w : host (on_game f w) = host w.
Proof. done. Qed.

Lemma game_on_host (f : Host -> Host) w : game (on_host f w) = game w.
Proof. done. Qed.

End SetterLaws.

Section Reset.
Context {N : Type} `{JsNumber N}.
Implicit Types (g : Game N) (cv : Canvas).

(** ** Initial state and reset *)

(** The initialisers of lines 160-174, run after the first [resizeCanvas].
    [b] is the number read from [localStorage] at line 170. *)
Definition initial_game cv (b : Best N) : Game N := {|
  mouthY := ofZ (canvas_height cv) / ofZ 2;
  mouthX := ofZ (canvas_width cv) * (ofZ 7 / ofZ 25);
  mouthVelY := ofZ 0;
  pipes := [];
  lastPipeAt := ofZ 0;
  score := 0;
  best := b;
  isRunning := false;
  isGameOver := false;
  lastTimestamp := ofZ 0;
  backgroundOffset := ofZ 0;
|}.

(** [resetGame()], lines 181-190: eight assignments; [best], [isRunning]
    and [lastTimestamp] are not touched. *)
Definition resetGame cv g : Game N :=
  let g := set_mouthY (ofZ (canvas_height cv) / ofZ 2) g in
  let g := set_mouthX (ofZ (canvas_width cv) * (ofZ 7 / ofZ 25)) g in
  let g := set_mouthVelY (ofZ 0) g in
  let g := set_pipes [] g in
  let g := set_lastPipeAt (ofZ 0) g in
  let g := set_score 0 g in
  let g := set_isGameOver false g in
  set_backgroundOffset (ofZ 0) g.

(** ** What reset does *)

(** Reset gives the initial variables back, except for the three it does
    not assign. *)
Lemma resetGame_initial cv g :
  resetGame cv g
  = set_lastTimestamp (lastTimestamp g)
      (set_isRunning (isRunning g) (initial_game cv (best g))).
Proof. unfold resetGame, initial_game. by state_simpl. Qed.

Lemma resetGame_idemp cv g : resetGame cv (resetGame cv g) = resetGame cv g.
Proof. unfold resetGame. by state_simpl. Qed.

End Reset.

#[export] Hint Unfold set_pipe_x set_passed set_mouthY set_mouthX set_mouthVelY
  set_pipes set_lastPipeAt set_score set_best set_isRunning set_isGameOver
  set_lastTimestamp set_backgroundOffset set_canvas set_localStorage
  set_randomCalls set_animationFrames on_game on_host : js_unfold.
