(* ===== verification/Physics.v ===== *)
(** * Physics: gravity and the two clamps

    The first block of [update] (part_000 lines 252-265): the velocity
    grows by [GRAVITY], the position by the velocity, the ceiling stops the
    tongue, the ground stops it and ends the game.  The steps are separate
    definitions composed in the code's order.

    For every number instance the block touches three variables only and
    never clears [isGameOver].  For every instance with the order laws,
    doubles included, neither of the two tests of the block is true of the
    position it leaves, when the ground line is not above the ceiling.  At
    the rational instance, on a canvas at least 112 pixels high, the tongue
    ends every tick inside [0, groundY]; on a lower canvas it cannot, and
    the first tick ends the game. *)

From S2P Require Import Prelude Rational Config State.

#[local] Open Scope js_scope.

Section Physics.
Context {N : Type} `{JsNumber N}.
Implicit Types (g : Game N) (cv : Canvas).

(** [mouthVelY += GRAVITY; mouthY += mouthVelY;] *)
Definition fall g : Game N :=
  let g := set_mouthVelY (mouthVelY g + GRAVITY) g in
  set_mouthY (mouthY g + mouthVelY g) g.

(** [if (mouthY < 0) { mouthY = 0; mouthVelY = 0; }] *)
Definition clampCeiling g : Game N :=
  if mouthY g <? ofZ 0 then set_mouthVelY (ofZ 0) (set_mouthY (ofZ 0) g)
  else g.

(** [const groundY = canvas.height - GROUND_HEIGHT - MOUTH_SIZE;] *)
Definition groundY cv : N :=
  ofZ (canvas_height cv) - GROUND_HEIGHT - MOUTH_SIZE.

(** [if (mouthY > groundY) { mouthY = groundY; isGameOver = true; }] *)
Definition clampGround cv g : Game N :=
  if mouthY g >? groundY cv
  then set_isGameOver true (set_mouthY (groundY cv) g)
  else g.

(** Lines 252-265 in order. *)
Definition physics cv g : Game N := clampGround cv (clampCeiling (fall g)).

(** ** The frame of the block *)

(** The variables the block never assigns. *)
Definition same_rest g g' : Prop :=
  mouthX g' = mouthX g /\ pipes g' = pipes g /\
  lastPipeAt g' = lastPipeAt g /\ score g' = score g /\ best g' = best g /\
  isRunning g' = isRunning g /\ lastTimestamp g' = lastTimestamp g /\
  backgroundOffset g' = backgroundOffset g.

Lemma physics_frame cv g : same_rest g (physics cv g).
Proof.
  unfold physics, clampGround, clampCeiling, fall, same_rest.
  repeat case_if; by state_simpl.
Qed.

(** The block sets [isGameOver] or leaves it: it is true afterwards exactly
    when it was true before or the ground was hit. *)
Lemma physics_isGameOver cv g :
  isGameOver (physics cv g)
  = isGameOver g || (mouthY (clampCeiling (fall g)) >? groundY cv).
Proof.
  unfold physics, clampGround. case_if; state_simpl.
  - by rewrite orb_true_r.
  - rewrite orb_false_r. unfold clampCeiling, fall. by case_if.
Qed.

Lemma physics_keeps_over cv g :
  isGameOver g = true -> isGameOver (physics cv g) = true.
Proof. intros Hover. by rewrite physics_isGameOver, Hover. Qed.

End Physics.

(** ** The clamps on every ordered instance *)

Section PhysicsOrdered.
Context {N : Type} `{JsOrdered N}.
Implicit Types (g : Game N) (cv : Canvas).

(** The position after the block is the one gravity gave, or the ceiling,
    or the ground line. *)
Lemma physics_mouthY cv g :
  mouthY (physics cv g) = mouthY (fall g) \/
  mouthY (physics cv g) = ofZ 0 \/
  mouthY (physics cv g) = groundY cv.
Proof.
  unfold physics, clampGround, clampCeiling.
  repeat case_if; state_simpl; auto.
Qed.

(** Whatever the numbers are, doubles with their rounding and NaN included:
    when the ground line is not above the ceiling, the tongue is, after the
    block, neither above the ceiling nor below the ground line, as the
    comparisons of the code see it. *)
Lemma physics_clamps cv g :
  (groundY cv <? ofZ 0) = false ->
  (mouthY (physics cv g) <? ofZ 0) = false /\
  (mouthY (physics cv g) >? groundY cv) = false.
Proof.
  intros Hg. unfold physics, clampGround.
  assert (Hc : (mouthY (clampCeiling (fall g)) <? ofZ 0) = false).
  { unfold clampCeiling. destruct (mouthY (fall g) <? ofZ 0) eqn:Hc; [|done].
    proj_simpl. apply ltb_irrefl. }
  destruct (mouthY (clampCeiling (fall g)) >? groundY cv) eqn:Hd; [|done].
  proj_simpl. by rewrite ltb_irrefl.
Qed.

End PhysicsOrdered.

#[export] Hint Unfold physics clampGround clampCeiling fall groundY : js_unfold.

#[local] Open Scope Q_scope.

Section PhysicsQ.
Implicit Types (g : Game Q) (cv : Canvas).

(** The position the tongue would reach with no clamp. *)
Definition target g : Q := mouthY g + (mouthVelY g + GRAVITY).

Lemma groundY_Q cv : groundY cv == inject_Z (canvas_height cv) - 112.
Proof. unfold groundY. lraQ_js. Qed.

(** The three outcomes of a tick, on a canvas whose ground line is not
    above the ceiling. *)
Lemma physics_cases cv g :
  0 <= groundY cv ->
  (target g < 0 /\ mouthY (physics cv g) == 0 /\ mouthVelY (physics cv g) == 0
     /\ isGameOver (physics cv g) = isGameOver g)
  \/ (0 <= target g <= groundY cv /\ mouthY (physics cv g) == target g
     /\ mouthVelY (physics cv g) == mouthVelY g + GRAVITY
     /\ isGameOver (physics cv g) = isGameOver g)
  \/ (groundY cv < target g /\ mouthY (physics cv g) == groundY cv
     /\ mouthVelY (physics cv g) == mouthVelY g + GRAVITY
     /\ isGameOver (physics cv g) = true).
Proof.
  intros Hg. unfold physics, clampGround, clampCeiling, fall, target, groundY in *.
  state_simpl. destruct_ltb; state_simpl; destruct_ltb; state_simpl.
  all: first
    [ left; split_and!; [lraQ_js..|done]
    | right; left; split_and!; [lraQ_js..|done]
    | right; right; split_and!; [lraQ_js..|done]
    | exfalso; lraQ_js ].
Qed.

(** The velocity after the block: grown by gravity, or zeroed by the
    ceiling.  No canvas is too low for this. *)
Lemma physics_velocity cv g :
  mouthVelY (physics cv g) == mouthVelY g + GRAVITY \/
  mouthVelY (physics cv g) == 0.
Proof.
  unfold physics, clampGround, clampCeiling, fall. state_simpl.
  destruct_ltb; state_simpl; destruct_ltb; state_simpl;
    first [by left | by right].
Qed.

Lemma physics_in_playfield cv g :
  (112 <= canvas_height cv)%Z ->
  0 <= mouthY (physics cv g) /\ mouthY (physics cv g) <= groundY cv.
Proof.
  intros Hh. assert (Hg : 0 <= groundY cv) by (rewrite groundY_Q; lraQ).
  destruct (physics_cases cv g Hg) as [(?&E&_)|[(?&E&_)|(?&E&_)]];
    rewrite E; lra.
Qed.

(** On a canvas at least 112 pixels high (ground strip plus sprite),
    the tongue is inside [0, groundY] after the physics block, whatever its
    position and velocity were before. *)
Theorem physics_bounds cv g :
  (112 <= canvas_height cv)%Z ->
  0 <= mouthY (physics cv g) /\ mouthY (physics cv g) <= groundY cv.
Proof. apply physics_in_playfield. Qed.

(** Ground contact is fatal and nothing else in the block is: the game
    is over after the block exactly when it was over before or the
    unclamped position lies below the ground line. *)
Theorem physics_ground_fatal cv g :
  (112 <= canvas_height cv)%Z ->
  isGameOver (physics cv g) = true <->
  isGameOver g = true \/ groundY cv < target g.
Proof.
  intros Hh. assert (Hg : 0 <= groundY cv) by (rewrite groundY_Q; lraQ).
  destruct (physics_cases cv g Hg) as [(?&_&_&E)|[(?&_&_&E)|(?&_&_&E)]];
    rewrite E; intuition lra.
Qed.

(** The ceiling stops the tongue and does not end the game. *)
Theorem physics_ceiling cv g :
  (112 <= canvas_height cv)%Z -> target g < 0 ->
  mouthY (physics cv g) == 0 /\ mouthVelY (physics cv g) == 0 /\
  isGameOver (physics cv g) = isGameOver g.
Proof.
  intros Hh Ht. assert (Hg : 0 <= groundY cv) by (rewrite groundY_Q; lraQ).
  destruct (physics_cases cv g Hg) as [(?&?&?&?)|[(?&_)|(?&_)]];
    [done|lra..].
Qed.

(** While it falls, the tongue moves down by its new velocity, or stops on
    the ground: its position never decreases, and increases strictly until
    the ground is reached. *)
Theorem physics_falls cv g :
  (112 <= canvas_height cv)%Z ->
  0 < mouthVelY g + GRAVITY -> 0 <= mouthY g -> mouthY g < groundY cv ->
  mouthY g < mouthY (physics cv g).
Proof.
  intros Hh Hv Hy Hlt. assert (Hg : 0 <= groundY cv) by lra.
  unfold target in *.
  destruct (physics_cases cv g Hg) as [(?&E&_)|[(?&E&_)|(?&E&_)]];
    unfold target in *; rewrite E; lra.
Qed.

(** C39. On a canvas lower than 112 pixels the ground line is above the
    ceiling: the first tick ends the game with the tongue above the
    canvas. *)
Theorem physics_low_canvas cv g :
  (canvas_height cv < 112)%Z ->
  isGameOver (physics cv g) = true /\ mouthY (physics cv g) < 0.
Proof.
  intros Hh. assert (Hg : groundY cv < 0) by (rewrite groundY_Q; lraQ).
  unfold physics, clampGround, clampCeiling, fall, groundY in *.
  state_simpl. destruct_ltb; state_simpl; destruct_ltb; state_simpl;
    first [split; [done|lraQ_js] | exfalso; lraQ_js].
Qed.

End PhysicsQ.

(** ** Concrete instances *)

(** A portrait canvas and a fresh game on it. *)
Definition canvas_400x600 : Canvas := mkCanvas 400 600.
Definition fresh_400x600 : Game Q := initial_game canvas_400x600 (BestNum 0).

Lemma physics_bounds_witness :
  0 <= mouthY (physics canvas_400x600 fresh_400x600) /\
  mouthY (physics canvas_400x600 fresh_400x600) <= groundY canvas_400x600.
Proof. apply physics_bounds. simpl. lia. Defined.

Lemma physics_ground_fatal_witness :
  isGameOver (physics canvas_400x600 fresh_400x600) = true <->
  isGameOver fresh_400x600 = true \/
  groundY canvas_400x600 < target fresh_400x600.
Proof. apply physics_ground_fatal. simpl. lia. Defined.

Lemma physics_low_canvas_witness :
  isGameOver (physics (mkCanvas 400 100) fresh_400x600) = true /\
  mouthY (physics (mkCanvas 400 100) fresh_400x600) < 0.
Proof. apply physics_low_canvas. simpl. lia. Defined.

(** The tongue 2 pixels under the ceiling, rising at 10 pixels a frame. *)
Definition rising_400x600 : Game Q :=
  set_mouthVelY (-10) (set_mouthY 2 fresh_400x600).

Lemma physics_ceiling_witness :
  mouthY (physics canvas_400x600 rising_400x600) == 0 /\
  mouthVelY (physics canvas_400x600 rising_400x600) == 0 /\
  isGameOver (physics canvas_400x600 rising_400x600)
  = isGameOver rising_400x600.
Proof. apply physics_ceiling; by vm_compute. Defined.

Lemma physics_falls_witness :
  mouthY fresh_400x600 < mouthY (physics canvas_400x600 fresh_400x600).
Proof. apply physics_falls; by vm_compute. Defined.
