(* ===== verification/Pipes.v ===== *)
(** * Pipes: spawning, scrolling, scoring and collision

    [spawnPipe] (part_000 lines 216-238) and the loop over the pipes in
    [update] (lines 268-315).  The loop is modelled as the code runs it: the
    index goes down from [pipes.length - 1], the pipe object at the index is
    mutated in place ([write_pipe]) or removed ([splice_pipe]), and the
    score, the best score, [localStorage] and [isGameOver] change on the
    way.  [pipes_pass] is the same computation as one fold over the list,
    with no index; the two are proved equal for every number instance, and
    the remaining theorems are read off the fold. *)

From stdpp Require Import pretty.
From S2P Require Import Prelude Rational Config Geometry State Physics.

#[local] Open Scope js_scope.

Section Pipes.
Context {N : Type} `{JsNumber N}.
Implicit Types (p : Pipe N) (g : Game N) (w : World N) (i : nat).

(** ** spawnPipe *)

(** [Math.random()]: the draws are a function of the call number, fixed
    for the section; the host counts the calls. *)
Variable random : nat -> N.

(** [String(best)] for the integer that [best] holds when it is written. *)
Definition number_to_string (z : Z) : string := pretty z.

(** Lines 217-237: the object that [spawnPipe] pushes.  Two draws: the gap
    size, then the height of the top tooth. *)
Definition new_pipe w : Pipe N :=
  let c := randomCalls (host w) in
  let gap := PIPE_GAP_MIN + random c * (PIPE_GAP_MAX - PIPE_GAP_MIN) in
  let topLimit := ofZ 40 in
  let bottomLimit :=
    ofZ (canvas_height (canvas (host w))) - GROUND_HEIGHT - ofZ 40 - gap in
  let topHeight := topLimit + random (S c) * (bottomLimit - topLimit) in
  let x := ofZ (canvas_width (canvas (host w))) + PIPE_WIDTH in
  mkPipe x PIPE_WIDTH topHeight gap false.

(** [spawnPipe()], lines 216-238: the new pipe goes to the end of the
    array; [Math.random] has been called twice. *)
Definition spawnPipe w : World N :=
  let p := new_pipe w in
  let w := on_host (fun h => set_randomCalls (S (S (randomCalls h))) h) w in
  on_game (fun g => set_pipes (pipes g ++ [p]) g) w.

(** ** The body of the loop *)

(** [pipes[i] = p], the effect of mutating the object [pipes[i]]. *)
Definition write_pipe i p w : World N :=
  on_game (fun g => set_pipes (<[i := p]> (pipes g)) g) w.

(** [pipes.splice(i, 1)]. *)
Definition splice_pipe i w : World N :=
  on_game (fun g => set_pipes (delete i (pipes g)) g) w.

(** [p.x -= SCROLL_SPEED;] *)
Definition move_pipe p : Pipe N := set_pipe_x (pipe_x p - SCROLL_SPEED) p.

(** [p.x + p.width < -10] *)
Definition offscreen p : bool := pipe_x p + pipe_width p <? ofZ (-10).

(** [const mouthCenter = mouthX + MOUTH_SIZE / 2;] *)
Definition mouthCenter g : N := mouthX g + MOUTH_SIZE / ofZ 2.

(** [const pipeCenter = p.x + p.width / 2;] *)
Definition pipeCenter p : N := pipe_x p + pipe_width p / ofZ 2.

(** [score > best]; false when [best] is NaN, and when it is Infinity. *)
Definition score_gt_best (s : Z) (b : Best N) : bool :=
  match b with
  | BestNum b => b <? ofZ s
  | BestInf negative => negative
  | BestNaN => false
  end.

(** No score exceeds [b]: the comparison of line 283 fails whatever the
    score is.  NaN and Infinity are such values. *)
Definition frozen (b : Best N) : Prop := forall s, score_gt_best s b = false.

(** Lines 283-286: [if (score > best) { best = score;
    localStorage.setItem('mouth_trap_best', String(best)); }] *)
Definition record_best w : World N :=
  if score_gt_best (score (game w)) (best (game w)) then
    let w := on_game (fun g => set_best (BestNum (ofZ (score g))) g) w in
    on_host (fun h =>
      set_localStorage
        (<[BEST_KEY := number_to_string (score (game w))]> (localStorage h)) h) w
  else w.

(** [!p.passed && pipeCenter < mouthCenter] *)
Definition newly_passed g p : bool :=
  negb (passed p) && (pipeCenter p <? mouthCenter g).

(** Lines 278-287: scoring when the mouth passes the pipe's centre. *)
Definition score_pipe i p w : World N :=
  if newly_passed (game w) p then
    let w := write_pipe i (set_passed true p) w in
    let w := on_game (fun g => set_score (score g + 1) g) w in
    record_best w
  else w.

(** The two calls of [rectsOverlap], lines 290-311. *)
Definition hits (cv : Canvas) g p : bool :=
  let mouthTop := mouthY g in
  let topRectCollide :=
    rectsOverlap (mouthX g) mouthTop MOUTH_SIZE MOUTH_SIZE
      (pipe_x p) (ofZ 0) (pipe_width p) (topHeight p) in
  let bottomRectCollide :=
    rectsOverlap (mouthX g) mouthTop MOUTH_SIZE MOUTH_SIZE
      (pipe_x p) (topHeight p + gap p) (pipe_width p)
      (ofZ (canvas_height cv) - GROUND_HEIGHT - (topHeight p + gap p)) in
  topRectCollide || bottomRectCollide.

(** Lines 289-314: [if (topRectCollide || bottomRectCollide)
    isGameOver = true;] *)
Definition collide_pipe p w : World N :=
  if hits (canvas (host w)) (game w) p
  then on_game (set_isGameOver true) w
  else w.

(** One iteration, lines 270-314.  [pipes[i]] is proved below to be
    defined whenever an iteration starts; were it [undefined], [p.x] would
    throw; the [None] branch is never taken. *)
Definition pipe_body i w : World N :=
  match pipes (game w) !! i with
  | None => w
  | Some p =>
    let p := move_pipe p in
    let w := write_pipe i p w in
    if offscreen p then splice_pipe i w
    else collide_pipe p (score_pipe i p w)
  end.

(** Lines 269-315: [for (let i = pipes.length - 1; i >= 0; i--)]. *)
Definition pipes_loop w : World N :=
  for_down (length (pipes (game w))) pipe_body w.

(** Line 268: [backgroundOffset = (backgroundOffset + SCROLL_SPEED) %
    canvas.width;] *)
Definition scroll_background w : World N :=
  on_game (fun g =>
    set_backgroundOffset
      ((backgroundOffset g + SCROLL_SPEED)
         mod ofZ (canvas_width (canvas (host w)))) g) w.

(** ** The loop as a fold *)

(** What one pipe does to the rest of the world: the score, the best score
    and storage when it is newly passed, the game-over flag when it is
    hit.  The pipes field is not read. *)
Definition pipe_effects p w : World N :=
  let w :=
    if newly_passed (game w) p
    then record_best (on_game (fun g => set_score (score g + 1) g) w)
    else w in
  collide_pipe p w.

(** What becomes of one pipe: it moves left, disappears when off screen,
    and is marked once passed. *)
Definition advance_pipe g p : option (Pipe N) :=
  let p := move_pipe p in
  if offscreen p then None
  else Some (if newly_passed g p then set_passed true p else p).

(** One step of the fold: [acc] holds the pipes to the right, already
    processed. *)
Definition pass_step p (acc : World N) : World N :=
  match advance_pipe (game acc) p with
  | None => acc
  | Some p' =>
    let rest := pipes (game acc) in
    on_game (fun g => set_pipes (p' :: rest) g)
      (pipe_effects (move_pipe p) acc)
  end.

Definition pipes_pass w : World N :=
  foldr pass_step (on_game (set_pipes []) w) (pipes (game w)).

End Pipes.

#[export] Hint Unfold new_pipe spawnPipe write_pipe splice_pipe move_pipe offscreen mouthCenter
  pipeCenter record_best newly_passed score_pipe hits collide_pipe
  scroll_background pipe_effects advance_pipe pass_step : js_unfold.

(** ** The loop is the fold *)

Section LoopIsFold.
Context {N : Type} `{JsNumber N}.
Implicit Types (p : Pipe N) (g : Game N) (w : World N) (i : nat).
Implicit Types (front back : list (Pipe N)).

(** The iteration at the boundary between the pipes still to visit and the
    pipes done is one step of the fold. *)
Lemma pipe_body_snoc front p back w :
  pipes (game w) = front ++ p :: back ->
  pipe_body (length front) w
  = (let acc := pass_step p (on_game (set_pipes back) w) in
     on_game (set_pipes (front ++ pipes (game acc))) acc).
Proof.
  destruct w as [[y x v ps t s b r o ts off] [cv st rc af tm im sl ld gd]].
  cbn [game pipes]. intros ->.
  unfold pipe_body. cbn [game pipes]. rewrite lookup_app_at_length.
  unfold pass_step, advance_pipe, pipe_effects, score_pipe, collide_pipe,
    record_best, write_pipe, splice_pipe, newly_passed, hits, mouthCenter,
    move_pipe.
  destruct p as [px pw pt pg pp]. state_simpl.
  repeat (case_if; state_simpl);
    rewrite ?insert_app_at_length, ?delete_app_at_length;
    first [reflexivity|congruence].
Qed.

Lemma for_down_pipe_body front back w :
  pipes (game w) = front ++ back ->
  for_down (length front) pipe_body w
  = foldr pass_step (on_game (set_pipes back) w) front.
Proof.
  revert back w. induction front as [|p front IH] using rev_ind;
    intros back w Hw.
  - simpl in *. by rewrite <- Hw, on_game_set_pipes_same.
  - rewrite length_app, Nat.add_1_r, foldr_snoc. simpl.
    rewrite <- app_assoc in Hw.
    rewrite (pipe_body_snoc front p back w Hw). cbv zeta.
    rewrite (IH (pipes (game (pass_step p (on_game (set_pipes back) w))))).
    + by rewrite on_game_set_pipes_twice, on_game_set_pipes_same.
    + done.
Qed.

Lemma pipes_loop_fold w :
  pipes_loop w = foldr pass_step (on_game (set_pipes []) w) (pipes (game w)).
Proof.
  unfold pipes_loop. apply for_down_pipe_body. by rewrite app_nil_r.
Qed.

(** C1. The reverse loop with in-place removal computes exactly the fold
    [pipes_pass]: the same pipes in the same order, the same score, best
    score, storage and game-over flag.  The statement holds for every
    number instance. *)
Theorem pipes_loop_pass w : pipes_loop w = pipes_pass w.
Proof. apply pipes_loop_fold. Qed.

(** An iteration removes at most the pipe it visits. *)
Lemma pipe_body_length i w :
  i < length (pipes (game w)) -> i <= length (pipes (game (pipe_body i w))).
Proof.
  intros Hi. unfold pipe_body.
  destruct (lookup_lt_is_Some_2 _ _ Hi) as [p Hp]. rewrite Hp.
  unfold score_pipe, collide_pipe, record_best, write_pipe, splice_pipe.
  repeat case_if; state_simpl;
    rewrite ?length_insert, ?length_delete, ?length_insert;
    rewrite ?list_lookup_insert_eq; try done; rewrite ?length_insert; lia.
Qed.

(** C29. Every iteration of the loop finds its pipe: the index is inside
    the array although earlier iterations removed elements, so [p.x] never
    reads [undefined]. *)
Theorem pipes_loop_in_bounds w i t :
  visits pipe_body (length (pipes (game w))) w i t ->
  is_Some (pipes (game t) !! i).
Proof.
  intros Hv. apply lookup_lt_is_Some_2.
  apply (visits_inv (fun n u => n <= length (pipes (game u)))) in Hv
    as [Hi _]; [lia|done|].
  intros j u _ Hj. apply pipe_body_length. lia.
Qed.

End LoopIsFold.

(** ** What the fold computes *)

Section PassFacts.
Context {N : Type} `{JsNumber N}.
Implicit Types (p : Pipe N) (g : Game N) (w acc : World N) (cv : Canvas).
Implicit Types (ps : list (Pipe N)).

(** The pipe is still on screen after its move. *)
Definition survives p : bool := negb (offscreen (move_pipe p)).

(** The pipe is counted in this tick. *)
Definition scores g p : bool := survives p && newly_passed g (move_pipe p).

(** The pipe is hit in this tick. *)
Definition crashes cv g p : bool := survives p && hits cv g (move_pipe p).

(** The loop does not assign these variables. *)
Definition pass_frame w w' : Prop :=
  mouthY (game w') = mouthY (game w) /\ mouthX (game w') = mouthX (game w) /\
  mouthVelY (game w') = mouthVelY (game w) /\
  lastPipeAt (game w') = lastPipeAt (game w) /\
  isRunning (game w') = isRunning (game w) /\
  lastTimestamp (game w') = lastTimestamp (game w) /\
  backgroundOffset (game w') = backgroundOffset (game w) /\
  canvas (host w') = canvas (host w) /\
  randomCalls (host w') = randomCalls (host w) /\
  animationFrames (host w') = animationFrames (host w).

#[export] Instance pass_frame_refl : Reflexive pass_frame.
Proof. intros w. by repeat split. Qed.

#[export] Instance pass_frame_trans : Transitive pass_frame.
Proof.
  intros w1 w2 w3 H12 H23. unfold pass_frame in *.
  destruct_and!. split_and!; congruence.
Qed.

(** The tests of the loop read the player and the canvas only. *)
Lemma newly_passed_ext g g' p :
  mouthX g' = mouthX g -> newly_passed g' p = newly_passed g p.
Proof. unfold newly_passed, mouthCenter. by intros ->. Qed.

Lemma hits_ext cv g g' p :
  mouthX g' = mouthX g -> mouthY g' = mouthY g -> hits cv g' p = hits cv g p.
Proof. unfold hits. by intros -> ->. Qed.

Lemma advance_pipe_ext g g' p :
  mouthX g' = mouthX g -> advance_pipe g' p = advance_pipe g p.
Proof. intros E. unfold advance_pipe. by rewrite (newly_passed_ext _ _ _ E). Qed.

Lemma scores_ext g g' p : mouthX g' = mouthX g -> scores g' p = scores g p.
Proof. intros E. unfold scores. by rewrite (newly_passed_ext _ _ _ E). Qed.

Lemma crashes_ext cv g g' p :
  mouthX g' = mouthX g -> mouthY g' = mouthY g ->
  crashes cv g' p = crashes cv g p.
Proof. intros E1 E2. unfold crashes. by rewrite (hits_ext _ _ _ _ E1 E2). Qed.

(** *** One step *)

Ltac pass_step_cases acc p :=
  destruct acc as [[y x v ps0 t s b r o ts off] [cv0 st rc af tm im sl ld gd]];
  destruct p as [px pw pt pg pp];
  unfold pass_step, advance_pipe, pipe_effects, collide_pipe, record_best,
    scores, crashes, survives, newly_passed, hits, mouthCenter, move_pipe;
  state_simpl; repeat (case_if; state_simpl).

Lemma pass_step_frame p acc : pass_frame acc (pass_step p acc).
Proof. pass_step_cases acc p; by repeat split. Qed.

Lemma pipes_pass_step p acc :
  pipes (game (pass_step p acc))
  = match advance_pipe (game acc) p with
    | Some p' => p' :: pipes (game acc)
    | None => pipes (game acc)
    end.
Proof. unfold pass_step. by destruct (advance_pipe (game acc) p). Qed.

Lemma score_pass_step p acc :
  score (game (pass_step p acc))
  = (score (game acc) + if scores (game acc) p then 1 else 0)%Z.
Proof. pass_step_cases acc p; first [lia|done]. Qed.

Lemma isGameOver_pass_step p acc :
  isGameOver (game (pass_step p acc))
  = isGameOver (game acc) || crashes (canvas (host acc)) (game acc) p.
Proof.
  pass_step_cases acc p;
    rewrite ?orb_true_r, ?orb_false_r; first [done|congruence].
Qed.

Lemma best_pass_step p acc :
  best (game (pass_step p acc))
  = if scores (game acc) p
       && score_gt_best (score (game acc) + 1) (best (game acc))
    then BestNum (ofZ (score (game acc) + 1))
    else best (game acc).
Proof. pass_step_cases acc p; first [done|congruence]. Qed.

Lemma localStorage_pass_step p acc :
  localStorage (host (pass_step p acc))
  = if scores (game acc) p
       && score_gt_best (score (game acc) + 1) (best (game acc))
    then <[BEST_KEY := number_to_string (score (game acc) + 1)]>
           (localStorage (host acc))
    else localStorage (host acc).
Proof. pass_step_cases acc p; first [done|congruence]. Qed.

Lemma pass_step_page p acc :
  page_of (host (pass_step p acc)) = page_of (host acc).
Proof. by pass_step_cases acc p. Qed.

(** *** The whole fold *)

Lemma foldr_pass_page ps acc :
  page_of (host (foldr pass_step acc ps)) = page_of (host acc).
Proof.
  induction ps as [|p ps IH]; simpl; [done|]. by rewrite pass_step_page.
Qed.

Lemma foldr_pass_frame ps acc : pass_frame acc (foldr pass_step acc ps).
Proof.
  induction ps as [|p ps IH]; simpl; [done|].
  etrans; [exact IH|apply pass_step_frame].
Qed.

Lemma pipes_pass_frame w : pass_frame w (pipes_pass w).
Proof.
  unfold pipes_pass.
  etrans; [|apply foldr_pass_frame]. by destruct w as [[] ?].
Qed.

Lemma foldr_pass_pipes ps acc :
  pipes (game (foldr pass_step acc ps))
  = omap (advance_pipe (game acc)) ps ++ pipes (game acc).
Proof.
  induction ps as [|p ps IH]; simpl; [done|].
  destruct (foldr_pass_frame ps acc) as (_ & Ex & _).
  rewrite pipes_pass_step, (advance_pipe_ext _ _ _ Ex), IH.
  by destruct (advance_pipe (game acc) p).
Qed.

Lemma foldr_pass_score ps acc :
  score (game (foldr pass_step acc ps))
  = (score (game acc)
     + Z.of_nat (length (List.filter (scores (game acc)) ps)))%Z.
Proof.
  induction ps as [|p ps IH]; simpl; [lia|].
  destruct (foldr_pass_frame ps acc) as (_ & Ex & _).
  rewrite score_pass_step, (scores_ext _ _ _ Ex), IH.
  destruct (scores (game acc) p); simpl; lia.
Qed.

Lemma foldr_pass_isGameOver ps acc :
  isGameOver (game (foldr pass_step acc ps))
  = isGameOver (game acc)
    || existsb (crashes (canvas (host acc)) (game acc)) ps.
Proof.
  induction ps as [|p ps IH]; simpl; [by rewrite orb_false_r|].
  destruct (foldr_pass_frame ps acc) as (Ey & Ex & _ & _ & _ & _ & _ & Ec & _).
  rewrite isGameOver_pass_step, Ec, (crashes_ext _ _ _ _ Ex Ey), IH.
  rewrite <- orb_assoc. f_equal. apply orb_comm.
Qed.

(** While no score exceeds [best], it stays what it is and storage is
    never written. *)
Lemma foldr_pass_frozen ps acc :
  frozen (best (game acc)) ->
  best (game (foldr pass_step acc ps)) = best (game acc) /\
  localStorage (host (foldr pass_step acc ps)) = localStorage (host acc).
Proof.
  intros Hf. induction ps as [|p ps [IHb IHs]]; simpl; [done|].
  rewrite best_pass_step, localStorage_pass_step, IHb, IHs, Hf.
  by rewrite andb_false_r.
Qed.

End PassFacts.

#[export] Hint Unfold survives scores crashes : js_unfold.

(** ** What the loop does, for every number instance *)

Section LoopFacts.
Context {N : Type} `{JsNumber N}.
Implicit Types (p : Pipe N) (g : Game N) (w : World N) (cv : Canvas).

Lemma pipes_loop_frame w : pass_frame w (pipes_loop w).
Proof. rewrite pipes_loop_fold. apply pipes_pass_frame. Qed.

Lemma pipes_loop_page w : page_of (host (pipes_loop w)) = page_of (host w).
Proof. rewrite pipes_loop_fold. unfold pipes_pass. by rewrite foldr_pass_page. Qed.

(** After the loop the pipes are the old ones in the same order, each
    moved left by [SCROLL_SPEED], without those that left the screen, and
    with [passed] set on those whose centre the mouth has passed. *)
Theorem pipes_loop_pipes w :
  pipes (game (pipes_loop w)) = omap (advance_pipe (game w)) (pipes (game w)).
Proof.
  rewrite pipes_loop_fold, foldr_pass_pipes. simpl. by rewrite app_nil_r.
Qed.

(** C9. The score grows by the number of pipes that are newly passed in
    this tick and still on screen. *)
Theorem pipes_loop_score w :
  score (game (pipes_loop w))
  = (score (game w)
     + Z.of_nat (length (List.filter (scores (game w)) (pipes (game w)))))%Z.
Proof. by rewrite pipes_loop_fold, foldr_pass_score. Qed.

(** The score never decreases in the loop. *)
Theorem pipes_loop_score_mono w :
  (score (game w) <= score (game (pipes_loop w)))%Z.
Proof. rewrite pipes_loop_fold, foldr_pass_score. simpl. lia. Qed.

(** The game is over after the loop exactly when it was over before
    or the mouth overlaps a tooth of a pipe that is still on screen. *)
Theorem pipes_loop_isGameOver w :
  isGameOver (game (pipes_loop w))
  = isGameOver (game w)
    || existsb (crashes (canvas (host w)) (game w)) (pipes (game w)).
Proof. by rewrite pipes_loop_fold, foldr_pass_isGameOver. Qed.

(** A pipe that is marked as passed does not score. *)
Lemma scores_passed g p : passed p = true -> scores g p = false.
Proof.
  intros Hp. unfold scores, newly_passed, move_pipe. state_simpl.
  rewrite Hp. simpl. apply andb_false_r.
Qed.

(** The mark is permanent, and a pipe that scores is marked. *)
Lemma advance_pipe_passed g p p' :
  advance_pipe g p = Some p' ->
  passed p' = passed p || scores g p.
Proof.
  unfold advance_pipe, scores, survives. destruct p as [px pw pt pg pp].
  repeat case_if; intros [= <-]; state_simpl; simpl;
    rewrite ?orb_true_r, ?orb_false_r; done.
Qed.

(** C10. Each pipe is counted once: a pipe that scores in a tick leaves the
    loop marked [passed], a marked pipe stays marked, and a marked pipe
    does not score in any later tick, whatever the game state is then. *)
Theorem pipe_scores_once g g' p p' :
  advance_pipe g p = Some p' ->
  (scores g p = true \/ passed p = true) ->
  passed p' = true /\ scores g' p' = false.
Proof.
  intros Hadv Hs. apply advance_pipe_passed in Hadv.
  assert (passed p' = true) as Hp'
    by (rewrite Hadv; destruct Hs as [-> | ->]; by rewrite ?orb_true_r).
  split; [done|by apply scores_passed].
Qed.

Lemma pipes_loop_frozen w :
  frozen (best (game w)) ->
  best (game (pipes_loop w)) = best (game w) /\
  localStorage (host (pipes_loop w)) = localStorage (host w).
Proof.
  intros Hf. rewrite pipes_loop_fold.
  by apply (foldr_pass_frozen _ (on_game (set_pipes []) w)).
Qed.

(** *** What is in the storage *)

(** A relation between [best] and the storage that holds after every
    write of lines 284-285 holds after the loop when it held before. *)
Section Stored.
Variable P : Best N -> gmap string string -> Prop.
Hypothesis P_record :
  forall z st, P (BestNum (ofZ z)) (<[BEST_KEY := number_to_string z]> st).

Lemma pass_step_stored p acc :
  P (best (game acc)) (localStorage (host acc)) ->
  P (best (game (pass_step p acc))) (localStorage (host (pass_step p acc))).
Proof.
  rewrite best_pass_step, localStorage_pass_step. by destruct (_ && _).
Qed.

Lemma pipes_loop_stored w :
  P (best (game w)) (localStorage (host w)) ->
  P (best (game (pipes_loop w))) (localStorage (host (pipes_loop w))).
Proof.
  intros Hw. rewrite pipes_loop_fold.
  induction (pipes (game w)) as [|p ps IH]; [done|].
  by apply pass_step_stored.
Qed.

End Stored.

End LoopFacts.

(** ** What the loop does, at the rational instance *)

#[local] Open Scope Q_scope.

Section PipesQ.
Implicit Types (p : Pipe Q) (g : Game Q) (w acc : World Q) (cv : Canvas).
Implicit Types (ps : list (Pipe Q)).

Lemma offscreen_iff p : offscreen p = true <-> pipe_x p + pipe_width p < -10.
Proof. unfold offscreen. qnum_unfold. rewrite Qltb_lt. by qnum_consts. Qed.

Lemma survives_iff p :
  survives p = true <-> -10 <= pipe_x p - SCROLL_SPEED + pipe_width p.
Proof.
  unfold survives. rewrite negb_true_iff, <- not_true_iff_false, offscreen_iff.
  unfold move_pipe. state_simpl. qnum_unfold. split; [apply Qnot_lt_le|lra].
Qed.

Lemma advance_pipe_on_screen g p p' :
  advance_pipe g p = Some p' -> -10 <= pipe_x p' + pipe_width p'.
Proof.
  unfold advance_pipe. destruct (offscreen (move_pipe p)) eqn:Hoff; [done|].
  apply not_true_iff_false in Hoff. rewrite offscreen_iff in Hoff.
  intros <-%(inj Some). destruct (newly_passed g (move_pipe p)); state_simpl; lra.
Qed.

Lemma pipes_loop_survivors w :
  Forall (fun p => -10 <= pipe_x p + pipe_width p) (pipes (game (pipes_loop w))).
Proof.
  rewrite pipes_loop_fold, foldr_pass_pipes. simpl. rewrite app_nil_r.
  apply Forall_forall. intros p' (p & _ & Hadv)%list_elem_of_omap.
  by eapply advance_pipe_on_screen.
Qed.

(** The mouth's square meets a tooth of the pipe.  With the mouth inside
    the playfield this is: the two overlap horizontally and the mouth is
    not entirely inside the gap. *)
Lemma hits_iff cv g p :
  0 <= mouthY g -> mouthY g <= groundY cv ->
  hits cv g p = true <->
  (mouthX g < pipe_x p + pipe_width p /\ pipe_x p < mouthX g + 32) /\
  (mouthY g < topHeight p \/ topHeight p + gap p < mouthY g + 32).
Proof.
  intros Hy0 Hy1. rewrite groundY_Q in Hy1. unfold hits.
  rewrite orb_true_iff, !rectsOverlap_spans, !andb_true_iff, !spansOverlap_iff.
  unfold pipeCenter, mouthCenter. autounfold with js_consts.
  qnum_unfold. qnum_consts. lra.
Qed.

(** Inside the gap the mouth is safe: when the mouth's square lies
    between the top tooth and the bottom tooth of a pipe, the collision
    test is false wherever the pipe is horizontally. *)
Theorem hits_inside_gap cv g p :
  0 <= mouthY g -> mouthY g <= groundY cv ->
  topHeight p <= mouthY g -> mouthY g + 32 <= topHeight p + gap p ->
  hits cv g p = false.
Proof.
  intros Hy0 Hy1 Htop Hbot. apply not_true_iff_false.
  rewrite hits_iff by done. lra.
Qed.

(** *** Best score and storage *)

(** [best] is a number that is at least the score. *)
Definition best_covers g : Prop :=
  match best g with
  | BestNum b => inject_Z (score g) <= b
  | _ => False
  end.

(** What [best] and storage are after the loop, given [best] before it:
    the maximum with the new score, written when it grew. *)
Definition best_is (b : Q) (st : gmap string string) acc : Prop :=
  (exists b', best (game acc) = BestNum b' /\
     b' == Qmax b (inject_Z (score (game acc)))) /\
  localStorage (host acc)
  = if Qltb b (inject_Z (score (game acc)))
    then <[BEST_KEY := number_to_string (score (game acc))]> st
    else st.

Lemma best_is_start b w :
  best (game w) = BestNum b -> inject_Z (score (game w)) <= b ->
  best_is b (localStorage (host w)) w.
Proof.
  intros Hb Hs. split.
  - exists b. split; [done|]. destruct (Qmax_cases b (inject_Z (score (game w))))
      as [[? ->]|[? ->]]; lra.
  - by rewrite (proj2 (Qltb_ge _ _) Hs).
Qed.

Lemma best_is_step b st p acc :
  best_is b st acc -> best_is b st (pass_step p acc).
Proof.
  intros [(b' & Hb' & Hmax) Hst]. unfold best_is.
  rewrite best_pass_step, localStorage_pass_step, score_pass_step, Hb', Hst.
  destruct (scores (game acc) p); simpl;
    [|rewrite Z.add_0_r; split; [by exists b'|done]].
  set (s := score (game acc)) in *. qnum_unfold.
  rewrite inject_Z_plus.
  destruct (Qmax_cases b (inject_Z s)) as [[? Em]|[? Em]];
    destruct (Qmax_cases b (inject_Z s + inject_Z 1)) as [[? Em']|[? Em']];
    rewrite Em in Hmax;
    destruct (Qltb_spec b' (inject_Z s + inject_Z 1)),
      (Qltb_spec b (inject_Z s + inject_Z 1)), (Qltb_spec b (inject_Z s));
    try (exfalso; qnum_consts; lra).
  all: split; [eexists; split; [done|]; rewrite ?Em'; qnum_consts; lra|].
  all: by rewrite ?insert_insert_eq.
Qed.

Lemma best_is_foldr b st ps acc :
  best_is b st acc -> best_is b st (foldr pass_step acc ps).
Proof.
  intros Hacc. induction ps as [|p ps IH]; simpl; [done|].
  by apply best_is_step.
Qed.

Lemma pipes_loop_best_is w b :
  best (game w) = BestNum b -> inject_Z (score (game w)) <= b ->
  best_is b (localStorage (host w)) (pipes_loop w).
Proof.
  intros Hb Hs. rewrite pipes_loop_fold. apply best_is_foldr.
  by apply (best_is_start b (on_game (set_pipes []) w)).
Qed.

(** Started with a numeric [best] that is at least the score, the loop
    leaves [best] equal to the maximum of its old value and the new score,
    and writes the new score to [localStorage] under ['mouth_trap_best']
    exactly when it exceeds the old [best]. *)
Theorem pipes_loop_best w b :
  best (game w) = BestNum b -> inject_Z (score (game w)) <= b ->
  best_is b (localStorage (host w)) (pipes_loop w).
Proof. apply pipes_loop_best_is. Qed.

(** The loop keeps [best] above the score. *)
Lemma pipes_loop_best_covers w :
  best_covers (game w) -> best_covers (game (pipes_loop w)).
Proof.
  unfold best_covers. destruct (best (game w)) as [b| |] eqn:Hb; [|done..].
  intros Hs. destruct (pipes_loop_best_is w b Hb Hs) as [(b' & -> & Hmax) _].
  rewrite Hmax. apply Q.le_max_r.
Qed.

End PipesQ.

(** ** Spawning *)

Section SpawnQ.
Variable random : nat -> Q.
Implicit Types (w : World Q).

(** [Math.random()] returns a number in [0, 1). *)
Definition unit_draws : Prop := forall k, 0 <= random k /\ random k < 1.

(** The gap lies between the two tooth rows with the margins of the code:
    the top tooth is at least 40 high and the bottom tooth starts at least
    40 above the ground strip. *)
Definition in_envelope (cv : Canvas) (p : Pipe Q) : Prop :=
  (140 <= gap p /\ gap p < 200) /\
  40 <= topHeight p /\
  topHeight p + gap p <= inject_Z (canvas_height cv) - 80 - 40.


(** The new pipe starts beyond the right edge, unpassed, at the end of
    the array, and the two draws are consumed. *)
Theorem spawnPipe_spec w :
  pipes (game (spawnPipe random w)) = pipes (game w) ++ [new_pipe random w] /\
  randomCalls (host (spawnPipe random w)) = S (S (randomCalls (host w))) /\
  passed (new_pipe random w) = false /\
  pipe_x (new_pipe random w)
  == inject_Z (canvas_width (canvas (host w))) + 70.
Proof. by split_and!. Qed.

End SpawnQ.

(** C38. The envelope needs the height: on every canvas lower than 360
    pixels there are draws in [0, 1) for which the top tooth is shorter
    than the 40 pixel margin.  The code has no guard for this case. *)
Theorem new_pipe_low_canvas (w : World Q) :
  (canvas_height (canvas (host w)) < 360)%Z ->
  exists random,
    unit_draws random /\ topHeight (new_pipe random w) < 40.
Proof.
  intros Hh. exists (fun _ => 119 # 120). split; [intros k; lra|].
  unfold new_pipe. proj_simpl.
  assert (inject_Z (canvas_height (canvas (host w))) <= 359)
    by (assert (canvas_height (canvas (host w)) <= 359)%Z by lia; lraQ).
  lraQ_js.
Qed.

(** ** Concrete instances *)

(** Every draw is one half. *)
Definition half_draws : nat -> Q := fun _ => 1 # 2.

(** A portrait canvas with a fresh game in which two pipes are on their
    way: one about to leave the screen, one ahead of the mouth. *)
Definition two_pipes : list (Pipe Q) :=
  [mkPipe (-79) 70 100 150 true; mkPipe 300 70 100 150 false].

Definition world_two_pipes : World Q :=
  mkWorld (set_pipes two_pipes fresh_400x600)
    (initial_host canvas_400x600 ∅ None).

Lemma pipes_loop_in_bounds_witness :
  is_Some (pipes (game (pipe_body 1 world_two_pipes)) !! 0%nat).
Proof.
  apply (pipes_loop_in_bounds world_two_pipes 0 (pipe_body 1 world_two_pipes)).
  apply visits_later, visits_now.
Defined.

(** A pipe whose centre the mouth passes in this tick. *)
Definition passing_pipe : Pipe Q := mkPipe 90 70 100 150 false.

Lemma pipe_scores_once_witness :
  passed (set_passed true (move_pipe passing_pipe)) = true /\
  scores fresh_400x600 (set_passed true (move_pipe passing_pipe)) = false.
Proof.
  apply (pipe_scores_once fresh_400x600 fresh_400x600 passing_pipe);
    [reflexivity|left; reflexivity].
Defined.

Lemma pipes_loop_best_witness :
  best_is 0 (localStorage (host world_two_pipes)) (pipes_loop world_two_pipes).
Proof. apply pipes_loop_best; [reflexivity|by vm_compute]. Defined.

(** The mouth of the fresh game, at height 300, in a gap from 250 to 400. *)
Lemma hits_inside_gap_witness :
  hits canvas_400x600 fresh_400x600 (mkPipe 100 70 250 150 false) = false.
Proof. apply hits_inside_gap; by vm_compute. Defined.


(** A landscape phone: 640 by 320. *)
Definition world_low : World Q :=
  mkWorld fresh_400x600 (initial_host (mkCanvas 640 320) ∅ None).

Lemma new_pipe_low_canvas_witness :
  exists random, unit_draws random /\ topHeight (new_pipe random world_low) < 40.
Proof. apply new_pipe_low_canvas. by vm_compute. Defined.
