(* ===== verification/Render.v ===== *)
(** * Render: what [draw] paints

    [draw()] (part_000 lines 325-428) reads the game variables, the canvas
    size and the images, and calls the 2D context.  It is modelled as the
    list of context calls it makes, in order, together with the fact that
    an exception escaped: [drawImage] throws on a broken image, and only
    the call for the optional tongue image is inside a try block.

    [exec] interprets the calls on the part of the context state that the
    theorems need: the global alpha, the fill style, whether a transform is
    in force, and the stack of [save].

    The theorems: [draw] throws exactly when the strip of teeth or the
    sprite is broken; the teeth are painted as the rectangles that the
    collision test uses; the tilt of the sprite is within its clamp; a
    [draw] that returns leaves the context as it found it, and paints the
    texts upright, opaque and white; the overlays follow [isRunning] and
    [isGameOver]; with a pattern the background is translucent and nothing
    clears the canvas. *)

From S2P Require Import Prelude Rational Config Geometry Assets State Physics.
From S2P Require Import Pipes.

#[local] Open Scope js_scope.

(** ** Context calls *)

(** [ctx.fillStyle]: a CSS colour or the background pattern. *)
Inductive Fill : Type := Color (css : string) | PatternFill.

#[export] Instance Fill_eq_dec : EqDecision Fill.
Proof. solve_decision. Defined.

(** The argument of [fillText]: a string, or a string followed by a
    number converted by [+]. *)
Inductive Text (N : Type) : Type :=
| Str (s : string)
| StrNum (s : string) (n : N).
Arguments Str {N}.
Arguments StrNum {N}.

(** The calls and assignments on a 2D context that the script makes. *)
Inductive Cmd (N : Type) : Type :=
| GlobalAlpha (a : N)
| FillStyle (f : Fill)
| FillRect (x y w h : N)
| ClearRect (x y w h : N)
| DrawImage (i : Image) (x y w h : N)
| Save
| Restore
| Scale (x y : N)
| Translate (x y : N)
| Rotate (angle : N)
| BeginPath
| Arc (x y r startAngle endAngle : N)
| FillPath
| Font (f : string)
| TextAlign (a : string)
| ShadowColor (c : string)
| ShadowBlur (b : N)
| ShadowOffsetX (x : N)
| ShadowOffsetY (y : N)
| FillText (t : Text N) (x y : N).
Arguments GlobalAlpha {N}.
Arguments FillStyle {N}.
Arguments FillRect {N}.
Arguments ClearRect {N}.
Arguments DrawImage {N}.
Arguments Save {N}.
Arguments Restore {N}.
Arguments Scale {N}.
Arguments Translate {N}.
Arguments Rotate {N}.
Arguments BeginPath {N}.
Arguments Arc {N}.
Arguments FillPath {N}.
Arguments Font {N}.
Arguments TextAlign {N}.
Arguments ShadowColor {N}.
Arguments ShadowBlur {N}.
Arguments ShadowOffsetX {N}.
Arguments ShadowOffsetY {N}.
Arguments FillText {N}.

(** ** Painting with exceptions *)

(** The calls made, and whether an exception escaped after them. *)
Definition Paint (N : Type) : Type := (list (Cmd N) * bool)%type.

Section Paint.
Context {N : Type}.
Implicit Types (p q : Paint N) (c : Cmd N).

Definition calls p : list (Cmd N) := fst p.
Definition thrown p : bool := snd p.

Definition skip : Paint N := ([], false).
Definition emit (cs : list (Cmd N)) : Paint N := (cs, false).
Definition throw : Paint N := ([], true).

(** [p; q]: [q] runs when [p] has returned. *)
Definition then_ p q : Paint N :=
  if thrown p then p else (calls p ++ calls q, thrown q).

(** [try { p } catch (_) { q }] *)
Definition try_catch p q : Paint N :=
  if thrown p then (calls p ++ calls q, thrown q) else p.

(** [ctx.drawImage(img, x, y, w, h)] for an image in state [s]. *)
Definition drawImage (i : Image) (s : ImageState) (x y w h : N) : Paint N :=
  if usable s then emit [DrawImage i x y w h] else throw.

End Paint.

Declare Scope paint_scope.
Delimit Scope paint_scope with paint.
Notation "p ;; q" := (then_ p q)
  (at level 100, q at level 200, right associativity) : paint_scope.

(** ** The stripes of the fallback sky *)

(** [for (let x = 0; x < canvas.width; x += 120)]: the values of [x] for
    which the body runs.  The fuel is the width: every iteration adds 120
    to [x]. *)
Fixpoint stripes_from (fuel : nat) (width x : Z) : list Z :=
  match fuel with
  | O => []
  | S fuel =>
      if (x <? width)%Z then x :: stripes_from fuel width (x + 120) else []
  end.

Definition stripes (width : Z) : list Z := stripes_from (Z.to_nat width) width 0.

(** ** draw *)

Section Draw.
Context {N : Type} `{JsNumber N}.
Implicit Types (g : Game N) (w : World N) (p : Pipe N) (cv : Canvas).

#[local] Open Scope paint_scope.

Definition FONT_SCORE : string :=
  "bold 32px Orbitron, system-ui, -apple-system, Segoe UI, Arial".
Definition FONT_START : string :=
  "bold 24px Roboto, system-ui, -apple-system, Segoe UI, Arial".
Definition FONT_OVER : string :=
  "bold 36px Orbitron, system-ui, -apple-system, Segoe UI, Arial".
Definition FONT_RESTART : string :=
  "bold 20px Roboto, system-ui, -apple-system, Segoe UI, Arial".

(** Lines 327-340: the pattern at 60 per cent, or the fallback sky with
    its stripes. *)
Definition drawBackground w : Paint N :=
  let W := ofZ (canvas_width (canvas (host w))) in
  let H := ofZ (canvas_height (canvas (host w))) in
  if bgPattern (assets (host w)) then
    emit [GlobalAlpha (ofZ 3 / ofZ 5); FillStyle PatternFill;
          FillRect (ofZ 0) (ofZ 0) W H; GlobalAlpha (ofZ 1)]
  else
    emit ([FillStyle (Color "#70c5ce"); FillRect (ofZ 0) (ofZ 0) W H;
           FillStyle (Color "#8be0ec")]
          ++ map (fun x => FillRect (ofZ x) (ofZ 120) (ofZ 60) (ofZ 10))
               (stripes (canvas_width (canvas (host w))))).

(** Lines 343-353: the strip of teeth at the bottom, and flipped at the
    top. *)
Definition drawGround w : Paint N :=
  let W := ofZ (canvas_width (canvas (host w))) in
  let H := ofZ (canvas_height (canvas (host w))) in
  let s := groundImg (assets (host w)) in
  (if complete s
   then drawImage GroundImage s (ofZ 0) (H - GROUND_HEIGHT) W GROUND_HEIGHT
   else skip) ;;
  (if complete s
   then emit [Save; Scale (ofZ 1) (ofZ (-1))] ;;
        drawImage GroundImage s (ofZ 0) (- GROUND_HEIGHT) W GROUND_HEIGHT ;;
        emit [Restore]
   else skip).

(** The two teeth of a pipe as rectangles [(x, y, w, h)]: the arguments of
    the [fillRect] calls of lines 358-364. *)
Definition tooth_rects cv p : list (N * N * N * N) :=
  [(pipe_x p, ofZ 0, pipe_width p, topHeight p);
   (pipe_x p, topHeight p + gap p, pipe_width p,
    ofZ (canvas_height cv) - GROUND_HEIGHT - (topHeight p + gap p))].

Definition fillRect (r : N * N * N * N) : Cmd N :=
  let '(x, y, w, h) := r in FillRect x y w h.

(** Lines 367-368: the lips of a pipe, 4 pixels wider than the teeth on
    each side and 10 high, at the two ends of the gap. *)
Definition lip_rects p : list (N * N * N * N) :=
  [(pipe_x p - ofZ 4, topHeight p - ofZ 10, pipe_width p + ofZ 8, ofZ 10);
   (pipe_x p - ofZ 4, topHeight p + gap p, pipe_width p + ofZ 8, ofZ 10)].

(** Lines 357-368: one pipe, as two teeth and two lips. *)
Definition drawPipe cv p : list (Cmd N) :=
  [FillStyle (Color "#fff200")] ++ map fillRect (tooth_rects cv p) ++
  [FillStyle (Color "#e0c700");
   FillRect (pipe_x p - ofZ 4) (topHeight p - ofZ 10) (pipe_width p + ofZ 8)
     (ofZ 10);
   FillRect (pipe_x p - ofZ 4) (topHeight p + gap p) (pipe_width p + ofZ 8)
     (ofZ 10)].

(** Line 356: [for (const p of pipes)]. *)
Definition drawPipes w : Paint N :=
  emit (flat_map (drawPipe (canvas (host w))) (pipes (game w))).

(** Line 374: [Math.max(-0.5, Math.min(1.0, mouthVelY / 9))]. *)
Definition tilt g : N :=
  nmax (- (ofZ 1 / ofZ 2)) (nmin (ofZ 1) (mouthVelY g / ofZ 9)).

(** Lines 380-403: the vector mouth, with the tongue as an image or as a
    rectangle. *)
Definition drawFallbackMouth w : Paint N :=
  let tongueW := ofZ 12 in
  let tongueH := ofZ 8 in
  let tongueX := MOUTH_SIZE / ofZ 2 - ofZ 4 in
  let tongueY := (- tongueH) / ofZ 2 in
  let rectangle :=
    emit [FillStyle (Color "#ff6b6b");
          FillRect tongueX tongueY tongueW tongueH] in
  emit [FillStyle (Color "#ffd166"); BeginPath;
        Arc (ofZ 0) (ofZ 0) (MOUTH_SIZE / ofZ 2) (ofZ 0) (mathPI * ofZ 2);
        FillPath;
        FillStyle (Color "#000"); BeginPath;
        Arc (MOUTH_SIZE / ofZ 6) ((- MOUTH_SIZE) / ofZ 6) (ofZ 3) (ofZ 0)
          (mathPI * ofZ 2);
        FillPath] ;;
  match tongueImg (assets (host w)) with
  | Some s =>
      if complete s
      then try_catch (drawImage TongueImage s tongueX tongueY tongueW tongueH)
             rectangle
      else rectangle
  | None => rectangle
  end.

(** Lines 372-405: the sprite, rotated about its centre. *)
Definition drawMouth w : Paint N :=
  let g := game w in
  let s := mouthImg (assets (host w)) in
  emit [Save;
        Translate (mouthX g + MOUTH_SIZE / ofZ 2) (mouthY g + MOUTH_SIZE / ofZ 2);
        Rotate (tilt g)] ;;
  (if complete s
   then drawImage MouthImage s ((- MOUTH_SIZE) / ofZ 2) ((- MOUTH_SIZE) / ofZ 2)
          MOUTH_SIZE MOUTH_SIZE
   else drawFallbackMouth w) ;;
  emit [Restore].

(** ['BEST: ' + best] *)
Definition best_text (b : Best N) : Text N :=
  match b with
  | BestNum n => StrNum "BEST: " n
  | BestInf false => Str "BEST: Infinity"
  | BestInf true => Str "BEST: -Infinity"
  | BestNaN => Str "BEST: NaN"
  end.

(** Lines 408-427: the score, the best score, and the two overlays. *)
Definition drawUI w : Paint N :=
  let g := game w in
  let W := ofZ (canvas_width (canvas (host w))) in
  let H := ofZ (canvas_height (canvas (host w))) in
  emit [FillStyle (Color "#ffffff"); Font FONT_SCORE; TextAlign "left";
        FillText (Str ("SCORE: " +:+ number_to_string (score g))) (ofZ 18)
          (H / ofZ 2 - ofZ 20);
        FillText (best_text (best g)) (ofZ 18) (H / ofZ 2 + ofZ 20)] ;;
  (if negb (isRunning g)
   then emit [TextAlign "center"; Font FONT_START;
              FillText (Str "CLICK OR PRESS SPACE TO START") (W / ofZ 2)
                (H * (ofZ 21 / ofZ 50))]
   else skip) ;;
  (if isGameOver g
   then emit [TextAlign "center"; Font FONT_OVER;
              FillStyle (Color "#ffffff");
              FillText (Str "GAME OVER") (W / ofZ 2) (H * (ofZ 9 / ofZ 20));
              Font FONT_RESTART;
              FillText (Str "CLICK OR PRESS SPACE TO RESTART") (W / ofZ 2)
                (H * (ofZ 13 / ofZ 25))]
   else skip).

(** [draw()], lines 325-428. *)
Definition draw w : Paint N :=
  drawBackground w ;; drawGround w ;; drawPipes w ;; drawMouth w ;; drawUI w.

End Draw.

(** ** The context *)

(** The part of the state of a 2D context that matters here.  [save]
    pushes alpha, fill style and transform; [restore] pops them and does
    nothing on an empty stack. *)
Record Ctx (N : Type) : Type := mkCtx {
  alpha : N;
  fill : Fill;
  transformed : bool;
  saved : list (N * Fill * bool);
}.
Arguments mkCtx {N}.
Arguments alpha {N}.
Arguments fill {N}.
Arguments transformed {N}.
Arguments saved {N}.

Section Exec.
Context {N : Type}.
Implicit Types (c : Cmd N) (x : Ctx N).

Definition exec x c : Ctx N :=
  match c with
  | GlobalAlpha a => mkCtx a (fill x) (transformed x) (saved x)
  | FillStyle f => mkCtx (alpha x) f (transformed x) (saved x)
  | Save =>
      mkCtx (alpha x) (fill x) (transformed x)
        ((alpha x, fill x, transformed x) :: saved x)
  | Restore =>
      match saved x with
      | (a, f, t) :: rest => mkCtx a f t rest
      | [] => x
      end
  | Scale _ _ | Translate _ _ | Rotate _ =>
      mkCtx (alpha x) (fill x) true (saved x)
  | _ => x
  end.

Definition exec_all x (cs : list (Cmd N)) : Ctx N := foldl exec x cs.

(** Each call with the context it is made in. *)
Fixpoint trace x (cs : list (Cmd N)) : list (Ctx N * Cmd N) :=
  match cs with
  | [] => []
  | c :: cs => (x, c) :: trace (exec x c) cs
  end.

End Exec.

(** ** Facts about painting *)

Section PaintFacts.
Context {N : Type} `{JsNumber N}.
Implicit Types (p q : Paint N) (w : World N) (cs : list (Cmd N)).

#[local] Open Scope paint_scope.

Lemma then_calls p q :
  calls (p ;; q) = calls p ++ (if thrown p then [] else calls q).
Proof. unfold then_. destruct (thrown p); simpl; by rewrite ?app_nil_r. Qed.

Lemma then_thrown p q : thrown (p ;; q) = thrown p || thrown q.
Proof. unfold then_. by destruct (thrown p) eqn:E. Qed.

(** The [fillText] calls among the calls. *)
Definition is_text (c : Cmd N) : bool :=
  match c with
  | FillText _ _ _ => true
  | _ => false
  end.

Definition texts cs : list (Cmd N) := List.filter is_text cs.

Definition text_of (c : Cmd N) : Text N :=
  match c with
  | FillText t _ _ => t
  | _ => Str ""
  end.

Lemma texts_app cs cs' : texts (cs ++ cs') = texts cs ++ texts cs'.
Proof. apply List.filter_app. Qed.

Lemma texts_stripes (width : Z) :
  texts (map (fun x => FillRect (ofZ x) (ofZ 120) (ofZ 60) (ofZ 10))
           (stripes width)) = [].
Proof. unfold texts. by induction (stripes width). Qed.

(** ** When draw throws *)

(** The images that [draw] passes to an unguarded [drawImage] are not
    broken. *)
Definition images_usable (a : Assets) : bool :=
  usable (groundImg a) && usable (mouthImg a).

(** An image event can break an image, never repair one. *)
Lemma images_usable_before e a a' :
  asset_handle e a = Some a' ->
  images_usable a' = true -> images_usable a = true.
Proof.
  intros He. unfold images_usable.
  asset_cases e a He; try destruct tj; simpl; try done;
    by rewrite andb_false_r.
Qed.

Lemma drawGround_thrown w :
  thrown (drawGround w) = bool_decide (groundImg (assets (host w)) = Broken).
Proof. unfold drawGround. by destruct (groundImg (assets (host w))). Qed.

Lemma drawGround_texts w : texts (calls (drawGround w)) = [].
Proof. unfold drawGround. by destruct (groundImg (assets (host w))). Qed.

Lemma drawFallbackMouth_thrown w : thrown (drawFallbackMouth w) = false.
Proof.
  unfold drawFallbackMouth. cbv zeta. rewrite then_thrown.
  by destruct (tongueImg _) as [[]|].
Qed.

Lemma drawMouth_thrown w :
  thrown (drawMouth w) = bool_decide (mouthImg (assets (host w)) = Broken).
Proof.
  unfold drawMouth. cbv zeta. rewrite !then_thrown.
  destruct (mouthImg (assets (host w))); cbn [complete];
    by rewrite ?drawFallbackMouth_thrown.
Qed.

Lemma draw_thrown_usable w :
  thrown (draw w) = negb (images_usable (assets (host w))).
Proof.
  unfold draw, images_usable.
  rewrite !then_thrown, drawGround_thrown, drawMouth_thrown.
  assert (thrown (drawBackground w) = false) as ->
    by (unfold drawBackground; by destruct (bgPattern _)).
  assert (thrown (drawUI w) = false) as ->.
  { unfold drawUI. cbv zeta. rewrite !then_thrown.
    by destruct (isRunning _), (isGameOver _). }
  unfold drawPipes. simpl.
  by destruct (groundImg _), (mouthImg _).
Qed.

(** C19. [draw] throws exactly when the strip of teeth or the sprite is broken:
    their [complete] is true, their [drawImage] is outside any try block.
    A broken tongue image is caught. *)
Theorem draw_throws w :
  thrown (draw w) = true <->
  groundImg (assets (host w)) = Broken \/ mouthImg (assets (host w)) = Broken.
Proof.
  rewrite draw_thrown_usable. unfold images_usable.
  destruct (groundImg _), (mouthImg _); simpl; intuition (auto; discriminate).
Qed.

(** ** What draw reads *)

(** The variables that [draw] reads. *)
Definition snapshot w :=
  (canvas (host w), assets (host w), pipes (game w), mouthX (game w),
   mouthY (game w), mouthVelY (game w), score (game w), best (game w),
   isRunning (game w), isGameOver (game w)).

(** C32. [draw] is a function of the snapshot: the canvas size, the images,
    the pipes, the position and velocity of the tongue, the two scores and
    the two flags.  It reads neither [backgroundOffset], which [update]
    advances on every tick, nor [lastPipeAt], [lastTimestamp] or the
    storage. *)
Theorem draw_reads_snapshot w w' : snapshot w = snapshot w' -> draw w = draw w'.
Proof.
  intros [= Hcv Ha Hp Hx Hy Hv Hs Hb Hr Ho].
  unfold draw, drawBackground, drawGround, drawPipes, drawMouth,
    drawFallbackMouth, drawUI, tilt.
  by rewrite Hcv, Ha, Hp, Hx, Hy, Hv, Hs, Hb, Hr, Ho.
Qed.

(** ** The stripes *)

Lemma stripes_from_spec fuel width x0 x :
  (width <= x0 + 120 * Z.of_nat fuel)%Z ->
  x ∈ stripes_from fuel width x0 <->
  (x0 <= x < width /\ (x - x0) mod 120 = 0)%Z.
Proof.
  revert x0. induction fuel as [|fuel IH]; intros x0 Hfuel; simpl.
  - rewrite elem_of_nil. lia.
  - destruct (Z.ltb_spec x0 width) as [Hlt|Hge];
      [|rewrite elem_of_nil; lia].
    rewrite elem_of_cons, IH by lia. split.
    + intros [->|[? Hm]]; [rewrite Z.sub_diag; split; [lia|done]|].
      split; [lia|]. replace (x - x0)%Z with (x - (x0 + 120) + 1 * 120)%Z by lia.
      by rewrite Z.mod_add.
    + intros [? Hm]. destruct (decide (x = x0)) as [|Hne]; [by left|right].
      assert (120 <= x - x0)%Z.
      { apply Z.mod_divide in Hm as [k Hk]; lia. }
      split; [lia|]. replace (x - (x0 + 120))%Z with (x - x0 + (-1) * 120)%Z by lia.
      by rewrite Z.mod_add.
Qed.

(** The loop of line 337 ends, and its body runs for the multiples of 120
    below the width of the canvas, each once and in increasing order: the
    fuel of [stripes] is enough. *)
Theorem stripes_spec width x :
  x ∈ stripes width <-> (0 <= x < width /\ x mod 120 = 0)%Z.
Proof.
  unfold stripes. rewrite stripes_from_spec by lia. by rewrite Z.sub_0_r.
Qed.

(** ** Teeth *)

(** The mouth's square meets the rectangle. *)
Definition mouth_overlaps (g : Game N) (r : N * N * N * N) : bool :=
  let '(x, y, w, h) := r in
  rectsOverlap (mouthX g) (mouthY g) MOUTH_SIZE MOUTH_SIZE x y w h.

Lemma drawPipe_in_draw w (p : Pipe N) (c : Cmd N) :
  images_usable (assets (host w)) = true ->
  p ∈ pipes (game w) -> c ∈ drawPipe (canvas (host w)) p -> c ∈ calls (draw w).
Proof.
  intros Hu Hp Hc. unfold draw. unfold images_usable in Hu.
  apply andb_true_iff in Hu as [Hg _].
  assert (thrown (drawBackground w) = false) as Hb
    by (unfold drawBackground; by destruct (bgPattern _)).
  assert (thrown (drawGround w) = false) as Hgr.
  { rewrite drawGround_thrown. by destruct (groundImg _). }
  rewrite then_calls, Hb, then_calls, Hgr, then_calls.
  rewrite !elem_of_app. right. right. left.
  unfold drawPipes. simpl. apply list_elem_of_In, in_flat_map.
  exists p. by rewrite <- !list_elem_of_In.
Qed.

(** C20. What is painted is what is tested, but for the lips: the collision
    test of [update] is the overlap of the mouth's square with one of the
    two tooth rectangles, and [draw] fills these rectangles for every pipe
    of the array; it also fills the two lips, which reach 4 pixels beyond
    the teeth on each side and which the test does not know. *)
Theorem teeth_painted_as_tested w (p : Pipe N) :
  images_usable (assets (host w)) = true -> p ∈ pipes (game w) ->
  hits (canvas (host w)) (game w) p
  = existsb (mouth_overlaps (game w)) (tooth_rects (canvas (host w)) p) /\
  Forall (fun r => fillRect r ∈ calls (draw w))
    (tooth_rects (canvas (host w)) p ++ lip_rects p).
Proof.
  intros Hu Hp. split.
  - unfold hits, tooth_rects, mouth_overlaps. simpl. by rewrite orb_false_r.
  - apply Forall_forall. intros r Hr.
    apply (drawPipe_in_draw w p); [done..|]. unfold drawPipe.
    rewrite !elem_of_app. apply elem_of_app in Hr as [Hr|Hr].
    + right. left. by apply list_elem_of_fmap_2.
    + right. right. apply (list_elem_of_fmap_2 fillRect) in Hr.
      by apply list_elem_of_further.
Qed.

(** ** Texts *)

Lemma drawBackground_texts w : texts (calls (drawBackground w)) = [].
Proof.
  unfold drawBackground. destruct (bgPattern _); [done|].
  cbn [calls emit fst]. rewrite texts_app. apply texts_stripes.
Qed.

Lemma drawPipes_texts w : texts (calls (drawPipes w)) = [].
Proof.
  unfold drawPipes. cbn [calls emit fst].
  induction (pipes (game w)) as [|tooth ps IH]; [done|].
  cbn [flat_map]. by rewrite texts_app, IH.
Qed.

Lemma drawMouth_texts w : texts (calls (drawMouth w)) = [].
Proof.
  unfold drawMouth, drawFallbackMouth. cbv zeta.
  destruct (mouthImg _); [|done..].
  by destruct (tongueImg _) as [[]|].
Qed.

(** The overlays of [drawUI]. *)
Definition overlays (g : Game N) : list (Text N) :=
  (if negb (isRunning g) then [Str "CLICK OR PRESS SPACE TO START"] else []) ++
  (if isGameOver g
   then [Str "GAME OVER"; Str "CLICK OR PRESS SPACE TO RESTART"] else []).

(** The texts that [draw] paints when no image is broken: the score, the
    best score, the invitation to start exactly when the game has not been
    started, and the game-over overlay exactly when the game is over. *)
Theorem draw_texts w :
  images_usable (assets (host w)) = true ->
  map text_of (texts (calls (draw w)))
  = [Str ("SCORE: " +:+ number_to_string (score (game w)));
     best_text (best (game w))] ++ overlays (game w).
Proof.
  intros Hu. unfold draw.
  assert (thrown (drawBackground w) = false) as Hb
    by (unfold drawBackground; by destruct (bgPattern _)).
  pose proof (draw_thrown_usable w) as Ht. rewrite Hu in Ht.
  unfold draw in Ht. rewrite !then_thrown in Ht.
  apply orb_false_iff in Ht as [_ Ht]. apply orb_false_iff in Ht as [Hg Ht].
  apply orb_false_iff in Ht as [Hp Ht]. apply orb_false_iff in Ht as [Hm _].
  rewrite then_calls, Hb, then_calls, Hg, then_calls, Hp, then_calls, Hm.
  rewrite !texts_app, drawBackground_texts, drawGround_texts,
    drawPipes_texts, drawMouth_texts.
  unfold drawUI, overlays. cbv zeta.
  by destruct (isRunning (game w)), (isGameOver (game w)).
Qed.

End PaintFacts.

(** ** The context during and after draw *)

Section ExecFacts.
Context {N : Type} `{JsNumber N}.
Implicit Types (x y : Ctx N) (c : Cmd N) (cs : list (Cmd N)) (w : World N).

(** What [save] and [restore] keep, apart from the fill style. *)
Definition frame x : N * bool * list (N * Fill * bool) :=
  (alpha x, transformed x, saved x).

(** Calls that leave the context alone. *)
Definition inert c : bool :=
  match c with
  | GlobalAlpha _ | FillStyle _ | Save | Restore
  | Scale _ _ | Translate _ _ | Rotate _ => false
  | _ => true
  end.

Lemma exec_all_app x cs cs' :
  exec_all x (cs ++ cs') = exec_all (exec_all x cs) cs'.
Proof. apply foldl_app. Qed.

Lemma trace_app x cs cs' :
  trace x (cs ++ cs') = trace x cs ++ trace (exec_all x cs) cs'.
Proof. revert x. induction cs as [|c cs IH]; intros x; simpl; by rewrite ?IH. Qed.

Lemma trace_call x cs y c : (y, c) ∈ trace x cs -> c ∈ cs.
Proof.
  revert x. induction cs as [|c' cs IH]; intros x; simpl.
  - by intros ?%elem_of_nil.
  - intros [[= -> ->]|?]%elem_of_cons; [left|right; eauto].
Qed.

Lemma exec_all_inert x cs : forallb inert cs = true -> exec_all x cs = x.
Proof.
  revert x. induction cs as [|c cs IH]; intros x; simpl; [done|].
  intros [Hc Hcs]%andb_true_iff. rewrite <- (IH x Hcs) at 2.
  by destruct c.
Qed.

Lemma texts_none_trace x cs y t px py :
  texts cs = [] -> (y, FillText t px py) ∉ trace x cs.
Proof.
  intros Hn Hin%trace_call.
  assert (FillText t px py ∈ texts cs) as Hin'.
  { apply list_elem_of_In, filter_In. by rewrite <- list_elem_of_In. }
  rewrite Hn in Hin'. by apply elem_of_nil in Hin'.
Qed.

(** *** The five parts of draw *)

Lemma drawBackground_frame x w :
  frame (exec_all x (calls (drawBackground w)))
  = (if bgPattern (assets (host w)) then ofZ 1 else alpha x,
     transformed x, saved x).
Proof.
  unfold drawBackground. destruct (bgPattern _); [done|].
  cbn [calls emit fst]. rewrite exec_all_app, exec_all_inert; [done|].
  by induction (stripes _).
Qed.

Lemma drawGround_frame x w :
  usable (groundImg (assets (host w))) = true ->
  exec_all x (calls (drawGround w)) = x.
Proof. unfold drawGround. destruct x. by destruct (groundImg _). Qed.

Lemma drawPipes_frame x w :
  frame (exec_all x (calls (drawPipes w))) = frame x.
Proof.
  unfold drawPipes. cbn [calls emit fst]. revert x.
  induction (pipes (game w)) as [|tooth ps IH]; intros x; [done|].
  cbn [flat_map]. by rewrite exec_all_app, IH.
Qed.

Lemma drawMouth_frame x w :
  usable (mouthImg (assets (host w))) = true ->
  exec_all x (calls (drawMouth w)) = x.
Proof.
  unfold drawMouth, drawFallbackMouth. cbv zeta. destruct x.
  destruct (mouthImg _); [|done..].
  by destruct (tongueImg _) as [[]|].
Qed.

(** The context in which [drawUI] paints its texts. *)
Lemma drawUI_trace x w y t px py :
  (y, FillText t px py) ∈ trace x (calls (drawUI w)) ->
  fill y = Color "#ffffff" /\ frame y = frame x.
Proof.
  unfold drawUI. cbv zeta.
  destruct (isRunning (game w)), (isGameOver (game w)); simpl;
    rewrite !elem_of_cons, elem_of_nil; intros Hin;
    repeat destruct Hin as [Hin|Hin]; by simplify_eq.
Qed.

Lemma drawUI_frame x w :
  frame (exec_all x (calls (drawUI w))) = frame x /\
  fill (exec_all x (calls (drawUI w))) = Color "#ffffff".
Proof.
  unfold drawUI. cbv zeta.
  by destruct (isRunning (game w)), (isGameOver (game w)).
Qed.

(** The calls of [draw] when no image is broken, part by part. *)
Lemma draw_calls w :
  images_usable (assets (host w)) = true ->
  calls (draw w)
  = calls (drawBackground w) ++ calls (drawGround w) ++ calls (drawPipes w)
    ++ calls (drawMouth w) ++ calls (drawUI w).
Proof.
  intros Hu. pose proof (draw_thrown_usable w) as Ht. rewrite Hu in Ht.
  unfold draw in *. rewrite !then_thrown in Ht.
  apply orb_false_iff in Ht as [Hb Ht]. apply orb_false_iff in Ht as [Hg Ht].
  apply orb_false_iff in Ht as [Hp Ht]. apply orb_false_iff in Ht as [Hm _].
  by rewrite then_calls, Hb, then_calls, Hg, then_calls, Hp, then_calls, Hm.
Qed.

(** The context before [drawUI]. *)
Lemma draw_frame_before_ui x w :
  images_usable (assets (host w)) = true ->
  frame (exec_all x (calls (drawBackground w) ++ calls (drawGround w)
                     ++ calls (drawPipes w) ++ calls (drawMouth w)))
  = (if bgPattern (assets (host w)) then ofZ 1 else alpha x,
     transformed x, saved x).
Proof.
  intros [Hg Hm]%andb_true_iff.
  rewrite !exec_all_app, drawMouth_frame, drawPipes_frame, drawGround_frame
    by done.
  apply drawBackground_frame.
Qed.

(** C22. A [draw] that returns leaves the context as it found it, but for the
    fill style, which is white, and the alpha, which is 1 when the pattern
    was painted: every [save] has its [restore], and no transform is left
    in force for the next frame. *)
Theorem draw_restores x w :
  images_usable (assets (host w)) = true ->
  frame (exec_all x (calls (draw w)))
  = (if bgPattern (assets (host w)) then ofZ 1 else alpha x,
     transformed x, saved x) /\
  fill (exec_all x (calls (draw w))) = Color "#ffffff".
Proof.
  intros Hu. rewrite draw_calls by done.
  rewrite !app_assoc, exec_all_app, <- !app_assoc.
  destruct (drawUI_frame (exec_all x (calls (drawBackground w)
    ++ calls (drawGround w) ++ calls (drawPipes w) ++ calls (drawMouth w))) w)
    as [-> ->].
  split; [by apply draw_frame_before_ui|done].
Qed.

(** The texts are painted last, in white, with the alpha of the
    background and outside every [save]: on a context that was upright
    before [draw], neither the flip of the upper teeth nor the tilt of the
    sprite applies to them. *)
Theorem draw_texts_upright x w y t px py :
  images_usable (assets (host w)) = true ->
  (y, FillText t px py) ∈ trace x (calls (draw w)) ->
  fill y = Color "#ffffff" /\
  frame y = (if bgPattern (assets (host w)) then ofZ 1 else alpha x,
             transformed x, saved x).
Proof.
  intros Hu. rewrite draw_calls by done.
  rewrite !app_assoc, trace_app, <- !app_assoc.
  intros [Hin|Hin]%elem_of_app.
  - exfalso. revert Hin. apply texts_none_trace.
    by rewrite !texts_app, drawBackground_texts, drawGround_texts,
      drawPipes_texts, drawMouth_texts.
  - apply drawUI_trace in Hin as [-> ->].
    split; [done|by apply draw_frame_before_ui].
Qed.


End ExecFacts.

(** ** The tilt on every ordered instance *)

(** The tilt is not below -0.5 and not above 1, as the comparisons see it,
    and it is one of the two limits, the ninth of the velocity, or NaN. *)
Lemma tilt_clamped {N : Type} `{JsOrdered N} (g : Game N) :
  (ofZ 1 <? - (ofZ 1 / ofZ 2)) = false ->
  ((tilt g <? - (ofZ 1 / ofZ 2)) = false /\ (ofZ 1 <? tilt g) = false) /\
  (tilt g = - (ofZ 1 / ofZ 2) \/ tilt g = ofZ 1 \/
   tilt g = mouthVelY g / ofZ 9 \/ unordered (tilt g)).
Proof.
  intros Hc. split; [by apply clamp_bounds|apply clamp_cases].
Qed.

(** ** The tilt at the rational instance *)

#[local] Open Scope Q_scope.

(** The tilt of the sprite is between -0.5 and 1 radian, and it is a
    ninth of the velocity when that lies between -4.5 and 9. *)
Theorem tilt_bounds (g : Game Q) :
  (-(1 # 2) <= tilt g /\ tilt g <= 1) /\
  (-(9 # 2) <= mouthVelY g -> mouthVelY g <= 9 -> tilt g == mouthVelY g / 9).
Proof.
  unfold tilt. qnum_unfold. qnum_consts.
  destruct (Qmin_cases 1 (mouthVelY g * (1 # 9))) as [[? Em]|[? Em]],
    (Qmax_cases (-(1 # 2)) (Qmin 1 (mouthVelY g * (1 # 9)))) as [[? Ex]|[? Ex]];
    rewrite Ex, ?Em in *; split; try split; intros; lra.
Qed.

(** ** Concrete instances *)

(** A fresh game with two pipes, when the texture has given a pattern and
    the other images are still loading. *)
Definition world_patterned : World Q :=
  on_host (set_assets (mkAssets true true false BG_PNG Available Loading false
                         Loading None)) world_two_pipes.

(** The tongue at height 95 with a pipe 2 pixels to its right, whose upper
    tooth is 100 high: the square of the tongue lies over the upper lip,
    which starts 2 pixels left of the tongue's right edge, and the test
    finds no collision. *)
Example lip_not_tested :
  let g := set_mouthY 95 fresh_400x600 in
  let p := mkPipe 146 70 100 150 false in
  hits canvas_400x600 g p = false /\
  existsb (mouth_overlaps g) (lip_rects p) = true.
Proof. by vm_compute. Qed.

Lemma teeth_painted_as_tested_witness :
  hits canvas_400x600 (game world_patterned) passing_pipe
  = existsb (mouth_overlaps (game world_patterned))
      (tooth_rects canvas_400x600 passing_pipe) /\
  Forall (fun r => fillRect r ∈ calls (draw (on_game (set_pipes [passing_pipe])
                                               world_patterned)))
    (tooth_rects canvas_400x600 passing_pipe ++ lip_rects passing_pipe).
Proof.
  apply (teeth_painted_as_tested
           (on_game (set_pipes [passing_pipe]) world_patterned) passing_pipe);
    [reflexivity|apply list_elem_of_singleton; reflexivity].
Defined.

Lemma draw_texts_witness :
  map text_of (texts (calls (draw world_patterned)))
  = [Str ("SCORE: " +:+ number_to_string (score (game world_patterned)));
     best_text (best (game world_patterned))]
    ++ overlays (game world_patterned).
Proof. apply draw_texts. reflexivity. Defined.

Lemma draw_restores_witness :
  frame (exec_all (mkCtx 1 (Color "#000000") false [])
           (calls (draw world_patterned)))
  = (1, false, []) /\
  fill (exec_all (mkCtx 1 (Color "#000000") false [])
          (calls (draw world_patterned))) = Color "#ffffff".
Proof.
  exact (draw_restores (mkCtx 1 (Color "#000000") false []) world_patterned
           eq_refl).
Defined.


(** The invitation to start is the last call of [draw] in an idle game. *)
Lemma draw_texts_upright_witness :
  fill (mkCtx 1 (Color "#ffffff") false []) = Color "#ffffff" /\
  frame (mkCtx 1 (Color "#ffffff") false []) = (1, false, []).
Proof.
  refine (draw_texts_upright (mkCtx 1 (Color "#000000") false []) world_patterned
            (mkCtx 1 (Color "#ffffff") false [])
            (Str "CLICK OR PRESS SPACE TO START") (400 / 2) (600 * (21 / 50))
            eq_refl _).
  apply (list_elem_of_lookup_2 _ 37). by vm_compute.
Defined.

(** A tongue at rest is level. *)
Lemma tilt_bounds_witness : tilt fresh_400x600 == mouthVelY fresh_400x600 / 9.
Proof. apply (tilt_bounds fresh_400x600); by vm_compute. Defined.

(** Scrolling the background does not change what is painted. *)
Lemma draw_reads_snapshot_witness :
  draw world_patterned
  = draw (on_game (set_backgroundOffset 7) world_patterned).
Proof. apply draw_reads_snapshot. reflexivity. Defined.
