(* ===== verification/Update.v ===== *)
(** * Update: one tick of the simulation

    [update(dt)] (part_000 lines 249-323) composes the physics block, the
    background scroll, the loop over the pipes and the spawn timer, in this
    order, and does nothing once the game is over.

    For every number instance: a finished game is frozen; the score never
    decreases; a NaN best score is never replaced.  For every instance with
    the order laws, doubles included: after a tick the tongue is between
    the ceiling and the ground line and the timer is not above the
    interval, as the tests of the code see them.  At the rational
    instance: the invariant [tick_ok] (tongue inside the playfield, pipes on
    screen, timer and scroll offset in range, best score above the score)
    is preserved by a tick, and so is [page_ok], the part of it that does
    not depend on the canvas or on the sign of the frame delta; over a run
    of ticks the best score is the maximum of its first value and the
    score. *)

From Stdlib Require Import SpecFloat.
From S2P Require Import Prelude Rational Float64 Config Geometry State Physics.
From S2P Require Import Pipes.

#[local] Open Scope js_scope.

Section Update.
Context {N : Type} `{JsNumber N}.
Variable random : nat -> N.
Implicit Types (g : Game N) (w : World N) (dt : N).

(** Lines 318-322: [lastPipeAt += dt; if (lastPipeAt > PIPE_INTERVAL_MS)
    { spawnPipe(); lastPipeAt = 0; }] *)
Definition spawn_timer dt w : World N :=
  let w := on_game (fun g => set_lastPipeAt (lastPipeAt g + dt) g) w in
  if lastPipeAt (game w) >? PIPE_INTERVAL_MS
  then on_game (set_lastPipeAt (ofZ 0)) (spawnPipe random w)
  else w.

(** [update(dt)], lines 249-323. *)
Definition update dt w : World N :=
  if isGameOver (game w) then w
  else
    let w := on_game (physics (canvas (host w))) w in
    let w := scroll_background w in
    let w := pipes_loop w in
    spawn_timer dt w.

(** [n] ticks with the frame deltas [dts], oldest first. *)
Definition ticks (dts : list N) w : World N :=
  foldl (fun w dt => update dt w) w dts.

(** ** Structure of a tick *)

(** The world after the first three blocks of a tick. *)
Definition before_spawn w : World N :=
  pipes_loop (scroll_background (on_game (physics (canvas (host w))) w)).

Lemma update_running dt w :
  isGameOver (game w) = false -> update dt w = spawn_timer dt (before_spawn w).
Proof. intros Hrun. unfold update. by rewrite Hrun. Qed.

Lemma update_over dt w : isGameOver (game w) = true -> update dt w = w.
Proof. intros Hover. unfold update. by rewrite Hover. Qed.

(** The spawn timer touches the pipes, the timer and the draw counter. *)
Lemma spawn_timer_frame dt w :
  let w' := spawn_timer dt w in
  mouthY (game w') = mouthY (game w) /\ mouthX (game w') = mouthX (game w) /\
  mouthVelY (game w') = mouthVelY (game w) /\ score (game w') = score (game w) /\
  best (game w') = best (game w) /\ isRunning (game w') = isRunning (game w) /\
  isGameOver (game w') = isGameOver (game w) /\
  lastTimestamp (game w') = lastTimestamp (game w) /\
  backgroundOffset (game w') = backgroundOffset (game w) /\
  canvas (host w') = canvas (host w) /\
  localStorage (host w') = localStorage (host w) /\
  animationFrames (host w') = animationFrames (host w).
Proof. unfold spawn_timer. cbv zeta. case_if; by split_and!. Qed.

Lemma spawn_timer_pipes dt w :
  exists new, pipes (game (spawn_timer dt w)) = pipes (game w) ++ new /\
    length new <= 1.
Proof.
  unfold spawn_timer. cbv zeta. case_if; unfold spawnPipe; proj_simpl.
  - eexists [_]. split; [done|simpl; lia].
  - exists []. split; [by rewrite app_nil_r|simpl; lia].
Qed.

(** The frame delta is read by the spawn timer only.  Two ticks of the
    same world with different deltas leave the same tongue, score, best
    score, flags, scroll offset and storage, and the same pipes up to the
    one that the timer may have let in: the physics and the scrolling are
    per frame, whatever time the frame took. *)
Theorem update_reads_delta dt dt' w :
  let u := update dt w in
  let u' := update dt' w in
  mouthY (game u) = mouthY (game u') /\
  mouthVelY (game u) = mouthVelY (game u') /\
  score (game u) = score (game u') /\ best (game u) = best (game u') /\
  isGameOver (game u) = isGameOver (game u') /\
  backgroundOffset (game u) = backgroundOffset (game u') /\
  localStorage (host u) = localStorage (host u') /\
  exists old new new',
    pipes (game u) = old ++ new /\ pipes (game u') = old ++ new' /\
    length new <= 1 /\ length new' <= 1.
Proof.
  intros u u'. subst u u'. unfold update. case_if.
  { split_and!; [done..|]. exists (pipes (game w)), [], [].
    rewrite app_nil_r. split_and!; [done|done|simpl; lia..]. }
  set (v := pipes_loop _).
  destruct (spawn_timer_frame dt v)
    as (-> & _ & -> & -> & -> & _ & -> & _ & -> & _ & -> & _).
  destruct (spawn_timer_frame dt' v)
    as (-> & _ & -> & -> & -> & _ & -> & _ & -> & _ & -> & _).
  destruct (spawn_timer_pipes dt v) as (new & -> & ?).
  destruct (spawn_timer_pipes dt' v) as (new' & -> & ?).
  split_and!; [done..|]. by exists (pipes (game v)), new, new'.
Qed.

(** A tick leaves the images, the timers and the landing page alone. *)
Lemma update_page dt w : page_of (host (update dt w)) = page_of (host w).
Proof.
  unfold update. case_if; [done|]. unfold spawn_timer. cbv zeta.
  assert (page_of (host (pipes_loop (scroll_background
            (on_game (physics (canvas (host w))) w)))) = page_of (host w))
    as <- by (by rewrite pipes_loop_page).
  by case_if.
Qed.

Lemma update_assets dt w : assets (host (update dt w)) = assets (host w).
Proof. pose proof (update_page dt w) as E. unfold page_of in E. congruence. Qed.

(** The array that the loop over the pipes leaves: the pipes it kept, each
    moved. *)
Lemma before_spawn_pipes w :
  exists g, pipes (game (before_spawn w)) = omap (advance_pipe g) (pipes (game w)).
Proof.
  unfold before_spawn.
  set (w0 := scroll_background (on_game (physics (canvas (host w))) w)).
  assert (pipes (game w0) = pipes (game w)) as Ep.
  { subst w0. unfold scroll_background. proj_simpl.
    by destruct (physics_frame (canvas (host w)) (game w)) as (_ & -> & _). }
  exists (set_pipes [] (game w0)). rewrite pipes_loop_fold. unfold pipes_pass.
  rewrite foldr_pass_pipes, Ep. proj_simpl. by rewrite app_nil_r.
Qed.

Lemma before_spawn_isGameOver w :
  isGameOver (game w) = true -> isGameOver (game (before_spawn w)) = true.
Proof.
  intros Hover. unfold before_spawn.
  rewrite pipes_loop_fold, foldr_pass_isGameOver. apply orb_true_iff. left.
  proj_simpl. by apply physics_keeps_over.
Qed.

(** In a running game the tongue after [update] is the tongue after the
    physics block, and a game that the ground ended stays ended. *)
Lemma update_tongue dt w :
  isGameOver (game w) = false ->
  let g' := physics (canvas (host w)) (game w) in
  mouthY (game (update dt w)) = mouthY g' /\
  mouthVelY (game (update dt w)) = mouthVelY g' /\
  (isGameOver g' = true -> isGameOver (game (update dt w)) = true).
Proof.
  intros Hrun g'. rewrite update_running by done.
  destruct (spawn_timer_frame dt (before_spawn w))
    as (-> & _ & -> & _ & _ & _ & -> & _).
  unfold before_spawn.
  destruct (pipes_loop_frame
    (scroll_background (on_game (physics (canvas (host w))) w)))
    as (-> & _ & -> & _).
  rewrite pipes_loop_fold, foldr_pass_isGameOver.
  unfold scroll_background. proj_simpl. split_and!; [done..|].
  intros Hover. apply orb_true_iff. by left.
Qed.

End Update.

(** ** A tick on every ordered instance *)

Section UpdateOrdered.
Context {N : Type} `{JsOrdered N}.
Variable random : nat -> N.
Implicit Types (w : World N) (dt : N).

(** The timer is not above the interval when the spawn block is done,
    whatever it was and whatever the delta is, NaN included. *)
Lemma spawn_timer_at_most dt w :
  (ofZ 0 >? PIPE_INTERVAL_MS) = false ->
  (lastPipeAt (game (spawn_timer random dt w)) >? PIPE_INTERVAL_MS) = false.
Proof.
  intros Hz. unfold spawn_timer. cbv zeta. case_if; [|done].
  by proj_simpl.
Qed.

(** C7. A tick of a running game leaves the tongue between the ceiling and the
    ground line of the canvas and the timer at or below the interval, as
    the comparisons of the code see them. *)
Theorem update_clamps dt w :
  isGameOver (game w) = false ->
  (groundY (canvas (host w)) <? ofZ 0) = false ->
  (ofZ 0 >? PIPE_INTERVAL_MS) = false ->
  (mouthY (game (update random dt w)) <? ofZ 0) = false /\
  (mouthY (game (update random dt w)) >? groundY (canvas (host w))) = false /\
  (lastPipeAt (game (update random dt w)) >? PIPE_INTERVAL_MS) = false.
Proof.
  intros Hrun Hg Hz. destruct (update_tongue random dt w Hrun) as (-> & _).
  destruct (physics_clamps (canvas (host w)) (game w) Hg) as [? ?].
  split_and!; [done..|].
  rewrite update_running by done. by apply spawn_timer_at_most.
Qed.

End UpdateOrdered.

#[export] Hint Unfold spawn_timer before_spawn : js_unfold.

(** ** The tick at the rational instance *)

#[local] Open Scope Q_scope.

Section UpdateQ.
Variable random : nat -> Q.
Implicit Types (g : Game Q) (w : World Q) (dt : Q) (cv : Canvas).

(** A canvas on which the game can be played: room for the ground strip
    and the sprite, and wider than one scroll step. *)
Definition canvas_ok cv : Prop :=
  (112 <= canvas_height cv)%Z /\ (3 <= canvas_width cv)%Z.

(** The invariant of the running game. *)
Definition tick_ok w : Prop :=
  (0 <= mouthY (game w) /\ mouthY (game w) <= groundY (canvas (host w))) /\
  Forall (fun p => -10 <= pipe_x p + pipe_width p) (pipes (game w)) /\
  (0 <= lastPipeAt (game w) /\ lastPipeAt (game w) <= 1400) /\
  (0 <= backgroundOffset (game w) /\
   backgroundOffset (game w) < inject_Z (canvas_width (canvas (host w)))) /\
  (0 <= score (game w))%Z /\
  best_covers (game w).

(** What the first three blocks leave of the world. *)
Lemma before_spawn_frame w :
  let cv := canvas (host w) in
  let w' := before_spawn w in
  mouthY (game w') = mouthY (physics cv (game w)) /\
  mouthX (game w') = mouthX (game w) /\
  lastPipeAt (game w') = lastPipeAt (game w) /\
  backgroundOffset (game w')
  = Qrem (backgroundOffset (game w) + SCROLL_SPEED) (inject_Z (canvas_width cv)) /\
  canvas (host w') = cv /\
  randomCalls (host w') = randomCalls (host w) /\
  animationFrames (host w') = animationFrames (host w).
Proof.
  intros cv w'. subst w'. unfold before_spawn.
  destruct (pipes_loop_frame
    (scroll_background (on_game (physics (canvas (host w))) w)))
    as (-> & -> & _ & -> & _ & _ & -> & -> & -> & ->).
  destruct (physics_frame cv (game w)) as (? & _ & ? & _ & _ & _ & _ & ?).
  unfold scroll_background. proj_simpl. split_and!; try done.
  by f_equal; f_equal.
Qed.

(** The timer after a tick: it restarts from zero when the interval is
    exceeded, with no carry-over, and a pipe is spawned exactly then. *)
Lemma spawn_timer_cases dt w :
  let w' := spawn_timer random dt w in
  (lastPipeAt (game w) + dt <= 1400 /\
   lastPipeAt (game w') == lastPipeAt (game w) + dt /\
   pipes (game w') = pipes (game w) /\
   randomCalls (host w') = randomCalls (host w))
  \/ (1400 < lastPipeAt (game w) + dt /\
   lastPipeAt (game w') == 0 /\
   (exists p, pipes (game w') = pipes (game w) ++ [p] /\
      pipe_x p == inject_Z (canvas_width (canvas (host w))) + 70 /\
      pipe_width p == 70 /\ passed p = false) /\
   randomCalls (host w') = S (S (randomCalls (host w)))).
Proof.
  unfold spawn_timer. cbv zeta. proj_simpl.
  destruct (Qltb_spec PIPE_INTERVAL_MS (lastPipeAt (game w) + dt)) as [Hgt|Hle];
    qnum_unfold; [right|left].
  - rewrite (proj2 (Qltb_lt _ _) Hgt). proj_simpl.
    split_and!; [lraQ_js|lraQ_js| |done].
    eexists. split; [done|]. split_and!; [|done..]. unfold new_pipe.
    proj_simpl. lraQ_js.
  - rewrite (proj2 (Qltb_ge _ _) Hle). proj_simpl.
    split_and!; [lraQ_js|done..].
Qed.

Lemma before_spawn_counts w :
  (score (game w) <= score (game (before_spawn w)))%Z /\
  (best_covers (game w) -> best_covers (game (before_spawn w))) /\
  Forall (fun p => -10 <= pipe_x p + pipe_width p)
    (pipes (game (before_spawn w))).
Proof.
  unfold before_spawn.
  set (w2 := scroll_background (on_game (physics (canvas (host w))) w)).
  destruct (physics_frame (canvas (host w)) (game w))
    as (_ & _ & _ & Es & Eb & _).
  assert (score (game w2) = score (game w)) as Hs
    by (subst w2; unfold scroll_background; proj_simpl; exact Es).
  assert (best (game w2) = best (game w)) as Hb
    by (subst w2; unfold scroll_background; proj_simpl; exact Eb).
  split_and!.
  - rewrite <- Hs. apply pipes_loop_score_mono.
  - intros Hc. apply pipes_loop_best_covers. unfold best_covers.
    by rewrite Hs, Hb.
  - apply pipes_loop_survivors.
Qed.

(** C2. The invariant of the running game is preserved by a tick: with
    the tongue in the playfield, the pipes on screen, the timer in
    [0, 1400], the scroll offset in [0, width), a non-negative score and a
    best score that is at least the score, the same holds after
    [update(dt)] for every frame delta [dt >= 0]. *)
Theorem update_tick_ok dt w :
  canvas_ok (canvas (host w)) -> 0 <= dt ->
  tick_ok w -> tick_ok (update random dt w).
Proof.
  intros [Hh Hw] Hdt Hok.
  destruct (isGameOver (game w)) eqn:Hover; [by rewrite update_over|].
  rewrite update_running by done.
  destruct Hok as (_ & _ & [Ht0 Ht1] & [Ho0 _] & Hs & Hb).
  destruct (before_spawn_frame w) as (Ey & _ & Et & Eo & Ec & _).
  destruct (before_spawn_counts w) as (Hs' & Hb' & Hps').
  destruct (spawn_timer_frame random dt (before_spawn w))
    as (Fy & _ & _ & Fs & Fb & _ & _ & _ & Fo & Fc & _).
  unfold tick_ok, best_covers. rewrite Fy, Fs, Fb, Fo, Fc, Ey, Ec, Eo.
  split_and!.
  - by apply physics_in_playfield.
  - by apply physics_in_playfield.
  - destruct (spawn_timer_cases dt (before_spawn w))
      as [(_ & _ & -> & _)|(_ & _ & (p & -> & Hx & Hpw & _) & _)]; [done|].
    apply Forall_app. split; [done|]. apply Forall_singleton.
    rewrite Hx, Hpw, Ec. lraQ.
  - destruct (spawn_timer_cases dt (before_spawn w))
      as [(_ & -> & _)|(_ & -> & _)]; rewrite ?Et; lra.
  - destruct (spawn_timer_cases dt (before_spawn w))
      as [(? & -> & _)|(_ & -> & _)]; rewrite ?Et in *; lra.
  - apply Qrem_bounds; lraQ_js.
  - apply Qrem_bounds; lraQ_js.
  - lia.
  - by apply Hb'.
Qed.

(** The part of the invariant that survives resizes of the canvas and
    arbitrary frame deltas. *)
Definition page_ok w : Prop :=
  (320 <= canvas_width (canvas (host w)))%Z /\
  (0 <= score (game w))%Z /\
  best_covers (game w) /\
  Forall (fun p => -10 <= pipe_x p + pipe_width p) (pipes (game w)) /\
  lastPipeAt (game w) <= 1400 /\
  0 <= backgroundOffset (game w) /\
  FLAP_STRENGTH <= mouthVelY (game w).

(** The invariant reads seven variables. *)
Lemma page_ok_ext w w' :
  canvas (host w') = canvas (host w) -> score (game w') = score (game w) ->
  best (game w') = best (game w) -> pipes (game w') = pipes (game w) ->
  lastPipeAt (game w') = lastPipeAt (game w) ->
  backgroundOffset (game w') = backgroundOffset (game w) ->
  mouthVelY (game w') = mouthVelY (game w) ->
  page_ok w -> page_ok w'.
Proof. unfold page_ok, best_covers. by intros -> -> -> -> -> -> ->. Qed.

Lemma update_page_ok dt w : page_ok w -> page_ok (update random dt w).
Proof.
  intros Hok.
  destruct (isGameOver (game w)) eqn:Hover; [by rewrite update_over|].
  rewrite update_running by done.
  destruct Hok as (Hw & Hs & Hb & _ & Ht & Ho & Hv).
  destruct (update_tongue random dt w Hover) as (_ & Ev & _).
  rewrite update_running in Ev by done.
  destruct (before_spawn_frame w) as (_ & _ & Et & Eo & Ec & _).
  destruct (before_spawn_counts w) as (Hs' & Hb' & Hps').
  destruct (spawn_timer_frame random dt (before_spawn w))
    as (_ & _ & _ & Fs & Fb & _ & _ & _ & Fo & Fc & _).
  unfold page_ok, best_covers. rewrite Ev, Fs, Fb, Fo, Fc, Ec, Eo.
  split_and!; [done|lia|by apply Hb'| | | |].
  - destruct (spawn_timer_cases dt (before_spawn w))
      as [(_ & _ & -> & _)|(_ & _ & (p & -> & Hx & Hpw & _) & _)]; [done|].
    apply Forall_app. split; [done|]. apply Forall_singleton.
    rewrite Hx, Hpw, Ec. lraQ.
  - destruct (spawn_timer_cases dt (before_spawn w))
      as [(? & -> & _)|(_ & -> & _)]; rewrite ?Et in *; lra.
  - apply Qrem_bounds; lraQ_js.
  - rewrite FLAP_STRENGTH_Q in *. pose proof GRAVITY_Q.
    destruct (physics_velocity (canvas (host w)) (game w)) as [->| ->]; lra.
Qed.

(** ** The best score over a run *)

Lemma best_is_ext b st w w' :
  best (game w') = best (game w) -> score (game w') = score (game w) ->
  localStorage (host w') = localStorage (host w) ->
  best_is b st w -> best_is b st w'.
Proof. unfold best_is. by intros -> -> ->. Qed.

Lemma update_best_is b st dt w :
  best_is b st w -> best_is b st (update random dt w).
Proof.
  intros Hw. unfold update. case_if; [done|].
  set (w0 := scroll_background (on_game (physics (canvas (host w))) w)).
  destruct (spawn_timer_frame random dt (pipes_loop w0))
    as (_ & _ & _ & Es & Eb & _ & _ & _ & _ & _ & El & _).
  apply (best_is_ext b st (pipes_loop w0)); [done..|].
  rewrite pipes_loop_fold. apply best_is_foldr.
  destruct (physics_frame (canvas (host w)) (game w))
    as (_ & _ & _ & Hs & Hb & _).
  revert Hw. apply best_is_ext; subst w0; unfold scroll_background;
    by proj_simpl.
Qed.

(** C11. After any number of ticks of a run that started with a numeric best
    score at least the score, [best] is the maximum of what it was and the
    score, and the storage was written, with the score, exactly when the
    score exceeds the best score of the start. *)
Theorem ticks_best dts w b :
  best (game w) = BestNum b -> inject_Z (score (game w)) <= b ->
  best_is b (localStorage (host w)) (ticks random dts w).
Proof.
  intros Hb Hs. pose proof (best_is_start b w Hb Hs) as Hw.
  revert Hw. generalize (localStorage (host w)). clear Hb Hs. revert w.
  induction dts as [|dt dts IH]; intros w st Hw; [done|]. simpl.
  by apply IH, update_best_is.
Qed.

End UpdateQ.

(** ** The tick for every number instance *)

#[local] Open Scope js_scope.

Section UpdateFacts.
Context {N : Type} `{JsNumber N}.
Variable random : nat -> N.
Implicit Types (g : Game N) (w : World N) (dt : N).

Lemma ticks_over dts w : isGameOver (game w) = true -> ticks random dts w = w.
Proof.
  intros Hover. induction dts as [|dt dts IH]; simpl; [done|].
  by rewrite update_over.
Qed.

(** What a tick never assigns. *)
Lemma update_frame dt w :
  let w' := update random dt w in
  mouthX (game w') = mouthX (game w) /\
  isRunning (game w') = isRunning (game w) /\
  lastTimestamp (game w') = lastTimestamp (game w) /\
  canvas (host w') = canvas (host w) /\
  animationFrames (host w') = animationFrames (host w).
Proof.
  cbv zeta. unfold update. case_if; [done|].
  destruct (spawn_timer_frame random dt
    (pipes_loop (scroll_background (on_game (physics (canvas (host w))) w))))
    as (_ & -> & _ & _ & _ & -> & _ & -> & _ & -> & _ & ->).
  destruct (pipes_loop_frame
    (scroll_background (on_game (physics (canvas (host w))) w)))
    as (_ & -> & _ & _ & -> & -> & _ & -> & _ & ->).
  destruct (physics_frame (canvas (host w)) (game w))
    as (? & _ & _ & _ & _ & ? & ? & _).
  unfold scroll_background. by proj_simpl.
Qed.

Lemma update_score_le dt w :
  (score (game w) <= score (game (update random dt w)))%Z.
Proof.
  unfold update. case_if; [done|].
  destruct (spawn_timer_frame random dt
    (pipes_loop (scroll_background (on_game (physics (canvas (host w))) w))))
    as (_ & _ & _ & -> & _).
  etrans; [|apply pipes_loop_score_mono].
  destruct (physics_frame (canvas (host w)) (game w)) as (_ & _ & _ & Es & _).
  unfold scroll_background. proj_simpl. by rewrite Es.
Qed.

(** A tick never clears [isGameOver]. *)
Lemma update_isGameOver dt w :
  isGameOver (game w) = true -> isGameOver (game (update random dt w)) = true.
Proof. intros Hover. by rewrite update_over. Qed.

(** A relation between [best] and the storage that holds after every
    write of the best score holds after a tick when it held before. *)
Lemma update_stored (P : Best N -> gmap string string -> Prop) dt w :
  (forall z st, P (BestNum (ofZ z)) (<[BEST_KEY := number_to_string z]> st)) ->
  P (best (game w)) (localStorage (host w)) ->
  P (best (game (update random dt w))) (localStorage (host (update random dt w))).
Proof.
  intros HP Hw. unfold update. case_if; [done|].
  destruct (spawn_timer_frame random dt
    (pipes_loop (scroll_background (on_game (physics (canvas (host w))) w))))
    as (_ & _ & _ & _ & -> & _ & _ & _ & _ & _ & -> & _).
  apply pipes_loop_stored; [done|].
  destruct (physics_frame (canvas (host w)) (game w))
    as (_ & _ & _ & _ & Eb & _).
  unfold scroll_background. proj_simpl. by rewrite Eb.
Qed.

(** A best score that no score exceeds, NaN or Infinity, is never
    replaced and never written. *)
Lemma update_frozen dt w :
  frozen (best (game w)) ->
  best (game (update random dt w)) = best (game w) /\
  localStorage (host (update random dt w)) = localStorage (host w).
Proof.
  intros Hf. unfold update. case_if; [done|].
  destruct (spawn_timer_frame random dt
    (pipes_loop (scroll_background (on_game (physics (canvas (host w))) w))))
    as (_ & _ & _ & _ & -> & _ & _ & _ & _ & _ & -> & _).
  destruct (physics_frame (canvas (host w)) (game w))
    as (_ & _ & _ & _ & Eb & _).
  destruct (pipes_loop_frozen
    (scroll_background (on_game (physics (canvas (host w))) w)))
    as [-> ->]; unfold scroll_background; proj_simpl; by rewrite Eb.
Qed.

End UpdateFacts.

(** ** Concrete instances *)

#[local] Open Scope Q_scope.

(** One frame at 60 Hz, in milliseconds. *)
Definition frame_60Hz : Q := 50 # 3.

Lemma update_tick_ok_witness :
  tick_ok (update half_draws frame_60Hz world_two_pipes).
Proof.
  apply update_tick_ok; [by vm_compute|by vm_compute|].
  unfold tick_ok. split_and!; try by vm_compute.
  repeat constructor; by vm_compute.
Defined.

(** The same world after the game has ended. *)
Definition world_over : World Q :=
  on_game (fun g => set_isGameOver true (set_isRunning true g)) world_two_pipes.

(** On doubles, a world whose tongue position and timer are NaN and whose
    frame delta is NaN: no comparison of the tick is true of them, and
    none of the three tests finds them out of range. *)
Definition world_lost : World spec_float :=
  mkWorld
    (set_lastPipeAt S754_nan
       (set_mouthY S754_nan (initial_game canvas_400x600 (BestNum (ofZ 0)))))
    (initial_host canvas_400x600 ∅ None).

Lemma update_clamps_witness :
  let w' := update (fun _ => ofZ 0) S754_nan world_lost in
  (mouthY (game w') <? ofZ 0) = false /\
  (mouthY (game w') >? groundY canvas_400x600) = false /\
  (lastPipeAt (game w') >? PIPE_INTERVAL_MS) = false.
Proof. apply (update_clamps (fun _ => ofZ 0) S754_nan world_lost); by vm_compute. Defined.

(** Two ticks of the world with two pipes. *)
Lemma ticks_best_witness :
  best_is 0 (localStorage (host world_two_pipes))
    (ticks half_draws [frame_60Hz; frame_60Hz] world_two_pipes).
Proof. apply ticks_best; [reflexivity|by vm_compute]. Defined.
