(* ===== verification/Ends.v ===== *)
(** * Ends: a game that is left alone ends

    [update] is the only function that runs between two presses.  Each of
    its ticks adds [GRAVITY] to the velocity, or more when the ceiling stops
    a rising tongue, and a tongue that stays above the ground line cannot be
    faster than the playfield is high.  So the velocity is a measure that
    bounds the number of ticks a game can last without a press: fewer than
    (groundY - mouthVelY) / 0.45 + 1, whatever the frame deltas and the
    random draws are, pipes or no pipes.

    The velocity is never below [FLAP_STRENGTH] in a world the page can
    reach, so on a canvas of height h a game left alone is over after
    (20 h - 2090) / 9 ticks at most. *)

From S2P Require Import Prelude Rational Config Geometry State Physics.
From S2P Require Import Pipes Update.

#[local] Open Scope js_scope.

(** ** Runs of ticks *)

Section TickTongue.
Context {N : Type} `{JsNumber N}.
Variable random : nat -> N.
Implicit Types (g : Game N) (w : World N) (dt : N).

(** A run of ticks that does not end in a finished game did not pass
    through one. *)
Lemma ticks_running dt dts w :
  isGameOver (game (ticks random (dt :: dts) w)) = false ->
  isGameOver (game w) = false /\
  isGameOver (game (update random dt w)) = false.
Proof.
  intros Hrun. split; apply not_true_iff_false; intros Hover;
    apply not_true_iff_false in Hrun; apply Hrun.
  - by rewrite ticks_over.
  - change (ticks random (dt :: dts) w)
      with (ticks random dts (update random dt w)).
    by rewrite ticks_over.
Qed.

End TickTongue.

(** ** The measure *)

#[local] Open Scope Q_scope.

Section EndsQ.
Variable random : nat -> Q.
Implicit Types (g : Game Q) (w : World Q) (dt : Q) (cv : Canvas).

(** The tongue is not above the canvas. *)
Definition below_ceiling w : Prop := 0 <= mouthY (game w).

(** The physics block ends the game, or leaves the tongue under the
    ceiling, faster by [GRAVITY] at least, and no faster than the ground
    line is low. *)
Lemma physics_speeds_up cv g :
  0 <= groundY cv -> 0 <= mouthY g ->
  isGameOver (physics cv g) = true \/
  (0 <= mouthY (physics cv g) /\
   mouthVelY g + (9 # 20) <= mouthVelY (physics cv g) /\
   mouthVelY (physics cv g) <= groundY cv).
Proof.
  intros Hg Hy. pose proof GRAVITY_Q as Eg.
  destruct (physics_cases cv g Hg)
    as [(Ht&Ey&Ev&_)|[([Ht ?]&Ey&Ev&_)|(_&_&_&Hover)]]; [right..|by left];
    unfold target in *; rewrite Ey, Ev; lra.
Qed.

(** The same for a tick of a running game. *)
Lemma update_speeds_up dt w :
  (112 <= canvas_height (canvas (host w)))%Z ->
  below_ceiling w -> isGameOver (game (update random dt w)) = false ->
  below_ceiling (update random dt w) /\
  mouthVelY (game w) + (9 # 20) <= mouthVelY (game (update random dt w)) /\
  mouthVelY (game (update random dt w)) <= groundY (canvas (host w)).
Proof.
  intros Hh Hy Hrun'.
  assert (Hrun : isGameOver (game w) = false).
  { apply not_true_iff_false. intros Hover.
    rewrite update_over in Hrun' by done. congruence. }
  destruct (update_tongue random dt w Hrun) as (Ey & Ev & Hover).
  unfold below_ceiling. rewrite Ey, Ev.
  destruct (physics_speeds_up (canvas (host w)) (game w)) as [Ho|?];
    [rewrite groundY_Q; lraQ|done| |done].
  apply Hover in Ho. congruence.
Qed.

(** As long as the game is not over, every tick has made the tongue faster
    by [GRAVITY] at least. *)
Lemma ticks_speed_up dts w :
  (112 <= canvas_height (canvas (host w)))%Z ->
  below_ceiling w -> isGameOver (game (ticks random dts w)) = false ->
  mouthVelY (game w) + (9 # 20) * inject_Z (Z.of_nat (length dts))
  <= Qmax (mouthVelY (game w)) (groundY (canvas (host w))).
Proof.
  revert w. induction dts as [|dt dts IH]; intros w Hh Hy Hrun.
  { change (inject_Z (Z.of_nat (length (@nil Q)))) with 0.
    pose proof (Q.le_max_l (mouthVelY (game w)) (groundY (canvas (host w)))).
    lra. }
  destruct (ticks_running random dt dts w Hrun) as [_ Hrun1].
  destruct (update_speeds_up dt w Hh Hy Hrun1) as (Hy1 & Hv1 & Hg1).
  destruct (update_frame random dt w) as (_ & _ & _ & Ecv & _).
  specialize (IH (update random dt w)). rewrite Ecv in IH.
  specialize (IH Hh Hy1 Hrun).
  pose proof (Q.le_max_r (mouthVelY (game w)) (groundY (canvas (host w)))) as Hr.
  rewrite Q.max_r in IH by done.
  rewrite length_cons, Nat2Z.inj_succ, <- Z.add_1_r, inject_Z_plus.
  lraQ.
Qed.

(** C15. A game that is left alone ends: on a canvas at least 112 pixels high,
    from a tongue under the ceiling with a velocity below the height of the
    playfield, the game is over after [n] ticks as soon as
    [mouthVelY + 0.45 n] exceeds [groundY], for all frame deltas and random
    draws. *)
Theorem game_ends dts w :
  (112 <= canvas_height (canvas (host w)))%Z ->
  below_ceiling w ->
  mouthVelY (game w) <= groundY (canvas (host w)) ->
  groundY (canvas (host w))
  < mouthVelY (game w) + (9 # 20) * inject_Z (Z.of_nat (length dts)) ->
  isGameOver (game (ticks random dts w)) = true.
Proof.
  intros Hh Hy Hv Hn. apply not_false_iff_true. intros Hrun.
  pose proof (ticks_speed_up dts w Hh Hy Hrun) as Hs.
  rewrite Q.max_r in Hs by done. lra.
Qed.

(** After a flap, the fastest way up, the bound is (20 h - 2090) / 9
    ticks on a canvas of height h. *)
Theorem game_ends_after_flap dts w :
  (112 <= canvas_height (canvas (host w)))%Z ->
  below_ceiling w ->
  FLAP_STRENGTH <= mouthVelY (game w) <= groundY (canvas (host w)) ->
  (20 * canvas_height (canvas (host w)) < 9 * Z.of_nat (length dts) + 2090)%Z ->
  isGameOver (game (ticks random dts w)) = true.
Proof.
  intros Hh Hy [Hv0 Hv1] Hn. apply not_false_iff_true. intros Hrun.
  pose proof (ticks_speed_up dts w Hh Hy Hrun) as Hs.
  rewrite Q.max_r in Hs by done.
  rewrite groundY_Q in Hs. rewrite FLAP_STRENGTH_Q in Hv0.
  rewrite Zlt_Qlt, inject_Z_plus, !inject_Z_mult in Hn.
  lraQ.
Qed.

End EndsQ.

(** ** Concrete instances *)

(** On the 400 by 600 canvas a fresh game is over after 1085 ticks of 50 ms
    by the bound (it is over after 29, see [Scenarios]). *)
Lemma game_ends_witness :
  isGameOver (game (ticks half_draws (replicate 1085 50)
                      (mkWorld fresh_400x600 (initial_host canvas_400x600 ∅ None))))
  = true.
Proof.
  apply game_ends; [by vm_compute..|].
  rewrite length_replicate. by vm_compute.
Defined.

Lemma game_ends_after_flap_witness :
  isGameOver (game (ticks half_draws (replicate 1102 50)
                      (mkWorld (set_mouthVelY FLAP_STRENGTH fresh_400x600)
                         (initial_host canvas_400x600 ∅ None))))
  = true.
Proof.
  apply game_ends_after_flap; [by vm_compute..|].
  rewrite length_replicate. by vm_compute.
Defined.
