(* ===== verification/Landing.v ===== *)
(** * Landing: the start screen of the game

    part_000 lines 456-564: [drawLanding] paints the start screen on the
    landing canvas, [startGame] hides it and shows the game, and
    [waitForImages] polls every 100 ms until an image is there to paint the
    screen with.  The landing canvas has the size of the game canvas:
    [resizeCanvas] gives both the same dimensions.

    The theorems: the start screen is painted on a cleared canvas; it is
    complete unless the strip of teeth is broken, in which case the
    exception of [drawImage] leaves it without title and button;
    [waitForImages] stops polling exactly when the texture has loaded or
    the request for the teeth has ended. *)

From S2P Require Import Prelude Rational Config Geometry Assets State Physics.
From S2P Require Import Pipes Render.

#[local] Open Scope js_scope.
#[local] Open Scope paint_scope.

Section Landing.
Context {N : Type} `{JsNumber N}.
Implicit Types (w : World N) (a : Assets).

Definition FONT_TITLE : string :=
  "bold 4rem Orbitron, system-ui, -apple-system, Segoe UI, Arial".
Definition FONT_SUBTITLE : string :=
  "bold 1.2rem Roboto, system-ui, -apple-system, Segoe UI, Arial".
Definition FONT_BUTTON : string :=
  "bold 1.5rem Orbitron, system-ui, -apple-system, Segoe UI, Arial".
Definition FONT_LOADING : string :=
  "bold 2rem Roboto, system-ui, -apple-system, Segoe UI, Arial".

(** ** drawLanding *)

(** Lines 461-479: the pattern, or the texture itself when no pattern
    could be made of it, or the fallback sky. *)
Definition drawLandingBackground w : Paint N :=
  let W := ofZ (canvas_width (canvas (host w))) in
  let H := ofZ (canvas_height (canvas (host w))) in
  let a := assets (host w) in
  if bgPattern a then
    emit [GlobalAlpha (ofZ 3 / ofZ 5); FillStyle PatternFill;
          FillRect (ofZ 0) (ofZ 0) W H; GlobalAlpha (ofZ 1)]
  else if bgImg a && complete (bgRequest a) then
    emit [GlobalAlpha (ofZ 3 / ofZ 5)] ;;
    drawImage BgImage (bgRequest a) (ofZ 0) (ofZ 0) W H ;;
    emit [GlobalAlpha (ofZ 1)]
  else
    emit ([FillStyle (Color "#70c5ce"); FillRect (ofZ 0) (ofZ 0) W H;
           FillStyle (Color "#8be0ec")]
          ++ map (fun x => FillRect (ofZ x) (ofZ 120) (ofZ 60) (ofZ 10))
               (stripes (canvas_width (canvas (host w))))).

(** Lines 495-528: title, subtitle and the button. *)
Definition drawLandingTexts w : Paint N :=
  let W := ofZ (canvas_width (canvas (host w))) in
  let H := ofZ (canvas_height (canvas (host w))) in
  let buttonWidth := ofZ 200 in
  let buttonHeight := ofZ 60 in
  let buttonX := (W - buttonWidth) / ofZ 2 in
  let buttonY := H * (ofZ 3 / ofZ 5) in
  emit [FillStyle (Color "#ffffff"); Font FONT_TITLE; TextAlign "center";
        ShadowColor "rgba(0,0,0,0.5)"; ShadowBlur (ofZ 4);
        ShadowOffsetX (ofZ 2); ShadowOffsetY (ofZ 2);
        FillText (Str "MOUTH TRAP") (W / ofZ 2) (H * (ofZ 2 / ofZ 5));
        Font FONT_SUBTITLE; ShadowBlur (ofZ 2);
        ShadowOffsetX (ofZ 1); ShadowOffsetY (ofZ 1);
        FillText (Str "CLICK ANYWHERE TO START PLAYING!") (W / ofZ 2)
          (H * (ofZ 1 / ofZ 2));
        FillStyle (Color "#fff200");
        FillRect buttonX buttonY buttonWidth buttonHeight;
        FillStyle (Color "#000000"); Font FONT_BUTTON;
        ShadowColor "transparent"; ShadowBlur (ofZ 0);
        ShadowOffsetX (ofZ 0); ShadowOffsetY (ofZ 0);
        FillText (Str "START GAME") (W / ofZ 2)
          (buttonY + buttonHeight / ofZ 2 + ofZ 8)].

(** [drawLanding()], lines 456-529.  Lines 482-492 are the code of lines
    343-353 on the other context: [drawGround]. *)
Definition drawLanding w : Paint N :=
  let W := ofZ (canvas_width (canvas (host w))) in
  let H := ofZ (canvas_height (canvas (host w))) in
  emit [ClearRect (ofZ 0) (ofZ 0) W H] ;;
  drawLandingBackground w ;; drawGround w ;; drawLandingTexts w.

(** ** startGame and waitForImages *)

(** The assignments of [startGame()], lines 532-538; it ends with
    [draw()]. *)
Definition startGame w : World N :=
  let w := on_host (set_showLanding false) w in
  let w := on_host (set_landingDisplay "none") w in
  on_host (set_gameDisplay "block") w.

(** The listeners of the landing canvas, lines 541-545: a click calls
    [startGame], and so does a touch, after [e.preventDefault()]. *)
Definition onLanding w : World N := startGame w.

(** Line 549: [(bgImg && bgImg.complete) || (groundImg &&
    groundImg.complete)]; [groundImg] is never null. *)
Definition imagesReady a : bool :=
  bgImg a && complete (bgRequest a) || complete (groundImg a).

(** Lines 553-558: the loading screen. *)
Definition drawLoading w : Paint N :=
  let W := ofZ (canvas_width (canvas (host w))) in
  let H := ofZ (canvas_height (canvas (host w))) in
  emit [FillStyle (Color "#0b1820"); FillRect (ofZ 0) (ofZ 0) W H;
        FillStyle (Color "#ffffff"); Font FONT_LOADING; TextAlign "center";
        FillText (Str "LOADING...") (W / ofZ 2) (H / ofZ 2)].

(** What [waitForImages()] paints, lines 548-561. *)
Definition waitForImages_paints w : Paint N :=
  if imagesReady (assets (host w)) then drawLanding w else drawLoading w.

(** What [waitForImages()] does to the page: it sets a timer when no image
    is ready. *)
Definition waitForImages w : World N :=
  if imagesReady (assets (host w)) then w
  else on_host (fun h => set_timeouts (S (timeouts h)) h) w.

(** ** What the start screen shows *)

Lemma drawLandingBackground_thrown w :
  assets_ok (assets (host w)) -> thrown (drawLandingBackground w) = false.
Proof.
  intros [_ Hi _ _ _]. unfold drawLandingBackground.
  destruct (bgPattern (assets (host w))); [done|].
  destruct (bgImg (assets (host w))) eqn:Ei; [|done].
  by rewrite (proj1 Hi eq_refl).
Qed.

Lemma drawLandingBackground_texts w :
  texts (calls (drawLandingBackground w)) = [].
Proof.
  unfold drawLandingBackground.
  destruct (bgPattern _); [done|]. destruct (bgImg _ && _).
  - by destruct (bgRequest _).
  - cbn [calls emit fst]. rewrite texts_app. apply texts_stripes.
Qed.

(** The start screen is painted on a cleared canvas, and it throws exactly
    when the strip of teeth is broken: [complete] is true of a broken
    image, so the guard of line 482 lets [drawImage] throw. *)
Theorem drawLanding_thrown w :
  assets_ok (assets (host w)) ->
  head (calls (drawLanding w))
  = Some (ClearRect (ofZ 0) (ofZ 0) (ofZ (canvas_width (canvas (host w))))
            (ofZ (canvas_height (canvas (host w))))) /\
  thrown (drawLanding w) = bool_decide (groundImg (assets (host w)) = Broken).
Proof.
  intros Hok. unfold drawLanding. cbv zeta. split.
  - by rewrite then_calls.
  - rewrite !then_thrown, drawGround_thrown, drawLandingBackground_thrown by done.
    simpl. apply orb_false_r.
Qed.

(** C31. The texts of the start screen: title, subtitle and button label when
    the strip of teeth is not broken; with a broken strip the exception
    leaves [drawLanding] before line 495 and the screen has no text. *)
Theorem drawLanding_texts w :
  assets_ok (assets (host w)) ->
  map text_of (texts (calls (drawLanding w)))
  = if bool_decide (groundImg (assets (host w)) = Broken) then []
    else [Str "MOUTH TRAP"; Str "CLICK ANYWHERE TO START PLAYING!";
          Str "START GAME"].
Proof.
  intros Hok. unfold drawLanding. cbv zeta.
  rewrite then_calls. cbn [thrown emit snd].
  rewrite then_calls, drawLandingBackground_thrown by done.
  rewrite then_calls, drawGround_thrown.
  rewrite !texts_app, drawLandingBackground_texts, drawGround_texts.
  by destruct (bool_decide _).
Qed.

(** Polling stops when an image is ready, and only then. *)
Theorem waitForImages_timeouts w :
  timeouts (host (waitForImages w))
  = if imagesReady (assets (host w)) then timeouts (host w)
    else S (timeouts (host w)).
Proof. unfold waitForImages. by destruct (imagesReady _). Qed.

End Landing.

#[export] Hint Unfold startGame waitForImages : js_unfold.

(** ** Concrete instances *)

(** The page on the 400 by 600 canvas when the request for the strip of
    teeth has failed. *)
Definition world_teeth_broken : World Q :=
  on_host (set_assets (settle GroundImage Broken (initial_assets None)))
    (mkWorld fresh_400x600 (initial_host canvas_400x600 ∅ None)).

Lemma world_teeth_broken_ok : assets_ok (assets (host world_teeth_broken)).
Proof.
  apply (asset_run_ok [Failed GroundImage] (initial_assets None));
    [apply initial_assets_ok|reflexivity].
Qed.

Lemma drawLanding_thrown_witness :
  head (calls (drawLanding world_teeth_broken))
  = Some (ClearRect (ofZ 0) (ofZ 0) (ofZ 400) (ofZ 600)) /\
  thrown (drawLanding world_teeth_broken) = true.
Proof. apply (drawLanding_thrown world_teeth_broken world_teeth_broken_ok). Defined.

Lemma drawLanding_texts_witness :
  map text_of (texts (calls (drawLanding world_teeth_broken))) = [].
Proof. apply (drawLanding_texts world_teeth_broken world_teeth_broken_ok). Defined.
