(* ===== verification/Loop.v ===== *)
(** * Loop: the events of the page and its event loop

    [flap] (part_000 lines 195-211), [gameLoop] (lines 430-436), the input
    handlers (lines 439-453) and [resizeCanvas] with its listener (lines
    32-70), then the page as a transition system: an event of the browser
    runs one handler to completion.  The events are the inputs on the game
    canvas and the document, animation frames, resizes, the ends of the
    image requests, the click or touch on the landing canvas, and the timer
    of [waitForImages].  An animation frame or a timer can only fire when
    one was requested; the host counts them.

    [gameLoop] calls [draw()] between [update] and
    [requestAnimationFrame]: when [draw] throws, the callback ends there and
    no further frame is requested.

    For every number instance: at most one callback is pending, and
    exactly one once the game has started unless an image is broken;
    [isRunning] is never cleared; the game cannot be over before it has
    started; the page refines the three-phase machine Idle, Running,
    GameOver of the design; with a broken sprite or strip of teeth the
    loop stops for good after the first frame; the landing page is left
    once and never shown again; nothing stops the keyboard from starting
    the game behind it. *)

From S2P Require Import Prelude Rational Config Geometry Assets State Physics.
From S2P Require Import Pipes Render Update Ends Landing.

#[local] Open Scope js_scope.

(** ** Events *)

(** What the browser delivers.  [now] is [performance.now()] at the time of
    an input, [timestamp] the argument of the animation-frame callback,
    [innerWidth] and [innerHeight] the viewport at a resize. *)
Inductive Event (N : Type) : Type :=
| KeyDown (code key : string) (now : N)
| MouseDown (now : N)
| TouchStart (now : N)
| AnimationFrame (timestamp : N)
| Resize (innerWidth innerHeight : Z)
| ImageEvent (e : AssetEvent)
| LandingClick
| LandingTouch
| Timeout.
Arguments KeyDown {N}.
Arguments MouseDown {N}.
Arguments TouchStart {N}.
Arguments AnimationFrame {N}.
Arguments Resize {N}.
Arguments ImageEvent {N}.
Arguments LandingClick {N}.
Arguments LandingTouch {N}.
Arguments Timeout {N}.

(** The canvas a handler paints on. *)
Inductive Surface : Type := GameCanvas | LandingCanvas.

Section Handlers.
Context {N : Type} `{JsNumber N}.
Variable random : nat -> N.
Implicit Types (g : Game N) (w : World N) (h : Host) (now timestamp : N).

(** ** Handlers *)

(** [requestAnimationFrame(gameLoop)]: one more callback is pending. *)
Definition requestAnimationFrame w : World N :=
  on_host (fun h => set_animationFrames (S (animationFrames h)) h) w.

(** The browser takes a pending callback off its list before it calls it. *)
Definition takeAnimationFrame w : World N :=
  on_host (fun h => set_animationFrames (pred (animationFrames h)) h) w.

(** The same for a timer that fires. *)
Definition takeTimeout w : World N :=
  on_host (fun h => set_timeouts (pred (timeouts h)) h) w.

(** [flap()], lines 195-211. *)
Definition flap now w : World N :=
  let w :=
    if negb (isRunning (game w)) then
      let w := on_game (set_isRunning true) w in
      let w := on_game (set_lastTimestamp now) w in
      requestAnimationFrame w
    else w in
  if isGameOver (game w) then on_game (resetGame (canvas (host w))) w
  else on_game (set_mouthVelY FLAP_STRENGTH) w.

(** [const dt = Math.min(50, timestamp - lastTimestamp);], line 431. *)
Definition frameDelta timestamp w : N :=
  nmin (ofZ 50) (timestamp - lastTimestamp (game w)).

(** [gameLoop(timestamp)], lines 430-436.  An exception in [draw()] ends
    the callback before line 435. *)
Definition gameLoop timestamp w : World N :=
  let dt := frameDelta timestamp w in
  let w := on_game (set_lastTimestamp timestamp) w in
  let w := update random dt w in
  if thrown (draw w) then w
  else if isRunning (game w) then requestAnimationFrame w else w.

(** [onKeyDown(e)], lines 439-444. *)
Definition onKeyDown (code key : string) now w : World N :=
  if bool_decide (code = "Space") || bool_decide (key = " ")
  then flap now w
  else w.

(** [onPointer()], lines 445-447, and the touch listener of lines 450-453. *)
Definition onPointer now w : World N := flap now w.

(** Whether the handler calls [e.preventDefault()], lines 441, 451 and
    543. *)
Definition preventsDefault (e : Event N) : bool :=
  match e with
  | KeyDown code key _ => bool_decide (code = "Space") || bool_decide (key = " ")
  | TouchStart _ | LandingTouch => true
  | _ => false
  end.

(** [resizeCanvas()], lines 32-55, for the two canvases, which get the same
    size.  The viewport dimensions are integers, so
    [Math.floor(window.innerWidth)] is the identity and
    [Math.floor((3 / 2) * desiredWidth)] is the integer quotient. *)
Definition resizeCanvas (innerWidth innerHeight : Z) (cv : Canvas) : Canvas :=
  let desiredWidth := Z.max 320 innerWidth in
  let desiredHeightByAspect := (3 * desiredWidth / 2)%Z in
  let maxHeight := innerHeight in
  let desiredHeight := Z.min desiredHeightByAspect maxHeight in
  if bool_decide (canvas_width cv <> desiredWidth)
     || bool_decide (canvas_height cv <> desiredHeight)
  then mkCanvas desiredWidth desiredHeight
  else cv.

(** The resize listener, lines 62-70: [resizeCanvas()], then a redraw. *)
Definition onResize (innerWidth innerHeight : Z) w : World N :=
  on_host (fun h => set_canvas (resizeCanvas innerWidth innerHeight (canvas h)) h) w.

(** The end of an image request: the listeners of lines 87-108 and
    119-125, when the request was pending. *)
Definition onImage (e : AssetEvent) w : option (World N) :=
  a ← asset_handle e (assets (host w));
  Some (on_host (set_assets a) w).

(** The timer of line 559 fires. *)
Definition onPollTimer w : World N := waitForImages (takeTimeout w).

(** ** The event loop *)

(** The handler an event runs, when the event can occur: a frame or a
    timer needs a pending request, an image event a pending request of the
    image, and the landing canvas cannot be pressed once it is hidden. *)
Definition handle (e : Event N) w : option (World N) :=
  match e with
  | KeyDown code key now => Some (onKeyDown code key now w)
  | MouseDown now => Some (onPointer now w)
  | TouchStart now => Some (onPointer now w)
  | AnimationFrame timestamp =>
      if decide (0 < animationFrames (host w))
      then Some (gameLoop timestamp (takeAnimationFrame w))
      else None
  | Resize iw ih => Some (onResize iw ih w)
  | ImageEvent e => onImage e w
  | LandingClick | LandingTouch =>
      if decide (landingDisplay (host w) = "none") then None
      else Some (onLanding w)
  | Timeout =>
      if decide (0 < timeouts (host w)) then Some (onPollTimer w) else None
  end.

Inductive step : World N -> Event N -> World N -> Prop :=
| step_key code key now w : step w (KeyDown code key now) (onKeyDown code key now w)
| step_mouse now w : step w (MouseDown now) (onPointer now w)
| step_touch now w : step w (TouchStart now) (onPointer now w)
| step_frame timestamp w :
    0 < animationFrames (host w) ->
    step w (AnimationFrame timestamp) (gameLoop timestamp (takeAnimationFrame w))
| step_resize iw ih w : step w (Resize iw ih) (onResize iw ih w)
| step_image e a w :
    asset_handle e (assets (host w)) = Some a ->
    step w (ImageEvent e) (on_host (set_assets a) w)
| step_landing_click w :
    landingDisplay (host w) <> "none" -> step w LandingClick (onLanding w)
| step_landing_touch w :
    landingDisplay (host w) <> "none" -> step w LandingTouch (onLanding w)
| step_timeout w :
    0 < timeouts (host w) -> step w Timeout (onPollTimer w).

(** The worlds the page can be in, from the world [w0] it is loaded in. *)
Inductive reachable (w0 : World N) : World N -> Prop :=
| reach_start : reachable w0 w0
| reach_step w e w' : reachable w0 w -> step w e w' -> reachable w0 w'.

(** Running a list of events, oldest first; [None] when one cannot occur. *)
Fixpoint run (es : list (Event N)) w : option (World N) :=
  match es with
  | [] => Some w
  | e :: es => w' ← handle e w; run es w'
  end.

(** What the handler of an event paints, and where: the state is the one
    the handler leaves. *)
Definition paints (e : Event N) w' : option (Surface * Paint N) :=
  let redraw :=
    if showLanding (host w') then (LandingCanvas, drawLanding w')
    else (GameCanvas, draw w') in
  match e with
  | AnimationFrame _ => Some (GameCanvas, draw w')
  | Resize _ _ => Some redraw
  | ImageEvent (Loaded BgImage _) | ImageEvent (Loaded GroundImage _) =>
      if showLanding (host w') then Some (LandingCanvas, drawLanding w')
      else None
  | LandingClick | LandingTouch => Some (GameCanvas, draw w')
  | Timeout => Some (LandingCanvas, waitForImages_paints w')
  | _ => None
  end.

(** The world after the script has run on the canvas [cv]: the variables
    initialised, the images requested, and line 564, the first
    [waitForImages()], which finds no image ready and sets its timer. *)
Definition initial_world (cv : Canvas) (b : Best N)
    (storage : gmap string string) (tongue : option ImageState) : World N :=
  waitForImages (mkWorld (initial_game cv b) (initial_host cv storage tongue)).

(** The script from its first statement to its last, in a window of the
    given inner size and with canvases that the document made [cv0] large:
    line 58, [resizeCanvas()], gives them their size before anything else
    reads it. *)
Definition script (innerWidth innerHeight : Z) (cv0 : Canvas) (b : Best N)
    (storage : gmap string string) (tongue : option ImageState) : World N :=
  initial_world (resizeCanvas innerWidth innerHeight cv0) b storage tongue.

End Handlers.

#[export] Hint Unfold requestAnimationFrame takeAnimationFrame takeTimeout
  flap gameLoop onKeyDown onPointer onResize onPollTimer : js_unfold.
#[export] Hint Constructors step reachable : js.

(** ** The phases of the design *)

Inductive Phase : Type := Idle | Running | GameOver.

#[export] Instance Phase_eq_dec : EqDecision Phase.
Proof. solve_decision. Defined.

(** What the design calls an event: an "activate" input, a frame, or
    something that does not concern the state machine. *)
Inductive Signal : Type := Activate | Frame | Other.

(** The machine of the design: the first input starts the game, an input
    restarts a finished game, a frame may end a running game, and nothing
    leads back to Idle. *)
Inductive phase_step : Phase -> Signal -> Phase -> Prop :=
| idle_activate : phase_step Idle Activate Running
| running_activate : phase_step Running Activate Running
| over_activate : phase_step GameOver Activate Running
| running_frame : phase_step Running Frame Running
| running_dies : phase_step Running Frame GameOver
| over_frame : phase_step GameOver Frame GameOver
| other_stays p : phase_step p Other p.

#[export] Hint Constructors phase_step : js.

Section LoopFacts.
Context {N : Type} `{JsNumber N}.
Variable random : nat -> N.
Implicit Types (g : Game N) (w : World N) (e : Event N) (now timestamp : N).

#[local] Abbreviation step := (step random).
#[local] Abbreviation reachable := (reachable random).
#[local] Abbreviation handle := (handle random).
#[local] Abbreviation gameLoop := (gameLoop random).

(** The phase a world is in. *)
Definition phase w : Phase :=
  if negb (isRunning (game w)) then Idle
  else if isGameOver (game w) then GameOver
  else Running.

(** The signal an event is. *)
Definition signal e : Signal :=
  match e with
  | KeyDown code key _ =>
      if bool_decide (code = "Space") || bool_decide (key = " ")
      then Activate else Other
  | MouseDown _ | TouchStart _ => Activate
  | AnimationFrame _ => Frame
  | _ => Other
  end.

(** ** The relation and the function agree *)

Lemma step_handle w e w' : step w e w' <-> handle e w = Some w'.
Proof.
  split.
  - intros [| | | | |? ? ? He| | |]; simpl; try done; try by case_decide.
    unfold onImage. by rewrite He.
  - destruct e as [| | | | |ae| | |]; simpl;
      try (intros [= <-]; constructor); try (case_decide; [|done]);
      try (case_decide; [done|]); try (intros [= <-]; by constructor).
    unfold onImage. destruct (asset_handle ae _) eqn:He; [|done].
    intros [= <-]. by constructor.
Qed.

(** ** What the handlers do to the game and to the page *)

(** Pressing a key that is not the space bar does nothing. *)
Lemma onKeyDown_cases code key now w :
  onKeyDown code key now w = flap now w \/ onKeyDown code key now w = w.
Proof. unfold onKeyDown. destruct (_ || _); auto. Qed.

Lemma flap_page now w : page_of (host (flap now w)) = page_of (host w).
Proof.
  unfold flap, requestAnimationFrame.
  by destruct (isRunning (game w)); proj_simpl; destruct (isGameOver (game w)).
Qed.

Lemma flap_assets now w : assets (host (flap now w)) = assets (host w).
Proof. apply page_of_assets, flap_page. Qed.

Lemma flap_isRunning now w : isRunning (game (flap now w)) = true.
Proof.
  unfold flap, requestAnimationFrame.
  destruct (isRunning (game w)) eqn:Hr; proj_simpl;
    destruct (isGameOver (game w)); proj_simpl; by rewrite ?Hr.
Qed.

Lemma flap_isGameOver now w : isGameOver (game (flap now w)) = false.
Proof.
  unfold flap, requestAnimationFrame.
  destruct (isRunning (game w)); proj_simpl;
    destruct (isGameOver (game w)) eqn:Ho; proj_simpl; by rewrite ?Ho.
Qed.

Lemma flap_animationFrames now w :
  animationFrames (host (flap now w))
  = if isRunning (game w) then animationFrames (host w)
    else S (animationFrames (host w)).
Proof.
  unfold flap, requestAnimationFrame.
  destruct (isRunning (game w)); proj_simpl;
    by destruct (isGameOver (game w)).
Qed.

(** A flap overrides the velocity: in a game that is not over the
    vertical velocity after [flap] is [FLAP_STRENGTH], whatever it was, and
    position, pipes and score are untouched. *)
Theorem flap_overrides now w :
  isGameOver (game w) = false ->
  mouthVelY (game (flap now w)) = FLAP_STRENGTH /\
  mouthY (game (flap now w)) = mouthY (game w) /\
  pipes (game (flap now w)) = pipes (game w) /\
  score (game (flap now w)) = score (game w).
Proof.
  intros Ho. unfold flap, requestAnimationFrame.
  destruct (isRunning (game w)); proj_simpl; by rewrite Ho.
Qed.

(** An input in a finished game restarts it and does not flap: the
    variables are those of [resetGame], so the score is 0, the pipes are
    gone, the tongue is back at its initial place with velocity 0, and
    [best] is kept. *)
Theorem flap_restarts now w :
  isGameOver (game w) = true -> isRunning (game w) = true ->
  flap now w = on_game (resetGame (canvas (host w))) w /\
  score (game (flap now w)) = 0%Z /\
  pipes (game (flap now w)) = [] /\
  isGameOver (game (flap now w)) = false /\
  mouthVelY (game (flap now w)) = ofZ 0 /\
  best (game (flap now w)) = best (game w).
Proof.
  intros Ho Hr. unfold flap. rewrite Hr. simpl. by rewrite Ho.
Qed.

(** ** The script *)

(** When the script has run, the first [waitForImages()] has painted the
    loading screen and its timer is the one timer pending. *)
Lemma initial_world_polls cv b storage tongue :
  let w0 := mkWorld (initial_game cv b) (initial_host cv storage tongue) in
  initial_world cv b storage tongue = on_host (set_timeouts 1) w0 /\
  waitForImages_paints w0 = drawLoading w0.
Proof. done. Qed.

(** ** gameLoop *)

(** The world [gameLoop] draws. *)
Definition ticked timestamp w : World N :=
  update random (frameDelta timestamp w) (on_game (set_lastTimestamp timestamp) w).

Lemma gameLoop_ticked timestamp w :
  gameLoop timestamp w
  = if isRunning (game w) && images_usable (assets (host w))
    then requestAnimationFrame (ticked timestamp w)
    else ticked timestamp w.
Proof.
  unfold gameLoop, ticked. cbv zeta.
  set (w1 := update random _ _). rewrite draw_thrown_usable.
  assert (assets (host w1) = assets (host w)) as ->
    by (subst w1; by rewrite update_assets).
  assert (isRunning (game w1) = isRunning (game w)) as ->.
  { subst w1. by destruct (update_frame random (frameDelta timestamp w)
      (on_game (set_lastTimestamp timestamp) w)) as (_ & -> & _). }
  by destruct (images_usable _), (isRunning _).
Qed.

Lemma ticked_frame timestamp w :
  isRunning (game (ticked timestamp w)) = isRunning (game w) /\
  animationFrames (host (ticked timestamp w)) = animationFrames (host w) /\
  page_of (host (ticked timestamp w)) = page_of (host w) /\
  canvas (host (ticked timestamp w)) = canvas (host w).
Proof.
  unfold ticked.
  destruct (update_frame random (frameDelta timestamp w)
    (on_game (set_lastTimestamp timestamp) w)) as (_ & -> & _ & -> & ->).
  by rewrite update_page.
Qed.

Lemma gameLoop_animationFrames timestamp w :
  animationFrames (host (gameLoop timestamp w))
  = if isRunning (game w) && images_usable (assets (host w))
    then S (animationFrames (host w))
    else animationFrames (host w).
Proof.
  rewrite gameLoop_ticked.
  destruct (ticked_frame timestamp w) as (_ & Ef & _).
  destruct (_ && _); unfold requestAnimationFrame; proj_simpl; by rewrite Ef.
Qed.

Lemma gameLoop_isRunning timestamp w :
  isRunning (game (gameLoop timestamp w)) = isRunning (game w).
Proof.
  rewrite gameLoop_ticked.
  destruct (ticked_frame timestamp w) as (Er & _).
  by destruct (_ && _); unfold requestAnimationFrame; proj_simpl.
Qed.

Lemma gameLoop_page timestamp w :
  page_of (host (gameLoop timestamp w)) = page_of (host w).
Proof.
  rewrite gameLoop_ticked.
  destruct (ticked_frame timestamp w) as (_ & _ & Ep & _).
  by destruct (_ && _); unfold requestAnimationFrame; proj_simpl.
Qed.

Lemma gameLoop_assets timestamp w :
  assets (host (gameLoop timestamp w)) = assets (host w).
Proof. apply page_of_assets, gameLoop_page. Qed.

Lemma gameLoop_isGameOver timestamp w :
  isGameOver (game w) = true ->
  isGameOver (game (gameLoop timestamp w)) = true.
Proof.
  intros Ho. rewrite gameLoop_ticked. unfold ticked.
  rewrite update_over by done.
  by destruct (_ && _); unfold requestAnimationFrame; proj_simpl.
Qed.

(** ** Invariants of the reachable worlds *)

(** At most one callback is pending, and only when the game has started;
    the game is not over before it has started; and as long as no image
    that [draw] needs is broken, a started game has its callback. *)
Definition frames_ok w : Prop :=
  animationFrames (host w) <= (if isRunning (game w) then 1 else 0) /\
  (isGameOver (game w) = true -> isRunning (game w) = true) /\
  (images_usable (assets (host w)) = true ->
   animationFrames (host w) = if isRunning (game w) then 1 else 0).

(** The invariant reads four variables. *)
Lemma frames_ok_ext w w' :
  animationFrames (host w') = animationFrames (host w) ->
  isRunning (game w') = isRunning (game w) ->
  isGameOver (game w') = isGameOver (game w) ->
  assets (host w') = assets (host w) ->
  frames_ok w -> frames_ok w'.
Proof. unfold frames_ok. by intros -> -> -> ->. Qed.

Lemma flap_frames_ok now w : frames_ok w -> frames_ok (flap now w).
Proof.
  intros (Hf & Ho & Hu). unfold frames_ok.
  rewrite flap_animationFrames, flap_isRunning, flap_assets.
  split_and!; [|done|intros Hus; specialize (Hu Hus)];
    destruct (isRunning (game w)); lia.
Qed.

Lemma gameLoop_frames_ok timestamp w :
  frames_ok w -> 0 < animationFrames (host w) ->
  frames_ok (gameLoop timestamp (takeAnimationFrame w)).
Proof.
  intros (Hf & Ho & Hu) Hpos. unfold frames_ok.
  rewrite gameLoop_animationFrames, gameLoop_isRunning, gameLoop_assets.
  unfold takeAnimationFrame. proj_simpl.
  destruct (isRunning (game w)); [|lia]. simpl.
  split_and!; [destruct (images_usable _); lia|done|].
  intros ->. lia.
Qed.

Lemma step_frames_ok w e w' : step w e w' -> frames_ok w -> frames_ok w'.
Proof.
  intros Hstep Hok.
  destruct Hstep as [code key now w|now w|now w|timestamp w Hpos|iw ih w
                    |ae a w He|w _|w _|w _].
  - destruct (onKeyDown_cases code key now w) as [-> | ->];
      [by apply flap_frames_ok|done].
  - by apply flap_frames_ok.
  - by apply flap_frames_ok.
  - by apply gameLoop_frames_ok.
  - revert Hok. by apply frames_ok_ext.
  - destruct Hok as (Hf & Ho & Hu). split_and!; [done..|].
    proj_simpl. intros Hus. apply Hu. by eapply images_usable_before.
  - revert Hok. by apply frames_ok_ext.
  - revert Hok. by apply frames_ok_ext.
  - revert Hok. apply frames_ok_ext; unfold onPollTimer, waitForImages, takeTimeout;
      by destruct (imagesReady _).
Qed.

Lemma reachable_frames_ok w0 w : frames_ok w0 -> reachable w0 w -> frames_ok w.
Proof.
  intros H0 Hr. induction Hr; [done|]. by eapply step_frames_ok.
Qed.

Lemma initial_world_frames_ok cv b storage tongue :
  frames_ok (initial_world cv b storage tongue).
Proof. unfold frames_ok. simpl. by split_and!. Qed.

(** C5. In every world reachable from the loaded page at most one
    animation-frame callback is pending, and none before the game has
    started; as long as the strip of teeth and the sprite are not broken,
    exactly one is pending once the game has started: the loop neither
    stops nor runs twice per frame. *)
Theorem one_frame_pending cv b storage tongue w :
  reachable (initial_world cv b storage tongue) w ->
  animationFrames (host w) <= (if isRunning (game w) then 1 else 0) /\
  (images_usable (assets (host w)) = true ->
   animationFrames (host w) = if isRunning (game w) then 1 else 0).
Proof.
  intros Hr.
  destruct (reachable_frames_ok _ w (initial_world_frames_ok cv b storage tongue) Hr)
    as (? & _ & ?). done.
Qed.

(** ** A broken image stops the loop *)

(** The loop has stopped: the game counts as running, no callback is
    pending, and an image that [draw] needs is broken. *)
Definition stalled w : Prop :=
  isRunning (game w) = true /\ animationFrames (host w) = 0 /\
  images_usable (assets (host w)) = false.

Lemma step_stalled w e w' : step w e w' -> stalled w -> stalled w'.
Proof.
  intros Hstep (Hr & Hf & Hu).
  assert (Hflap : forall now, stalled (flap now w)).
  { intros now. unfold stalled.
    by rewrite flap_isRunning, flap_animationFrames, flap_assets, Hr. }
  destruct Hstep as [code key now w|now w|now w|timestamp w Hpos|iw ih w
                    |ae a w He|w _|w _|w _]; try done.
  - by destruct (onKeyDown_cases code key now w) as [-> | ->].
  - lia.
  - split_and!; [done..|]. proj_simpl. apply not_true_iff_false. intros Hus.
    apply (images_usable_before _ _ _ He) in Hus. congruence.
  - unfold stalled, onPollTimer, waitForImages, takeTimeout.
    by destruct (imagesReady _).
Qed.

Lemma frame_stalls timestamp w :
  frames_ok w -> 0 < animationFrames (host w) ->
  images_usable (assets (host w)) = false ->
  stalled (gameLoop timestamp (takeAnimationFrame w)).
Proof.
  intros (Hf & _ & _) Hpos Hu. unfold stalled.
  rewrite gameLoop_animationFrames, gameLoop_isRunning, gameLoop_assets.
  unfold takeAnimationFrame. proj_simpl. rewrite Hu, andb_false_r.
  destruct (isRunning (game w)); [|lia]. split_and!; [done|lia|done].
Qed.

Lemma reachable_stalled w0 w : stalled w0 -> reachable w0 w -> stalled w.
Proof.
  intros H0 Hr. induction Hr; [done|]. by eapply step_stalled.
Qed.

(** C6. When the sprite or the strip of teeth is broken, the first frame is
    the last: [draw] throws before [requestAnimationFrame], no callback is
    pending after it, and since [isRunning] stays true no press requests
    one.  From then on no frame is ever processed. *)
Theorem broken_image_stops_loop cv b storage tongue w timestamp w' w'' :
  reachable (initial_world cv b storage tongue) w ->
  images_usable (assets (host w)) = false ->
  step w (AnimationFrame timestamp) w' ->
  reachable w' w'' ->
  isRunning (game w'') = true /\ animationFrames (host w'') = 0.
Proof.
  intros Hr Hu Hstep Hr'.
  assert (Hs : stalled w').
  { inversion Hstep; subst. apply frame_stalls; [|done..].
    eapply reachable_frames_ok; [apply initial_world_frames_ok|done]. }
  by destruct (reachable_stalled w' w'' Hs Hr') as (? & ? & _).
Qed.

(** ** The landing page and the polling timer *)

(** The landing page is shown with no inline style on the two containers,
    or it has been left and the containers say so. *)
Definition landing_ok w : Prop :=
  if showLanding (host w)
  then landingDisplay (host w) = "" /\ gameDisplay (host w) = ""
  else landingDisplay (host w) = "none" /\ gameDisplay (host w) = "block".

(** The invariant of the page around the game. *)
Definition shell_ok w : Prop :=
  landing_ok w /\ timeouts (host w) <= 1 /\ assets_ok (assets (host w)).

Lemma shell_ok_ext w w' :
  page_of (host w') = page_of (host w) -> shell_ok w -> shell_ok w'.
Proof.
  unfold shell_ok, landing_ok, page_of. by intros [= -> -> -> -> ->].
Qed.

Lemma step_shell_ok w e w' : step w e w' -> shell_ok w -> shell_ok w'.
Proof.
  intros Hstep Hok.
  destruct Hstep as [code key now w|now w|now w|timestamp w Hpos|iw ih w
                    |ae a w He|w _|w _|w Hpos].
  - destruct (onKeyDown_cases code key now w) as [-> | ->]; [|done].
    revert Hok. apply shell_ok_ext, flap_page.
  - revert Hok. apply shell_ok_ext, flap_page.
  - revert Hok. apply shell_ok_ext, flap_page.
  - revert Hok. apply shell_ok_ext. by rewrite gameLoop_page.
  - revert Hok. by apply shell_ok_ext.
  - destruct Hok as (Hl & Ht & Ha). split_and!; [done..|].
    proj_simpl. by eapply asset_handle_ok.
  - destruct Hok as (_ & Ht & Ha). by split_and!.
  - destruct Hok as (_ & Ht & Ha). by split_and!.
  - destruct Hok as (Hl & Ht & Ha).
    unfold shell_ok, landing_ok, onPollTimer, waitForImages, takeTimeout in *.
    destruct (imagesReady _); proj_simpl; split_and!; try done; lia.
Qed.

Lemma initial_world_shell_ok cv b storage tongue :
  shell_ok (initial_world cv b storage tongue).
Proof.
  unfold shell_ok, landing_ok. simpl.
  split_and!; [done..|apply initial_assets_ok].
Qed.

Lemma reachable_shell_ok w0 w : shell_ok w0 -> reachable w0 w -> shell_ok w.
Proof.
  intros H0 Hr. induction Hr; [done|]. by eapply step_shell_ok.
Qed.

(** In every reachable world the containers agree with [showLanding], at
    most one timer of [waitForImages] is pending, and the variables about
    the images agree with the images. *)
Theorem reachable_shell cv b storage tongue w :
  reachable (initial_world cv b storage tongue) w ->
  landing_ok w /\ timeouts (host w) <= 1 /\ assets_ok (assets (host w)).
Proof.
  intros Hr. eapply reachable_shell_ok; [apply initial_world_shell_ok|done].
Qed.

Lemma step_showLanding w e w' :
  step w e w' -> showLanding (host w) = false -> showLanding (host w') = false.
Proof.
  intros Hstep Hs.
  assert (Hp : forall w1, page_of (host w1) = page_of (host w) ->
                          showLanding (host w1) = false).
  { intros w1 E. unfold page_of in E. congruence. }
  destruct Hstep as [code key now w|now w|now w|timestamp w Hpos|iw ih w
                    |ae a w He|w _|w _|w Hpos]; try done.
  - destruct (onKeyDown_cases code key now w) as [-> | ->]; [|done].
    apply Hp, flap_page.
  - apply Hp, flap_page.
  - apply Hp, flap_page.
  - apply Hp. by rewrite gameLoop_page.
  - unfold onPollTimer, waitForImages, takeTimeout. by destruct (imagesReady _).
Qed.

(** The landing page is left once: after [startGame] no event shows it
    again. *)
Theorem landing_never_returns w0 w :
  showLanding (host w0) = false -> reachable w0 w ->
  showLanding (host w) = false.
Proof.
  intros H0 Hr. induction Hr; [done|]. by eapply step_showLanding.
Qed.

Lemma step_timeouts w e w' :
  step w e w' -> timeouts (host w) = 0 -> timeouts (host w') = 0.
Proof.
  intros Hstep Ht.
  assert (Hp : forall w1, page_of (host w1) = page_of (host w) ->
                          timeouts (host w1) = 0).
  { intros w1 E. unfold page_of in E. congruence. }
  destruct Hstep as [code key now w|now w|now w|timestamp w Hpos|iw ih w
                    |ae a w He|w _|w _|w Hpos]; try done.
  - destruct (onKeyDown_cases code key now w) as [-> | ->]; [|done].
    apply Hp, flap_page.
  - apply Hp, flap_page.
  - apply Hp, flap_page.
  - apply Hp. by rewrite gameLoop_page.
  - lia.
Qed.

(** [waitForImages] polls until an image is ready and then stops for good:
    the timer that finds the texture loaded or the request for the teeth
    ended is the last one. *)
Theorem polling_stops cv b storage tongue w w' w'' :
  reachable (initial_world cv b storage tongue) w ->
  step w Timeout w' ->
  timeouts (host w')
  = (if imagesReady (assets (host w)) then 0 else 1) /\
  (imagesReady (assets (host w)) = true -> reachable w' w'' ->
   timeouts (host w'') = 0).
Proof.
  intros Hr Hstep.
  destruct (reachable_shell_ok _ w (initial_world_shell_ok cv b storage tongue) Hr)
    as (_ & Ht & _).
  assert (E : timeouts (host w')
              = if imagesReady (assets (host w)) then 0 else 1).
  { inversion Hstep; subst.
    unfold onPollTimer, waitForImages, takeTimeout. proj_simpl.
    destruct (imagesReady _); proj_simpl; lia. }
  split; [done|]. intros Hready Hr'. rewrite Hready in E.
  clear Hstep. induction Hr'; [done|]. by eapply step_timeouts.
Qed.

(** Nothing keeps the keyboard from the game while the landing page is
    shown: the listener of line 448 is on the document, and [flap] does not
    read [showLanding].  A press of the space bar on the loaded page starts
    the game behind the landing page. *)
Theorem keydown_behind_landing cv b storage tongue now :
  let w := onKeyDown "Space" " " now (initial_world cv b storage tongue) in
  step (initial_world cv b storage tongue) (KeyDown "Space" " " now) w /\
  showLanding (host w) = true /\ landingDisplay (host w) = "" /\
  isRunning (game w) = true /\ animationFrames (host w) = 1.
Proof. cbv zeta. split; [constructor|done]. Qed.

(** The overlays that [draw] paints follow the phase: the invitation to
    start in Idle, nothing while Running, the game-over texts in GameOver;
    the two are never painted together. *)
Theorem overlays_follow_phase cv b storage tongue w :
  reachable (initial_world cv b storage tongue) w ->
  overlays (game w)
  = match phase w with
    | Idle => [Str "CLICK OR PRESS SPACE TO START"]
    | Running => []
    | GameOver => [Str "GAME OVER"; Str "CLICK OR PRESS SPACE TO RESTART"]
    end.
Proof.
  intros Hr.
  assert (Hok : frames_ok w)
    by (eapply reachable_frames_ok; [apply initial_world_frames_ok|done]).
  destruct Hok as (_ & Ho & _). unfold overlays, phase.
  destruct (isRunning (game w)), (isGameOver (game w)); try done.
  by specialize (Ho eq_refl).
Qed.

(** C21. What a frame shows: when no image is broken every animation frame
    paints, on the game canvas, the score and the best score of the state
    that [update] has just produced, and the game-over overlay exactly
    when that state is over.  A frame never paints the invitation to
    start. *)
Theorem frame_shows_phase cv b storage tongue w timestamp w' :
  reachable (initial_world cv b storage tongue) w ->
  step w (AnimationFrame timestamp) w' ->
  images_usable (assets (host w')) = true ->
  exists p,
    paints (AnimationFrame timestamp) w' = Some (GameCanvas, p) /\
    thrown p = false /\
    map text_of (texts (calls p))
    = [Str ("SCORE: " +:+ number_to_string (score (game w')));
       best_text (best (game w'))] ++
      (if isGameOver (game w')
       then [Str "GAME OVER"; Str "CLICK OR PRESS SPACE TO RESTART"] else []).
Proof.
  intros Hr Hstep Hu. exists (draw w'). split; [done|].
  assert (Hok : frames_ok w)
    by (eapply reachable_frames_ok; [apply initial_world_frames_ok|done]).
  assert (Hrun : isRunning (game w') = true).
  { inversion Hstep; subst. rewrite gameLoop_isRunning.
    destruct Hok as (Hle & _). simpl.
    destruct (isRunning (game w)); [done|lia]. }
  split; [by rewrite draw_thrown_usable, Hu|].
  rewrite draw_texts by done. unfold overlays. by rewrite Hrun.
Qed.

(** ** Refinement of the phase machine *)

Lemma flap_phase now w :
  phase_step (phase w) Activate (phase (flap now w)).
Proof.
  unfold phase. rewrite flap_isRunning, flap_isGameOver. simpl.
  destruct (isRunning (game w)), (isGameOver (game w)); simpl; auto with js.
Qed.

Lemma gameLoop_phase timestamp w :
  frames_ok w -> 0 < animationFrames (host w) ->
  phase_step (phase w) Frame (phase (gameLoop timestamp (takeAnimationFrame w))).
Proof.
  intros (Hf & _) Hpos. unfold phase.
  rewrite gameLoop_isRunning. unfold takeAnimationFrame at 1. proj_simpl.
  destruct (isRunning (game w)) eqn:Hr; [|lia]. simpl.
  destruct (isGameOver (game w)) eqn:Hover.
  - rewrite gameLoop_isGameOver by done. auto with js.
  - destruct (isGameOver (game (gameLoop timestamp (takeAnimationFrame w))));
      auto with js.
Qed.

Lemma step_phase w e w' :
  frames_ok w -> step w e w' -> phase_step (phase w) (signal e) (phase w').
Proof.
  intros Hok Hstep.
  destruct Hstep as [code key now w|now w|now w|timestamp w Hpos|iw ih w
                    |ae a w He|w _|w _|w _];
    unfold signal, onKeyDown, onPointer; try apply other_stays.
  - destruct (bool_decide (code = "Space") || bool_decide (key = " "));
      [by apply flap_phase|apply other_stays].
  - by apply flap_phase.
  - by apply flap_phase.
  - by apply gameLoop_phase.
  - unfold phase, onPollTimer, waitForImages, takeTimeout.
    destruct (imagesReady _); apply other_stays.
Qed.

(** C3. The page refines the machine of the design: every step of a
    reachable world is a transition of Idle, Running, GameOver under the
    signal of its event.  In particular nothing leads back to Idle, a
    frame never restarts a finished game, and only an input does. *)
Theorem page_refines_phases cv b storage tongue w e w' :
  reachable (initial_world cv b storage tongue) w -> step w e w' ->
  phase_step (phase w) (signal e) (phase w').
Proof.
  intros Hr Hstep. apply step_phase; [|done].
  eapply reachable_frames_ok; [apply initial_world_frames_ok|done].
Qed.

End LoopFacts.

(** ** The frame delta on every ordered instance *)

(** The delta is not above 50, and it is 50, the elapsed time, or NaN. *)
Lemma frameDelta_at_most {N : Type} `{JsOrdered N} (timestamp : N)
    (w : World N) :
  (ofZ 50 <? frameDelta timestamp w) = false /\
  (frameDelta timestamp w = ofZ 50 \/
   frameDelta timestamp w = timestamp - lastTimestamp (game w) \/
   unordered (frameDelta timestamp w)).
Proof. split; [apply nmin_le_l|apply nmin_cases]. Qed.

(** ** Resizing *)

Section Resize.

Lemma resizeCanvas_value iw ih cv :
  resizeCanvas iw ih cv = mkCanvas (Z.max 320 iw) (Z.min (3 * Z.max 320 iw / 2) ih).
Proof.
  unfold resizeCanvas. destruct cv as [cw ch]. simpl.
  destruct (decide (cw = Z.max 320 iw)), (decide (ch = Z.min (3 * Z.max 320 iw / 2) ih));
    rewrite ?bool_decide_eq_true_2, ?bool_decide_eq_false_2 by naive_solver;
    simpl; rewrite ?bool_decide_eq_true_2, ?bool_decide_eq_false_2 by naive_solver;
    simpl; by subst.
Qed.

(** After [resizeCanvas] the canvas is at least 320 pixels wide, not
    higher than the viewport and not higher than three halves of its width;
    resizing again with the same viewport changes nothing. *)
Theorem resizeCanvas_bounds iw ih cv :
  let cv' := resizeCanvas iw ih cv in
  (320 <= canvas_width cv' /\ iw <= canvas_width cv' /\
   canvas_height cv' <= ih /\ 2 * canvas_height cv' <= 3 * canvas_width cv')%Z /\
  resizeCanvas iw ih cv' = cv'.
Proof.
  cbv zeta. rewrite !resizeCanvas_value. simpl. split; [|done].
  pose proof (Z.mul_div_le (3 * Z.max 320 iw) 2). lia.
Qed.

End Resize.

(** ** The loop at the rational instance *)

#[local] Open Scope Q_scope.

Section LoopQ.
Variable random : nat -> Q.
Implicit Types (g : Game Q) (w : World Q) (e : Event Q) (now timestamp : Q).

(** C34. The frame delta is clamped from above: it is never more than 50
    ms, and it is the elapsed time whenever that is at most 50 ms. *)
Theorem frameDelta_clamped timestamp w :
  frameDelta timestamp w <= 50 /\
  (timestamp - lastTimestamp (game w) <= 50 ->
   frameDelta timestamp w == timestamp - lastTimestamp (game w)).
Proof.
  unfold frameDelta. qnum_unfold. qnum_consts.
  destruct (Qmin_cases 50 (timestamp - lastTimestamp (game w)))
    as [[? ->]|[? ->]]; split; lra.
Qed.

(** The frame delta is not clamped from below: a callback whose
    timestamp is earlier than the time recorded by [flap] gets a negative
    delta, and the spawn timer runs backwards. *)
Theorem frameDelta_negative timestamp w :
  timestamp < lastTimestamp (game w) -> frameDelta timestamp w < 0.
Proof.
  intros Hlt. unfold frameDelta. qnum_unfold. qnum_consts.
  destruct (Qmin_cases 50 (timestamp - lastTimestamp (game w)))
    as [[? ->]|[? ->]]; lra.
Qed.

(** *** The invariant of the page *)

Lemma resetGame_page_ok w :
  page_ok w -> page_ok (on_game (resetGame (canvas (host w))) w).
Proof.
  intros (Hw & Hs & Hb & _ & _ & _ & _). unfold page_ok, best_covers in *.
  unfold resetGame. proj_simpl. destruct (best (game w)); [|done..].
  split_and!; [done|done| |done|lraQ|lraQ|rewrite FLAP_STRENGTH_Q; lraQ].
  assert (inject_Z 0 <= inject_Z (score (game w))) by (by rewrite <- Zle_Qle).
  lra.
Qed.

Lemma flap_page_ok now w : page_ok w -> page_ok (flap now w).
Proof.
  intros Hok. unfold flap.
  set (w1 := if negb (isRunning (game w)) then _ else w).
  assert (page_ok w1) as Hok1.
  { subst w1. destruct (isRunning (game w)); simpl; [done|].
    revert Hok. by apply page_ok_ext. }
  destruct (isGameOver (game w1)).
  - by apply resetGame_page_ok.
  - destruct Hok1 as (? & ? & ? & ? & ? & ? & _). by split_and!.
Qed.

Lemma gameLoop_page_ok timestamp w :
  page_ok w -> page_ok (gameLoop random timestamp (takeAnimationFrame w)).
Proof.
  intros Hok. rewrite gameLoop_ticked. unfold ticked.
  set (w1 := on_game (set_lastTimestamp timestamp) (takeAnimationFrame w)).
  assert (page_ok w1) as Hok1 by (revert Hok; by apply page_ok_ext).
  pose proof (update_page_ok random
    (frameDelta timestamp (takeAnimationFrame w)) w1 Hok1) as Hok2.
  case_if; [|done]. revert Hok2. by apply page_ok_ext.
Qed.

Lemma onResize_page_ok iw ih w : page_ok w -> page_ok (onResize iw ih w).
Proof.
  intros (_ & Hrest). split; [|exact Hrest]. unfold onResize. proj_simpl.
  rewrite resizeCanvas_value. simpl. lia.
Qed.

Lemma step_page_ok w e w' : step random w e w' -> page_ok w -> page_ok w'.
Proof.
  intros Hstep Hok.
  destruct Hstep as [code key now w|now w|now w|timestamp w Hpos|iw ih w
                    |ae a w He|w _|w _|w _].
  - destruct (onKeyDown_cases code key now w) as [-> | ->];
      auto using flap_page_ok.
  - by apply flap_page_ok.
  - by apply flap_page_ok.
  - by apply gameLoop_page_ok.
  - by apply onResize_page_ok.
  - revert Hok. by apply page_ok_ext.
  - revert Hok. by apply page_ok_ext.
  - revert Hok. by apply page_ok_ext.
  - revert Hok. apply page_ok_ext; unfold onPollTimer, waitForImages, takeTimeout;
      by destruct (imagesReady _).
Qed.

Lemma initial_world_page_ok cv b storage tongue :
  (320 <= canvas_width cv)%Z -> 0 <= b ->
  page_ok (initial_world cv (BestNum b) storage tongue).
Proof.
  intros Hw Hb. unfold page_ok, best_covers. simpl.
  split_and!; [done..|]. rewrite FLAP_STRENGTH_Q. lraQ.
Qed.

Lemma script_page_ok iw ih cv0 b storage tongue :
  0 <= b -> page_ok (script iw ih cv0 (BestNum b) storage tongue).
Proof.
  intros Hb. apply initial_world_page_ok; [|done].
  rewrite resizeCanvas_value. simpl. lia.
Qed.

Lemma page_ok_reachable w0 w :
  page_ok w0 -> reachable random w0 w -> page_ok w.
Proof. intros H0. induction 1; [done|by eapply step_page_ok]. Qed.

(** C4. Whatever the window, the canvases of the document, the inputs,
    frames and resizes: in every world reached from the script, loaded with
    a non-negative best score, the score is not negative, [best] is a
    number at least the score, no pipe is off screen to the left, the spawn
    timer is at most 1400 ms, the scroll offset is not negative, the canvas
    is at least 320 pixels wide, and the tongue never rises faster than one
    flap makes it: presses do not add up. *)
Theorem reachable_page_ok iw ih cv0 b storage tongue w :
  0 <= b ->
  reachable random (script iw ih cv0 (BestNum b) storage tongue) w ->
  page_ok w.
Proof.
  intros Hb. by apply page_ok_reachable, script_page_ok.
Qed.

End LoopQ.

(** ** Concrete instances *)

(** The page loaded in a 400 by 600 viewport with no stored best score. *)
Definition page_400x600 : World Q :=
  initial_world canvas_400x600 (BestNum 0) ∅ None.

(** The first press, at time 1000 ms. *)
Definition first_press : World Q := onPointer 1000 page_400x600.

Lemma first_press_reachable : reachable half_draws page_400x600 first_press.
Proof. eapply reach_step; [apply reach_start|apply step_mouse]. Qed.

Lemma page_refines_phases_witness :
  phase_step (phase page_400x600) (signal (MouseDown 1000)) (phase first_press).
Proof.
  apply (page_refines_phases half_draws canvas_400x600 (BestNum 0) ∅ None);
    [apply reach_start|apply step_mouse].
Defined.

Lemma one_frame_pending_witness :
  (animationFrames (host first_press)
   <= (if isRunning (game first_press) then 1 else 0))%nat /\
  (images_usable (assets (host first_press)) = true ->
   animationFrames (host first_press)
   = if isRunning (game first_press) then 1%nat else 0%nat).
Proof.
  apply (one_frame_pending half_draws canvas_400x600 (BestNum 0) ∅ None).
  apply first_press_reachable.
Defined.

(** The script in a 400 by 600 window, on canvases of the default size. *)
Lemma reachable_page_ok_witness : page_ok first_press.
Proof.
  apply (reachable_page_ok half_draws 400 600 (mkCanvas 300 150) 0 ∅ None);
    [by vm_compute|apply first_press_reachable].
Defined.

Lemma flap_overrides_witness :
  mouthVelY (game (flap 1000 page_400x600)) = FLAP_STRENGTH /\
  mouthY (game (flap 1000 page_400x600)) = mouthY (game page_400x600) /\
  pipes (game (flap 1000 page_400x600)) = pipes (game page_400x600) /\
  score (game (flap 1000 page_400x600)) = score (game page_400x600).
Proof. by apply flap_overrides. Defined.

Lemma flap_restarts_witness :
  flap 5000 world_over
  = on_game (resetGame (canvas (host world_over))) world_over /\
  score (game (flap 5000 world_over)) = 0%Z /\
  pipes (game (flap 5000 world_over)) = [] /\
  isGameOver (game (flap 5000 world_over)) = false /\
  mouthVelY (game (flap 5000 world_over)) = 0 /\
  best (game (flap 5000 world_over)) = best (game world_over).
Proof. by apply (@flap_restarts Q). Defined.

(** A frame stamped 4 ms before the press that started the game. *)
Lemma frameDelta_negative_witness : frameDelta 996 first_press < 0.
Proof. apply frameDelta_negative. by vm_compute. Defined.

(** The first frame, 16 ms after the press. *)
Lemma frameDelta_clamped_witness :
  frameDelta 1016 first_press <= 50 /\
  (1016 - lastTimestamp (game first_press) <= 50 ->
   frameDelta 1016 first_press == 1016 - lastTimestamp (game first_press)).
Proof. apply (frameDelta_clamped 1016 first_press). Defined.

(** The sprite fails to load after the first press, and a frame follows. *)
Definition sprite_broken : World Q :=
  on_host (set_assets (settle MouthImage Broken (assets (host first_press))))
    first_press.

Definition frame_after_break : World Q :=
  gameLoop half_draws 1016 (takeAnimationFrame sprite_broken).

Lemma sprite_broken_reachable : reachable half_draws page_400x600 sprite_broken.
Proof.
  eapply reach_step; [apply first_press_reachable|].
  by apply (step_image half_draws (Failed MouthImage)).
Qed.

Lemma broken_image_stops_loop_witness :
  isRunning (game (onPointer 1100 frame_after_break)) = true /\
  animationFrames (host (onPointer 1100 frame_after_break)) = 0%nat.
Proof.
  apply (broken_image_stops_loop half_draws canvas_400x600 (BestNum 0) ∅ None
           sprite_broken 1016 frame_after_break).
  - apply sprite_broken_reachable.
  - by vm_compute.
  - apply step_frame. by vm_compute.
  - eapply reach_step; [apply reach_start|apply (step_mouse half_draws 1100)].
Defined.

Lemma reachable_shell_witness :
  landing_ok first_press /\ (timeouts (host first_press) <= 1)%nat /\
  assets_ok (assets (host first_press)).
Proof.
  apply (reachable_shell half_draws canvas_400x600 (BestNum 0) ∅ None).
  apply first_press_reachable.
Defined.

Lemma landing_never_returns_witness :
  showLanding (host (onPointer 5 (startGame page_400x600))) = false.
Proof.
  apply (landing_never_returns half_draws (startGame page_400x600));
    [reflexivity|].
  eapply reach_step; [apply reach_start|apply step_mouse].
Defined.

(** The strip of teeth has loaded when the first timer fires. *)
Definition teeth_loaded : World Q :=
  on_host (set_assets (ground_onload
    (settle GroundImage Available (assets (host page_400x600))))) page_400x600.

Lemma teeth_loaded_reachable : reachable half_draws page_400x600 teeth_loaded.
Proof.
  eapply reach_step; [apply reach_start|].
  by apply (step_image half_draws (Loaded GroundImage false)).
Qed.

Lemma polling_stops_witness :
  timeouts (host (onPollTimer teeth_loaded))
  = (if imagesReady (assets (host teeth_loaded)) then 0 else 1)%nat /\
  (imagesReady (assets (host teeth_loaded)) = true ->
   reachable half_draws (onPollTimer teeth_loaded)
     (onPointer 7 (onPollTimer teeth_loaded)) ->
   timeouts (host (onPointer 7 (onPollTimer teeth_loaded))) = 0%nat).
Proof.
  apply (polling_stops half_draws canvas_400x600 (BestNum 0) ∅ None teeth_loaded).
  - apply teeth_loaded_reachable.
  - apply step_timeout. by vm_compute.
Defined.

(** The first frame after the first press. *)
Definition first_frame : World Q :=
  gameLoop half_draws 1016 (takeAnimationFrame first_press).

Lemma frame_shows_phase_witness :
  exists p,
    paints (AnimationFrame 1016) first_frame = Some (GameCanvas, p) /\
    thrown p = false /\
    map text_of (texts (calls p))
    = [Str ("SCORE: " +:+ number_to_string (score (game first_frame)));
       best_text (best (game first_frame))] ++
      (if isGameOver (game first_frame)
       then [Str "GAME OVER"; Str "CLICK OR PRESS SPACE TO RESTART"] else []).
Proof.
  apply (frame_shows_phase half_draws canvas_400x600 (BestNum 0) ∅ None
           first_press 1016 first_frame).
  - apply first_press_reachable.
  - apply step_frame. by vm_compute.
  - by vm_compute.
Defined.

Lemma overlays_follow_phase_witness :
  overlays (game first_press)
  = match phase first_press with
    | Idle => [Str "CLICK OR PRESS SPACE TO START"]
    | Running => []
    | GameOver => [Str "GAME OVER"; Str "CLICK OR PRESS SPACE TO RESTART"]
    end.
Proof.
  apply (overlays_follow_phase half_draws canvas_400x600 (BestNum 0) ∅ None).
  apply first_press_reachable.
Defined.
