(* ===== verification/Persist.v ===== *)
(** * Persist: the best score from one page load to the next

    part_000 line 170 reads the best score when the script starts,
    [Number(localStorage.getItem('mouth_trap_best') || 0)], and lines
    284-285 write it, [localStorage.setItem('mouth_trap_best',
    String(best))], when the score exceeds it.

    [Number] applied to a string is the conversion that the file
    [Number] defines: the value of the numeric literal that the string
    is, an infinity for [Infinity], NaN for a string that is no literal.

    The theorems: [Number] reads back what [String] wrote; in every world
    the page reaches, loading the page again would start with the best
    score that the game shows; on every ordered number instance the best
    score never drops, whatever happens on the page; a stored text that
    reads as NaN or Infinity stays for good; and over any number of
    visits of the page a storage that reads as a non-negative number keeps
    doing so, with the invariant of the page in every world. *)

From Stdlib Require Import Ascii SpecFloat.
From stdpp Require Import pretty.
From S2P Require Import Prelude Rational Float64 Number Grammar Config Geometry.
From S2P Require Import Assets.
From S2P Require Import State Physics Pipes Render Update Ends Landing Loop.

#[local] Open Scope js_scope.

Section Persist.
Context {N : Type} `{JsDecimal N}.
Variable random : nat -> N.
Implicit Types (w : World N) (storage st : gmap string string) (z : Z).

(** [Number(s)] for a string [s]. *)
Definition Number_of_string (s : string) : Best N :=
  match StringNumericLiteral s with
  | Some (FiniteLit negative m e) => BestNum (decimal negative m e)
  | Some (InfiniteLit negative) => BestInf negative
  | None => BestNaN
  end.

(** Line 170: a missing item is [null] and an empty one is the empty
    string; both are falsy, and [Number(0)] is 0. *)
Definition load_best storage : Best N :=
  match storage !! BEST_KEY with
  | Some s => if decide (s = "") then BestNum (ofZ 0) else Number_of_string s
  | None => BestNum (ofZ 0)
  end.

(** The world after the script has run in a browser with a viewport of
    [innerWidth] by [innerHeight], canvases of the size [cv0] and the
    storage [storage]. *)
Definition loaded_world (innerWidth innerHeight : Z) (cv0 : Canvas) storage
    (tongue : option ImageState) : World N :=
  script innerWidth innerHeight cv0 (load_best storage) storage tongue.

(** Loading the page again would start with the best score of [w]. *)
Definition stored_best w : Prop :=
  load_best (localStorage (host w)) = best (game w).

End Persist.

Lemma pretty_Z_nonempty (z : Z) : pretty z <> "".
Proof.
  intros E. pose proof (StringNumericLiteral_pretty z) as Hz.
  rewrite E in Hz. by destruct z.
Qed.

Section PersistFacts.
Context {N : Type} `{JsDecimal N}.
Variable random : nat -> N.
Implicit Types (w : World N) (storage st : gmap string string) (z : Z).

#[local] Abbreviation step := (step random).
#[local] Abbreviation reachable := (reachable random).

(** [Number(String(z))] is [z]. *)
Lemma Number_of_pretty z :
  Number_of_string (number_to_string z) = BestNum (ofZ z).
Proof.
  unfold Number_of_string, number_to_string.
  rewrite StringNumericLiteral_pretty. f_equal. destruct z as [|p|p].
  - by apply decimal_natural.
  - by apply decimal_natural.
  - by apply (decimal_negative (Z.pos p)).
Qed.

(** C14. [Number] implements the grammar of numeric literals.  [Number(s)]
    is NaN exactly when the grammar derives no literal from [s]; it is an
    infinity exactly when the grammar derives [Infinity] with that sign; and
    otherwise [s] is derived as a literal with a sign, a mantissa and an
    exponent, and [Number(s)] is the number that [decimal] makes of them. *)
Theorem Number_of_string_derives s :
  match Number_of_string s with
  | BestNum x =>
      exists negative m e,
        derives s (FiniteLit negative m e) /\ x = decimal negative m e
  | BestInf negative => derives s (InfiniteLit negative)
  | BestNaN => forall l, ~ derives s l
  end.
Proof.
  unfold Number_of_string.
  destruct (StringNumericLiteral s) as [[negative m e|negative]|] eqn:Es.
  - exists negative, m, e. by rewrite <- StringNumericLiteral_derives.
  - by rewrite <- StringNumericLiteral_derives.
  - intros l Hl%StringNumericLiteral_derives. congruence.
Qed.

(** What line 285 writes is what line 170 reads. *)
Lemma load_best_written z st :
  load_best (<[BEST_KEY := number_to_string z]> st) = BestNum (ofZ z).
Proof.
  unfold load_best. rewrite lookup_insert_eq.
  rewrite decide_False by apply pretty_Z_nonempty. apply Number_of_pretty.
Qed.

(** ** The storage follows the best score *)

Lemma flap_stored now w : stored_best w -> stored_best (flap now w).
Proof.
  unfold stored_best, flap, requestAnimationFrame.
  destruct (isRunning (game w)); proj_simpl;
    by destruct (isGameOver (game w)).
Qed.

Lemma gameLoop_stored timestamp w :
  stored_best w -> stored_best (gameLoop random timestamp w).
Proof.
  intros Hw. rewrite gameLoop_ticked. unfold ticked.
  assert (stored_best (update random (frameDelta timestamp w)
                         (on_game (set_lastTimestamp timestamp) w))) as Hu.
  { apply (update_stored random (fun b st => load_best st = b));
      [intros; apply load_best_written|done]. }
  by destruct (_ && _); unfold requestAnimationFrame.
Qed.

Lemma step_stored w e w' : step w e w' -> stored_best w -> stored_best w'.
Proof.
  intros Hstep Hw.
  destruct Hstep as [code key now w|now w|now w|timestamp w Hpos|iw ih w
                    |ae a w Ha|w Hd|w Hd|w Ht].
  - destruct (onKeyDown_cases code key now w) as [-> | ->];
      [by apply flap_stored|done].
  - by apply flap_stored.
  - by apply flap_stored.
  - by apply gameLoop_stored.
  - done.
  - done.
  - done.
  - done.
  - unfold onPollTimer, waitForImages, takeTimeout.
    by destruct (imagesReady _).
Qed.

(** *** A best score that cannot be beaten *)

Lemma flap_frozen now w :
  best (game (flap now w)) = best (game w) /\
  localStorage (host (flap now w)) = localStorage (host w).
Proof.
  unfold flap, requestAnimationFrame.
  destruct (isRunning (game w)); proj_simpl; by destruct (isGameOver (game w)).
Qed.

Lemma step_frozen w e w' :
  step w e w' -> frozen (best (game w)) ->
  best (game w') = best (game w) /\
  localStorage (host w') = localStorage (host w).
Proof.
  intros Hstep Hf.
  destruct Hstep as [code key now w|now w|now w|timestamp w Hpos|iw ih w
                    |ae a w Ha|w Hd|w Hd|w Ht]; try done.
  - destruct (onKeyDown_cases code key now w) as [-> | ->];
      [apply flap_frozen|done].
  - apply flap_frozen.
  - apply flap_frozen.
  - rewrite gameLoop_ticked. unfold ticked.
    destruct (update_frozen random (frameDelta timestamp (takeAnimationFrame w))
      (on_game (set_lastTimestamp timestamp) (takeAnimationFrame w)) Hf)
      as [Eb Es].
    by destruct (_ && _); unfold requestAnimationFrame; proj_simpl.
  - unfold onPollTimer, waitForImages, takeTimeout. by destruct (imagesReady _).
Qed.

(** C35. A stored text that [Number] reads as NaN or as Infinity disables
    the best score for good: in every world that the page reaches from its
    load, whatever the player scores, [best] is what [Number] made of the
    text, and the storage is what it was. *)
Theorem unreadable_best_stays iw ih cv0 storage tongue w :
  frozen (load_best storage) ->
  reachable (loaded_world iw ih cv0 storage tongue) w ->
  best (game w) = load_best storage /\ localStorage (host w) = storage.
Proof.
  intros Hf Hr. induction Hr as [|w e w' _ [IHb IHs] Hstep].
  - unfold loaded_world, script, initial_world, waitForImages.
    by destruct (imagesReady _).
  - destruct (step_frozen w e w' Hstep) as [-> ->]; [by rewrite IHb|done].
Qed.

Lemma stored_best_reachable w0 w :
  stored_best w0 -> reachable w0 w -> stored_best w.
Proof. intros Hw0. induction 1; [done|by eapply step_stored]. Qed.

(** C18. In every world that the page reaches from its load, the storage holds
    the best score that the game shows: a page that is closed there and
    loaded again starts with this best score.  This includes the worlds in
    which the stored text is not a number, where [best] stays what
    [Number] made of it. *)
Theorem reload_restores_best iw ih cv0 storage tongue w :
  reachable (loaded_world iw ih cv0 storage tongue) w ->
  load_best (localStorage (host w)) = best (game w).
Proof.
  by apply stored_best_reachable.
Qed.

End PersistFacts.

(** ** The best score only grows *)

Section BestGrows.
Context {N : Type} `{JsOrdered N}.
Variable random : nat -> N.
Implicit Types (b : Best N) (w : World N).

#[local] Abbreviation step := (step random).
#[local] Abbreviation reachable := (reachable random).

(** [b'] is [b], or both are numbers and [b < b'].  NaN is only below
    itself. *)
Definition best_le b b' : Prop :=
  b' = b \/
  match b, b' with
  | BestNum x, BestNum y => (x <? y) = true
  | BestInf true, BestNum _ => True
  | _, _ => False
  end.

#[local] Instance best_le_preorder : PreOrder best_le.
Proof.
  split; [by left|].
  intros b1 b2 b3 [->|H12] [->|H23]; [by left|by right|by right|right].
  destruct b1 as [?|[]|], b2 as [?|[]|], b3 as [?|[]|]; try done.
  by eapply ltb_trans.
Qed.

Lemma pass_step_best_le p acc :
  best_le (best (game acc)) (best (game (pass_step p acc))).
Proof.
  rewrite best_pass_step. destruct (scores _ _); [|by left]. simpl.
  unfold score_gt_best. destruct (best (game acc)) as [x|[]|]; try by left.
  - case_if; [by right|by left].
  - by right.
Qed.

Lemma pipes_loop_best_le w :
  best_le (best (game w)) (best (game (pipes_loop w))).
Proof.
  rewrite pipes_loop_fold. unfold pipes_pass.
  induction (pipes (game w)) as [|p ps IH]; simpl; [done|].
  etrans; [apply IH|apply pass_step_best_le].
Qed.

Lemma update_best_le dt w :
  best_le (best (game w)) (best (game (update random dt w))).
Proof.
  unfold update. case_if; [done|].
  destruct (spawn_timer_frame random dt
    (pipes_loop (scroll_background (on_game (physics (canvas (host w))) w))))
    as (_ & _ & _ & _ & -> & _).
  etrans; [|apply pipes_loop_best_le].
  destruct (physics_frame (canvas (host w)) (game w))
    as (_ & _ & _ & _ & Eb & _).
  unfold scroll_background. proj_simpl. by rewrite Eb.
Qed.

Lemma flap_best now w : best (game (flap now w)) = best (game w).
Proof.
  unfold flap, requestAnimationFrame.
  destruct (isRunning (game w)); proj_simpl; by destruct (isGameOver (game w)).
Qed.

Lemma gameLoop_best_le timestamp w :
  best_le (best (game w)) (best (game (gameLoop random timestamp w))).
Proof.
  rewrite gameLoop_ticked. unfold ticked.
  etrans; [|destruct (_ && _); [unfold requestAnimationFrame|]; reflexivity].
  apply (update_best_le _ (on_game (set_lastTimestamp timestamp) w)).
Qed.

Lemma step_best_le w e w' : step w e w' -> best_le (best (game w)) (best (game w')).
Proof.
  intros Hstep.
  destruct Hstep as [code key now w|now w|now w|timestamp w Hpos|iw ih w
                    |ae a w Ha|w Hd|w Hd|w Ht]; try done.
  - destruct (onKeyDown_cases code key now w) as [-> | ->];
      [by rewrite flap_best|done].
  - unfold onPointer. by rewrite flap_best.
  - unfold onPointer. by rewrite flap_best.
  - apply (gameLoop_best_le _ (takeAnimationFrame w)).
  - unfold onPollTimer, waitForImages, takeTimeout. by destruct (imagesReady _).
Qed.

(** C16. Whatever happens on the page, from any world on: the best score is
    what it was, or it is a number above the number it was, as [<] sees
    it.  Neither a restart nor a resize lowers it, and a best score that
    is NaN stays NaN. *)
Theorem best_never_drops w w' :
  reachable w w' -> best_le (best (game w)) (best (game w')).
Proof.
  induction 1 as [|w1 e w2 _ IH Hs]; [done|].
  etrans; [apply IH|by eapply step_best_le].
Qed.

End BestGrows.

(** ** From one visit to the next *)

Section Visits.
Implicit Types (st : gmap string string) (w : World Q).

#[local] Open Scope Q_scope.

(** The storage reads as a best score that is a number and not negative:
    the item is missing or empty, or it is a text that [Number] reads
    so. *)
Definition readable st : Prop :=
  exists b, load_best st = BestNum b /\ 0 <= b.

(** The storage that earlier visits of the page have left: in each visit
    the page is loaded in some window, with some draws, events occur, and
    the page is closed in one of the worlds it reaches. *)
Inductive visits : gmap string string -> gmap string string -> Prop :=
| visits_none st : visits st st
| visits_more st random iw ih cv0 tongue w st' :
    reachable random (loaded_world iw ih cv0 st tongue) w ->
    visits (localStorage (host w)) st' ->
    visits st st'.

(** One visit: the invariant of the page, and the storage in step with
    the best score. *)
Lemma visit_ok random iw ih cv0 st tongue w :
  readable st ->
  reachable random (loaded_world iw ih cv0 st tongue) w ->
  page_ok w /\ load_best (localStorage (host w)) = best (game w).
Proof.
  intros (b & Eb & Hb) Hr. split.
  - revert Hr. apply page_ok_reachable. unfold loaded_world. rewrite Eb.
    by apply script_page_ok.
  - revert Hr. by apply stored_best_reachable.
Qed.

Lemma visit_readable random iw ih cv0 st tongue w :
  readable st ->
  reachable random (loaded_world iw ih cv0 st tongue) w ->
  readable (localStorage (host w)).
Proof.
  intros Hst Hr.
  destruct (visit_ok random iw ih cv0 st tongue w Hst Hr)
    as [(_ & Hs & Hc & _) Es].
  unfold readable. rewrite Es. unfold best_covers in Hc.
  destruct (best (game w)) as [b| |]; [|done..].
  exists b. split; [done|]. rewrite Zle_Qle in Hs.
  by apply (Qle_trans _ (inject_Z (score (game w)))).
Qed.

Lemma visits_readable st st' : readable st -> visits st st' -> readable st'.
Proof.
  intros Hst Hv. induction Hv as [|st random iw ih cv0 tongue w st' Hr _ IH];
    [done|]. by eapply IH, visit_readable.
Qed.

(** C17. The best score survives any number of visits.  When the storage
    reads as a non-negative number (it is empty, or holds what the game
    wrote), then after any number of visits of the page, in whatever
    windows and with whatever events, every world of the next visit
    satisfies the invariant of the page, and its storage reads as the
    best score that the game shows. *)
Theorem visits_keep_best st st' random iw ih cv0 tongue w :
  readable st -> visits st st' ->
  reachable random (loaded_world iw ih cv0 st' tongue) w ->
  page_ok w /\ load_best (localStorage (host w)) = best (game w).
Proof. intros Hst Hv. by apply visit_ok, (visits_readable st). Qed.

End Visits.

(** ** Concrete instances *)

#[local] Open Scope Q_scope.

(** A browser whose storage holds a best score of 7. *)
Definition stored_7 : gmap string string := {[BEST_KEY := "7"%string]}.

Lemma reload_restores_best_witness :
  load_best
    (localStorage (host (onPointer 1000
       (loaded_world 400 600 (mkCanvas 300 150) stored_7 None))))
  = best (game (onPointer 1000
       (loaded_world 400 600 (mkCanvas 300 150) stored_7 None))).
Proof.
  apply (reload_restores_best half_draws 400 600 (mkCanvas 300 150) stored_7
           None).
  eapply reach_step; [apply reach_start|apply step_mouse].
Defined.

(** A browser whose storage holds the text [Infinity]. *)
Definition stored_infinity : gmap string string :=
  {[BEST_KEY := "Infinity"%string]}.

Lemma unreadable_best_stays_witness :
  best (game (onPointer 1000
    (loaded_world 400 600 (mkCanvas 300 150) stored_infinity None)))
  = BestInf false /\
  localStorage (host (onPointer 1000
    (loaded_world 400 600 (mkCanvas 300 150) stored_infinity None)))
  = stored_infinity.
Proof.
  apply (unreadable_best_stays half_draws 400 600 (mkCanvas 300 150)
           stored_infinity None).
  - intros s. by vm_compute.
  - eapply reach_step; [apply reach_start|apply step_mouse].
Defined.

(** [Number] on doubles: fractions and exponents are rounded to the
    nearest double, ties to even; the smallest subnormal, overflow,
    radix prefixes, white space, the sign of zero, and texts that are no
    literals. *)
Example Number_on_doubles :
  let Num (s : string) : Best spec_float := Number_of_string s in
  Num "0.1" = BestNum (S754_finite false 7205759403792794 (-56)) /\
  Num "1e23" = BestNum (S754_finite false 5960464477539062 24) /\
  Num "9007199254740993" = BestNum (S754_finite false 4503599627370496 1) /\
  Num "5e-324" = BestNum (S754_finite false 1 (-1074)) /\
  Num "2e-324" = BestNum (S754_zero false) /\
  Num "1.7976931348623159e308" = BestNum (S754_infinity false) /\
  Num "-Infinity" = BestInf true /\
  Num " 0x1F " = BestNum (ofZ 31) /\ Num "0b101" = BestNum (ofZ 5) /\
  Num "+.5e1" = BestNum (ofZ 5) /\ Num "5." = BestNum (ofZ 5) /\
  Num "-0" = BestNum (S754_zero true) /\ Num "   " = BestNum (ofZ 0) /\
  Num "-0x1F" = BestNaN /\ Num "0x" = BestNaN /\ Num "." = BestNaN /\
  Num "1e" = BestNaN /\ Num "infinity" = BestNaN /\ Num "12px" = BestNaN /\
  Num "1 2" = BestNaN /\ Num "1,5" = BestNaN.
Proof. by vm_compute. Qed.

(** On the rationals the value of the literal is exact. *)
Example Number_on_rationals :
  let Num (s : string) : Best Q := Number_of_string s in
  Num "0.1" = BestNum (1 # 10) /\ Num "-12.50" = BestNum (-1250 # 100) /\
  Num "1e3" = BestNum 1000 /\ Num "7" = BestNum 7 /\
  Num "Infinity" = BestInf false /\ Num "seven" = BestNaN.
Proof. by vm_compute. Qed.

(** A running game with a frame pending and a pipe that the tongue passes
    in the next tick: the frame brings the score to 1 and the best score
    from 0 to 1. *)
Definition world_passing : World Q :=
  mkWorld (set_isRunning true (set_pipes [passing_pipe] fresh_400x600))
    (set_animationFrames 1 (initial_host canvas_400x600 ∅ None)).

Lemma best_never_drops_witness :
  best_le (BestNum 0)
    (best (game (gameLoop half_draws 16 (takeAnimationFrame world_passing)))).
Proof.
  apply (best_never_drops half_draws world_passing).
  eapply reach_step; [apply reach_start|]. apply step_frame. simpl. lia.
Defined.

(** A player who presses when the tongue is about to sink below 200,
    through [n] frames of 50 ms from the time [t]. *)
Fixpoint autoplay (n : nat) (t : Q) (w : World Q) : option (World Q) :=
  match n with
  | O => Some w
  | S n =>
      let w := if Qltb 200 (mouthY (game w) + mouthVelY (game w))
               then onPointer t w else w in
      w' ← handle half_draws (AnimationFrame (t + 50)) w;
      autoplay n (t + 50) w'
  end.

Lemma autoplay_reachable n t w0 w w' :
  reachable half_draws w0 w -> autoplay n t w = Some w' ->
  reachable half_draws w0 w'.
Proof.
  revert t w. induction n as [|n IH]; intros t w Hw; [by intros [= <-]|].
  unfold autoplay; fold autoplay. cbv zeta.
  destruct (handle half_draws _ _) as [w2|] eqn:E; [|done]. apply IH.
  eapply reach_step; [|by apply step_handle].
  destruct (Qltb _ _); [|done]. eapply reach_step; [done|apply step_mouse].
Qed.

(** The first visit of the page, in a window 320 by 480 with an empty
    storage: a press, and 152 frames of this player. *)
Definition first_visit : World Q :=
  let w := onPointer 1000 (loaded_world 320 480 (mkCanvas 300 150) ∅ None) in
  default w (autoplay 152 1000 w).

(** In the last of these frames the player has passed the first pipe,
    and the storage holds the score. *)
Example first_visit_scores :
  (fun w => (score (game w), isGameOver (game w),
             localStorage (host w) !! BEST_KEY)) first_visit
  = (1%Z, false, Some "1"%string).
Proof. by vm_compute. Qed.

Lemma first_visit_reachable :
  reachable half_draws (loaded_world 320 480 (mkCanvas 300 150) ∅ None)
    first_visit.
Proof.
  unfold first_visit. cbv zeta.
  destruct (autoplay 152 1000 _) as [w|] eqn:E; simpl.
  - eapply autoplay_reachable; [|exact E].
    eapply reach_step; [apply reach_start|apply step_mouse].
  - eapply reach_step; [apply reach_start|apply step_mouse].
Qed.

(** The second visit: the page is loaded in a larger window with the
    storage that the first visit left, and the player presses once. *)
Lemma visits_keep_best_witness :
  let w := onPointer 1000
    (loaded_world 400 600 (mkCanvas 300 150) (localStorage (host first_visit))
       None) in
  page_ok w /\ load_best (localStorage (host w)) = best (game w).
Proof.
  apply (visits_keep_best ∅ (localStorage (host first_visit)) half_draws
           400 600 (mkCanvas 300 150) None).
  - exists 0. by vm_compute.
  - eapply visits_more; [apply first_visit_reachable|apply visits_none].
  - eapply reach_step; [apply reach_start|apply step_mouse].
Defined.
