(* ===== verification/Typing.v ===== *)
(** * Typing: what the variables of the game hold

    JavaScript gives the variables of part_000 no types.  This file states
    what they hold in every world the page can reach, for every number
    instance: the array [pipes] holds objects made by [spawnPipe] (lines
    231-237) and moved by the loop of [update], so each has the constant
    width and a gap drawn between the two limits; [score] is a natural
    number; and the score together with the pipes that wait to be passed
    never exceeds the number of pipes made, which is half the number of
    calls of [Math.random]: every point has its pipe. *)

From S2P Require Import Prelude Rational Config Geometry Assets State Physics.
From S2P Require Import Pipes Render Update Ends Landing Loop.

#[local] Open Scope js_scope.

Section Typing.
Context {N : Type} `{JsNumber N}.
Variable random : nat -> N.
Implicit Types (p : Pipe N) (g : Game N) (w : World N) (ps : list (Pipe N)).

#[local] Abbreviation step := (step random).
#[local] Abbreviation reachable := (reachable random).

(** A pipe as [spawnPipe] makes it: the width is [PIPE_WIDTH] and the gap
    is the lower limit plus a draw's share of the range. *)
Definition pipe_typed p : Prop :=
  pipe_width p = PIPE_WIDTH /\
  exists c, gap p = PIPE_GAP_MIN + random c * (PIPE_GAP_MAX - PIPE_GAP_MIN).

(** The pipes that have not been counted yet. *)
Definition unpassed ps : nat :=
  length (List.filter (fun p => negb (passed p)) ps).

Record typed w : Prop := mkTyped {
  typed_pipes : Forall pipe_typed (pipes (game w));
  typed_score : (0 <= score (game w))%Z;
  typed_spawned :
    (2 * score (game w) + 2 * Z.of_nat (unpassed (pipes (game w)))
     <= Z.of_nat (randomCalls (host w)))%Z;
}.

(** The invariant reads three variables. *)
Lemma typed_ext w w' :
  pipes (game w') = pipes (game w) -> score (game w') = score (game w) ->
  randomCalls (host w') = randomCalls (host w) -> typed w -> typed w'.
Proof. intros Ep Es Ec [? ? ?]. split; by rewrite ?Ep, ?Es, ?Ec. Qed.

(** ** One pipe *)

Lemma new_pipe_typed w : pipe_typed (new_pipe random w).
Proof. split; [done|]. by exists (randomCalls (host w)). Qed.

Lemma advance_pipe_typed g p p' :
  advance_pipe g p = Some p' -> pipe_typed p -> pipe_typed p'.
Proof.
  unfold advance_pipe, pipe_typed. destruct (offscreen _); [done|].
  intros <-%(inj Some). by destruct (newly_passed _ _), p.
Qed.

(** A pipe that is counted was waiting and waits no longer; a pipe that
    is removed does not wait any more either. *)
Lemma advance_pipe_unpassed g p :
  (if scores g p then 1 else 0)
  + unpassed (option_list (advance_pipe g p)) <= unpassed [p].
Proof.
  unfold scores, survives, advance_pipe, newly_passed, unpassed.
  destruct (offscreen (move_pipe p)); simpl; [lia|].
  destruct p as [x wd t gp []]; simpl; [lia|].
  destruct (_ <? _); simpl; lia.
Qed.

(** ** The loop over the pipes *)

Lemma omap_advance_typed g ps :
  Forall pipe_typed ps -> Forall pipe_typed (omap (advance_pipe g) ps).
Proof.
  induction 1 as [|p ps Hp _ IH]; simpl; [done|].
  destruct (advance_pipe g p) as [p'|] eqn:E; [|done].
  constructor; [by eapply advance_pipe_typed|done].
Qed.

Lemma omap_advance_unpassed g ps :
  length (List.filter (scores g) ps) + unpassed (omap (advance_pipe g) ps)
  <= unpassed ps.
Proof.
  induction ps as [|p ps IH]; [done|].
  pose proof (advance_pipe_unpassed g p) as Hp. unfold unpassed in *.
  change (omap (advance_pipe g) (p :: ps))
    with (match advance_pipe g p with
          | Some p' => p' :: omap (advance_pipe g) ps
          | None => omap (advance_pipe g) ps
          end).
  set (rest := omap (advance_pipe g) ps) in *. revert Hp. simpl.
  destruct (scores g p), (advance_pipe g p) as [p'|]; simpl;
    repeat case_match; simpl; lia.
Qed.

Lemma pipes_loop_typed w : typed w -> typed (pipes_loop w).
Proof.
  intros [Hp Hs Hc].
  destruct (pipes_loop_frame w) as (_ & _ & _ & _ & _ & _ & _ & _ & Ec & _).
  pose proof (omap_advance_unpassed (set_pipes [] (game w)) (pipes (game w)))
    as Hu.
  split; rewrite ?Ec, pipes_loop_fold, ?foldr_pass_pipes, ?foldr_pass_score;
    proj_simpl; rewrite ?app_nil_r.
  - by apply omap_advance_typed.
  - lia.
  - lia.
Qed.

(** ** A tick *)

Lemma spawn_timer_typed dt w : typed w -> typed (spawn_timer random dt w).
Proof.
  intros [Hp Hs Hc]. unfold spawn_timer, spawnPipe. cbv zeta. proj_simpl.
  case_if; [|by split]. split; proj_simpl.
  - apply Forall_app. split; [done|]. constructor; [|done].
    apply new_pipe_typed.
  - done.
  - unfold unpassed in *. rewrite List.filter_app, length_app. simpl. lia.
Qed.

Lemma update_typed dt w : typed w -> typed (update random dt w).
Proof.
  intros Hw. unfold update. case_if; [done|].
  apply spawn_timer_typed, pipes_loop_typed.
  destruct (physics_frame (canvas (host w)) (game w))
    as (_ & Ep & _ & Es & _).
  revert Hw. apply typed_ext; unfold scroll_background; by proj_simpl.
Qed.

(** ** The page *)

Lemma flap_typed now w : typed w -> typed (flap now w).
Proof.
  intros [Hp Hs Hc]. unfold flap, requestAnimationFrame.
  destruct (isRunning (game w)); proj_simpl;
    destruct (isGameOver (game w)); split; proj_simpl;
    first [done|by constructor|unfold unpassed; simpl; lia].
Qed.

Lemma gameLoop_typed timestamp w :
  typed w -> typed (gameLoop random timestamp w).
Proof.
  intros Hw. rewrite gameLoop_ticked. unfold ticked.
  assert (typed (update random (frameDelta timestamp w)
                   (on_game (set_lastTimestamp timestamp) w))) as Hu
    by (apply update_typed; revert Hw; by apply typed_ext).
  destruct (_ && _); [|done].
  revert Hu. by apply typed_ext.
Qed.

Lemma step_typed w e w' : step w e w' -> typed w -> typed w'.
Proof.
  intros Hstep Hw.
  destruct Hstep as [code key now w|now w|now w|timestamp w Hpos|iw ih w
                    |ae a w Ha|w Hd|w Hd|w Ht].
  - destruct (onKeyDown_cases code key now w) as [-> | ->];
      [by apply flap_typed|done].
  - by apply flap_typed.
  - by apply flap_typed.
  - apply gameLoop_typed. revert Hw. by apply typed_ext.
  - revert Hw. by apply typed_ext.
  - revert Hw. by apply typed_ext.
  - revert Hw. by apply typed_ext.
  - revert Hw. by apply typed_ext.
  - revert Hw. apply typed_ext;
      unfold onPollTimer, waitForImages, takeTimeout;
      by destruct (imagesReady _).
Qed.

Lemma initial_world_typed cv b storage tongue :
  typed (initial_world cv b storage tongue).
Proof. split; simpl; [constructor|done|done]. Qed.

(** C8. In every world the page reaches, each pipe of the array has the width
    [PIPE_WIDTH] and a gap that [spawnPipe] drew, the score is a natural
    number, and twice the score plus twice the number of pipes that wait to
    be passed is at most the number of calls of [Math.random]: the score
    never exceeds the number of pipes that were made. *)
Theorem reachable_typed cv b storage tongue w :
  reachable (initial_world cv b storage tongue) w ->
  typed w /\
  (score (game w) <= Z.of_nat (randomCalls (host w) / 2))%Z.
Proof.
  intros Hr.
  assert (typed w) as Hw.
  { induction Hr; [apply initial_world_typed|by eapply step_typed]. }
  split; [done|]. destruct Hw as [_ _ Hc].
  rewrite Nat2Z.inj_div. apply Z.div_le_lower_bound; lia.
Qed.

End Typing.

(** The world after the first press. *)
Lemma reachable_typed_witness :
  typed half_draws first_press /\
  (score (game first_press)
   <= Z.of_nat (randomCalls (host first_press) / 2))%Z.
Proof.
  apply (reachable_typed half_draws canvas_400x600 (BestNum 0%Q) ∅ None).
  apply first_press_reachable.
Defined.
