(* ===== verification/Resize.v ===== *)
(** * Resize: a window that changes size during a game

    The resize listener of part_000 (lines 62-70) gives the two canvases
    their new size and repaints.  It assigns no game variable: the tongue
    keeps its place, [mouthX] stays at 28 per cent of the width that
    [resetGame] saw, and the pipes in the array keep the teeth that
    [spawnPipe] drew for the height of the canvas as it was then.  The next
    tick clamps the tongue to the new playfield; the pipes are never
    adapted, they leave the array when they have scrolled off.

    The theorems: after a resize and any number of ticks the array is made
    of pipes that were there before the resize, with the teeth they had,
    followed by pipes drawn for the new canvas, and [mouthX] is what it
    was; a canvas that shrinks under the tongue ends the game in the next
    tick. *)

From S2P Require Import Prelude Rational Config Geometry Assets State Physics.
From S2P Require Import Pipes Render Update Ends Landing Loop.

#[local] Open Scope js_scope.

Section Teeth.
Context {N : Type} `{JsNumber N}.
Variable random : nat -> N.
Implicit Types (p : Pipe N) (ps : list (Pipe N)) (w : World N) (cv : Canvas).

(** The teeth of [p'] are the teeth of [p]. *)
Definition same_teeth p p' : Prop :=
  pipe_width p' = pipe_width p /\ topHeight p' = topHeight p /\ gap p' = gap p.

(** A pipe whose teeth [spawnPipe] drew on the canvas [cv]. *)
Definition drawn_for cv p : Prop :=
  exists w, canvas (host w) = cv /\ same_teeth (new_pipe random w) p.

(** The pipes [ps] are pipes of [olds] with their teeth, in front of pipes
    drawn for [cv]. *)
Definition teeth_split (olds : list (Pipe N)) cv ps : Prop :=
  exists old new, ps = old ++ new /\
    Forall (fun p' => exists p, p ∈ olds /\ same_teeth p p') old /\
    Forall (drawn_for cv) new.

#[local] Instance same_teeth_trans : Transitive same_teeth.
Proof. intros p q r (? & ? & ?) (? & ? & ?). split_and!; congruence. Qed.

(** The loop writes [x] and [passed]. *)
Lemma advance_pipe_teeth g p p' : advance_pipe g p = Some p' -> same_teeth p p'.
Proof.
  unfold advance_pipe. destruct (offscreen _); [done|].
  intros <-%(inj Some). by destruct (newly_passed _ _), p.
Qed.

Lemma omap_advance_teeth (P : Pipe N -> Prop) g ps :
  (forall p p', same_teeth p p' -> P p -> P p') ->
  Forall P ps -> Forall P (omap (advance_pipe g) ps).
Proof.
  intros HP. induction 1 as [|p ps Hp _ IH]; simpl; [done|].
  destruct (advance_pipe g p) as [p'|] eqn:E; [|done].
  constructor; [|done]. eapply HP; [by eapply advance_pipe_teeth|done].
Qed.

(** The array after a tick: the pipes the loop kept, and behind them the
    pipe that was spawned, if one was. *)
Lemma update_pipes dt w :
  isGameOver (game w) = false ->
  exists g new,
    pipes (game (update random dt w))
    = omap (advance_pipe g) (pipes (game w)) ++ new /\
    Forall (drawn_for (canvas (host w))) new.
Proof.
  intros Hrun. rewrite update_running by done.
  destruct (before_spawn_pipes w) as (g & Ep). exists g.
  assert (canvas (host (before_spawn w)) = canvas (host w)) as Ec.
  { unfold before_spawn.
    by destruct (pipes_loop_frame (scroll_background
      (on_game (physics (canvas (host w))) w)))
      as (_ & _ & _ & _ & _ & _ & _ & -> & _). }
  unfold spawn_timer. cbv zeta.
  case_if; unfold spawnPipe; proj_simpl; rewrite Ep.
  - eexists [_]. split; [done|]. constructor; [|done].
    eexists. split; [|done]. by proj_simpl.
  - exists []. by rewrite app_nil_r.
Qed.

Lemma update_teeth_split olds dt w :
  teeth_split olds (canvas (host w)) (pipes (game w)) ->
  teeth_split olds (canvas (host w)) (pipes (game (update random dt w))).
Proof.
  intros (old & new & Eps & Hold & Hnew).
  destruct (isGameOver (game w)) eqn:Hrun.
  { rewrite update_over by done. by exists old, new. }
  destruct (update_pipes dt w Hrun) as (g & spawned & -> & Hs).
  rewrite Eps, omap_app, <- (assoc_L (++)).
  eexists _, _. split_and!; [done| |].
  - revert Hold. apply omap_advance_teeth.
    intros p p' Hpp (q & ? & ?). exists q. split; [done|by etrans].
  - apply Forall_app. split; [|done]. revert Hnew. apply omap_advance_teeth.
    intros p p' Hpp (w1 & ? & ?). exists w1. split; [done|by etrans].
Qed.

Lemma ticks_teeth_split olds dts w :
  teeth_split olds (canvas (host w)) (pipes (game w)) ->
  teeth_split olds (canvas (host w)) (pipes (game (ticks random dts w))) /\
  canvas (host (ticks random dts w)) = canvas (host w) /\
  mouthX (game (ticks random dts w)) = mouthX (game w).
Proof.
  revert w. induction dts as [|dt dts IH]; intros w Hw; [done|]. simpl.
  destruct (update_frame random dt w) as (Ex & _ & _ & Ec & _).
  rewrite <- Ec, <- Ex. apply IH. rewrite Ec. by apply update_teeth_split.
Qed.

(** C25. After a resize and any number of ticks the canvas has the new size,
    [mouthX] is what it was, and the array holds pipes from before the
    resize with the teeth they had then, followed by pipes drawn for the
    new canvas. *)
Theorem resize_keeps_teeth iw ih dts w :
  let w' := ticks random dts (onResize iw ih w) in
  canvas (host w') = resizeCanvas iw ih (canvas (host w)) /\
  mouthX (game w') = mouthX (game w) /\
  teeth_split (pipes (game w)) (canvas (host w')) (pipes (game w')).
Proof.
  intros w'. subst w'.
  destruct (ticks_teeth_split (pipes (game w)) dts (onResize iw ih w))
    as (Hs & Ec & Ex).
  - exists (pipes (game w)), []. rewrite app_nil_r. split_and!; [done| |done].
    apply Forall_forall. intros p Hp. by exists p.
  - by rewrite Ec, Ex.
Qed.

End Teeth.

(** ** On the rationals *)

Section ResizeQ.
Variable random : nat -> Q.
Implicit Types (p : Pipe Q) (g : Game Q) (w : World Q) (cv : Canvas).

#[local] Open Scope Q_scope.

(** The place the tongue falls to in the next tick is below the ground
    line of the canvas [cv]. *)
Definition sinks_below cv g : Prop := groundY cv < target g.

(** C26. A canvas that shrinks under the tongue ends the game: when the place
    the tongue falls to in the next tick is below the ground line of the
    new canvas, the tick after the resize is the last. *)
Theorem resize_ends_game iw ih dt w :
  let cv' := resizeCanvas iw ih (canvas (host w)) in
  (112 <= canvas_height cv')%Z ->
  sinks_below cv' (game w) ->
  isGameOver (game (update random dt (onResize iw ih w))) = true.
Proof.
  intros cv' Hh Hlow. unfold sinks_below in Hlow.
  destruct (isGameOver (game w)) eqn:Hrun; [by rewrite update_over|].
  destruct (update_tongue random dt (onResize iw ih w) Hrun) as (_ & _ & Hover).
  apply Hover. apply physics_ground_fatal; [done|]. by right.
Qed.

(** A pipe whose upper tooth reaches below the ground line cannot be
    passed: wherever the tongue is in the playfield, it touches the tooth
    as soon as the pipe has reached it. *)
Theorem stale_pipe_blocks cv g p :
  0 <= mouthY g -> mouthY g <= groundY cv -> groundY cv < topHeight p ->
  mouthX g < pipe_x p + pipe_width p -> pipe_x p < mouthX g + 32 ->
  hits cv g p = true.
Proof. intros Hy0 Hy1 Htop Hl Hr. rewrite hits_iff by done. lra. Qed.

End ResizeQ.

(** ** Concrete instances *)

#[local] Open Scope Q_scope.

(** A running game on the 400 by 600 canvas: the tongue at 100, and one
    pipe that [spawnPipe] made there, now at 200; its upper tooth is 175
    high. *)
Definition tall_pipe : Pipe Q :=
  set_pipe_x 200
    (new_pipe half_draws
       (mkWorld fresh_400x600 (initial_host canvas_400x600 ∅ None))).

Definition world_tall : World Q :=
  mkWorld
    (set_isRunning true (set_mouthY 100 (set_pipes [tall_pipe] fresh_400x600)))
    (initial_host canvas_400x600 ∅ None).

(** The window is made 250 pixels high; the ground line is then at 138.
    The player presses, and 22 frames follow. *)
Definition world_shrunk : World Q :=
  ticks half_draws (replicate 22 (50 # 3))
    (flap 0 (onResize 400 250 world_tall)).

(** The pipe reaches the tongue in the 22nd tick.  The tongue is in the
    air, 89 pixels above the ground line at 138, and the game is over: the
    upper tooth of the pipe is still 175 high. *)
Example shrunk_window_scenario :
  isGameOver
    (game (ticks half_draws (replicate 21 (50 # 3))
             (flap 0 (onResize 400 250 world_tall)))) = false /\
  isGameOver (game world_shrunk) = true /\
  groundY (mkCanvas 400 250) == 138 /\
  mouthY (game world_shrunk) < 138 - 89 /\
  map topHeight (pipes (game world_shrunk)) = [700 # 4].
Proof. by vm_compute. Qed.

Lemma stale_pipe_blocks_witness :
  hits (mkCanvas 400 250) (set_mouthY 50 fresh_400x600)
    (set_pipe_x 142 tall_pipe) = true.
Proof. apply stale_pipe_blocks; by vm_compute. Defined.

(** The window is made 200 pixels high: the ground line is at 88, above
    the tongue. *)
Lemma resize_ends_game_witness :
  isGameOver (game (update half_draws (50 # 3) (onResize 400 200 world_tall)))
  = true.
Proof. apply resize_ends_game; by vm_compute. Defined.
