(* ===== verification/Bisim.v ===== *)
(** * Bisim: worlds that differ in how their numbers are written

    On the rationals a number has many representations: [1 # 2] and
    [2 # 4] are one number, [Qeq], and two terms.  The script has one
    number.  This file shows that the model does not depend on the
    representation: an equivalence on numbers that every operation of
    [Prelude.JsNumber] respects ([JsSetoid], with [Qeq] on the rationals
    and equality on doubles) is lifted field by field to pipes, games,
    worlds and events, and every function of the game is a morphism for
    it: the physics block, the loop over the pipes, [update], [flap],
    [gameLoop], the dispatch of an event.  Equivalent worlds are bisimilar
    for the event loop and cannot be told apart by the host, the score,
    the flags or the number of pipes. *)

From Stdlib Require Import SpecFloat.
From S2P Require Import Prelude Rational Float64 Config Geometry Assets State.
From S2P Require Import Physics Pipes Render Update Ends Landing Loop.

#[local] Open Scope js_scope.

(** ** Numbers up to an equivalence *)

(** An equivalence on the numbers that the operations respect; a test has
    one outcome on equivalent numbers. *)
Class JsSetoid (N : Type) `{JsNumber N, Equiv N} : Prop := {
  num_equivalence :: Equivalence (≡@{N});
  add_proper :: Proper ((≡) ==> (≡) ==> (≡)) (@add N _);
  sub_proper :: Proper ((≡) ==> (≡) ==> (≡)) (@sub N _);
  mul_proper :: Proper ((≡) ==> (≡) ==> (≡)) (@mul N _);
  div_proper :: Proper ((≡) ==> (≡) ==> (≡)) (@div N _);
  opp_proper :: Proper ((≡) ==> (≡)) (@opp N _);
  rem_proper :: Proper ((≡) ==> (≡) ==> (≡)) (@rem N _);
  ltb_proper :: Proper ((≡) ==> (≡) ==> (=)) (@ltb N _);
  nmin_proper :: Proper ((≡) ==> (≡) ==> (≡)) (@nmin N _);
  nmax_proper :: Proper ((≡) ==> (≡) ==> (≡)) (@nmax N _);
  floor_proper :: Proper ((≡) ==> (≡)) (@Prelude.floor N _);
}.

(** The rationals up to [Qeq]. *)
#[export] Instance Q_equiv : Equiv Q := Qeq.

#[export] Instance QSetoid : JsSetoid Q.
Proof.
  split; try apply _.
  all: repeat intros ?; unfold equiv, Q_equiv in *; simpl.
  all: repeat match goal with E : _ == _ |- _ => rewrite E; clear E end.
  all: reflexivity.
Qed.

(** Doubles up to equality. *)
#[export] Instance F64_equiv : Equiv spec_float := eq.

#[export] Instance F64Setoid : JsSetoid spec_float.
Proof. split; apply _. Qed.

(** ** Records up to the equivalence of their numbers *)

Section Equivalences.
Context {N : Type} `{JsSetoid N}.
Implicit Types (p q : Pipe N) (b : Best N) (g h : Game N) (w v : World N).

#[export] Instance pipe_equiv : Equiv (Pipe N) := fun p q =>
  pipe_x p ≡ pipe_x q /\ pipe_width p ≡ pipe_width q /\
  topHeight p ≡ topHeight q /\ gap p ≡ gap q /\ passed p = passed q.

#[export] Instance best_equiv : Equiv (Best N) := fun b b' =>
  match b, b' with
  | BestNum x, BestNum y => x ≡ y
  | BestInf a, BestInf b => a = b
  | BestNaN, BestNaN => True
  | _, _ => False
  end.

#[export] Instance game_equiv : Equiv (Game N) := fun g h =>
  mouthY g ≡ mouthY h /\ mouthX g ≡ mouthX h /\ mouthVelY g ≡ mouthVelY h /\
  pipes g ≡ pipes h /\ lastPipeAt g ≡ lastPipeAt h /\ score g = score h /\
  best g ≡ best h /\ isRunning g = isRunning h /\
  isGameOver g = isGameOver h /\ lastTimestamp g ≡ lastTimestamp h /\
  backgroundOffset g ≡ backgroundOffset h.

#[export] Instance world_equiv : Equiv (World N) := fun w v =>
  game w ≡ game v /\ host w = host v.

#[export] Instance pipe_equivalence : Equivalence (≡@{Pipe N}).
Proof.
  split.
  - intros p. by split_and!.
  - intros p q (? & ? & ? & ? & ?). by split_and!.
  - intros p q r (? & ? & ? & ? & ?) (? & ? & ? & ? & ?).
    split_and!; by etrans.
Qed.

#[export] Instance best_equivalence : Equivalence (≡@{Best N}).
Proof.
  split.
  - intros [x| |]; [change (x ≡ x)|..]; done.
  - intros [x|a|] [y|b|]; try done. intros E. change (y ≡ x). by symmetry.
  - intros [x|a|] [y|b|] [z|c|]; try done; [|congruence].
    intros E1 E2. change (x ≡ z). by trans y.
Qed.

#[export] Instance game_equivalence : Equivalence (≡@{Game N}).
Proof.
  split.
  - intros g. by split_and!.
  - intros g h (? & ? & ? & ? & ? & ? & ? & ? & ? & ? & ?). by split_and!.
  - intros g h k (? & ? & ? & ? & ? & ? & ? & ? & ? & ? & ?)
      (? & ? & ? & ? & ? & ? & ? & ? & ? & ? & ?).
    split_and!; by etrans.
Qed.

#[export] Instance world_equivalence : Equivalence (≡@{World N}).
Proof.
  split.
  - intros w. by split.
  - intros w v [? ?]. by split.
  - intros w v u [? ?] [? ?]. split; by etrans.
Qed.

End Equivalences.

(** Equivalent worlds have one host, one score and the same flags. *)
Lemma equiv_observed {N : Type} `{JsSetoid N} (w v : World N) :
  w ≡ v ->
  host w = host v /\ score (game w) = score (game v) /\
  isRunning (game w) = isRunning (game v) /\
  isGameOver (game w) = isGameOver (game v) /\
  length (pipes (game w)) = length (pipes (game v)).
Proof.
  intros [(_ & _ & _ & Ep & _ & ? & _ & ? & ? & _) ?]. split_and!; try done.
  by rewrite Ep.
Qed.

(** What the page shows of a world however its numbers are written: the
    host, the score, the two flags and the number of pipes. *)
Definition observe {N : Type} (w : World N) : Host * Z * bool * bool * nat :=
  (host w, score (game w), isRunning (game w), isGameOver (game w),
   length (pipes (game w))).

Lemma equiv_observe {N : Type} `{JsSetoid N} (w v : World N) :
  w ≡ v -> observe w = observe v.
Proof.
  intros (Eh & Es & Er & Eo & El)%equiv_observed. unfold observe.
  by rewrite Eh, Es, Er, Eo, El.
Qed.

(** A test on equivalent numbers has one outcome. *)
Lemma ltb_equiv {N : Type} `{JsSetoid N} (x x' y y' : N) :
  x ≡ x' -> y ≡ y' -> ltb x y = ltb x' y'.
Proof. intros Ex Ey. by apply ltb_proper. Qed.

(** ** Tactics *)

(** Add the fields of the hypotheses about records to the context. *)
Ltac equiv_fields :=
  repeat match goal with
  | E : @equiv (World _) _ ?w ?v |- _ =>
      lazymatch goal with
      | _ : host w = host v |- _ => fail
      | _ => let E' := fresh in pose proof E as E'; destruct E' as [? ?]
      end
  | E : @equiv (Game _) _ ?g ?h |- _ =>
      lazymatch goal with
      | _ : isRunning g = isRunning h |- _ => fail
      | _ => let E' := fresh in
             pose proof E as E';
             destruct E' as (? & ? & ? & ? & ? & ? & ? & ? & ? & ? & ?)
      end
  | E : @equiv (Pipe _) _ ?p ?q |- _ =>
      lazymatch goal with
      | _ : passed p = passed q |- _ => fail
      | _ => let E' := fresh in
             pose proof E as E'; destruct E' as (? & ? & ? & ? & ?)
      end
  end.

(** Two numbers, or two tests, built the same way from equivalent parts. *)
Ltac equiv_parts :=
  repeat first [assumption | reflexivity | congruence | apply ltb_equiv
               | progress f_equiv].

(** Two conditionals with the same test. *)
Ltac equiv_if :=
  match goal with
  | |- (if ?c then _ else _) ≡ (if ?c' then _ else _) =>
      let E := fresh in
      assert (c = c') as E by equiv_parts; rewrite E; destruct c'
  end.

(** Two records with equivalent fields. *)
Ltac equiv_split :=
  repeat match goal with
  | |- @equiv (World _) _ _ _ => split
  | |- @equiv (Game _) _ _ _ => split_and!
  | |- @equiv (Pipe _) _ _ _ => split_and!
  end.

(** The two worlds have one host. *)
Ltac equiv_hosts :=
  repeat match goal with
  | E : host ?w = host _ |- context [host ?w] => rewrite E
  end.

Ltac equiv_record :=
  first [assumption | equiv_split; proj_simpl; equiv_hosts; equiv_parts].

(** ** The functions of the game are morphisms *)

Section Operations.
Context {N : Type} `{JsSetoid N}.
Implicit Types (p q : Pipe N) (b : Best N) (g h : Game N) (w v : World N).

#[export] Instance fall_proper : Proper ((≡) ==> (≡)) (@fall N _).
Proof. intros g h E. equiv_fields. unfold fall. equiv_record. Qed.

#[export] Instance clampCeiling_proper : Proper ((≡) ==> (≡)) (@clampCeiling N _).
Proof.
  intros g h E. equiv_fields. unfold clampCeiling. equiv_if; equiv_record.
Qed.

#[export] Instance clampGround_proper cv : Proper ((≡) ==> (≡)) (@clampGround N _ cv).
Proof.
  intros g h E. equiv_fields. unfold clampGround. equiv_if; equiv_record.
Qed.

#[export] Instance physics_proper cv : Proper ((≡) ==> (≡)) (@physics N _ cv).
Proof. unfold physics. solve_proper. Qed.

(** *** The pipes *)

#[export] Instance move_pipe_proper : Proper ((≡) ==> (≡)) (@move_pipe N _).
Proof. intros p q E. equiv_fields. unfold move_pipe. equiv_record. Qed.

#[export] Instance offscreen_proper : Proper ((≡) ==> (=)) (@offscreen N _).
Proof. intros p q E. equiv_fields. unfold offscreen. equiv_parts. Qed.

#[export] Instance newly_passed_proper :
  Proper ((≡) ==> (≡) ==> (=)) (@newly_passed N _).
Proof.
  intros g h E p q E'. equiv_fields.
  unfold newly_passed, pipeCenter, mouthCenter. equiv_parts.
Qed.

#[export] Instance hits_proper cv : Proper ((≡) ==> (≡) ==> (=)) (@hits N _ cv).
Proof.
  intros g h E p q E'. equiv_fields. unfold hits, rectsOverlap. equiv_parts.
Qed.

#[export] Instance advance_pipe_proper :
  Proper ((≡) ==> (≡) ==> (≡)) (@advance_pipe N _).
Proof.
  intros g h Eg p q Ep. unfold advance_pipe. cbv zeta.
  rewrite (offscreen_proper (move_pipe p) (move_pipe q)) by by f_equiv.
  destruct (offscreen _); constructor.
  rewrite (newly_passed_proper g h Eg (move_pipe p) (move_pipe q))
    by by f_equiv.
  assert (move_pipe p ≡ move_pipe q) as E by by f_equiv.
  destruct (newly_passed _ _); [|done]. equiv_fields. equiv_record.
Qed.

(** *** The loop over the pipes *)

#[export] Instance record_best_proper : Proper ((≡) ==> (≡)) (@record_best N _).
Proof.
  intros w v E. equiv_fields. unfold record_best, score_gt_best.
  assert (best (game w) ≡ best (game v)) as Eb by done.
  destruct (best (game w)) as [x|a|], (best (game v)) as [y|b|]; try done.
  - change (x ≡ y) in Eb. equiv_if; equiv_record.
  - change (a = b) in Eb. subst b. destruct a; equiv_record.
Qed.

#[export] Instance collide_pipe_proper :
  Proper ((≡) ==> (≡) ==> (≡)) (@collide_pipe N _).
Proof.
  intros p q Ep w v E. unfold collide_pipe.
  assert (hits (canvas (host w)) (game w) p
          = hits (canvas (host v)) (game v) q) as ->.
  { destruct E as [Eg ->]. by apply hits_proper. }
  destruct (hits _ _ _); [|done]. equiv_fields. equiv_record.
Qed.

#[export] Instance pipe_effects_proper :
  Proper ((≡) ==> (≡) ==> (≡)) (@pipe_effects N _).
Proof.
  intros p q Ep w v E. unfold pipe_effects. cbv zeta. f_equiv; [done|].
  rewrite (newly_passed_proper (game w) (game v) (proj1 E) p q Ep).
  destruct (newly_passed _ _); [|done]. f_equiv.
  equiv_fields. equiv_record.
Qed.

#[export] Instance pass_step_proper :
  Proper ((≡) ==> (≡) ==> (≡)) (@pass_step N _).
Proof.
  intros p q Ep w v E. unfold pass_step.
  pose proof (advance_pipe_proper (game w) (game v) (proj1 E) p q Ep) as Ea.
  destruct Ea as [p' q' Ea|]; [|done].
  assert (pipe_effects (move_pipe p) w ≡ pipe_effects (move_pipe q) v) as Ef
    by (by repeat f_equiv).
  equiv_fields. equiv_record.
Qed.

Lemma foldr_pass_proper (ps qs : list (Pipe N)) w v :
  ps ≡ qs -> w ≡ v -> foldr pass_step w ps ≡ foldr pass_step v qs.
Proof.
  intros Ep E. induction Ep as [|p q ps qs Ep _ IH]; simpl; [done|].
  by apply pass_step_proper.
Qed.

#[export] Instance pipes_pass_proper : Proper ((≡) ==> (≡)) (@pipes_pass N _).
Proof.
  intros w v E. unfold pipes_pass. apply foldr_pass_proper; [apply E|].
  equiv_fields. equiv_record.
Qed.

#[export] Instance pipes_loop_proper : Proper ((≡) ==> (≡)) (@pipes_loop N _).
Proof. intros w v E. rewrite !pipes_loop_fold. by apply pipes_pass_proper. Qed.

(** *** A tick *)

#[export] Instance scroll_background_proper :
  Proper ((≡) ==> (≡)) (@scroll_background N _).
Proof. intros w v E. equiv_fields. unfold scroll_background. equiv_record. Qed.

#[export] Instance spawn_timer_proper random :
  Proper ((≡) ==> (≡) ==> (≡)) (@spawn_timer N _ random).
Proof.
  intros dt dt' Ed w v E. equiv_fields.
  unfold spawn_timer, spawnPipe, new_pipe. cbv zeta. proj_simpl.
  equiv_if; equiv_record.
Qed.

#[export] Instance update_proper random :
  Proper ((≡) ==> (≡) ==> (≡)) (@update N _ random).
Proof.
  intros dt dt' Ed w v E. unfold update. cbv zeta.
  destruct (equiv_observed w v E) as (-> & _ & _ & -> & _).
  destruct (isGameOver (game v)); [done|].
  apply spawn_timer_proper; [done|]. apply pipes_loop_proper.
  apply scroll_background_proper.
  split; [apply physics_proper, E|apply E].
Qed.

#[export] Instance ticks_proper random :
  Proper ((≡) ==> (≡) ==> (≡)) (@ticks N _ random).
Proof.
  intros dts dts' Ed.
  induction Ed as [|dt dt' dts dts' Ed _ IH]; intros w v E; simpl; [done|].
  apply IH. by apply update_proper.
Qed.

(** *** The page *)

#[export] Instance resetGame_proper cv : Proper ((≡) ==> (≡)) (@resetGame N _ cv).
Proof. intros g h E. equiv_fields. unfold resetGame. equiv_record. Qed.

#[export] Instance flap_proper : Proper ((≡) ==> (≡) ==> (≡)) (@flap N _).
Proof.
  intros now now' En w v E.
  destruct (equiv_observed w v E) as (_ & _ & Er & Eo & _).
  unfold flap, requestAnimationFrame. cbv zeta. rewrite Er.
  destruct (isRunning (game v)); proj_simpl; rewrite Eo;
    destruct (isGameOver (game v)); unfold resetGame;
    equiv_fields; equiv_record.
Qed.

#[export] Instance frameDelta_proper :
  Proper ((≡) ==> (≡) ==> (≡)) (@frameDelta N _).
Proof. intros t t' Et w v E. equiv_fields. unfold frameDelta. equiv_parts. Qed.

#[export] Instance gameLoop_proper random :
  Proper ((≡) ==> (≡) ==> (≡)) (@gameLoop N _ random).
Proof.
  intros t t' Et w v E. rewrite !gameLoop_ticked. unfold ticked.
  assert (update random (frameDelta t w) (on_game (set_lastTimestamp t) w)
          ≡ update random (frameDelta t' v) (on_game (set_lastTimestamp t') v))
    as Eu.
  { apply update_proper; [by apply frameDelta_proper|].
    equiv_fields. equiv_record. }
  destruct (equiv_observed w v E) as (-> & _ & -> & _).
  destruct (_ && _); [|done]. unfold requestAnimationFrame.
  equiv_fields. equiv_record.
Qed.

(** *** Events *)

(** The same event, with equivalent times. *)
#[export] Instance event_equiv : Equiv (Event N) := fun e e' =>
  match e, e' with
  | KeyDown code key now, KeyDown code' key' now' =>
      code = code' /\ key = key' /\ now ≡ now'
  | MouseDown now, MouseDown now' => now ≡ now'
  | TouchStart now, TouchStart now' => now ≡ now'
  | AnimationFrame t, AnimationFrame t' => t ≡ t'
  | Resize iw ih, Resize iw' ih' => iw = iw' /\ ih = ih'
  | ImageEvent a, ImageEvent a' => a = a'
  | LandingClick, LandingClick | LandingTouch, LandingTouch
  | Timeout, Timeout => True
  | _, _ => False
  end.

#[export] Instance event_equiv_refl : Reflexive (≡@{Event N}).
Proof. intros []; red; cbn [event_equiv]; by split_and?. Qed.

(** What a handler does to the host alone respects the equivalence. *)
Lemma on_host_equiv (f : Host -> Host) w v : w ≡ v -> on_host f w ≡ on_host f v.
Proof. intros [Eg Eh]. split; proj_simpl; [done|by rewrite Eh]. Qed.

#[export] Instance handle_proper random :
  Proper ((≡) ==> (≡) ==> (≡)) (@handle N _ random).
Proof.
  intros e e' Ee w v E. destruct (equiv_observed w v E) as (Eh & _).
  destruct e, e'; try done; simpl; rewrite ?Eh.
  - destruct Ee as (-> & -> & Et). unfold onKeyDown.
    destruct (_ || _); constructor; [by apply flap_proper|done].
  - constructor. by apply flap_proper.
  - constructor. by apply flap_proper.
  - case_decide; constructor.
    apply gameLoop_proper; [done|by apply on_host_equiv].
  - destruct Ee as [-> ->]. constructor. by apply on_host_equiv.
  - rewrite Ee. unfold onImage. rewrite Eh.
    destruct (asset_handle _ _); constructor. by apply on_host_equiv.
  - case_decide; constructor. by repeat apply on_host_equiv.
  - case_decide; constructor. by repeat apply on_host_equiv.
  - case_decide; constructor. unfold onPollTimer, waitForImages, takeTimeout.
    proj_simpl. rewrite Eh.
    destruct (imagesReady _); by repeat apply on_host_equiv.
Qed.

#[export] Instance run_proper random :
  Proper ((≡) ==> (≡) ==> (≡)) (@run N _ random).
Proof.
  intros es es' Ee.
  induction Ee as [|e e' es es' Ee _ IH]; intros w v E; simpl;
    [by constructor|].
  destruct (handle_proper random e e' Ee w v E) as [w' v' E'|]; simpl;
    [by apply IH|constructor].
Qed.

(** Equivalent worlds are bisimilar: a step of one is a step of the
    other, to an equivalent world. *)
Lemma step_equiv random w v e w' :
  w ≡ v -> step random w e w' ->
  exists v', step random v e v' /\ w' ≡ v'.
Proof.
  intros E Hs%step_handle.
  pose proof (handle_proper random e e (reflexivity e) w v E) as Ep.
  rewrite Hs in Ep. destruct (handle random e v) as [v'|] eqn:Hv.
  - exists v'. split; [by apply step_handle|by inversion Ep].
  - inversion Ep.
Qed.


End Operations.

(** ** Concrete instances *)

#[local] Open Scope Q_scope.

(** The page on the 400 by 600 canvas, and the same page with the place of
    the tongue written as 300 and not as 600 / 2. *)
Definition page_written : World Q :=
  on_game (set_mouthY 300) (initial_world canvas_400x600 (BestNum 0) ∅ None).

