(* ===== verification/Scenarios.v ===== *)
(** * Scenarios: the game run on concrete inputs

    The executable definitions are evaluated on the rational instance for
    the scenarios that accompany the design: free fall to the ground, a
    collision with the upper tooth, a tooth scrolling off the left edge, and
    a restart after the game has ended; a session of events is run through
    [Loop.run] and its trace of phases is computed.  Frames are 50/3 ms
    apart (60 Hz), the canvas is 400 by 600 pixels unless said otherwise,
    and every random draw is one half. *)

From S2P Require Import Prelude Rational Config Geometry Assets State Physics.
From S2P Require Import Pipes Render Update Landing Loop.

#[local] Open Scope Q_scope.

(** ** Worlds *)

(** [n] ticks of [update] at 60 Hz. *)
Definition nticks (n : nat) (w : World Q) : World Q :=
  ticks half_draws (replicate n frame_60Hz) w.

(** The vertical position after [n] ticks. *)
Definition heightAfter (n : nat) (w : World Q) : Q := mouthY (game (nticks n w)).

(** A canvas so tall that the ground is out of reach for 31 ticks. *)
Definition canvas_400x6000 : Canvas := mkCanvas 400 6000.

(** A tooth at the left edge of a tall canvas. *)
Definition world_tooth_at_0 : World Q :=
  mkWorld (set_pipes [mkPipe 0 70 100 150 false]
             (initial_game canvas_400x6000 (BestNum 0)))
    (initial_host canvas_400x6000 ∅ None).

(** The tooth of the collision scenario, arrived above the mouth, and the
    mouth at height 50, level with the upper tooth. *)
Definition tooth_above : Pipe Q := mkPipe 100 70 100 150 false.

Definition world_collision : World Q :=
  mkWorld (set_mouthY 50 (set_pipes [tooth_above] fresh_400x600))
    (initial_host canvas_400x600 ∅ None).

(** A finished game: score 3 with a best score of 7, two teeth on screen. *)
Definition world_finished : World Q :=
  on_game (fun g => set_score 3 (set_best (BestNum 7) (set_isRunning true
             (set_isGameOver true (set_mouthY 488 g))))) world_two_pipes.

(** A session: a press, frames until the tongue lies on the ground, and a
    second press. *)
Definition frames_from (t0 : Q) (n : nat) : list (Event Q) :=
  map (fun k => AnimationFrame (t0 + inject_Z (Z.of_nat k) * frame_60Hz))
    (seq 1 n).

Definition session : list (Event Q) :=
  MouseDown 0 :: frames_from 0 60 ++ [KeyDown "Space" " " 1100].

(** The phases of the worlds a list of events leads through. *)
Fixpoint phases (es : list (Event Q)) (w : World Q) : list Phase :=
  phase w ::
  match es with
  | [] => []
  | e :: es' =>
      match handle half_draws e w with
      | Some w' => phases es' w'
      | None => []
      end
  end.

(** Consecutive duplicates removed. *)
Fixpoint changes (l : list Phase) : list Phase :=
  match l with
  | a :: (b :: _) as l' => if decide (a = b) then changes l' else a :: changes l'
  | _ => l
  end.

(** ** Free fall *)

Lemma nticks_add n m w : nticks (n + m) w = nticks m (nticks n w).
Proof. unfold nticks, ticks. by rewrite replicate_add, foldl_app. Qed.

Lemma nticks_over n w : isGameOver (game w) = true -> nticks n w = w.
Proof. apply ticks_over. Qed.

Lemma free_fall_increases :
  forallb (fun n => Qltb (heightAfter n page_400x600)
                         (heightAfter (S n) page_400x600)) (seq 0 29) = true.
Proof. by vm_compute. Qed.

(** Free fall from the centre of the canvas: for the first 29 ticks the
    tongue is strictly lower after each tick than before it. *)
Theorem free_fall_strictly_down n :
  (n < 29)%nat ->
  heightAfter n page_400x600 < heightAfter (S n) page_400x600.
Proof.
  intros Hn. apply Qltb_lt.
  apply (proj1 (forallb_forall _ _) free_fall_increases), in_seq. lia.
Qed.

(** The 29th tick reaches the ground, at 488 = 600 - 80 - 32, and ends the
    game; the 28 ticks before it do not. *)
Theorem free_fall_lands :
  isGameOver (game (nticks 28 page_400x600)) = false /\
  isGameOver (game (nticks 29 page_400x600)) = true /\
  heightAfter 29 page_400x600 == 488.
Proof. by vm_compute. Qed.

(** From then on nothing moves: after 100 ticks the world is the world
    after 29. *)
Theorem free_fall_stays_over :
  nticks 100 page_400x600 = nticks 29 page_400x600.
Proof.
  rewrite (nticks_add 29 71). apply nticks_over. by vm_compute.
Qed.

(** ** Collision *)

(** The mouth at height 50 under a tooth of height 100 that spans its
    abscissa: the overlap test is true and the tick ends the game. *)
Theorem collision_scenario :
  hits canvas_400x600 (game world_collision) (move_pipe tooth_above) = true /\
  isGameOver (game (update half_draws frame_60Hz world_collision)) = true.
Proof. by vm_compute. Qed.

(** In the gap the same tooth is harmless. *)
Theorem gap_scenario :
  isGameOver (game (update half_draws frame_60Hz
    (on_game (set_mouthY 150) world_collision))) = false.
Proof. by vm_compute. Qed.

(** ** Removal *)


(** ** Restart *)

(** A press after the game has ended: score 0, not over, no teeth, the
    tongue at rest at the centre (the press that restarts does not flap),
    the best score kept. *)
Theorem restart_scenario :
  let g := game (flap 5000 world_finished) in
  score g = 0%Z /\ isGameOver g = false /\ isRunning g = true /\
  pipes g = [] /\ mouthY g == 300 /\ mouthVelY g == 0 /\
  best g = BestNum 7.
Proof. by vm_compute. Qed.

(** ** A session *)

(** The session runs to completion, and its worlds go through the phases
    Idle, Running, GameOver, Running. *)
Theorem session_phases :
  (exists w, run half_draws session page_400x600 = Some w /\
     score (game w) = 0%Z /\ animationFrames (host w) = 1%nat) /\
  changes (phases session page_400x600) = [Idle; Running; GameOver; Running].
Proof.
  split; [|by vm_compute].
  eexists. split; [vm_compute; reflexivity|by vm_compute].
Qed.

(** ** A broken sprite *)

(** The sprite fails to load during the first game: the frame after the
    failure is the last one, no frame can fire after it, and a press
    changes nothing about that. *)
Theorem broken_sprite_scenario :
  (exists w, run half_draws
              [MouseDown 0; AnimationFrame (50 # 3);
               ImageEvent (Failed MouthImage); AnimationFrame (100 # 3);
               KeyDown "Space" " " 40] page_400x600 = Some w /\
     handle half_draws (AnimationFrame 50) w = None /\
     isRunning (game w) = true /\ isGameOver (game w) = false).
Proof. eexists. split; [vm_compute; reflexivity|by vm_compute]. Qed.

(** ** The keyboard behind the landing page *)


(** ** Instances *)

Lemma free_fall_strictly_down_witness :
  heightAfter 5 page_400x600 < heightAfter 6 page_400x600.
Proof. apply free_fall_strictly_down. lia. Defined.
