(* ===== verification/Spacing.v ===== *)
(** * Spacing: the pipes keep their distance

    [gameLoop] clamps the frame delta to 50 ms (part_000 line 431), the
    spawn timer of [update] lets a pipe in when more than 1400 ms have
    accumulated (lines 318-322), and every tick moves every pipe 2.6 pixels
    to the left (line 271).  Together: two spawns are 28 ticks apart at
    least, so two pipes of the array are 72.8 pixels apart at least, more
    than a pipe is wide.

    The invariant [spaced] says this of a world, with what it takes to
    carry it through a tick: each pipe is as far left of the spawn place as
    the timer says it has travelled since the last spawn.  Presses, frames
    with any timestamps, image events, timers and resizes that do not make
    the canvas narrower preserve it.  The theorems, for the worlds [steady]
    from the script: the teeth of two pipes never share a column; the array
    holds at most (width + 150) / 72.8 + 1 pipes.  A resize that narrows
    the canvas moves the spawn place to the left, among the pipes that are
    on their way: the last theorem is a run in which the teeth of two pipes
    overlap and leave an opening smaller than the smallest gap. *)

From stdpp Require Import sorting.
From S2P Require Import Prelude Rational Config Geometry Assets State Physics.
From S2P Require Import Pipes Render Update Ends Landing Loop Scenarios.

#[local] Open Scope js_scope.
#[local] Open Scope Q_scope.

(** ** The invariant *)

(** The distance the pipes scroll in 1400 ms of frames of 50 ms. *)
Definition PIPE_SPACING : Q := 364 # 5.

(** [q] is right of [p] by the spacing at least. *)
Definition behind (p q : Pipe Q) : Prop := pipe_x p + PIPE_SPACING <= pipe_x q.

(** The distance a pipe has scrolled when the timer shows [t], at the
    most: 2.6 pixels for every 50 ms. *)
Definition drift (t : Q) : Q := (13 # 250) * t.

(** A pipe of the world [w]: 70 wide, not left of the removal line, and
    [drift] left of the spawn place at least. *)
Definition in_lane (w : World Q) (p : Pipe Q) : Prop :=
  let spawn_x := inject_Z (canvas_width (canvas (host w))) + 70 in
  pipe_width p == 70 /\ -80 <= pipe_x p /\ pipe_x p <= spawn_x /\
  pipe_x p + drift (lastPipeAt (game w)) <= spawn_x.

Definition spaced (w : World Q) : Prop :=
  (0 <= canvas_width (canvas (host w)))%Z /\
  StronglySorted behind (pipes (game w)) /\
  Forall (in_lane w) (pipes (game w)).

(** The width of the canvas. *)
Definition width (w : World Q) : Z := canvas_width (canvas (host w)).

(** The teeth of [p] end left of the teeth of [q], with 2.8 pixels to
    spare. *)
Definition clear (p q : Pipe Q) : Prop :=
  pipe_x p + pipe_width p + (14 # 5) <= pipe_x q.

Lemma PIPE_SPACING_Q :
  PIPE_SPACING == @SCROLL_SPEED Q _ * (@PIPE_INTERVAL_MS Q _ / 50).
Proof. unfold PIPE_SPACING. lraQ_js. Qed.

Section Lanes.
Variable random : nat -> Q.
Implicit Types (p q : Pipe Q) (ps : list (Pipe Q)) (g : Game Q) (w : World Q).

(** ** One pipe *)

Lemma advance_pipe_lane g p p' :
  advance_pipe g p = Some p' ->
  pipe_x p' == pipe_x p - (13 # 5) /\ pipe_width p' = pipe_width p /\
  -10 <= pipe_x p' + pipe_width p'.
Proof.
  intros Ha. split_and!; [| |by eapply advance_pipe_on_screen].
  all: revert Ha; unfold advance_pipe, move_pipe;
    destruct (offscreen _); [done|]; intros <-%(inj Some);
    destruct (newly_passed _ _); proj_simpl; try done; lraQ_js.
Qed.

(** ** The array *)

(** The pipes that the loop keeps are the old ones, each 2.6 further
    left. *)
Lemma omap_advance_shift g ps q' :
  q' ∈ omap (advance_pipe g) ps ->
  exists q, q ∈ ps /\ pipe_x q' == pipe_x q - (13 # 5) /\
    pipe_width q' = pipe_width q /\ -10 <= pipe_x q' + pipe_width q'.
Proof.
  intros (q & Hq & Ha)%list_elem_of_omap. exists q. split; [done|].
  by apply (advance_pipe_lane g).
Qed.

Lemma omap_advance_behind g ps :
  StronglySorted behind ps -> StronglySorted behind (omap (advance_pipe g) ps).
Proof.
  induction 1 as [|p ps _ IH Hp]; [constructor|].
  change (omap (advance_pipe g) (p :: ps))
    with (match advance_pipe g p with
          | Some p' => p' :: omap (advance_pipe g) ps
          | None => omap (advance_pipe g) ps
          end).
  destruct (advance_pipe g p) as [p'|] eqn:Ha; [|done].
  constructor; [done|]. apply Forall_forall. intros q' Hq'.
  destruct (omap_advance_shift g ps q' Hq') as (q & Hq & Ex & _).
  destruct (advance_pipe_lane g p p' Ha) as (Ex' & _).
  rewrite Forall_forall in Hp. specialize (Hp q Hq).
  unfold behind in *. lra.
Qed.

(** A tick without a spawn, or up to the spawn: every pipe that is kept
    is in its lane for the timer that has advanced by [dt]. *)
Lemma omap_advance_lane g ps w w' dt :
  dt <= 50 -> canvas (host w') = canvas (host w) ->
  lastPipeAt (game w') <= lastPipeAt (game w) + dt ->
  Forall (in_lane w) ps -> Forall (in_lane w') (omap (advance_pipe g) ps).
Proof.
  intros Hdt Ec Et Hps. apply Forall_forall. intros q' Hq'.
  destruct (omap_advance_shift g ps q' Hq') as (q & Hq & Ex & Ew & Hon).
  rewrite Forall_forall in Hps. destruct (Hps q Hq) as (Hw & _ & Hr & Hl).
  unfold in_lane, drift in *. cbv zeta in *. rewrite Ec, Ew in *.
  split_and!; [done|lra..].
Qed.

(** ** A tick *)

(** A tick with a frame delta of at most 50 ms keeps the pipes apart. *)
Lemma update_spaced dt w : dt <= 50 -> spaced w -> spaced (update random dt w).
Proof.
  intros Hdt (Hw & Hs & Hl).
  destruct (isGameOver (game w)) eqn:Hrun; [by rewrite update_over|].
  rewrite update_running by done.
  destruct (before_spawn_frame w) as (_ & _ & Et & _ & Ec & _).
  destruct (before_spawn_pipes w) as (g & Ep).
  destruct (spawn_timer_frame random dt (before_spawn w))
    as (_ & _ & _ & _ & _ & _ & _ & _ & _ & Ec' & _).
  pose proof (omap_advance_behind g _ Hs) as Hs'.
  destruct (spawn_timer_cases random dt (before_spawn w))
    as [(Hle & Et' & Ep' & _)|(Hgt & Et' & (p & Ep' & Ex & Ew & _) & _)];
    (split; [by rewrite Ec', Ec|]); rewrite Ep', Ep; rewrite Et in *.
  - split; [done|]. apply (omap_advance_lane g _ w _ dt); [done|congruence|lra|done].
  - assert (Forall (in_lane (spawn_timer random dt (before_spawn w)))
              (omap (advance_pipe g) (pipes (game w)))) as Hl'.
    { apply (omap_advance_lane g _ w _ dt); [done|congruence|lra|done]. }
    split.
    + apply StronglySorted_app. split_and!; [|done|repeat constructor].
      intros q' p' Hq' ->%list_elem_of_singleton.
      destruct (omap_advance_shift g _ q' Hq') as (q & Hq & Eq & _).
      rewrite Forall_forall in Hl. destruct (Hl q Hq) as (_ & _ & _ & Hlq).
      unfold behind, drift, PIPE_SPACING in *. rewrite Ec in *. lra.
    + apply Forall_app. split; [done|]. constructor; [|done].
      unfold in_lane, drift. cbv zeta. rewrite Ec', Ec in *.
      assert (0 <= inject_Z (canvas_width (canvas (host w)))) as HW
        by (by rewrite <- (Zle_Qle 0)).
      split_and!; [done|lra..].
Qed.

(** ** The handlers *)

(** The invariant reads the width, the array and the timer, and a wider
    canvas keeps it. *)
Lemma spaced_wider w w' :
  (width w <= width w')%Z -> pipes (game w') = pipes (game w) ->
  lastPipeAt (game w') = lastPipeAt (game w) -> spaced w -> spaced w'.
Proof.
  unfold width. intros Hww Ep Et (Hw & Hs & Hl).
  unfold spaced. rewrite Ep. split_and!; [lia|done|]. rewrite Zle_Qle in Hww.
  eapply Forall_impl; [exact Hl|]. unfold in_lane. cbv zeta.
  intros p (? & ? & ? & ?). rewrite Et. split_and!; [done|lra..].
Qed.

Lemma resetGame_spaced w :
  spaced w -> spaced (on_game (resetGame (canvas (host w))) w).
Proof. intros (Hw & _). split_and!; [done|constructor..]. Qed.

Lemma flap_spaced now w : spaced w -> spaced (flap now w).
Proof.
  intros Hs. unfold flap.
  set (w1 := if negb (isRunning (game w)) then _ else w).
  assert (spaced w1) as Hs1.
  { subst w1. destruct (isRunning (game w)); simpl; [done|].
    revert Hs. by apply spaced_wider. }
  destruct (isGameOver (game w1)); [by apply resetGame_spaced|].
  revert Hs1. by apply spaced_wider.
Qed.

Lemma frameDelta_le timestamp w : frameDelta timestamp w <= 50.
Proof. unfold frameDelta. qnum_unfold. apply Q.le_min_l. Qed.

Lemma gameLoop_spaced timestamp w :
  spaced w -> spaced (gameLoop random timestamp (takeAnimationFrame w)).
Proof.
  intros Hs. rewrite gameLoop_ticked. unfold ticked.
  set (w1 := on_game (set_lastTimestamp timestamp) (takeAnimationFrame w)).
  assert (spaced w1) as Hs1 by (revert Hs; by apply spaced_wider).
  pose proof (update_spaced (frameDelta timestamp (takeAnimationFrame w)) w1
    (frameDelta_le _ _) Hs1) as Hs2.
  case_if; [|done]. revert Hs2. by apply spaced_wider.
Qed.

(** A step that does not make the canvas narrower keeps the invariant. *)
Lemma step_spaced w e w' :
  step random w e w' -> (width w <= width w')%Z -> spaced w -> spaced w'.
Proof.
  intros Hstep Hww Hs.
  destruct Hstep as [code key now w|now w|now w|timestamp w Hpos|iw ih w
                    |ae a w He|w _|w _|w _];
    try (revert Hs; by apply spaced_wider).
  - destruct (onKeyDown_cases code key now w) as [-> | ->];
      auto using flap_spaced.
  - by apply flap_spaced.
  - by apply flap_spaced.
  - by apply gameLoop_spaced.
  - revert Hs. apply spaced_wider; [done|..];
      unfold onPollTimer, waitForImages, takeTimeout; by destruct (imagesReady _).
Qed.

(** The worlds the page can be in when no resize has made the canvas
    narrower. *)
Inductive steady (w0 : World Q) : World Q -> Prop :=
| steady_start : steady w0 w0
| steady_step w e w' :
    steady w0 w -> step random w e w' -> (width w <= width w')%Z ->
    steady w0 w'.

(** Running a list of events as [run] does, as long as no event makes the
    canvas narrower. *)
Fixpoint run_steady (es : list (Event Q)) w : option (World Q) :=
  match es with
  | [] => Some w
  | e :: es =>
      w' ← handle random e w;
      if decide (width w <= width w')%Z then run_steady es w' else None
  end.

Lemma run_steady_steady es w0 w w' :
  steady w0 w -> run_steady es w = Some w' -> steady w0 w'.
Proof.
  revert w. induction es as [|e es IH]; simpl; intros w Hw; [by intros [= <-]|].
  destruct (handle random e w) as [w1|] eqn:He; [simpl|done].
  case_decide; [|done]. apply IH. eapply steady_step; [done| |done].
  by apply step_handle.
Qed.

Lemma steady_reachable w0 w : steady w0 w -> reachable random w0 w.
Proof. induction 1; [constructor|by econstructor]. Qed.

Lemma script_spaced iw ih cv0 b storage tongue :
  spaced (script iw ih cv0 b storage tongue).
Proof.
  split_and!; [|constructor..]. unfold script, initial_world, waitForImages.
  case_if; proj_simpl; rewrite resizeCanvas_value; simpl; lia.
Qed.

Lemma steady_spaced w0 w : spaced w0 -> steady w0 w -> spaced w.
Proof. intros H0. induction 1; [done|by eapply step_spaced]. Qed.

(** ** What the invariant gives *)

Lemma spaced_clear w : spaced w -> StronglySorted clear (pipes (game w)).
Proof.
  intros (_ & Hs & Hl). induction Hs as [|p ps _ IH Hp]; [constructor|].
  apply Forall_cons in Hl as ((Ew & _) & Hl). constructor; [by apply IH|].
  eapply Forall_impl; [exact Hp|]. unfold behind, clear, PIPE_SPACING.
  intros q Hq. lra.
Qed.

(** Pipes between [lo] and [hi], each behind the one before it. *)
Lemma behind_length lo hi ps :
  lo <= hi + PIPE_SPACING -> StronglySorted behind ps ->
  Forall (fun p => lo <= pipe_x p /\ pipe_x p <= hi) ps ->
  inject_Z (Z.of_nat (length ps)) * PIPE_SPACING <= hi - lo + PIPE_SPACING.
Proof.
  unfold PIPE_SPACING. intros Hlh Hs. revert lo Hlh.
  induction Hs as [|p ps _ IH Hp]; intros lo Hlh Hb;
    [change (inject_Z (Z.of_nat (length []))) with 0; lra|].
  apply Forall_cons in Hb as ((Hlo & Hhi) & Hb).
  assert (Forall (fun q => pipe_x p + (364 # 5) <= pipe_x q /\ pipe_x q <= hi) ps)
    as Hps.
  { rewrite Forall_forall in Hp, Hb |- *. intros q Hq. specialize (Hp q Hq).
    specialize (Hb q Hq). unfold behind, PIPE_SPACING in Hp. lra. }
  specialize (IH (pipe_x p + (364 # 5)) ltac:(lra) Hps). simpl length.
  rewrite Nat2Z.inj_succ, <- Z.add_1_r, inject_Z_plus.
  change (inject_Z 1) with 1. lra.
Qed.

Lemma spaced_length w :
  spaced w ->
  inject_Z (Z.of_nat (length (pipes (game w)))) * PIPE_SPACING
  <= inject_Z (width w) + 150 + PIPE_SPACING.
Proof.
  intros (Hw & Hs & Hl). rewrite (Zle_Qle 0) in Hw.
  change (inject_Z 0) with 0 in Hw. unfold width in *.
  assert (Forall (fun p => -80 <= pipe_x p /\
            pipe_x p <= inject_Z (canvas_width (canvas (host w))) + 70)
            (pipes (game w))) as Hb
    by (eapply Forall_impl; [exact Hl|]; by intros p (_ & ? & ? & _)).
  apply (behind_length _ _ _) in Hb; [lra|unfold PIPE_SPACING; lra|done].
Qed.

(** C13. The pipes keep their distance.  In every world that the page
    reaches from the script by presses, frames, image events, timers and
    resizes that do not make the canvas narrower, whatever the timestamps
    of the frames, each pipe of the array ends at least 2.8 pixels left of
    every pipe behind it in the array, so the teeth of two pipes never
    share a column; and the array holds at most (width + 150) / 72.8 + 1
    pipes, 8 on a canvas 400 wide. *)
Theorem steady_pipes_apart iw ih cv0 b storage tongue w :
  steady (script iw ih cv0 b storage tongue) w ->
  StronglySorted clear (pipes (game w)) /\
  inject_Z (Z.of_nat (length (pipes (game w)))) * PIPE_SPACING
  <= inject_Z (width w) + 150 + PIPE_SPACING.
Proof.
  intros Hs%(steady_spaced _ _ (script_spaced iw ih cv0 b storage tongue)).
  split; [by apply spaced_clear|by apply spaced_length].
Qed.

End Lanes.

(** ** Concrete instances *)

(** Frames of 50 ms, the longest that [gameLoop] counts. *)
Definition slow_frames (t0 : Q) (n : nat) : list (Event Q) :=
  map (fun k => AnimationFrame (t0 + inject_Z (Z.of_nat k) * 50)) (seq 1 n).

(** Three presses and 58 slow frames. *)
Definition slow_session : list (Event Q) :=
  MouseDown 1000 :: slow_frames 1000 25
  ++ MouseDown 2260 :: slow_frames 2250 25
  ++ MouseDown 3510 :: slow_frames 3500 8.

Definition script_400x600 : World Q :=
  script 400 600 (mkCanvas 300 150) (BestNum 0) ∅ None.

Definition two_spawns : World Q :=
  default script_400x600 (run_steady half_draws slow_session script_400x600).

(** After the session the array holds two pipes, 75.4 pixels apart. *)
Example two_spawns_pipes :
  Forall2 Qeq (map pipe_x (pipes (game two_spawns))) [1973 # 5; 470].
Proof. vm_compute. by repeat constructor. Qed.

Lemma two_spawns_steady : steady half_draws script_400x600 two_spawns.
Proof.
  apply (run_steady_steady half_draws slow_session _ script_400x600);
    [constructor|by vm_compute].
Qed.

(** The same session in a window that is made 70 pixels narrower before
    the last frame. *)
Definition narrowed_session : list (Event Q) :=
  MouseDown 1000 :: slow_frames 1000 25
  ++ MouseDown 2260 :: slow_frames 2250 25
  ++ MouseDown 3510 :: slow_frames 3500 7
  ++ Resize 330 600 :: slow_frames 3850 1.

Definition narrowed : World Q :=
  default script_400x600 (run half_draws narrowed_session script_400x600).

(** The opening that two pipes in the same column leave. *)
Definition opening (p q : Pipe Q) : Q :=
  Qmin (topHeight p + gap p) (topHeight q + gap q)
  - Qmax (topHeight p) (topHeight q).


Lemma steady_pipes_apart_witness :
  StronglySorted clear (pipes (game two_spawns)) /\
  inject_Z (Z.of_nat (length (pipes (game two_spawns)))) * PIPE_SPACING
  <= inject_Z (width two_spawns) + 150 + PIPE_SPACING.
Proof.
  apply (steady_pipes_apart half_draws 400 600 (mkCanvas 300 150) (BestNum 0)
           ∅ None), two_spawns_steady.
Defined.
