(* ===== verification/DoubleRuns.v ===== *)
(** * DoubleRuns: the game on doubles

    The definitions of the development run on [Float64.F64Num], the
    numbers of a browser.  This file evaluates them there: the decimal
    literals of the source, written in the model as quotients of integers,
    are the doubles the literals denote; a free fall ends in the tick in
    which it ends on the rationals, at the same place; a session of presses
    and frames gets its first pipe with the same frame on both instances.

    The rational instance is not the double instance, and where the code
    compares for a strict inequality a tie on the rationals can fall either
    way on doubles: with the constant frame delta 50/3 the spawn timer of
    line 319 reaches 1400 exactly after 84 ticks on the rationals, so the
    first pipe comes with tick 85; on doubles the 84 rounded additions give
    1400.0000000000007 and the pipe comes with tick 84.  The theorems of
    the other files that are stated for every instance, or for every
    ordered instance, are the ones that hold of the code in a browser;
    those stated on the rationals describe it up to such ties. *)

From Stdlib Require Import SpecFloat.
From S2P Require Import Prelude Rational Float64 Config Geometry Assets State.
From S2P Require Import Physics Pipes Render Update Ends Landing Loop.

#[local] Open Scope js_scope.

(** ** Runs on any instance *)

Section Runs.
Context {N : Type} `{JsNumber N}.

(** Every draw of [Math.random()] is one half. *)
Definition draws : nat -> N := fun _ => ofZ 1 / ofZ 2.

(** The frame delta of a 60 Hz display, and the timestamp of its [k]-th
    frame. *)
Definition delta : N := ofZ 50 / ofZ 3.
Definition stamp (k : nat) : N := ofZ (Z.of_nat k) * delta.

(** The page on the 400 by 600 canvas. *)
Definition page : World N :=
  initial_world (mkCanvas 400 600) (BestNum (ofZ 0)) ∅ None.

(** [n] ticks of [update] with the constant delta. *)
Definition fall_for (n : nat) (w : World N) : World N :=
  ticks draws (replicate n delta) w.

(** A press, then 28 ticks: the tongue rises and falls back. *)
Definition hop (w : World N) : World N := fall_for 28 (flap (ofZ 0) w).

(** Three hops and [n] more ticks: [84 + n] ticks without touching the
    ground. *)
Definition hops_then (n : nat) : World N := fall_for n (hop (hop (hop page))).

(** The same flight as events: a press and 28 frames, three times, and
    [n] more frames; the frames carry their timestamps. *)
Definition hop_events (k : nat) : list (Event N) :=
  MouseDown (stamp k) :: map (fun i => AnimationFrame (stamp i)) (seq (S k) 28).

Definition flight (n : nat) : list (Event N) :=
  hop_events 0 ++ hop_events 28 ++ hop_events 56
  ++ map (fun i => AnimationFrame (stamp i)) (seq 85 n).

(** The number of pipes and the end of the game after a flight. *)
Definition flight_result (n : nat) : option (nat * bool) :=
  w ← run draws (flight n) page;
  Some (length (pipes (game w)), isGameOver (game w)).

End Runs.

(** ** The literals *)

(** The decimal literals of part_000, as the model writes them, are the
    doubles that the literals denote: 0.45, -7.5, 2.6, 0.28, 0.6, 0.42,
    0.52, 0.4, 0.5 and 3/2, and [Math.PI]. *)
Theorem literals_are_doubles :
  (GRAVITY : spec_float) = S754_finite false 8106479329266893 (-54) /\
  (FLAP_STRENGTH : spec_float) = S754_finite true 8444249301319680 (-50) /\
  (SCROLL_SPEED : spec_float) = S754_finite false 5854679515581645 (-51) /\
  (ofZ 7 / ofZ 25 : spec_float) = S754_finite false 5044031582654956 (-54) /\
  (ofZ 3 / ofZ 5 : spec_float) = S754_finite false 5404319552844595 (-53) /\
  (ofZ 21 / ofZ 50 : spec_float) = S754_finite false 7566047373982433 (-54) /\
  (ofZ 13 / ofZ 25 : spec_float) = S754_finite false 4683743612465316 (-53) /\
  (ofZ 2 / ofZ 5 : spec_float) = S754_finite false 7205759403792794 (-54) /\
  (ofZ 1 / ofZ 2 : spec_float) = S754_finite false 4503599627370496 (-53) /\
  (ofZ 3 / ofZ 2 : spec_float) = S754_finite false 6755399441055744 (-52) /\
  valid_binary prec emax (mathPI : spec_float) = true.
Proof. by vm_compute. Qed.

(** ** The operations defined in [Float64] *)

(** The double nearest to [a / b], for integers below 2^53. *)
Definition dbl (a b : Z) : spec_float := ofZ a / ofZ b.

(** [Math.floor], [%], [Math.min], [Math.max] and the conversion of an
    integer on sample arguments, against the values an IEEE-754
    implementation gives: floor(2.5) = 2, floor(-0.5) = -1, floor(0.5) = +0,
    floor(-0) = -0; 5.5 % 2 = 1.5, -5.5 % 2 = -1.5, -4 % 2 = -0, 5 % 0 is
    NaN, 0.1 % 0.03 = 0.010000000000000009, 2.6 % 400 = 2.6;
    min(0, -0) = -0, max(NaN, 1) is NaN; 2^53 + 1 is rounded to 2^53;
    1 / 0 is Infinity, 0 / 0 is NaN, and 0.1 + 0.2 is not 0.3. *)
Example double_operations :
  Prelude.floor (dbl 5 2) = ofZ 2 /\
  Prelude.floor (dbl (-1) 2) = ofZ (-1) /\
  Prelude.floor (dbl 1 2) = S754_zero false /\
  Prelude.floor (S754_zero true) = S754_zero true /\
  rem (dbl 11 2) (ofZ 2) = dbl 3 2 /\ rem (dbl (-11) 2) (ofZ 2) = dbl (-3) 2 /\
  rem (ofZ (-4)) (ofZ 2) = S754_zero true /\
  rem (ofZ 5) (ofZ 0) = S754_nan /\
  rem (dbl 1 10) (dbl 3 100) = S754_finite false 5764607523034240 (-59) /\
  rem (dbl 13 5) (ofZ 400) = dbl 13 5 /\
  nmin (ofZ 0) (S754_zero true) = S754_zero true /\
  nmax S754_nan (ofZ 1) = S754_nan /\
  (ofZ 9007199254740993 : spec_float) = ofZ 9007199254740992 /\
  dbl 1 0 = S754_infinity false /\ dbl 0 0 = S754_nan /\
  dbl 1 10 + dbl 2 10 <> dbl 3 10.
Proof. by vm_compute. Qed.

(** ** Free fall *)

(** Left alone on the 400 by 600 canvas the tongue is at 482.69999999999993
    after 28 ticks and on the ground line, 488, after 29, when the game is
    over: the tick and the place of the rational run. *)
Theorem double_free_fall :
  isGameOver (game (fall_for 28 (@page spec_float _))) = false /\
  mouthY (game (fall_for 28 (@page spec_float _)))
  = S754_finite false 8491748203639602 (-44) /\
  isGameOver (game (fall_for 29 (@page spec_float _))) = true /\
  mouthY (game (fall_for 29 (@page spec_float _))) = ofZ 488 /\
  isGameOver (game (fall_for 28 (@page Q _))) = false /\
  isGameOver (game (fall_for 29 (@page Q _))) = true /\
  Qeq (mouthY (game (fall_for 29 (@page Q _)))) 488.
Proof. by vm_compute. Qed.

(** ** The first pipe *)

(** Driven by events whose frames carry the timestamps k * 50/3, the page
    gets its first pipe with frame 85 on doubles as on the rationals, and
    the game is not over. *)
Theorem flight_agrees :
  @flight_result spec_float _ 0 = Some (0%nat, false) /\
  @flight_result spec_float _ 1 = Some (1%nat, false) /\
  @flight_result Q _ 0 = Some (0%nat, false) /\
  @flight_result Q _ 1 = Some (1%nat, false).
Proof. by vm_compute. Qed.

