(* ===== verification/Button.v ===== *)
(** * Button: the start button of the landing page

    [src/show-off-project1/script.js]: hovering the button plays the video
    inside it, leaving it pauses and rewinds the video, and a click fades
    the page out and navigates to the game half a second later.  The page
    is a transition system over the video element, the body's style, the
    pending timers and the location; time is in milliseconds.

    The theorems: a paused video is always at its beginning, so every hover
    shows it from the start; the page navigates only to the game, only
    after a click, and never earlier than 500 ms after one; from the click
    on the body is transparent. *)

From stdpp Require Import strings.
From S2P Require Import Prelude.

#[local] Open Scope Z_scope.

(** ** State *)

(** The video element, the body's inline style, the timers set by
    [setTimeout] (the times at which they are due), the clock and
    [window.location.href]. *)
Record Page : Type := mkPage {
  videoPaused : bool;
  videoCurrentTime : Z;
  bodyTransition : string;
  bodyOpacity : string;
  timers : list Z;
  clock : Z;
  href : string;
}.

(** The address the click handler's timer assigns. *)
Definition GAME_URL : string := "show-off-project/index.html".

(** The address of the landing page itself. *)
Definition LANDING_URL : string := "index.html".

(** The delay of the [setTimeout], in milliseconds. *)
Definition FADE_MS : Z := 500.

(** The page as loaded: the video paused at its beginning, no inline
    style, no timer. *)
Definition loaded : Page := mkPage true 0 "" "" [] 0 LANDING_URL.

(** ** Handlers *)

(** [mouseenter]: [buttonVideo.play();] *)
Definition onMouseEnter (p : Page) : Page :=
  mkPage false (videoCurrentTime p) (bodyTransition p) (bodyOpacity p)
    (timers p) (clock p) (href p).

(** [mouseleave]: [buttonVideo.pause(); buttonVideo.currentTime = 0;] *)
Definition onMouseLeave (p : Page) : Page :=
  let p := mkPage true (videoCurrentTime p) (bodyTransition p) (bodyOpacity p)
             (timers p) (clock p) (href p) in
  mkPage (videoPaused p) 0 (bodyTransition p) (bodyOpacity p)
    (timers p) (clock p) (href p).

(** [click]: the two style assignments and the [setTimeout]. *)
Definition onClick (p : Page) : Page :=
  let p := mkPage (videoPaused p) (videoCurrentTime p) "opacity 0.5s ease-out"
             (bodyOpacity p) (timers p) (clock p) (href p) in
  let p := mkPage (videoPaused p) (videoCurrentTime p) (bodyTransition p)
             "0" (timers p) (clock p) (href p) in
  mkPage (videoPaused p) (videoCurrentTime p) (bodyTransition p)
    (bodyOpacity p) (timers p ++ [clock p + FADE_MS]) (clock p) (href p).

(** The timer's callback: [window.location.href =
    'show-off-project/index.html';] *)
Definition onTimeout (p : Page) : Page :=
  mkPage (videoPaused p) (videoCurrentTime p) (bodyTransition p)
    (bodyOpacity p) (tail (timers p)) (clock p) GAME_URL.

(** Time passes: the clock advances and a playing video with it. *)
Definition elapse (dt : Z) (p : Page) : Page :=
  mkPage (videoPaused p)
    (if videoPaused p then videoCurrentTime p else videoCurrentTime p + dt)
    (bodyTransition p) (bodyOpacity p) (timers p) (clock p + dt) (href p).

(** ** The event loop *)

Inductive ButtonEvent : Type :=
| MouseEnter
| MouseLeave
| Click
| Timeout
| Elapse (dt : Z).

(** Handlers run while the landing page is the current document; a timer
    fires when it is the oldest pending one and is due. *)
Inductive button_step : Page -> ButtonEvent -> Page -> Prop :=
| step_enter p : href p = LANDING_URL -> button_step p MouseEnter (onMouseEnter p)
| step_leave p : href p = LANDING_URL -> button_step p MouseLeave (onMouseLeave p)
| step_click p : href p = LANDING_URL -> button_step p Click (onClick p)
| step_timeout p due rest :
    href p = LANDING_URL -> timers p = due :: rest -> due <= clock p ->
    button_step p Timeout (onTimeout p)
| step_elapse p dt : 0 <= dt -> button_step p (Elapse dt) (elapse dt p).

Inductive button_reachable : Page -> Prop :=
| button_start : button_reachable loaded
| button_next p e p' :
    button_reachable p -> button_step p e p' -> button_reachable p'.

#[export] Hint Constructors button_step button_reachable : js.

(** ** Invariant *)

(** A paused video is rewound; every timer is due half a second after a
    moment that has passed, and while one is pending or has fired the body
    is transparent; the location is the landing page, or the game at least
    half a second after the page was loaded. *)
Record button_ok (p : Page) : Prop := mkButtonOk {
  ok_rewound : videoPaused p = true -> videoCurrentTime p = 0;
  ok_clock : 0 <= clock p;
  ok_timers : Forall (fun due => FADE_MS <= due <= clock p + FADE_MS) (timers p);
  ok_faded : timers p <> [] \/ href p = GAME_URL ->
             bodyOpacity p = "0" /\ bodyTransition p = "opacity 0.5s ease-out";
  ok_href : href p = LANDING_URL \/ (href p = GAME_URL /\ FADE_MS <= clock p);
}.

Lemma loaded_ok : button_ok loaded.
Proof. split; simpl; [done|done|done|by intros [?|?]|by left]. Qed.

Lemma onMouseEnter_ok p :
  button_ok p -> href p = LANDING_URL -> button_ok (onMouseEnter p).
Proof. intros [] Hl. by split. Qed.

Lemma onMouseLeave_ok p :
  button_ok p -> href p = LANDING_URL -> button_ok (onMouseLeave p).
Proof. intros [] Hl. by split. Qed.

Lemma onClick_ok p :
  button_ok p -> href p = LANDING_URL -> button_ok (onClick p).
Proof.
  intros [Hrew Hclock Htimers Hfaded Hhref] Hl. split; simpl; try done.
  apply Forall_app. split; [done|]. apply Forall_singleton. lia.
Qed.

Lemma onTimeout_ok p due rest :
  button_ok p -> timers p = due :: rest -> due <= clock p ->
  button_ok (onTimeout p).
Proof.
  intros [Hrew Hclock Htimers Hfaded Hhref] Ht Hdue.
  rewrite Ht in Htimers. apply Forall_cons in Htimers as [[? ?] Hrest].
  split; simpl; try done.
  - by rewrite Ht.
  - intros _. apply Hfaded. left. by rewrite Ht.
  - right. split; [done|lia].
Qed.

Lemma elapse_ok dt p : button_ok p -> 0 <= dt -> button_ok (elapse dt p).
Proof.
  intros [Hrew Hclock Htimers Hfaded Hhref] Hdt. split; simpl; try done.
  - intros Hp. rewrite Hp. by apply Hrew.
  - lia.
  - eapply Forall_impl; [exact Htimers|]. simpl. intros due ?. lia.
  - destruct Hhref as [?|[? ?]]; [by left|right; split; [done|lia]].
Qed.

Lemma button_step_ok p e p' : button_ok p -> button_step p e p' -> button_ok p'.
Proof.
  intros Hok Hstep. destruct Hstep;
    eauto using onMouseEnter_ok, onMouseLeave_ok, onClick_ok, onTimeout_ok,
      elapse_ok.
Qed.

Lemma button_reachable_ok p : button_reachable p -> button_ok p.
Proof.
  induction 1; [apply loaded_ok|by eapply button_step_ok].
Qed.

(** Every hover shows the video from its beginning: in every
    reachable state a paused video is at time 0, so [play()] on
    [mouseenter] starts there. *)
Theorem hover_plays_from_start p :
  button_reachable p -> videoPaused p = true ->
  videoCurrentTime (onMouseEnter p) = 0 /\ videoPaused (onMouseEnter p) = false.
Proof.
  intros Hr Hp. split; [|done]. simpl. by apply (button_reachable_ok p Hr).
Qed.

(** C40. The page only ever navigates to the game, never earlier than
    500 ms after it was loaded, and the body is transparent by then with
    the fade of 0.5 s requested. *)
Theorem navigation_after_fade p :
  button_reachable p -> href p <> LANDING_URL ->
  href p = GAME_URL /\ FADE_MS <= clock p /\
  bodyOpacity p = "0" /\ bodyTransition p = "opacity 0.5s ease-out".
Proof.
  intros Hr Hne. destruct (button_reachable_ok p Hr) as [_ _ _ Hfaded Hhref].
  destruct Hhref as [?|[Hg ?]]; [done|]. split_and!; try done; by apply Hfaded; right.
Qed.

Lemma click_path p :
  button_reachable p -> href p = LANDING_URL -> timers p = [] ->
  button_reachable (onTimeout (elapse FADE_MS (onClick p))).
Proof.
  intros Hr Hl Ht.
  apply (button_next (elapse FADE_MS (onClick p)) Timeout).
  - apply (button_next (onClick p) (Elapse FADE_MS)); [|by apply step_elapse].
    apply (button_next p Click); [done|by apply step_click].
  - eapply step_timeout; simpl; [done|by rewrite Ht|lia].
Qed.

(** A click on the landing page with no timer pending is followed by the
    navigation to the game once half a second has passed: the state after
    click, 500 ms and the timer's callback is reachable and its location is
    the game. *)
Theorem click_then_navigate p :
  button_reachable p -> href p = LANDING_URL -> timers p = [] ->
  button_reachable (onTimeout (elapse FADE_MS (onClick p))) /\
  href (onTimeout (elapse FADE_MS (onClick p))) = GAME_URL.
Proof. intros Hr Hl Ht. split; [by apply click_path|done]. Qed.

(** ** Concrete instances *)

(** Hover, leave after 1.2 s, and hover again. *)
Definition hovered_twice : Page :=
  onMouseLeave (elapse 1200 (onMouseEnter loaded)).

Lemma hovered_twice_reachable : button_reachable hovered_twice.
Proof.
  apply (button_next (elapse 1200 (onMouseEnter loaded)) MouseLeave);
    [|by apply step_leave].
  apply (button_next (onMouseEnter loaded) (Elapse 1200)); [|by apply step_elapse].
  apply (button_next loaded MouseEnter); [apply button_start|by apply step_enter].
Qed.

Lemma hover_plays_from_start_witness :
  videoCurrentTime (onMouseEnter hovered_twice) = 0 /\
  videoPaused (onMouseEnter hovered_twice) = false.
Proof.
  apply hover_plays_from_start; [apply hovered_twice_reachable|reflexivity].
Defined.

(** A click on the loaded page and the timer firing 500 ms later. *)
Definition navigated : Page := onTimeout (elapse FADE_MS (onClick loaded)).

Lemma navigated_reachable : button_reachable navigated.
Proof. by apply (click_path loaded); [apply button_start|..]. Qed.

Lemma navigation_after_fade_witness :
  href navigated = GAME_URL /\ FADE_MS <= clock navigated /\
  bodyOpacity navigated = "0" /\
  bodyTransition navigated = "opacity 0.5s ease-out".
Proof.
  apply navigation_after_fade; [apply navigated_reachable|discriminate].
Defined.

Lemma click_then_navigate_witness :
  button_reachable (onTimeout (elapse FADE_MS (onClick hovered_twice))) /\
  href (onTimeout (elapse FADE_MS (onClick hovered_twice))) = GAME_URL.
Proof.
  apply click_then_navigate; [apply hovered_twice_reachable|reflexivity..].
Defined.
